(** * perf-monitor: the CPUProfile generator and the monitor's profile pipeline

    A shallow embedding of [src/core/cpuprofile-generator.ts] (class
    [CPUProfileGenerator]) and of [PerformanceMonitor.generateProfile] and
    [generateSpeedscopeProfile] from [src/core/performance-monitor.ts], with
    the properties of the profile builder, the merger and the Speedscope
    exporter; and of what feeds them: the marker registry
    ([function-marker.ts]), the manual instrumentation
    ([main-thread-instrumentation.ts], [worker-profiler.ts]) and its
    decorators ([instrument-decorator.ts]).

    Modelling conventions.
    - A JavaScript [number] is a [Z]: timestamps, time deltas, node ids and
      counters are taken to be integers (doubles agree with [Z] on integers of
      magnitude below 2^53; NaN, infinities and fractions are outside the model).
    - [undefined] / an absent optional field is [None].
    - [x || d] and [x ?? d] are written out case by case where they occur.
    - A thrown exception is the [Throw] case of [result].
    - The fields of [this] form the record [Generator]; methods pass it
      explicitly.  Arrays that a caller shares with the generator live in a
      [heap] of array objects addressed by location. *)

From Stdlib Require Import ZArith List Sorting.Sorted Sorting.Permutation.
From stdpp Require Import gmap strings list sorting pretty.

Open Scope string_scope.
Open Scope list_scope.
Open Scope Z_scope.

(** ** JavaScript base layer *)

Module JS.

Inductive JsError :=
| Error (message : string)
| TypeError (message : string).

Inductive result (A : Type) :=
| Ok (a : A)
| Throw (e : JsError).
Arguments Ok {A} a.
Arguments Throw {A} e.

Definition bind {A B} (r : result A) (k : A -> result B) : result B :=
  match r with
  | Ok a => k a
  | Throw e => Throw e
  end.

(** [arr[i]] for a numeric index: [undefined] out of range. *)
Definition index {A} (arr : list A) (i : Z) : option A :=
  if i <? 0 then None else arr !! Z.to_nat i.

(** [x || 0] for [x] a number or [undefined]. *)
Definition orZero (x : option Z) : Z :=
  match x with
  | Some v => v
  | None => 0
  end.

(** [s || d] for a string-or-undefined: the empty string is falsy. *)
Definition orString (s : option string) (d : string) : string :=
  match s with
  | Some v => if String.eqb v "" then d else v
  | None => d
  end.

(** Template-literal rendering of a number. *)
Definition numToString (n : Z) : string := pretty n.

(** [Math.min(x, ...xs)] and [Math.max(x, ...xs)] on a non-empty argument list. *)
Definition Math_min (x : Z) (xs : list Z) : Z := fold_left Z.min xs x.
Definition Math_max (x : Z) (xs : list Z) : Z := fold_left Z.max xs x.

(** [Array.prototype.sort(cmp)].  ECMAScript requires the sort to be stable;
    for a consistent comparator its result is the unique stable ordering,
    which this insertion sort computes: [a] is placed before [b] when
    [cmp a b <= 0] and [a] came first. *)
Section Sort.
Context {A : Type} (cmp : A -> A -> Z).

Fixpoint insert (x : A) (l : list A) : list A :=
  match l with
  | [] => [x]
  | y :: l' => if cmp x y <=? 0 then x :: y :: l' else y :: insert x l'
  end.

Fixpoint sort (l : list A) : list A :=
  match l with
  | [] => []
  | x :: l' => insert x (sort l')
  end.
End Sort.

End JS.
Import JS.

(** ** Data types ([src/types/index.ts]) *)

Inductive MarkerCategory := network | render | compute | custom.

Module FunctionMarker.
Record t := mk {
  functionName : string;
  category : MarkerCategory;
  description : option string;
  color : option string;
}.
End FunctionMarker.

Module CallFrame.
Record t := mk {
  functionName : string;
  scriptId : string;
  url : string;
  lineNumber : Z;
  columnNumber : Z;
}.
End CallFrame.

Module ProfileNode.
Record t := mk {
  id : Z;
  callFrame : CallFrame.t;
  hitCount : option Z;
  children : option (list Z);
  deoptReason : option string;
  marker : option FunctionMarker.t;
}.

(** [{ ...node, id: newId }] *)
Definition withId (node : t) (newId : Z) : t :=
  mk newId (callFrame node) (hitCount node) (children node)
     (deoptReason node) (marker node).

(** [node.hitCount = h] *)
Definition withHitCount (node : t) (h : Z) : t :=
  mk (id node) (callFrame node) (Some h) (children node)
     (deoptReason node) (marker node).
End ProfileNode.

Module CPUProfile.
Record t := mk {
  nodes : list ProfileNode.t;
  samples : list Z;
  timeDeltas : list Z;
  startTime : Z;
  endTime : Z;
}.
End CPUProfile.

Module WorkerPerformanceData.
Record t := mk {
  workerId : string;
  functionName : string;
  startTime : Z;
  endTime : Z;
  duration : Z;
  memoryBefore : option Z;
  memoryAfter : option Z;
  callStack : option (list string);
  marker : option FunctionMarker.t;
}.
End WorkerPerformanceData.

(** The Self-Profiling trace ([ProfilerTrace]; its arrays are [any[]] in the
    source, here with the fields the generator reads). *)
Module Trace.
Record Frame := mkFrame {
  name : option string;
  resourceId : option Z;
  line : option Z;
  column : option Z;
}.
Record Stack := mkStack {
  frameId : option Z;
  parentId : option Z;
}.
Record Sample := mkSample {
  timestamp : Z;
  stackId : option Z;
}.
Record t := mk {
  frames : option (list Frame);
  stacks : option (list Stack);
  samples : option (list Sample);
}.
End Trace.

(** ** [CPUProfileGenerator.mergeProfiles] *)

Module Merge.

(** The locals of [mergeProfiles] that the loops update. *)
Record State := mkState {
  merged : CPUProfile.t;
  nodeIdOffset : Z;
  cumulativeTime : Z;
}.

Definition pushNode (m : CPUProfile.t) (n : ProfileNode.t) : CPUProfile.t :=
  CPUProfile.mk (CPUProfile.nodes m ++ [n]) (CPUProfile.samples m)
    (CPUProfile.timeDeltas m) (CPUProfile.startTime m) (CPUProfile.endTime m).

Definition pushSample (m : CPUProfile.t) (s d : Z) : CPUProfile.t :=
  CPUProfile.mk (CPUProfile.nodes m) (CPUProfile.samples m ++ [s])
    (CPUProfile.timeDeltas m ++ [d]) (CPUProfile.startTime m) (CPUProfile.endTime m).

(** [for (const node of profile.nodes) { ... }]: fills [nodeMapping] and
    appends the re-identified nodes. *)
Definition nodeStep (offset : Z) (acc : gmap Z Z * CPUProfile.t) (node : ProfileNode.t)
  : gmap Z Z * CPUProfile.t :=
  let newId := offset + ProfileNode.id node in
  (<[ProfileNode.id node := newId]> (fst acc),
   pushNode (snd acc) (ProfileNode.withId node newId)).

(** [nodeMapping.get(originalNodeId) || originalNodeId] *)
Definition mapNodeId (nodeMapping : gmap Z Z) (originalNodeId : Z) : Z :=
  match nodeMapping !! originalNodeId with
  | Some v => if v =? 0 then originalNodeId else v
  | None => originalNodeId
  end.

(** The body of [for (let i = 0; i < profile.samples.length; i++)]. *)
Definition sampleStep (profile : CPUProfile.t) (nodeMapping : gmap Z Z)
    (timeOffset : Z) (st : State) (i : nat) : State :=
  match CPUProfile.samples profile !! i with
  | None => st
  | Some originalNodeId =>
      let mappedNodeId := mapNodeId nodeMapping originalNodeId in
      let originalDelta := orZero (CPUProfile.timeDeltas profile !! i) in
      let adjustedDelta := timeOffset + originalDelta in
      let cumulativeTime' :=
        if adjustedDelta >? cumulativeTime st then adjustedDelta
        else cumulativeTime st + 1 in
      mkState (pushSample (merged st) mappedNodeId cumulativeTime')
              (nodeIdOffset st) cumulativeTime'
  end.

(** The body of [for (const profile of sortedProfiles)]. *)
Definition profileStep (st : State) (profile : CPUProfile.t) : State :=
  let timeOffset :=
    (CPUProfile.startTime profile - CPUProfile.startTime (merged st)) * 1000 in
  let '(nodeMapping, m1) :=
    fold_left (nodeStep (nodeIdOffset st)) (CPUProfile.nodes profile) (∅, merged st) in
  let st1 := mkState m1 (nodeIdOffset st) (cumulativeTime st) in
  let st2 :=
    fold_left (sampleStep profile nodeMapping timeOffset)
              (seq 0 (length (CPUProfile.samples profile))) st1 in
  mkState (merged st2)
          (nodeIdOffset st2 + Z.of_nat (length (CPUProfile.nodes profile)))
          (cumulativeTime st2).

Definition byStartTime (a b : CPUProfile.t) : Z :=
  CPUProfile.startTime a - CPUProfile.startTime b.

Definition mergeProfiles (profiles : list CPUProfile.t) : result CPUProfile.t :=
  match profiles with
  | [] => Throw (Error "Cannot merge empty profiles")
  | p :: ps =>
      let merged0 :=
        CPUProfile.mk [] [] []
          (Math_min (CPUProfile.startTime p) (map CPUProfile.startTime ps))
          (Math_max (CPUProfile.endTime p) (map CPUProfile.endTime ps)) in
      let sortedProfiles := JS.sort byStartTime profiles in
      let st := fold_left profileStep sortedProfiles (mkState merged0 0 0) in
      Ok (merged st)
  end.

End Merge.

(** ** The generator's private state and helpers *)

(** The process-wide marker registry of [function-marker.ts]
    ([markedFunctions]); the generator only reads it. *)
Abbreviation MarkerRegistry := (gmap string FunctionMarker.t).

Definition getFunctionMarker (markedFunctions : MarkerRegistry) (name : string)
  : option FunctionMarker.t :=
  markedFunctions !! name.

(** Array objects holding telemetry records, addressed by location: the
    caller of the builder and the builder see the same object. *)
Abbreviation loc := positive.
Abbreviation heap := (gmap positive (list WorkerPerformanceData.t)).

Definition alloc (σ : heap) (arr : list WorkerPerformanceData.t) : loc * heap :=
  let l := fresh (dom σ) in (l, <[l := arr]> σ).

Module Generator.

(** The fields of a [CPUProfileGenerator] instance. *)
Record t := mk {
  nodes : list ProfileNode.t;
  samples : list Z;
  timeDeltas : list Z;
  nodeMap : gmap string Z;   (* a plain object used as a map; every key the
                                generator forms contains "::", so none meets
                                an inherited property of the object *)
  nodeIdCounter : Z;
  scriptIdCounter : Z;
  scriptMap : gmap string string;
  startTime : Z;
}.

(** [new CPUProfileGenerator()] *)
Definition new : t := mk [] [] [] ∅ 0 0 ∅ 0.

Definition reset (this : t) : t := mk [] [] [] ∅ 0 0 ∅ (startTime this).

Definition setStartTime (this : t) (s : Z) : t :=
  mk (nodes this) (samples this) (timeDeltas this) (nodeMap this)
     (nodeIdCounter this) (scriptIdCounter this) (scriptMap this) s.

Definition setTimeDeltas (this : t) (tds : list Z) : t :=
  mk (nodes this) (samples this) tds (nodeMap this)
     (nodeIdCounter this) (scriptIdCounter this) (scriptMap this) (startTime this).

Definition setNodes (this : t) (ns : list ProfileNode.t) : t :=
  mk ns (samples this) (timeDeltas this) (nodeMap this)
     (nodeIdCounter this) (scriptIdCounter this) (scriptMap this) (startTime this).

(** [this.samples.push(nodeId); this.timeDeltas.push(cumulativeTime)] *)
Definition pushSample (this : t) (nodeId cumulativeTime : Z) : t :=
  mk (nodes this) (samples this ++ [nodeId]) (timeDeltas this ++ [cumulativeTime])
     (nodeMap this) (nodeIdCounter this) (scriptIdCounter this) (scriptMap this)
     (startTime this).

(** [this.nodes.push(node); this.nodeMap[nodeKey] = nodeId] *)
Definition registerNode (this : t) (nodeKey : string) (node : ProfileNode.t) : t :=
  mk (nodes this ++ [node]) (samples this) (timeDeltas this)
     (<[nodeKey := ProfileNode.id node]> (nodeMap this))
     (nodeIdCounter this) (scriptIdCounter this) (scriptMap this) (startTime this).

(** [this.nodeIdCounter++]: the old value and the updated instance. *)
Definition nextNodeId (this : t) : Z * t :=
  (nodeIdCounter this,
   mk (nodes this) (samples this) (timeDeltas this) (nodeMap this)
      (nodeIdCounter this + 1) (scriptIdCounter this) (scriptMap this) (startTime this)).

Definition getScriptId (this : t) (url : string) : string * t :=
  match scriptMap this !! url with
  | Some scriptId => (scriptId, this)
  | None =>
      let scriptId := "script-" +:+ numToString (scriptIdCounter this) in
      (scriptId,
       mk (nodes this) (samples this) (timeDeltas this) (nodeMap this)
          (nodeIdCounter this) (scriptIdCounter this + 1)
          (<[url := scriptId]> (scriptMap this)) (startTime this))
  end.

Definition getEmptyProfile (startTime endTime : Z) : CPUProfile.t :=
  CPUProfile.mk [] [] [] startTime endTime.

(** The profile object literal returned by the [generateFrom*] methods. *)
Definition toProfile (this : t) (startTime endTime : Z) : CPUProfile.t :=
  CPUProfile.mk (nodes this) (samples this) (timeDeltas this) startTime endTime.

(** *** [getOrCreateNode] *)

Definition traceNodeUrl (frame : Trace.Frame) (threadName : string) : string :=
  let baseUrl :=
    match Trace.resourceId frame with
    | Some r => "script-" +:+ numToString r
    | None => ""
    end in
  if String.eqb threadName "Main Thread"
  then "main-thread://" +:+ orString (Some baseUrl) "inline"
  else threadName +:+ "://" +:+ orString (Some baseUrl) "inline".

Definition traceNodeKey (frame : Trace.Frame) (threadName : string) : string :=
  let functionName := orString (Trace.name frame) "(anonymous)" in
  threadName +:+ "::" +:+ functionName +:+ "::" +:+ traceNodeUrl frame threadName
    +:+ "::" +:+ numToString (default 0 (Trace.line frame))
    +:+ "::" +:+ numToString (default 0 (Trace.column frame)).

Definition getOrCreateNode (markedFunctions : MarkerRegistry) (this : t)
    (frame : Trace.Frame) (threadName : string) : Z * t :=
  let functionName := orString (Trace.name frame) "(anonymous)" in
  let url := traceNodeUrl frame threadName in
  let nodeKey := traceNodeKey frame threadName in
  match nodeMap this !! nodeKey with
  | Some nodeId => (nodeId, this)
  | None =>
      let '(nodeId, this1) := nextNodeId this in
      let '(scriptId, this2) := getScriptId this1 url in
      let marker := getFunctionMarker markedFunctions functionName in
      let node :=
        ProfileNode.mk nodeId
          (CallFrame.mk
             (if String.eqb threadName "Main Thread" then functionName
              else "[" +:+ threadName +:+ "] " +:+ functionName)
             scriptId url
             (default 0 (Trace.line frame)) (default 0 (Trace.column frame)))
          (Some 1) None None marker in
      (nodeId, registerNode this2 nodeKey node)
  end.

(** *** [addWorkerPerformanceData] *)

Definition workerNodeKey (workerId functionName : string) : string :=
  let threadName := "Worker-" +:+ workerId in
  let url := threadName +:+ "://" +:+ functionName in
  threadName +:+ "::" +:+ functionName +:+ "::" +:+ url +:+ "::0::0".

(** [const node = this.nodes.find(n => n.id === nodeId);
     if (node) node.hitCount = (node.hitCount || 0) + 1] *)
Fixpoint incrementHitCount (nodeId : Z) (ns : list ProfileNode.t) : list ProfileNode.t :=
  match ns with
  | [] => []
  | n :: rest =>
      if ProfileNode.id n =? nodeId
      then ProfileNode.withHitCount n (orZero (ProfileNode.hitCount n) + 1) :: rest
      else n :: incrementHitCount nodeId rest
  end.

Definition addWorkerPerformanceData (this : t) (data : WorkerPerformanceData.t)
    (workerId : string) : t :=
  let threadName := "Worker-" +:+ workerId in
  let functionName := WorkerPerformanceData.functionName data in
  let url := threadName +:+ "://" +:+ functionName in
  let nodeKey := workerNodeKey workerId functionName in
  let '(nodeId, this') :=
    match nodeMap this !! nodeKey with
    | Some nodeId => (nodeId, setNodes this (incrementHitCount nodeId (nodes this)))
    | None =>
        let '(nodeId, this1) := nextNodeId this in
        let '(scriptId, this2) := getScriptId this1 url in
        let node :=
          ProfileNode.mk nodeId
            (CallFrame.mk ("[" +:+ threadName +:+ "] " +:+ functionName) scriptId url 0 0)
            (Some 1) None None (WorkerPerformanceData.marker data) in
        (nodeId, registerNode this2 nodeKey node)
    end in
  let cumulativeTime := (WorkerPerformanceData.startTime data - startTime this') * 1000 in
  pushSample this' nodeId cumulativeTime.

(** *** [normalizeTimeDeltas] *)

(** One iteration of the [for] loop: the array and [lastTime]. *)
Definition normalizeStep (acc : list Z * Z) (i : nat) : list Z * Z :=
  let '(tds, lastTime) := acc in
  match tds !! i with
  | None => acc
  | Some d =>
      let tds' := if d <? lastTime then <[i := lastTime + 1]> tds else tds in
      (tds', orZero (tds' !! i))
  end.

Definition normalizeArray (tds : list Z) : list Z :=
  match tds with
  | [] => tds
  | _ => fst (fold_left normalizeStep (seq 0 (length tds)) (tds, 0))
  end.

Definition normalizeTimeDeltas (this : t) : t :=
  setTimeDeltas this (normalizeArray (timeDeltas this)).

(** *** [processTrace] and [generateFromTrace] *)

(** The body of the sampling loop of [processTrace]. *)
Definition traceSampleStep (markedFunctions : MarkerRegistry)
    (stacks : list Trace.Stack) (frames : list Trace.Frame)
    (startTime : Z) (threadName : string)
    (this : t) (sample : Trace.Sample) : result t :=
  let stack :=
    match Trace.stackId sample with
    | Some sid => index stacks sid
    | None => None
    end in
  match stack with
  | Some stack =>
      match Trace.frameId stack with
      | Some fid =>
          match index frames fid with
          | Some frame =>
              let '(nodeId, this1) := getOrCreateNode markedFunctions this frame threadName in
              let currentTime := Trace.timestamp sample in
              let cumulativeTime := (currentTime - startTime) * 1000 in
              Ok (pushSample this1 nodeId cumulativeTime)
          | None =>
              Throw (TypeError "Cannot read properties of undefined (reading 'name')")
          end
      | None => Ok this
      end
  | None => Ok this
  end.

Fixpoint forEachM {S A} (body : S -> A -> result S) (l : list A) (s : S) : result S :=
  match l with
  | [] => Ok s
  | a :: l' => JS.bind (body s a) (forEachM body l')
  end.

Definition processTrace (markedFunctions : MarkerRegistry) (this : t)
    (trace : Trace.t) (startTime : Z) (threadName : string) : result t :=
  let samples := default [] (Trace.samples trace) in
  let stacks := default [] (Trace.stacks trace) in
  let frames := default [] (Trace.frames trace) in
  let this1 :=
    fold_left (fun g frame => snd (getOrCreateNode markedFunctions g frame threadName))
              frames this in
  forEachM (traceSampleStep markedFunctions stacks frames startTime threadName)
           samples this1.

Definition generateFromTrace (markedFunctions : MarkerRegistry) (this : t)
    (trace : option Trace.t) (startTime endTime : Z) (threadName : string)
  : result (CPUProfile.t * t) :=
  let this0 := setStartTime (reset this) startTime in
  match trace with
  | None => Ok (getEmptyProfile startTime endTime, this0)
  | Some tr =>
      match Trace.samples tr, Trace.stacks tr with
      | Some _, Some _ =>
          JS.bind (processTrace markedFunctions this0 tr startTime threadName)
            (fun this1 => Ok (toProfile this1 startTime endTime, this1))
      | _, _ => Ok (getEmptyProfile startTime endTime, this0)
      end
  end.

(** *** [generateFromSingleWorkerData] *)

Definition byStartTime (a b : WorkerPerformanceData.t) : Z :=
  WorkerPerformanceData.startTime a - WorkerPerformanceData.startTime b.

(** [workerData] is a reference: [workerData.sort(...)] reorders the
    caller's array object, and [sortedData] is that same object. *)
Definition generateFromSingleWorkerData (this : t) (σ : heap) (workerData : loc)
    (startTime endTime : Z) (workerId : string) : CPUProfile.t * t * heap :=
  let this0 := setStartTime (reset this) startTime in
  let sortedData := JS.sort byStartTime (σ !!! workerData) in
  let σ' := <[workerData := sortedData]> σ in
  let this1 :=
    fold_left (fun g data => addWorkerPerformanceData g data workerId) sortedData this0 in
  let this2 := normalizeTimeDeltas this1 in
  (toProfile this2 startTime endTime, this2, σ').

End Generator.

(** ** [CPUProfileGenerator.generateFromWorkerData] *)

Module WorkerGroups.

(** [Map<string, WorkerPerformanceData[]>] in insertion order. *)
Abbreviation t := (list (string * list WorkerPerformanceData.t)).

(** [if (!groups.has(workerId)) groups.set(workerId, []);
     groups.get(workerId).push(data)] *)
Fixpoint push (workerId : string) (data : WorkerPerformanceData.t) (groups : t) : t :=
  match groups with
  | [] => [(workerId, [data])]
  | (k, arr) :: rest =>
      if String.eqb k workerId then (k, arr ++ [data]) :: rest
      else (k, arr) :: push workerId data rest
  end.

Definition group (workerData : list WorkerPerformanceData.t) : t :=
  fold_left
    (fun groups data =>
       push (orString (Some (WorkerPerformanceData.workerId data)) "unknown") data groups)
    workerData [].

End WorkerGroups.

(** The body of [for (const [workerId, data] of workerGroups.entries())].  A
    group array is an object of its own: it enters the heap when it is passed
    to the builder. *)
Definition generateStep (startTime endTime : Z)
    (acc : list CPUProfile.t * Generator.t * heap)
    (entry : string * list WorkerPerformanceData.t)
  : list CPUProfile.t * Generator.t * heap :=
  let '(profiles, this, σ) := acc in
  let '(workerId, data) := entry in
  let '(l, σ1) := alloc σ data in
  let '(profile, this', σ2) :=
    Generator.generateFromSingleWorkerData this σ1 l startTime endTime workerId in
  (profiles ++ [profile], this', σ2).

Definition generateFromWorkerData (this : Generator.t) (σ : heap)
    (workerData : list WorkerPerformanceData.t) (startTime endTime : Z)
  : result (CPUProfile.t * Generator.t * heap) :=
  let workerGroups := WorkerGroups.group workerData in
  match workerGroups with
  | [(workerId, data)] =>
      let '(l, σ1) := alloc σ data in
      Ok (Generator.generateFromSingleWorkerData this σ1 l startTime endTime workerId)
  | _ =>
      let '(profiles, this', σ') :=
        fold_left (generateStep startTime endTime) workerGroups ([], this, σ) in
      match profiles with
      | [] => Ok (Generator.getEmptyProfile startTime endTime, this', σ')
      | [p] => Ok (p, this', σ')
      | _ => JS.bind (Merge.mergeProfiles profiles) (fun m => Ok (m, this', σ'))
      end
  end.

(** ** [MainThreadProfiler.stop] and [PerformanceMonitor.generateProfile] *)

Module MainThreadProfiler.

(** The browser's [Profiler] object is external: it is represented by what
    its [stop()] promise settles to. *)
Record Native := mkNative { nativeStop : result (option Trace.t) }.

Record t := mk {
  profiler : option Native;
  isRunning : bool;
}.

Definition stop (this : t) : option Trace.t * t :=
  match profiler this with
  | Some native =>
      if isRunning this then
        match nativeStop native with
        | Ok trace => (trace, mk None false)
        | Throw _ => (None, mk None false)
        end
      else (None, this)
  | None => (None, this)
  end.

End MainThreadProfiler.

Module PerformanceMonitor.

Record t := mk {
  profiler : MainThreadProfiler.t;
  generator : Generator.t;
  startTime : Z;
  workerPerformanceData : list WorkerPerformanceData.t;
  mainThreadInstrumentationData : list WorkerPerformanceData.t;
}.

Definition addWorkerPerformanceData (this : t) (data : WorkerPerformanceData.t) : t :=
  mk (profiler this) (generator this) (startTime this)
     (workerPerformanceData this ++ [data]) (mainThreadInstrumentationData this).

(** [generateProfile]; [now] is the value of [performance.now()].  The
    result is the resolved value ([None] for [null]) or the rejection. *)
Definition generateProfile (markedFunctions : MarkerRegistry) (this : t) (σ : heap)
    (now : Z) : result (option CPUProfile.t) :=
  let endTime := now in
  let '(trace, _) := MainThreadProfiler.stop (profiler this) in
  JS.bind
    (match trace with
     | Some tr =>
         JS.bind
           (Generator.generateFromTrace markedFunctions (generator this) (Some tr)
              (startTime this) endTime "Main Thread")
           (fun '(mainProfile, g) => Ok ([mainProfile], g))
     | None => Ok ([], generator this)
     end)
    (fun '(profiles, g) =>
       JS.bind
         (match workerPerformanceData this with
          | [] => Ok profiles
          | _ =>
              JS.bind
                (generateFromWorkerData g σ (workerPerformanceData this)
                   (startTime this) endTime)
                (fun '(workerProfile, _, _) =>
                   if (0 <? Z.of_nat (length (CPUProfile.nodes workerProfile)))
                      || (0 <? Z.of_nat (length (CPUProfile.samples workerProfile)))
                   then Ok (profiles ++ [workerProfile])
                   else Ok profiles)
          end)
         (fun profiles =>
            match profiles with
            | [] => Ok None
            | [p] => Ok (Some p)
            | _ => JS.bind (Merge.mergeProfiles profiles) (fun m => Ok (Some m))
            end)).

End PerformanceMonitor.

(** ** [generateSpeedscopeFormat]: time base and the evented path

    The exporter's time base (lines computing [actualStartTime]) and, for one
    worker whose raw records are available, the branch
    [if (workerGroups && workerGroups.has(workerId))] that turns the records
    into open/close events.  [threadMap], [frames] and [frameMap] are the
    values the enclosing code has built when the branch is entered. *)

Module Speedscope.

Record Frame := mkFrame {
  name : string;
  file : string;
  line : Z;
  col : Z;
}.

Inductive EventType := O | C.

(** An event [{ at, frame, type }] ([at] is reserved in Rocq: [at_]). *)
Record Event := mkEvent {
  at_ : Z;
  frame : Z;
  type : EventType;
}.

(** [minStartTime], with [None] for the initial [Infinity]. *)
Definition minStartTime (workerGroups : WorkerGroups.t) : option Z :=
  fold_left
    (fun acc dataArray =>
       fold_left
         (fun m data =>
            match m with
            | None => Some (WorkerPerformanceData.startTime data)
            | Some v =>
                if WorkerPerformanceData.startTime data <? v
                then Some (WorkerPerformanceData.startTime data) else m
            end)
         dataArray acc)
    (map snd workerGroups) None.

Definition actualStartTime (workerGroups : option WorkerGroups.t) (baseStartTime : Z) : Z :=
  match workerGroups with
  | Some (g :: gs) =>
      match minStartTime (g :: gs) with
      | Some m => if m <? baseStartTime then m else baseStartTime
      | None => baseStartTime
      end
  | _ => baseStartTime
  end.

Definition nodeFrameKey (node : ProfileNode.t) : string :=
  let cf := ProfileNode.callFrame node in
  CallFrame.functionName cf +:+ "::" +:+ CallFrame.url cf +:+ "::"
    +:+ numToString (CallFrame.lineNumber cf) +:+ "::"
    +:+ numToString (CallFrame.columnNumber cf).

(** [name.startsWith(prefix) ? name.substring(prefix.length) : name] *)
Definition stripPrefix (threadPrefix name : string) : string :=
  if String.prefix threadPrefix name
  then String.substring (String.length threadPrefix)
         (String.length name - String.length threadPrefix) name
  else name.

(** [if (!map.has(k)) map.set(k, v)] *)
Definition setIfAbsent (k : string) (v : Z) (m : gmap string Z) : gmap string Z :=
  match m !! k with
  | Some _ => m
  | None => <[k := v]> m
  end.

(** The two loops over [profile.nodes] that fill [functionNameToFrameId]. *)
Definition namesFromThreadMap (threadPrefix : string) (threadMap : gmap Z Z)
    (nodes : list ProfileNode.t) : gmap string Z :=
  fold_left
    (fun m node =>
       match threadMap !! ProfileNode.id node with
       | Some frameIdx =>
           setIfAbsent
             (stripPrefix threadPrefix (CallFrame.functionName (ProfileNode.callFrame node)))
             frameIdx m
       | None => m
       end)
    nodes ∅.

Definition namesFromFrameMap (threadPrefix : string) (frameMap : gmap string Z)
    (nodes : list ProfileNode.t) : gmap string Z :=
  fold_left
    (fun m node =>
       match frameMap !! nodeFrameKey node with
       | Some frameIdx =>
           setIfAbsent
             (stripPrefix threadPrefix (CallFrame.functionName (ProfileNode.callFrame node)))
             frameIdx m
       | None => m
       end)
    nodes ∅.

(** The search through [profile.samples] for a node named like the record:
    the loop leaves [frameId] defined exactly when it reaches its [break]. *)
Fixpoint findViaSamples (threadPrefix : string) (threadMap : gmap Z Z)
    (nodes : list ProfileNode.t) (functionName : string) (samples : list Z) : option Z :=
  match samples with
  | [] => None
  | nodeId :: rest =>
      match List.find (fun n => ProfileNode.id n =? nodeId) nodes with
      | Some node =>
          if String.eqb
               (stripPrefix threadPrefix
                  (CallFrame.functionName (ProfileNode.callFrame node)))
               functionName
          then
            match threadMap !! nodeId with
            | Some frameId => Some frameId
            | None => findViaSamples threadPrefix threadMap nodes functionName rest
            end
          else findViaSamples threadPrefix threadMap nodes functionName rest
      | None => findViaSamples threadPrefix threadMap nodes functionName rest
      end
  end.

(** What the record loop updates. *)
Record State := mkState {
  frames : list Frame;
  frameMap : gmap string Z;
  functionNameToFrameId : gmap string Z;
  eventList : list Event;
}.

Definition startAt (actualStartTime : Z) (data : WorkerPerformanceData.t) : Z :=
  (WorkerPerformanceData.startTime data - actualStartTime) * 1000.
Definition endAt (actualStartTime : Z) (data : WorkerPerformanceData.t) : Z :=
  (WorkerPerformanceData.endTime data - actualStartTime) * 1000.

(** The body of [for (const data of workerData)]. *)
Definition recordStep (profile : CPUProfile.t) (threadMap : gmap Z Z)
    (workerId threadPrefix : string) (actualStartTime : Z)
    (st : State) (data : WorkerPerformanceData.t) : State :=
  let functionName := WorkerPerformanceData.functionName data in
  let '(frameId, names1) :=
    match functionNameToFrameId st !! functionName with
    | Some f => (Some f, functionNameToFrameId st)
    | None =>
        match findViaSamples threadPrefix threadMap (CPUProfile.nodes profile)
                functionName (CPUProfile.samples profile) with
        | Some f => (Some f, <[functionName := f]> (functionNameToFrameId st))
        | None => (None, functionNameToFrameId st)
        end
    end in
  match frameId with
  | Some frameId =>
      let startAt := startAt actualStartTime data in
      let endAt := endAt actualStartTime data in
      if (0 <=? startAt) && (startAt <=? endAt)
      then mkState (frames st) (frameMap st) names1
             (eventList st ++ [mkEvent startAt frameId O; mkEvent endAt frameId C])
      else mkState (frames st) (frameMap st) names1 (eventList st)
  | None =>
      let newFrameId := Z.of_nat (length (frames st)) in
      let newFrame :=
        mkFrame functionName ("worker-" +:+ workerId +:+ "://" +:+ functionName) 0 0 in
      let frames' := frames st ++ [newFrame] in
      let newKey :=
        functionName +:+ "::worker-" +:+ workerId +:+ "://" +:+ functionName +:+ "::0::0" in
      let frameMap' := <[newKey := newFrameId]> (frameMap st) in
      let names2 := <[functionName := newFrameId]> names1 in
      let frameId := newFrameId in
      let startAt := startAt actualStartTime data in
      let endAt := endAt actualStartTime data in
      if (0 <=? startAt) && (startAt <=? endAt)
      then mkState frames' frameMap' names2
             (eventList st ++ [mkEvent startAt frameId O; mkEvent endAt frameId C])
      else mkState frames' frameMap' names2 (eventList st)
  end.

Definition byAt (a b : Event) : Z := at_ a - at_ b.

(** The evented branch for one worker: the emitted [events] and the frame
    table after it. *)
Definition eventedEvents (profile : CPUProfile.t) (threadMap : gmap Z Z)
    (workerId threadName : string) (frames0 : list Frame) (frameMap0 : gmap string Z)
    (actualStartTime : Z) (workerData : list WorkerPerformanceData.t)
  : list Event * list Frame * gmap string Z :=
  let threadPrefix := "[" +:+ threadName +:+ "] " in
  let names0 := namesFromThreadMap threadPrefix threadMap (CPUProfile.nodes profile) in
  let names1 :=
    if decide (names0 = ∅)
    then namesFromFrameMap threadPrefix frameMap0 (CPUProfile.nodes profile)
    else names0 in
  let st :=
    fold_left (recordStep profile threadMap workerId threadPrefix actualStartTime)
              workerData (mkState frames0 frameMap0 names1 []) in
  (JS.sort byAt (eventList st), frames st, frameMap st).

End Speedscope.

(** ** The marker registry ([function-marker.ts])

    The module-level [markedFunctions] map is passed explicitly; the functions
    that change it return the new map.  [getAllMarkedFunctions], which copies
    the map in its insertion order, is not part of the model. *)

Module FunctionMarkers.

(** The [options] argument of [markFunction]: a marker without its function
    name.  An absent [category] is allowed, as the code provides for it. *)
Record Options := mkOptions {
  category : option MarkerCategory;
  description : option string;
  color : option string;
}.

Definition getDefaultColor (category : MarkerCategory) : string :=
  match category with
  | network => "#ff6b6b"
  | render => "#4ecdc4"
  | compute => "#ffe66d"
  | custom => "#95e1d3"
  end.

Definition markFunction (markedFunctions : MarkerRegistry) (name : string)
    (options : Options) : MarkerRegistry :=
  <[name :=
      FunctionMarker.mk name
        (default custom (category options))
        (description options)
        (Some (orString (color options)
                 (getDefaultColor (default custom (category options)))))]>
    markedFunctions.

Definition isFunctionMarked (markedFunctions : MarkerRegistry) (name : string) : bool :=
  bool_decide (is_Some (markedFunctions !! name)).

Definition clearAllMarkers (markedFunctions : MarkerRegistry) : MarkerRegistry := ∅.

End FunctionMarkers.

(** ** The Speedscope exporter, block by block ([generateSpeedscopeFormat])

    The blocks of the exporter around the evented branch above: the frame
    table, the main-thread track, the frame lookup of a worker's nodes, the
    track built from samples when a worker has no telemetry, and the closing
    fallbacks and validation. *)

(** A [Map<string, number>] whose entries are also iterated: it keeps its
    insertion order, and [set] on a present key keeps the key's place. *)
Module OrderedMap.

Definition t := list (string * Z).

Definition get (m : t) (k : string) : option Z :=
  snd <$> List.find (fun e => String.eqb (fst e) k) m.

Definition has (m : t) (k : string) : bool :=
  match get m k with
  | Some _ => true
  | None => false
  end.

Fixpoint set (m : t) (k : string) (v : Z) : t :=
  match m with
  | [] => [(k, v)]
  | (k', v') :: m' => if String.eqb k' k then (k, v) :: m' else (k', v') :: set m' k v
  end.

End OrderedMap.

Module SpeedscopeFormat.

(** The frame pushed for a node. *)
Definition frameOf (node : ProfileNode.t) : Speedscope.Frame :=
  let cf := ProfileNode.callFrame node in
  Speedscope.mkFrame (CallFrame.functionName cf)
    (orString (Some (CallFrame.url cf)) "(unknown)")
    (CallFrame.lineNumber cf) (CallFrame.columnNumber cf).

(** [frameMap], [frames] and the counter [frameId]. *)
Record Frames := mkFrames {
  frameMap : OrderedMap.t;
  frames : list Speedscope.Frame;
  frameId : Z;
}.

(** The body of both frame-collecting loops. *)
Definition collectNode (st : Frames) (node : ProfileNode.t) : Frames :=
  let key := Speedscope.nodeFrameKey node in
  if OrderedMap.has (frameMap st) key then st
  else mkFrames (OrderedMap.set (frameMap st) key (frameId st))
         (frames st ++ [frameOf node]) (frameId st + 1).

(** [workerProfiles] is a [Map]: its entries in insertion order. *)
Definition collectFrames (mainThreadProfile : option CPUProfile.t)
    (workerProfiles : list (string * CPUProfile.t)) : Frames :=
  let st0 := mkFrames [] [] 0 in
  let st1 :=
    match mainThreadProfile with
    | Some p => fold_left collectNode (CPUProfile.nodes p) st0
    | None => st0
    end in
  fold_left (fun st wp => fold_left collectNode (CPUProfile.nodes (snd wp)) st)
    workerProfiles st1.

(** *** The main-thread track *)

Record Sampled := mkSampled {
  s_name : string;
  s_startValue : Z;
  s_endValue : Z;
  s_samples : list Z;
  s_weights : list Z;
}.

(** [threadMap.set(node.id, frameMap.get(key)!)]: storing [undefined] leaves
    [threadMap.get(node.id)] undefined, like an absent entry. *)
Definition mainThreadMapStep (frameMap : OrderedMap.t) (threadMap : gmap Z Z)
    (node : ProfileNode.t) : gmap Z Z :=
  match OrderedMap.get frameMap (Speedscope.nodeFrameKey node) with
  | Some frameIdx => <[ProfileNode.id node := frameIdx]> threadMap
  | None => delete (ProfileNode.id node) threadMap
  end.

Definition mainThreadMap (frameMap : OrderedMap.t) (nodes : list ProfileNode.t)
  : gmap Z Z :=
  fold_left (mainThreadMapStep frameMap) nodes ∅.

Record SampleLoop := mkSampleLoop {
  l_samples : list Z;
  l_weights : list Z;
  lastTime : Z;
}.

(** [for (let i = 0; i < samples.length; i++)], from index [i] on. *)
Fixpoint sampleLoop (threadMap : gmap Z Z) (timeDeltas : list Z) (i : nat)
    (samples : list Z) (st : SampleLoop) : SampleLoop :=
  match samples with
  | [] => st
  | nodeId :: rest =>
      sampleLoop threadMap timeDeltas (S i) rest
        match threadMap !! nodeId with
        | Some frameId =>
            let currentTime := orZero (timeDeltas !! i) in
            let weight := currentTime - lastTime st in
            mkSampleLoop (l_samples st ++ [frameId])
              (l_weights st ++ [Z.max weight 1]) currentTime
        | None => st
        end
  end.

(** [arr.filter((x, i) => x !== undefined && x !== null &&
    other[i] !== undefined && other[i] !== null)] on arrays of numbers: an
    element stays when [other] has the index. *)
Fixpoint filterDefined {A B} (i : nat) (arr : list A) (other : list B) : list A :=
  match arr with
  | [] => []
  | x :: rest =>
      match other !! i with
      | Some _ => x :: filterDefined (S i) rest other
      | None => filterDefined (S i) rest other
      end
  end.

Definition lengthZ {A} (l : list A) : Z := Z.of_nat (length l).

(** [x || d] for a number: zero is falsy. *)
Definition orNumber (x d : Z) : Z := if x =? 0 then d else x.

(** The track pushed for the main thread before the worker loop, if any. *)
Definition mainTrack (mainThreadProfile : option CPUProfile.t)
    (frameMap : OrderedMap.t) (baseStartTime : Z) : option Sampled :=
  match mainThreadProfile with
  | None => None
  | Some p =>
      if 0 <? lengthZ (CPUProfile.samples p) then
        let threadMap := mainThreadMap frameMap (CPUProfile.nodes p) in
        let st :=
          sampleLoop threadMap (CPUProfile.timeDeltas p) 0 (CPUProfile.samples p)
            (mkSampleLoop [] [] 0) in
        let samples := l_samples st in
        let weights := l_weights st in
        if (0 <? lengthZ samples) && (0 <? lengthZ weights)
           && (lengthZ samples =? lengthZ weights)
        then
          let validSamples := filterDefined 0 samples weights in
          let validWeights := filterDefined 0 weights samples in
          if (0 <? lengthZ validSamples) && (0 <? lengthZ validWeights)
             && (lengthZ validSamples =? lengthZ validWeights)
          then
            let lastTime :=
              match last (CPUProfile.timeDeltas p) with
              | Some t => t
              | None => (CPUProfile.endTime p - CPUProfile.startTime p) * 1000
              end in
            Some (mkSampled "Main Thread" 0 (Z.max lastTime 1) validSamples validWeights)
          else None
        else None
      else
        let endTime := orNumber (CPUProfile.endTime p) (baseStartTime + 1000) in
        let startTime := orNumber (CPUProfile.startTime p) baseStartTime in
        Some (mkSampled "Main Thread" 0 (Z.max ((endTime - startTime) * 1000) 1000) [] [])
  end.

(** *** The worker loop *)

(** [s.includes(sub)] *)
Definition includes (s sub : string) : bool :=
  match String.index 0 sub s with
  | Some _ => true
  | None => false
  end.

(** The search through [frameMap.entries()] for a key that contains the
    function name and the url. *)
Definition findByInclusion (frameMap : OrderedMap.t) (node : ProfileNode.t) : option Z :=
  let cf := ProfileNode.callFrame node in
  snd <$> List.find
            (fun e => includes (fst e) (CallFrame.functionName cf)
                      && includes (fst e) (CallFrame.url cf))
            frameMap.

(** The body of the loop that fills a worker's [threadMap]. *)
Definition workerNodeStep (st : Frames * gmap Z Z) (node : ProfileNode.t)
  : Frames * gmap Z Z :=
  let '(fr, threadMap) := st in
  let key := Speedscope.nodeFrameKey node in
  let frameIdx :=
    match OrderedMap.get (frameMap fr) key with
    | Some f => Some f
    | None => findByInclusion (frameMap fr) node
    end in
  match frameIdx with
  | Some frameIdx => (fr, <[ProfileNode.id node := frameIdx]> threadMap)
  | None =>
      let frameIdx := lengthZ (frames fr) in
      (mkFrames (OrderedMap.set (frameMap fr) key frameIdx)
         (frames fr ++ [frameOf node]) (frameId fr),
       <[ProfileNode.id node := frameIdx]> threadMap)
  end.

Definition workerThreadMap (fr : Frames) (profile : CPUProfile.t) : Frames * gmap Z Z :=
  fold_left workerNodeStep (CPUProfile.nodes profile) (fr, ∅).

(** An entry of [sortedEvents]. *)
Record TimedEvent := mkTimedEvent {
  time : Z;
  nodeId : Z;
  te_type : Speedscope.EventType;
}.

Fixpoint samplesToEvents (threadMap : gmap Z Z) (timeDeltas : list Z) (i : nat)
    (samples : list Z) : list TimedEvent :=
  match samples with
  | [] => []
  | nodeId :: rest =>
      match threadMap !! nodeId with
      | Some _ =>
          let time := orZero (timeDeltas !! i) in
          mkTimedEvent time nodeId Speedscope.O
            :: mkTimedEvent (time + 100) nodeId Speedscope.C
            :: samplesToEvents threadMap timeDeltas (S i) rest
      | None => samplesToEvents threadMap timeDeltas (S i) rest
      end
  end.

Definition byTime (a b : TimedEvent) : Z := time a - time b.

(** The body of [for (const event of sortedEvents)]: the event pushed, if any. *)
Definition resolveEvent (threadMap : gmap Z Z) (event : TimedEvent)
  : option Speedscope.Event :=
  match threadMap !! nodeId event with
  | Some frameId => Some (Speedscope.mkEvent (time event) frameId (te_type event))
  | None => None
  end.

(** The events of a worker without telemetry records. *)
Definition degradedEvents (profile : CPUProfile.t) (threadMap : gmap Z Z)
  : list Speedscope.Event :=
  let sortedEvents :=
    JS.sort byTime
      (samplesToEvents threadMap (CPUProfile.timeDeltas profile) 0
         (CPUProfile.samples profile)) in
  omap (resolveEvent threadMap) sortedEvents.

Record Evented := mkEvented {
  e_name : string;
  e_startValue : Z;
  e_endValue : Z;
  e_events : list Speedscope.Event;
}.

(** The track pushed for a worker: none without events. *)
Definition eventedTrack (threadName : string) (events : list Speedscope.Event)
  : option Evented :=
  match map Speedscope.at_ events with
  | [] => None
  | t :: times =>
      let startValue := Math_min t times in
      let endValue := Math_max t times in
      Some (mkEvented threadName (orNumber startValue 0) (orNumber endValue 0) events)
  end.

(** *** Fallbacks and validation *)

Inductive Profile :=
| sampled (p : Sampled)
| evented (p : Evented).

Definition emptyMainTrack (endValue : Z) : Profile :=
  sampled (mkSampled "Main Thread" 0 endValue [] []).

(** The two fallbacks after the worker loop. *)
Definition fallbacks (mainThreadProfile : option CPUProfile.t)
    (frames : list Speedscope.Frame) (profiles : list Profile) : list Profile :=
  let profiles1 :=
    match mainThreadProfile, profiles with
    | Some _, [] => profiles ++ [emptyMainTrack 1000]
    | _, _ => profiles
    end in
  match frames, profiles1 with
  | [], [] =>
      match mainThreadProfile with
      | Some p =>
          profiles1
            ++ [emptyMainTrack
                  (Z.max ((CPUProfile.endTime p - CPUProfile.startTime p) * 1000) 1000)]
      | None => profiles1
      end
  | _, _ => profiles1
  end.

(** The body of the validation loop. *)
Definition validate (profile : Profile) : Profile :=
  match profile with
  | sampled p =>
      let '(samples, weights) :=
        if lengthZ (s_samples p) =? lengthZ (s_weights p)
        then (s_samples p, s_weights p)
        else
          let minLength := Z.to_nat (Z.min (lengthZ (s_samples p)) (lengthZ (s_weights p))) in
          (take minLength (s_samples p), take minLength (s_weights p)) in
      let endValue :=
        if s_endValue p <=? s_startValue p
        then Z.max (s_startValue p + 1000) 1
        else s_endValue p in
      sampled (mkSampled (s_name p) (s_startValue p) endValue samples weights)
  | evented p => evented p
  end.

(** The returned file. *)
Record File := mkFile {
  shared_frames : list Speedscope.Frame;
  profiles : list Profile;
  f_name : string;
}.

(** From the end of the worker loop to the [return]. *)
Definition finish (mainThreadProfile : option CPUProfile.t)
    (frames : list Speedscope.Frame) (profiles : list Profile) : File :=
  mkFile frames (map validate (fallbacks mainThreadProfile frames profiles))
    "Performance Profile".

End SpeedscopeFormat.

(** ** Manual instrumentation ([main-thread-instrumentation.ts],
    [worker-profiler.ts], [instrument-decorator.ts]) *)

(** What the instrumentation reads from the page at the moment of a call:
    [performance.now()] and [performance.memory?.usedJSHeapSize]. *)
Module Performance.
Record t := mk {
  now : Z;
  usedJSHeapSize : option Z;
}.
End Performance.

(** [arr.pop()]: the array without its last element. *)
Definition pop {A} (arr : list A) : list A := removelast arr.

Module MainThreadInstrumentation.

Record t := mk {
  mainThreadId : string;
  performanceData : list WorkerPerformanceData.t;
  callStack : list string;
}.

(** The function [startFunction] returns, as the variables it has captured;
    [this] it reads when it is called. *)
Record EndFunction := mkEndFunction {
  functionName : string;
  startTime : Z;
  marker : option FunctionMarker.t;
  memoryBefore : option Z;
}.

Definition startFunction (markedFunctions : MarkerRegistry) (performance : Performance.t)
    (this : t) (functionName : string) : t * EndFunction :=
  let startTime := Performance.now performance in
  let marker := getFunctionMarker markedFunctions functionName in
  let this1 := mk (mainThreadId this) (performanceData this) (callStack this ++ [functionName]) in
  let memoryBefore := Performance.usedJSHeapSize performance in
  (this1, mkEndFunction functionName startTime marker memoryBefore).

(** A call of the returned function. *)
Definition endFunction (f : EndFunction) (performance : Performance.t) (this : t) : t :=
  let endTime := Performance.now performance in
  let memoryAfter := Performance.usedJSHeapSize performance in
  let callStack1 := pop (callStack this) in
  let perfData :=
    WorkerPerformanceData.mk (mainThreadId this) (functionName f) (startTime f) endTime
      (endTime - startTime f) (memoryBefore f) memoryAfter (Some callStack1) (marker f) in
  mk (mainThreadId this) (performanceData this ++ [perfData]) callStack1.

(** [Partial<WorkerPerformanceData>]: the properties an object has.  A
    property that is present may hold [undefined] where the type allows it. *)
Record Partial := mkPartial {
  p_workerId : option string;
  p_functionName : option string;
  p_startTime : option Z;
  p_endTime : option Z;
  p_duration : option Z;
  p_memoryBefore : option (option Z);
  p_memoryAfter : option (option Z);
  p_callStack : option (option (list string));
  p_marker : option (option FunctionMarker.t);
}.

(** [{ ...data, ...additionalData }] *)
Definition spread (data : WorkerPerformanceData.t) (additionalData : option Partial)
  : WorkerPerformanceData.t :=
  match additionalData with
  | None => data
  | Some a =>
      WorkerPerformanceData.mk
        (default (WorkerPerformanceData.workerId data) (p_workerId a))
        (default (WorkerPerformanceData.functionName data) (p_functionName a))
        (default (WorkerPerformanceData.startTime data) (p_startTime a))
        (default (WorkerPerformanceData.endTime data) (p_endTime a))
        (default (WorkerPerformanceData.duration data) (p_duration a))
        (default (WorkerPerformanceData.memoryBefore data) (p_memoryBefore a))
        (default (WorkerPerformanceData.memoryAfter data) (p_memoryAfter a))
        (default (WorkerPerformanceData.callStack data) (p_callStack a))
        (default (WorkerPerformanceData.marker data) (p_marker a))
  end.

Definition record (markedFunctions : MarkerRegistry) (performance : Performance.t)
    (this : t) (functionName : string) (startTime endTime : Z)
    (additionalData : option Partial) : t :=
  let marker := getFunctionMarker markedFunctions functionName in
  let memoryBefore := Performance.usedJSHeapSize performance in
  let memoryAfter := Performance.usedJSHeapSize performance in
  let perfData :=
    spread
      (WorkerPerformanceData.mk (mainThreadId this) functionName startTime endTime
         (endTime - startTime) memoryBefore memoryAfter (Some (callStack this)) marker)
      additionalData in
  mk (mainThreadId this) (performanceData this ++ [perfData]) (callStack this).

Definition getDataCount (this : t) : Z := Z.of_nat (length (performanceData this)).

End MainThreadInstrumentation.

Module WorkerProfiler.

(** The fields the instrumentation works on.  [storage] is the
    [WorkerProfilerStorage], an IndexedDB wrapper outside this model: it is
    represented by the records handed to its [save], and is [None] for
    [null]. *)
Record t := mk {
  workerId : string;
  performanceData : list WorkerPerformanceData.t;
  callStack : list string;
  storage : option (list WorkerPerformanceData.t);
}.

(** [if (this.storage) this.storage.save(perfData)] *)
Definition save (storage : option (list WorkerPerformanceData.t))
    (perfData : WorkerPerformanceData.t) : option (list WorkerPerformanceData.t) :=
  match storage with
  | Some saved => Some (saved ++ [perfData])
  | None => None
  end.

Record EndFunction := mkEndFunction {
  functionName : string;
  startTime : Z;
  marker : option FunctionMarker.t;
  memoryBefore : option Z;
}.

Definition startFunction (markedFunctions : MarkerRegistry) (performance : Performance.t)
    (this : t) (functionName : string) : t * EndFunction :=
  let startTime := Performance.now performance in
  let marker := getFunctionMarker markedFunctions functionName in
  let this1 :=
    mk (workerId this) (performanceData this) (callStack this ++ [functionName])
       (storage this) in
  let memoryBefore := Performance.usedJSHeapSize performance in
  (this1, mkEndFunction functionName startTime marker memoryBefore).

Definition endFunction (f : EndFunction) (performance : Performance.t) (this : t) : t :=
  let endTime := Performance.now performance in
  let memoryAfter := Performance.usedJSHeapSize performance in
  let callStack1 := pop (callStack this) in
  let perfData :=
    WorkerPerformanceData.mk (workerId this) (functionName f) (startTime f) endTime
      (endTime - startTime f) (memoryBefore f) memoryAfter (Some callStack1) (marker f) in
  mk (workerId this) (performanceData this ++ [perfData]) callStack1
     (save (storage this) perfData).

End WorkerProfiler.

(** The decorators of [instrument-decorator.ts], run in a worker. *)
Module Instrument.

(** The state the instrumented code of a worker runs in: the module variable
    [workerProfilerInstance], the [WorkerProfiler] objects it may refer to,
    the marker registry and the page's clock and memory reading. *)
Record World := mkWorld {
  workerProfilerInstance : option loc;
  profilers : gmap loc WorkerProfiler.t;
  markedFunctions : MarkerRegistry;
  performance : Performance.t;
}.

Definition getWorkerProfiler (w : World) : result loc :=
  match workerProfilerInstance w with
  | None =>
      Throw (Error ("WorkerProfiler not initialized. Call setWorkerProfiler() first, "
                      +:+ "or ensure your Worker receives an INIT_WORKER message with workerId."))
  | Some profiler => Ok profiler
  end.

(** [endFunction] of the profiler object [profiler], with what it captured. *)
Record EndFunction := mkEndFunction {
  profiler : loc;
  captured : WorkerProfiler.EndFunction;
}.

(** [profiler.startFunction(functionName)] on the object at [profiler]. *)
Definition startFunction (w : World) (profiler : loc) (functionName : string)
  : World * EndFunction :=
  let captured :=
    WorkerProfiler.mkEndFunction functionName (Performance.now (performance w))
      (getFunctionMarker (markedFunctions w) functionName)
      (Performance.usedJSHeapSize (performance w)) in
  (mkWorld (workerProfilerInstance w)
     (alter
        (fun this =>
           fst (WorkerProfiler.startFunction (markedFunctions w) (performance w) this
                  functionName))
        profiler (profilers w))
     (markedFunctions w) (performance w),
   mkEndFunction profiler captured).

(** [endFunction()] *)
Definition endFunction (f : EndFunction) (w : World) : World :=
  mkWorld (workerProfilerInstance w)
    (alter (WorkerProfiler.endFunction (captured f) (performance w)) (profiler f)
       (profilers w))
    (markedFunctions w) (performance w).

Section Decorators.

(** The values of the instrumented code: [V] for what is no promise, [P] for
    promises, of which the decorators use [result.finally(() => endFunction())]. *)
Context {V P : Type}.
Variable finally_ : P -> EndFunction -> P.

Inductive Returned :=
| plain (v : V)
| promise (p : P).

(** A function applied to its arguments: it returns or throws, and changes
    the world. *)
Definition Function := World -> result Returned * World.

Definition instrumentFunction (functionName : string) (fn : Function) : Function :=
  fun w =>
    match getWorkerProfiler w with
    | Throw error => (Throw error, w)
    | Ok profiler =>
        let '(w1, endFunction_) := startFunction w profiler functionName in
        match fn w1 with
        | (Ok (promise p), w2) => (Ok (promise (finally_ p endFunction_)), w2)
        | (Ok (plain v), w2) => (Ok (plain v), endFunction endFunction_ w2)
        | (Throw error, w2) => (Throw error, endFunction endFunction_ w2)
        end
    end.

(** [@instrument(functionName)] on the method [propertyKey] of a class whose
    constructor has the name [className], if any: the new [descriptor.value],
    applied to its arguments. *)
Definition instrument (functionName : option string) (className : option string)
    (propertyKey : string) (originalMethod : Function) : Function :=
  let finalFunctionName :=
    orString functionName (orString className "Anonymous" +:+ "." +:+ propertyKey) in
  fun w =>
    match getWorkerProfiler w with
    | Throw error => (Throw error, w)
    | Ok profiler =>
        let '(w1, endFunction_) := startFunction w profiler finalFunctionName in
        match originalMethod w1 with
        | (Ok (promise p), w2) => (Ok (promise (finally_ p endFunction_)), w2)
        | (Ok (plain v), w2) => (Ok (plain v), endFunction endFunction_ w2)
        | (Throw error, w2) => (Throw error, endFunction endFunction_ w2)
        end
    end.

End Decorators.

End Instrument.

(** ** [PerformanceMonitor.generateSpeedscopeProfile]

    The method up to its call of [generateSpeedscopeFormat]: what it returns
    early, and the arguments of the call. *)

Module SpeedscopeProfile.

(** [workerGroups] holds its arrays by reference: the builder has sorted them
    by the time the exporter reads them. *)
Record Arguments := mkArguments {
  mainThreadProfile : option CPUProfile.t;
  workerProfiles : list (string * CPUProfile.t);
  workerGroups : list (string * loc);
  baseStartTime : Z;
}.

(** [workerProfiles.set(workerId, profile)] *)
Fixpoint setProfile (workerId : string) (profile : CPUProfile.t)
    (workerProfiles : list (string * CPUProfile.t)) : list (string * CPUProfile.t) :=
  match workerProfiles with
  | [] => [(workerId, profile)]
  | (k, p) :: rest =>
      if String.eqb k workerId then (k, profile) :: rest
      else (k, p) :: setProfile workerId profile rest
  end.

(** The body of [for (const [workerId, data] of workerGroups.entries())];
    [groups] collects the entries with the places of their arrays. *)
Definition workerStep (startTime endTime : Z)
    (acc : list (string * CPUProfile.t) * list (string * loc) * Generator.t * heap)
    (entry : string * list WorkerPerformanceData.t)
  : list (string * CPUProfile.t) * list (string * loc) * Generator.t * heap :=
  let '(workerProfiles, groups, this, σ) := acc in
  let '(workerId, data) := entry in
  let '(l, σ1) := alloc σ data in
  let '(profile, this', σ2) :=
    Generator.generateFromSingleWorkerData this σ1 l startTime endTime workerId in
  let workerProfiles' :=
    if (0 <? Z.of_nat (length (CPUProfile.nodes profile)))
       || (0 <? Z.of_nat (length (CPUProfile.samples profile)))
    then setProfile workerId profile workerProfiles
    else workerProfiles in
  (workerProfiles', groups ++ [(workerId, l)], this', σ2).

(** The main-thread profile: sampled, instrumented, or both merged.  The
    array [this.mainThreadInstrumentationData] is passed to the builder by
    reference; it is returned as the builder leaves it. *)
Definition mainProfile (markedFunctions : MarkerRegistry) (this : PerformanceMonitor.t)
    (σ : heap) (trace : option Trace.t) (endTime : Z)
  : result (option CPUProfile.t * Generator.t * heap * list WorkerPerformanceData.t) :=
  JS.bind
    (match trace with
     | Some tr =>
         JS.bind
           (Generator.generateFromTrace markedFunctions (PerformanceMonitor.generator this)
              (Some tr) (PerformanceMonitor.startTime this) endTime "Main Thread")
           (fun '(p, g) => Ok (Some p, g))
     | None => Ok (None, PerformanceMonitor.generator this)
     end)
    (fun '(mainThreadProfile, g) =>
       match PerformanceMonitor.mainThreadInstrumentationData this with
       | [] => Ok (mainThreadProfile, g, σ, [])
       | data =>
           let '(l, σ1) := alloc σ data in
           let '(instrumentationProfile, g', σ2) :=
             Generator.generateFromSingleWorkerData g σ1 l
               (PerformanceMonitor.startTime this) endTime "web-main" in
           match mainThreadProfile with
           | Some main =>
               JS.bind (Merge.mergeProfiles [main; instrumentationProfile])
                 (fun merged => Ok (Some merged, g', σ2, σ2 !!! l))
           | None => Ok (Some instrumentationProfile, g', σ2, σ2 !!! l)
           end
       end).

(** The resolved value is [None] for the early [return null], and the
    arguments of [generateSpeedscopeFormat] otherwise; with it, the monitor
    and the heap as the method leaves them.  [now] is the value of
    [performance.now()]. *)
Definition arguments (markedFunctions : MarkerRegistry) (this : PerformanceMonitor.t)
    (σ : heap) (now : Z) : result (option Arguments * PerformanceMonitor.t * heap) :=
  let endTime := now in
  let '(trace, profiler') := MainThreadProfiler.stop (PerformanceMonitor.profiler this) in
  JS.bind (mainProfile markedFunctions this σ trace endTime)
    (fun '(mainThreadProfile, g, σ1, instrumentationData) =>
       let workerGroups := WorkerGroups.group (PerformanceMonitor.workerPerformanceData this) in
       let '(workerProfiles, groups, g', σ2) :=
         fold_left (workerStep (PerformanceMonitor.startTime this) endTime) workerGroups
           ([], [], g, σ1) in
       let this' :=
         PerformanceMonitor.mk profiler' g' (PerformanceMonitor.startTime this)
           (PerformanceMonitor.workerPerformanceData this) instrumentationData in
       match mainThreadProfile, workerProfiles with
       | None, [] => Ok (None, this', σ2)
       | _, _ =>
           Ok (Some (mkArguments mainThreadProfile workerProfiles groups
                       (PerformanceMonitor.startTime this)),
               this', σ2)
       end).

End SpeedscopeProfile.

(** ** Specification vocabulary *)

(** Comparators of the form [(a, b) => key(a) - key(b)] and the order they sort by. *)
Definition keyCmp {A : Type} (key : A -> Z) (a b : A) : Z := key a - key b.
Definition keyLe {A : Type} (key : A -> Z) (a b : A) : Prop := key a <= key b.

(** The walk by structural recursion: [lastTime] and the rest of the array. *)
Fixpoint walk (lastTime : Z) (tds : list Z) : list Z :=
  match tds with
  | [] => []
  | d :: rest =>
      let d' := if d <? lastTime then lastTime + 1 else d in
      d' :: walk d' rest
  end.

(** The value of [lastTime] when the walk ends. *)
Fixpoint walkLast (lastTime : Z) (tds : list Z) : Z :=
  match tds with
  | [] => lastTime
  | d :: rest => walkLast (if d <? lastTime then lastTime + 1 else d) rest
  end.

(** The merger's running clock over the adjusted deltas, in the words of the
    merge algorithm: a value that strictly exceeds the clock is kept, any other
    is bumped to [cumulative + 1]. *)
Fixpoint clampedClock (cumulative : Z) (adjusted : list Z) : list Z :=
  match adjusted with
  | [] => []
  | a :: rest =>
      let c := if a >? cumulative then a else cumulative + 1 in
      c :: clampedClock c rest
  end.

(** The clock after [clampedClock] has consumed [adjusted]. *)
Fixpoint clockAfter (cumulative : Z) (adjusted : list Z) : Z :=
  match adjusted with
  | [] => cumulative
  | a :: rest => clockAfter (if a >? cumulative then a else cumulative + 1) rest
  end.

(** [timeOffset + originalDelta] for the samples [k, k+n) of a profile. *)
Definition adjustedFrom (mergedStart : Z) (p : CPUProfile.t) (k n : nat) : list Z :=
  map (fun i => (CPUProfile.startTime p - mergedStart) * 1000
                + orZero (CPUProfile.timeDeltas p !! i))
      (seq k n).

Definition adjustedDeltas (mergedStart : Z) (p : CPUProfile.t) : list Z :=
  adjustedFrom mergedStart p 0 (length (CPUProfile.samples p)).

(** The node-id remapping of one source profile placed at [offset]. *)
Definition remapId (offset : Z) (ns : list ProfileNode.t) (s : Z) : Z :=
  if decide (s ∈ map ProfileNode.id ns)
  then (if offset + s =? 0 then s else offset + s)
  else s.

Fixpoint remapAll (offset : Z) (ps : list CPUProfile.t) : list Z :=
  match ps with
  | [] => []
  | p :: rest =>
      map (remapId offset (CPUProfile.nodes p)) (CPUProfile.samples p)
      ++ remapAll (offset + Z.of_nat (length (CPUProfile.nodes p))) rest
  end.

(** The url under which [addWorkerPerformanceData] files a function of a worker. *)
Definition workerUrl (workerId functionName : string) : string :=
  let threadName := "Worker-" +:+ workerId in
  threadName +:+ "://" +:+ functionName.

(** The identity of each node of the generator: its id and its url. *)
Definition nodeKeys (ns : list ProfileNode.t) : list (Z * string) :=
  map (fun n => (ProfileNode.id n, CallFrame.url (ProfileNode.callFrame n))) ns.

(** The raw time delta of a record: [(data.startTime - this.startTime) * 1000]. *)
Definition rawDelta (startTime : Z) (data : WorkerPerformanceData.t) : Z :=
  (WorkerPerformanceData.startTime data - startTime) * 1000.

(** The state of the generator after the records [processed] of worker
    [workerId] have been added, before normalisation. *)
Record WorkerInv (workerId : string) (processed : list WorkerPerformanceData.t)
    (g : Generator.t) : Prop := mkWorkerInv {
  inv_counter : 0 <= Generator.nodeIdCounter g;
  inv_registered : forall id u, (id, u) ∈ nodeKeys (Generator.nodes g) ->
    exists fn, u = workerUrl workerId fn
               /\ Generator.nodeMap g !! Generator.workerNodeKey workerId fn = Some id;
  inv_lookup : forall fn id,
    Generator.nodeMap g !! Generator.workerNodeKey workerId fn = Some id ->
    (id, workerUrl workerId fn) ∈ nodeKeys (Generator.nodes g);
  inv_ids : forall id u, (id, u) ∈ nodeKeys (Generator.nodes g) ->
    0 <= id < Generator.nodeIdCounter g;
  inv_nodup_ids : NoDup (map fst (nodeKeys (Generator.nodes g)));
  inv_nodup_urls : NoDup (map snd (nodeKeys (Generator.nodes g)));
  inv_samples :
    Forall2
      (fun d s =>
         Generator.nodeMap g
           !! Generator.workerNodeKey workerId (WorkerPerformanceData.functionName d)
         = Some s)
      processed (Generator.samples g);
  inv_deltas :
    Generator.timeDeltas g = map (rawDelta (Generator.startTime g)) processed;
}.

(** A trace sample is kept when its stack exists and names a frame. *)
Definition sampleResolves (stacks : list Trace.Stack) (sample : Trace.Sample) : bool :=
  match Trace.stackId sample with
  | Some sid =>
      match index stacks sid with
      | Some stack => bool_decide (is_Some (Trace.frameId stack))
      | None => false
      end
  | None => false
  end.

(** The events one record contributes to an evented track: an open and a
    close event for its frame when the open time is non-negative and the close
    time does not precede it, and nothing otherwise. *)
Definition recordEvents (globalStartTime : Z) (data : WorkerPerformanceData.t)
    (frameId : Z) : list Speedscope.Event :=
  let openAt := (WorkerPerformanceData.startTime data - globalStartTime) * 1000 in
  let closeAt := (WorkerPerformanceData.endTime data - globalStartTime) * 1000 in
  if decide (0 <= openAt /\ openAt <= closeAt)
  then [Speedscope.mkEvent openAt frameId Speedscope.O;
        Speedscope.mkEvent closeAt frameId Speedscope.C]
  else [].

(** ** Vocabulary for the further properties *)

(** Node ids that count up from zero in array order, as the generator hands
    them out. *)
Definition denseIds (ns : list ProfileNode.t) : Prop :=
  map ProfileNode.id ns = map Z.of_nat (seq 0 (length ns)).

(** Every sample is the id of a node of the profile with dense ids. *)
Definition samplesInRange (p : CPUProfile.t) : Prop :=
  Forall (fun s => 0 <= s < Z.of_nat (length (CPUProfile.nodes p))) (CPUProfile.samples p).

(** The node a sample refers to: [nodes.find(n => n.id === sample)]. *)
Definition nodeOf (ns : list ProfileNode.t) (sample : Z) : option ProfileNode.t :=
  List.find (fun n => ProfileNode.id n =? sample) ns.

(** The call frames the samples of a profile refer to, in sample order. *)
Definition sampleFrames (p : CPUProfile.t) : list (option CallFrame.t) :=
  map (fun s => ProfileNode.callFrame <$> nodeOf (CPUProfile.nodes p) s)
      (CPUProfile.samples p).

(** How many of the records are executions of [functionName]. *)
Definition countName (functionName : string) (records : list WorkerPerformanceData.t)
  : nat :=
  length (filter (fun d => WorkerPerformanceData.functionName d = functionName) records).

(** A kept trace sample whose stack names a frame that the trace lacks. *)
Definition sampleFrameMissing (stacks : list Trace.Stack) (frames : list Trace.Frame)
    (sample : Trace.Sample) : bool :=
  match Trace.stackId sample with
  | Some sid =>
      match index stacks sid with
      | Some stack =>
          match Trace.frameId stack with
          | Some fid => bool_decide (index frames fid = None)
          | None => false
          end
      | None => false
      end
  | None => false
  end.

(** The group key of a record: [data.workerId || 'unknown']. *)
Definition groupKey (data : WorkerPerformanceData.t) : string :=
  orString (Some (WorkerPerformanceData.workerId data)) "unknown".

(** Position of a name in a list of names. *)
Fixpoint indexOf (x : string) (names : list string) : option nat :=
  match names with
  | [] => None
  | y :: rest => if decide (y = x) then Some 0%nat else S <$> indexOf x rest
  end.

(** The function names of the records, each once, in order of first occurrence. *)
Definition firstNames (records : list WorkerPerformanceData.t) : list string :=
  fold_left
    (fun acc d =>
       if decide (WorkerPerformanceData.functionName d ∈ acc) then acc
       else acc ++ [WorkerPerformanceData.functionName d])
    records [].

(** The marker of the first record of a function. *)
Definition firstMarker (functionName : string) (records : list WorkerPerformanceData.t)
  : option FunctionMarker.t :=
  match List.find (fun d => String.eqb (WorkerPerformanceData.functionName d) functionName)
                  records with
  | Some d => WorkerPerformanceData.marker d
  | None => None
  end.

(** The node the builder holds for the [i]-th distinct function of a worker. *)
Definition expectedWorkerNode (workerId : string)
    (records : list WorkerPerformanceData.t) (i : nat) (functionName : string)
  : ProfileNode.t :=
  ProfileNode.mk (Z.of_nat i)
    (CallFrame.mk ("[" +:+ ("Worker-" +:+ workerId) +:+ "] " +:+ functionName)
       ("script-" +:+ numToString (Z.of_nat i))
       (workerUrl workerId functionName) 0 0)
    (Some (Z.of_nat (countName functionName records))) None None
    (firstMarker functionName records).

(** The generator after the records [processed] of one worker, node by node. *)
Record WorkerSpec (workerId : string) (processed : list WorkerPerformanceData.t)
    (g : Generator.t) : Prop := mkWorkerSpec {
  ws_length : length (Generator.nodes g) = length (firstNames processed);
  ws_nodes : forall (i : nat) fn,
    firstNames processed !! i = Some fn ->
    Generator.nodes g !! i = Some (expectedWorkerNode workerId processed i fn);
  ws_map : forall fn,
    Generator.nodeMap g !! Generator.workerNodeKey workerId fn
    = Z.of_nat <$> indexOf fn (firstNames processed);
  ws_counter : Generator.nodeIdCounter g = Z.of_nat (length (firstNames processed));
  ws_scriptCounter :
    Generator.scriptIdCounter g = Z.of_nat (length (firstNames processed));
  ws_scriptMap : forall fn,
    Generator.scriptMap g !! workerUrl workerId fn
    = (fun i : nat => "script-" +:+ numToString (Z.of_nat i))
        <$> indexOf fn (firstNames processed);
  ws_samples :
    Forall2
      (fun d s =>
         Z.of_nat <$> indexOf (WorkerPerformanceData.functionName d) (firstNames processed)
         = Some s)
      processed (Generator.samples g);
}.

(** The name a trace node shows for a function of thread [threadName]. *)
Definition shownName (threadName functionName : string) : string :=
  if String.eqb threadName "Main Thread" then functionName
  else "[" +:+ threadName +:+ "] " +:+ functionName.

(** What holds of the generator while it works through a trace. *)
Record TraceInv (markedFunctions : MarkerRegistry) (threadName : string)
    (g : Generator.t) : Prop := mkTraceInv {
  ti_counter : Generator.nodeIdCounter g = Z.of_nat (length (Generator.nodes g));
  ti_ids : forall (k : nat) n,
    Generator.nodes g !! k = Some n -> ProfileNode.id n = Z.of_nat k;
  ti_map : forall key v,
    Generator.nodeMap g !! key = Some v ->
    0 <= v < Z.of_nat (length (Generator.nodes g));
  ti_nodes :
    Forall
      (fun n =>
         ProfileNode.hitCount n = Some 1
         /\ exists fn,
              CallFrame.functionName (ProfileNode.callFrame n) = shownName threadName fn
              /\ ProfileNode.marker n = getFunctionMarker markedFunctions fn)
      (Generator.nodes g);
  ti_samples :
    Forall (fun s => 0 <= s < Z.of_nat (length (Generator.nodes g))) (Generator.samples g);
}.

(** The nodes of the source profiles after re-identification, [offset] being
    the number of nodes merged before. *)
Fixpoint remapNodes (offset : Z) (ps : list CPUProfile.t) : list ProfileNode.t :=
  match ps with
  | [] => []
  | p :: rest =>
      map (fun n => ProfileNode.withId n (offset + ProfileNode.id n)) (CPUProfile.nodes p)
      ++ remapNodes (offset + Z.of_nat (length (CPUProfile.nodes p))) rest
  end.

(** A profile as the builders produce it: dense node ids, samples in range. *)
Definition wellIndexed (p : CPUProfile.t) : Prop :=
  denseIds (CPUProfile.nodes p) /\ samplesInRange p.

(** The profile the record builder makes of an array of records; the
    generator and the heap around the array play no part (see
    [builder_profile_eq]). *)
Definition builderProfile (records : list WorkerPerformanceData.t)
    (startTime endTime : Z) (workerId : string) : CPUProfile.t :=
  (Generator.generateFromSingleWorkerData Generator.new {[1%positive := records]}
     1%positive startTime endTime workerId).1.1.

(** [groups.get(key)] on the insertion-ordered groups. *)
Definition groupOf (k : string) (gs : WorkerGroups.t)
  : option (list WorkerPerformanceData.t) :=
  snd <$> List.find (fun g => String.eqb (fst g) k) gs.

(** The groups that the records [processed] make up. *)
Definition groupsOf (processed : list WorkerPerformanceData.t) (gs : WorkerGroups.t)
  : Prop :=
  NoDup (map fst gs)
  /\ forall k, groupOf k gs
               = match filter (fun d => groupKey d = k) processed with
                 | [] => None
                 | arr => Some arr
                 end.

(** *** Vocabulary for the Speedscope exporter *)

(** What holds of the frame table once the nodes [seen] have been collected. *)
Record FramesInv (seen : list ProfileNode.t) (st : SpeedscopeFormat.Frames) : Prop := {
  fi_counter : SpeedscopeFormat.frameId st = SpeedscopeFormat.lengthZ (SpeedscopeFormat.frames st);
  fi_size : length (SpeedscopeFormat.frameMap st) = length (SpeedscopeFormat.frames st);
  fi_seen : forall n, n ∈ seen ->
    is_Some (OrderedMap.get (SpeedscopeFormat.frameMap st) (Speedscope.nodeFrameKey n));
  fi_frame : forall k i, OrderedMap.get (SpeedscopeFormat.frameMap st) k = Some i ->
    exists n, n ∈ seen /\ Speedscope.nodeFrameKey n = k /\ 0 <= i
              /\ SpeedscopeFormat.frames st !! Z.to_nat i = Some (SpeedscopeFormat.frameOf n);
  fi_inj : forall k k' i,
    OrderedMap.get (SpeedscopeFormat.frameMap st) k = Some i ->
    OrderedMap.get (SpeedscopeFormat.frameMap st) k' = Some i -> k = k';
}.

(** The nodes the frame-collecting loops visit, in order. *)
Definition exportedNodes (mainThreadProfile : option CPUProfile.t)
    (workerProfiles : list (string * CPUProfile.t)) : list ProfileNode.t :=
  match mainThreadProfile with
  | Some p => CPUProfile.nodes p
  | None => []
  end ++ flat_map (fun wp => CPUProfile.nodes (snd wp)) workerProfiles.


(** Every entry of the frame map points into the frame table. *)
Definition frameMapInRange (fr : SpeedscopeFormat.Frames) : Prop :=
  Forall (fun e => 0 <= snd e < Z.of_nat (length (SpeedscopeFormat.frames fr)))
         (SpeedscopeFormat.frameMap fr).

(** What holds while the loop over a worker's nodes fills [threadMap]: the
    nodes [seen] so far, the frame table [fr0] at the start. *)
Record ThreadMapInv (fr0 : SpeedscopeFormat.Frames) (seen : list ProfileNode.t)
    (st : SpeedscopeFormat.Frames * gmap Z Z) : Prop := {
  tmi_frames : exists added,
    SpeedscopeFormat.frames (fst st) = SpeedscopeFormat.frames fr0 ++ added
    /\ (length added <= length seen)%nat;
  tmi_counter : SpeedscopeFormat.frameId (fst st) = SpeedscopeFormat.frameId fr0;
  tmi_range : frameMapInRange (fst st);
  tmi_keys : forall k, is_Some (OrderedMap.get (SpeedscopeFormat.frameMap fr0) k) ->
    is_Some (OrderedMap.get (SpeedscopeFormat.frameMap (fst st)) k);
  tmi_seen : forall n, n ∈ seen -> is_Some (snd st !! ProfileNode.id n);
  tmi_values : forall id i, snd st !! id = Some i ->
    id ∈ map ProfileNode.id seen
    /\ 0 <= i < Z.of_nat (length (SpeedscopeFormat.frames (fst st)));
}.

(** Every value of a map is the index of one of [n] frames. *)
Definition framesInRange {K} `{Countable K} (n : nat) (m : gmap K Z) : Prop :=
  map_Forall (fun _ f => 0 <= f < Z.of_nat n) m.

(** The frame the evented branch creates for a record it finds no frame for. *)
Definition recordFrame (workerId : string) (data : WorkerPerformanceData.t)
  : Speedscope.Frame :=
  Speedscope.mkFrame (WorkerPerformanceData.functionName data)
    ("worker-" +:+ workerId +:+ "://" +:+ WorkerPerformanceData.functionName data) 0 0.

(** What holds of the state of the record loop of the evented branch, started
    with the frames [frames0]. *)
Record EventedInv (workerId : string) (frames0 : list Speedscope.Frame)
    (processed : list WorkerPerformanceData.t) (st : Speedscope.State) : Prop := {
  ei_frames : exists added,
    Speedscope.frames st = frames0 ++ added
    /\ (length added <= length processed)%nat
    /\ Forall (fun f => exists d, d ∈ processed /\ f = recordFrame workerId d) added;
  ei_names : framesInRange (length (Speedscope.frames st)) (Speedscope.functionNameToFrameId st);
  ei_frameMap : framesInRange (length (Speedscope.frames st)) (Speedscope.frameMap st);
  ei_events : Forall (fun e => 0 <= Speedscope.frame e < Z.of_nat (length (Speedscope.frames st)))
                     (Speedscope.eventList st);
}.



(** The open and close event the degraded path makes of a sample taken at
    [time] whose node has the frame [frameId]. *)
Definition sampleEvents (time frameId : Z) : list Speedscope.Event :=
  [Speedscope.mkEvent time frameId Speedscope.O;
   Speedscope.mkEvent (time + 100) frameId Speedscope.C].

(** A track as the exporter means to return it: a sampled track has one
    weight per sample and ends after it starts. *)
Definition trackValid (profile : SpeedscopeFormat.Profile) : Prop :=
  match profile with
  | SpeedscopeFormat.sampled p =>
      length (SpeedscopeFormat.s_samples p) = length (SpeedscopeFormat.s_weights p)
      /\ SpeedscopeFormat.s_startValue p < SpeedscopeFormat.s_endValue p
  | SpeedscopeFormat.evented _ => True
  end.

(** *** Vocabulary for the instrumentation *)

(** A run of instrumented code on the main thread, as the calls it makes to
    the instrumentation: a function starts; the function started last and not
    yet ended ends; a record is written by hand. *)
Inductive InstrumentationCall :=
| enter (functionName : string) (performance : Performance.t)
| leave (performance : Performance.t)
| manual (functionName : string) (startTime endTime : Z) (performance : Performance.t).

(** The instrumentation and the end functions not yet called, the latest
    first. *)
Definition runCall (markedFunctions : MarkerRegistry)
    (st : MainThreadInstrumentation.t * list MainThreadInstrumentation.EndFunction)
    (c : InstrumentationCall)
  : MainThreadInstrumentation.t * list MainThreadInstrumentation.EndFunction :=
  match c with
  | enter functionName performance =>
      let '(this, f) :=
        MainThreadInstrumentation.startFunction markedFunctions performance st.1
          functionName in
      (this, f :: st.2)
  | leave performance =>
      match st.2 with
      | f :: pending => (MainThreadInstrumentation.endFunction f performance st.1, pending)
      | [] => st
      end
  | manual functionName startTime endTime performance =>
      (MainThreadInstrumentation.record markedFunctions performance st.1 functionName
         startTime endTime None, st.2)
  end.

Definition runCalls (markedFunctions : MarkerRegistry) (calls : list InstrumentationCall)
    (this : MainThreadInstrumentation.t)
  : MainThreadInstrumentation.t * list MainThreadInstrumentation.EndFunction :=
  fold_left (runCall markedFunctions) calls (this, []).

(** The records a run is to leave, by the functions [running] when a call is
    made (the latest first, each with the clock and memory reading at its
    start): a record lists the functions that were running around it. *)
Fixpoint expectedRecords (markedFunctions : MarkerRegistry) (mainThreadId : string)
    (outer : list string) (running : list (string * Performance.t))
    (calls : list InstrumentationCall) : list WorkerPerformanceData.t :=
  match calls with
  | [] => []
  | enter functionName performance :: rest =>
      expectedRecords markedFunctions mainThreadId outer
        ((functionName, performance) :: running) rest
  | leave performance :: rest =>
      match running with
      | (functionName, started) :: callers =>
          WorkerPerformanceData.mk mainThreadId functionName (Performance.now started)
            (Performance.now performance)
            (Performance.now performance - Performance.now started)
            (Performance.usedJSHeapSize started) (Performance.usedJSHeapSize performance)
            (Some (outer ++ rev (map fst callers)))
            (getFunctionMarker markedFunctions functionName)
            :: expectedRecords markedFunctions mainThreadId outer callers rest
      | [] => expectedRecords markedFunctions mainThreadId outer [] rest
      end
  | manual functionName startTime endTime performance :: rest =>
      WorkerPerformanceData.mk mainThreadId functionName startTime endTime
        (endTime - startTime)
        (Performance.usedJSHeapSize performance) (Performance.usedJSHeapSize performance)
        (Some (outer ++ rev (map fst running)))
        (getFunctionMarker markedFunctions functionName)
        :: expectedRecords markedFunctions mainThreadId outer running rest
  end.

(** The functions still running after the calls. *)
Fixpoint stillRunning (running : list (string * Performance.t))
    (calls : list InstrumentationCall) : list (string * Performance.t) :=
  match calls with
  | [] => running
  | enter functionName performance :: rest =>
      stillRunning ((functionName, performance) :: running) rest
  | leave _ :: rest => stillRunning (tail running) rest
  | manual _ _ _ _ :: rest => stillRunning running rest
  end.

(** The end function of a function that started at [started]. *)
Definition endFunctionOf (markedFunctions : MarkerRegistry)
    (entry : string * Performance.t) : MainThreadInstrumentation.EndFunction :=
  MainThreadInstrumentation.mkEndFunction entry.1 (Performance.now entry.2)
    (getFunctionMarker markedFunctions entry.1) (Performance.usedJSHeapSize entry.2).

(** The calls of a run that make a record once the run is complete. *)
Definition startsRecord (c : InstrumentationCall) : bool :=
  match c with
  | enter _ _ | manual _ _ _ _ => true
  | leave _ => false
  end.

(** A function that neither returns a promise nor replaces the worker's
    profiler, and leaves the profiler's call stack as it found it. *)
Definition keepsStack {V P} (fn : @Instrument.Function V P) : Prop :=
  forall w l this,
    Instrument.workerProfilerInstance w = Some l ->
    Instrument.profilers w !! l = Some this ->
    (forall p, (fn w).1 <> Ok (Instrument.promise p))
    /\ Instrument.workerProfilerInstance (fn w).2 = Some l
    /\ exists that,
         Instrument.profilers (fn w).2 !! l = Some that
         /\ WorkerProfiler.callStack that = WorkerProfiler.callStack this.



(** The strings of a list, each once, in order of first occurrence. *)
Definition firstOccurrences (keys : list string) : list string :=
  fold_left (fun seen k => if decide (k ∈ seen) then seen else seen ++ [k]) keys [].

(** The frame a trace sample is attributed to: that of its stack, if the
    sample names a stack and the stack a frame. *)
Definition sampleFrame (stacks : list Trace.Stack) (frames : list Trace.Frame)
    (sample : Trace.Sample) : option Trace.Frame :=
  match Trace.stackId sample with
  | Some sid =>
      match index stacks sid with
      | Some stack =>
          match Trace.frameId stack with
          | Some fid => index frames fid
          | None => None
          end
      | None => None
      end
  | None => None
  end.

(** The first of the frames that has the identity key [key] in thread
    [threadName]. *)
Definition firstFrame (threadName : string) (frames : list Trace.Frame) (key : string)
  : option Trace.Frame :=
  List.find (fun f => String.eqb (Generator.traceNodeKey f threadName) key) frames.

(** The node at position [i] is the one interned for [frame]. *)
Definition nodeOfFrame (threadName : string) (i : nat) (frame : Trace.Frame)
    (n : ProfileNode.t) : Prop :=
  ProfileNode.id n = Z.of_nat i
  /\ CallFrame.functionName (ProfileNode.callFrame n)
     = shownName threadName (orString (Trace.name frame) "(anonymous)")
  /\ CallFrame.url (ProfileNode.callFrame n) = Generator.traceNodeUrl frame threadName
  /\ CallFrame.lineNumber (ProfileNode.callFrame n) = default 0 (Trace.line frame)
  /\ CallFrame.columnNumber (ProfileNode.callFrame n) = default 0 (Trace.column frame).

(** The registry of the generator once the frames [processed] have been
    interned: one node per identity key, in order of first occurrence. *)
Record KeyInv (threadName : string) (processed : list Trace.Frame) (g : Generator.t)
  : Prop := mkKeyInv {
  ki_counter : Generator.nodeIdCounter g = Z.of_nat (length (Generator.nodes g));
  ki_length :
    length (Generator.nodes g)
    = length (firstOccurrences
                (map (fun f => Generator.traceNodeKey f threadName) processed));
  ki_map : forall key,
    Generator.nodeMap g !! key
    = Z.of_nat
        <$> indexOf key
              (firstOccurrences
                 (map (fun f => Generator.traceNodeKey f threadName) processed));
  ki_nodes : forall (i : nat) key,
    firstOccurrences (map (fun f => Generator.traceNodeKey f threadName) processed) !! i
    = Some key ->
    exists frame n,
      firstFrame threadName processed key = Some frame
      /\ Generator.nodes g !! i = Some n
      /\ nodeOfFrame threadName i frame n;
}.

(** *** How the evented path resolves the frame of a record *)

(** The function a node stands for in the thread whose nodes carry the
    prefix [threadPrefix]: its function name without that prefix. *)
Definition nodeFunction (threadPrefix : string) (node : ProfileNode.t) : string :=
  Speedscope.stripPrefix threadPrefix (CallFrame.functionName (ProfileNode.callFrame node)).

(** The frame the nodes give to a function: that of the first node of the
    function that has a frame under [frameOf]. *)
Definition frameByNodes (threadPrefix : string) (frameOf : ProfileNode.t -> option Z)
    (nodes : list ProfileNode.t) (functionName : string) : option Z :=
  List.find
    (fun node =>
       bool_decide (is_Some (frameOf node))
       && String.eqb (nodeFunction threadPrefix node) functionName)
    nodes
  ≫= frameOf.

(** The frame the samples give to a function: that of the first sample whose
    node is of the function and has a frame in [threadMap]. *)
Definition frameBySamples (threadPrefix : string) (threadMap : gmap Z Z)
    (nodes : list ProfileNode.t) (samples : list Z) (functionName : string) : option Z :=
  List.find
    (fun s =>
       match nodeOf nodes s with
       | Some node =>
           String.eqb (nodeFunction threadPrefix node) functionName
           && bool_decide (is_Some (threadMap !! s))
       | None => false
       end)
    samples
  ≫= (fun s => threadMap !! s).

(** The frame a function has before the records are looked at: by the nodes
    through [threadMap], or, if no node has an entry there, through the keys
    of [frameMap]; failing that, by the samples. *)
Definition knownFrame (profile : CPUProfile.t) (threadMap : gmap Z Z)
    (frameMap : gmap string Z) (threadName : string) (functionName : string) : option Z :=
  let threadPrefix := "[" +:+ threadName +:+ "] " in
  let nodes := CPUProfile.nodes profile in
  let byNodes :=
    if existsb (fun node => bool_decide (is_Some (threadMap !! ProfileNode.id node))) nodes
    then frameByNodes threadPrefix (fun node => threadMap !! ProfileNode.id node) nodes
           functionName
    else frameByNodes threadPrefix (fun node => frameMap !! Speedscope.nodeFrameKey node)
           nodes functionName in
  match byNodes with
  | Some f => Some f
  | None => frameBySamples threadPrefix threadMap nodes (CPUProfile.samples profile) functionName
  end.

(** The functions of the records that have no frame yet, each once, in order
    of first occurrence: each gets a new frame. *)
Definition newFunctions (known : string -> option Z)
    (workerData : list WorkerPerformanceData.t) : list string :=
  firstOccurrences
    (filter (fun n => known n = None) (map WorkerPerformanceData.functionName workerData)).

(** The frame id a record of function [functionName] resolves to: the frame
    known for the function, or else the new frame made for it, the new frames
    following the [frames] there were. *)
Definition resolvedFrame (known : string -> option Z) (frames : list Speedscope.Frame)
    (workerData : list WorkerPerformanceData.t) (functionName : string) : Z :=
  match known functionName with
  | Some f => f
  | None =>
      Z.of_nat
        (length frames
         + default 0%nat (indexOf functionName (newFunctions known workerData)))
  end.

(** The frame made for a function of worker [workerId] that had none. *)
Definition newFrame (workerId functionName : string) : Speedscope.Frame :=
  Speedscope.mkFrame functionName ("worker-" +:+ workerId +:+ "://" +:+ functionName) 0 0.

(** The state of the record loop of the evented path once the records
    [processed] are done, for the function-to-frame table [names] and the
    frames [frames0] and events [events0] it started with. *)
Record ResolveInv (workerId : string) (known : string -> option Z)
    (names : gmap string Z) (frames0 : list Speedscope.Frame)
    (events0 : list Speedscope.Event) (actualStartTime : Z)
    (processed : list WorkerPerformanceData.t) (st : Speedscope.State) : Prop := {
  ri_names : forall n,
    Speedscope.functionNameToFrameId st !! n
    = match names !! n with
      | Some f => Some f
      | None =>
          if decide (n ∈ map WorkerPerformanceData.functionName processed)
          then Some (resolvedFrame known frames0 processed n)
          else None
      end;
  ri_frames :
    Speedscope.frames st = frames0 ++ map (newFrame workerId) (newFunctions known processed);
  ri_events :
    Speedscope.eventList st
    = events0
      ++ flat_map
           (fun d =>
              recordEvents actualStartTime d
                (resolvedFrame known frames0 processed
                   (WorkerPerformanceData.functionName d)))
           processed;
}.

(** ** Concrete inputs *)

(** Two profiles whose wall-clock ranges overlap; the later one is listed first. *)
Definition profileA : CPUProfile.t :=
  CPUProfile.mk
    [ProfileNode.mk 0 (CallFrame.mk "f" "script-0" "main-thread://inline" 0 0)
       (Some 1) None None None]
    [0; 0] [1000; 2000] 5 9.
Definition profileB : CPUProfile.t :=
  CPUProfile.mk
    [ProfileNode.mk 0 (CallFrame.mk "[Worker-1] g" "script-0" "Worker-1://g" 0 0)
       (Some 1) None None None]
    [0; 0] [0; 7000] 3 12.

(** A trace whose second sample carries an earlier timestamp than its first. *)
Definition outOfOrderTrace : Trace.t :=
  Trace.mk (Some [Trace.mkFrame (Some "render") None None None])
           (Some [Trace.mkStack (Some 0) None])
           (Some [Trace.mkSample 20 (Some 0); Trace.mkSample 10 (Some 0)]).

(** A trace with one kept sample and two skipped ones (no stack id; a stack
    without a frame id). *)
Definition sparseTrace : Trace.t :=
  Trace.mk (Some [Trace.mkFrame (Some "render") None None None])
           (Some [Trace.mkStack (Some 0) None; Trace.mkStack None None])
           (Some [Trace.mkSample 1 None; Trace.mkSample 2 (Some 0);
                  Trace.mkSample 3 (Some 1)]).

Definition record (functionName : string) (startTime endTime : Z)
  : WorkerPerformanceData.t :=
  WorkerPerformanceData.mk "1" functionName startTime endTime (endTime - startTime)
    None None None None.

(** The records of scenario A: three functions run back to back on worker 1,
    listed out of order. *)
Definition pipelineRecords : list WorkerPerformanceData.t :=
  [record "processImage" 15 20; record "fetchImage" 0 10; record "decodeImage" 10 15].

(** Records of worker 1 in which [decode] runs twice. *)
Definition repeatedRecords : list WorkerPerformanceData.t :=
  [record "decode" 4 6; record "fetch" 0 3; record "decode" 7 9].

(** Records of two workers, interleaved, one of them without worker id. *)
Definition mixedRecords : list WorkerPerformanceData.t :=
  [WorkerPerformanceData.mk "a" "f" 1 2 1 None None None None;
   WorkerPerformanceData.mk "" "g" 0 5 5 None None None None;
   WorkerPerformanceData.mk "a" "h" 3 4 1 None None None None].

(** * Properties *)

(** ** Facts about [JS.sort] with a key comparator [key a - key b] *)

Section SortFacts.
Context {A : Type} (key : A -> Z).

Lemma insert_Permutation x l : JS.insert (keyCmp key) x l ≡ₚ x :: l.
Proof.
  induction l as [|y l IH]; simpl; [done|].
  destruct (keyCmp key x y <=? 0); [done|].
  rewrite IH. apply Permutation_swap.
Qed.

Lemma sort_Permutation l : JS.sort (keyCmp key) l ≡ₚ l.
Proof.
  induction l as [|x l IH]; simpl; [done|].
  by rewrite insert_Permutation, IH.
Qed.

Lemma sort_length l : length (JS.sort (keyCmp key) l) = length l.
Proof. apply Permutation_length, sort_Permutation. Qed.

Lemma insert_StronglySorted x l :
  StronglySorted (keyLe key) l -> StronglySorted (keyLe key) (JS.insert (keyCmp key) x l).
Proof.
  induction 1 as [|y l Hs IH Hall]; simpl.
  - repeat constructor.
  - destruct (Z.leb_spec (keyCmp key x y) 0) as [Hle|Hgt].
    + constructor; [by constructor|].
      unfold keyCmp in Hle. constructor; [unfold keyLe; lia|].
      eapply Forall_impl; [exact Hall|]. unfold keyLe. intros; lia.
    + constructor; [exact IH|].
      rewrite insert_Permutation. constructor; [|exact Hall].
      unfold keyCmp in Hgt. unfold keyLe. lia.
Qed.

Lemma sort_StronglySorted l : StronglySorted (keyLe key) (JS.sort (keyCmp key) l).
Proof.
  induction l; simpl; [constructor|]. by apply insert_StronglySorted.
Qed.

Lemma insert_sorted_head x l :
  Forall (keyLe key x) l -> JS.insert (keyCmp key) x l = x :: l.
Proof.
  destruct 1 as [|y l Hxy _]; simpl; [done|].
  unfold keyLe in Hxy. unfold keyCmp.
  destruct (Z.leb_spec (key x - key y) 0); [done|lia].
Qed.

(** Sorting an array that is already in order leaves it as it is. *)
Lemma sort_sorted_id l : StronglySorted (keyLe key) l -> JS.sort (keyCmp key) l = l.
Proof.
  induction 1 as [|x l Hs IH Hall]; simpl; [done|].
  rewrite IH. by apply insert_sorted_head.
Qed.
End SortFacts.

(** ** The normalisation walk *)

Section Normalize.
Import Generator.

Lemma walk_length lastTime tds : length (walk lastTime tds) = length tds.
Proof. revert lastTime; induction tds; intros; simpl; [done|]. by rewrite IHtds. Qed.

Lemma normalize_loop pre tds lastTime :
  fold_left normalizeStep (seq (length pre) (length tds)) (pre ++ tds, lastTime)
  = (pre ++ walk lastTime tds, walkLast lastTime tds).
Proof.
  revert pre lastTime. induction tds as [|d rest IH]; intros pre lastTime.
  - done.
  - cbn [length seq fold_left]. unfold normalizeStep at 2.
    rewrite (lookup_app_r pre) by lia.
    replace (length pre - length pre)%nat with 0%nat by lia. cbn [lookup list_lookup].
    set (d' := if d <? lastTime then lastTime + 1 else d).
    assert (Hupd : (if d <? lastTime then <[length pre := lastTime + 1]> (pre ++ d :: rest)
                    else pre ++ d :: rest) = (pre ++ [d']) ++ rest).
    { subst d'. destruct (d <? lastTime).
      - rewrite insert_app_r_alt by lia.
        replace (length pre - length pre)%nat with 0%nat by lia.
        by rewrite <- app_assoc.
      - by rewrite <- app_assoc. }
    rewrite Hupd.
    assert (Hget : orZero (((pre ++ [d']) ++ rest) !! length pre) = d').
    { rewrite <- app_assoc. rewrite (lookup_app_r pre) by lia.
      by replace (length pre - length pre)%nat with 0%nat by lia. }
    rewrite Hget.
    replace (S (length pre)) with (length (pre ++ [d'])) by (rewrite length_app; simpl; lia).
    rewrite IH. cbn [walk walkLast]. fold d'. by rewrite <- app_assoc.
Qed.

(** The array loop of [normalizeTimeDeltas] computes [walk 0]. *)
Lemma normalizeArray_walk tds : normalizeArray tds = walk 0 tds.
Proof.
  destruct tds as [|d rest]; [done|].
  unfold normalizeArray.
  pose proof (normalize_loop [] (d :: rest) 0) as H.
  simpl length in H. simpl app in H. simpl length. by rewrite H.
Qed.

Lemma walk_lower_bound lastTime tds : Forall (fun d => lastTime <= d) (walk lastTime tds).
Proof.
  revert lastTime. induction tds as [|d rest IH]; intros lastTime; simpl; [constructor|].
  assert (lastTime <= (if d <? lastTime then lastTime + 1 else d)).
  { destruct (Z.ltb_spec d lastTime); lia. }
  constructor; [done|].
  eapply Forall_impl; [apply IH|]. simpl. intros; lia.
Qed.

Lemma walk_nondecreasing lastTime tds : StronglySorted Z.le (walk lastTime tds).
Proof.
  revert lastTime. induction tds as [|d rest IH]; intros lastTime; simpl; constructor.
  - apply IH.
  - apply walk_lower_bound.
Qed.

(** A non-decreasing array of non-negative values is left unchanged. *)
Lemma walk_sorted_id lastTime tds :
  StronglySorted Z.le tds -> Forall (fun d => lastTime <= d) tds -> walk lastTime tds = tds.
Proof.
  intros Hs. revert lastTime. induction Hs as [|d rest Hs IH Hall]; intros lastTime Hlb.
  - done.
  - simpl. inversion Hlb as [|? ? Hd Hrest]; subst.
    destruct (Z.ltb_spec d lastTime); [lia|]. f_equal. by apply IH.
Qed.
End Normalize.

(** ** The merger's loops *)

Section MergeLoops.
Import Merge.

Lemma clampedClock_app c a b :
  clampedClock c (a ++ b) = clampedClock c a ++ clampedClock (clockAfter c a) b.
Proof.
  revert c. induction a as [|x a IH]; intros c; simpl; [done|]. by rewrite IH.
Qed.

Lemma clockAfter_app c a b : clockAfter c (a ++ b) = clockAfter (clockAfter c a) b.
Proof. revert c. induction a as [|x a IH]; intros c; simpl; [done|]. by rewrite IH. Qed.

Lemma clampedClock_length c a : length (clampedClock c a) = length a.
Proof. revert c. induction a as [|x a IH]; intros c; simpl; [done|]. by rewrite IH. Qed.

Lemma clampedClock_above c a : Forall (fun d => c < d) (clampedClock c a).
Proof.
  revert c. induction a as [|x a IH]; intros c; simpl; [constructor|].
  assert (c < (if x >? c then x else c + 1)) by (destruct (Z.gtb_spec x c); lia).
  constructor; [done|]. eapply Forall_impl; [apply IH|]. simpl; intros; lia.
Qed.

Lemma clampedClock_increasing c a : StronglySorted Z.lt (clampedClock c a).
Proof.
  revert c. induction a as [|x a IH]; intros c; simpl; constructor.
  - apply IH.
  - apply clampedClock_above.
Qed.

Lemma nodeLoop_mapping offset ns mp m k :
  fst (fold_left (nodeStep offset) ns (mp, m)) !! k
  = if decide (k ∈ map ProfileNode.id ns) then Some (offset + k) else mp !! k.
Proof.
  revert mp m. induction ns as [|n ns IH]; intros mp m.
  - cbn [fold_left fst map]. case_decide as Hin; [by apply elem_of_nil in Hin|done].
  - cbn [fold_left map].
    change (nodeStep offset (mp, m) n)
      with (<[ProfileNode.id n := offset + ProfileNode.id n]> mp,
            pushNode m (ProfileNode.withId n (offset + ProfileNode.id n))).
    rewrite IH.
    destruct (decide (k ∈ map ProfileNode.id ns)) as [Hin|Hnin].
    + by rewrite decide_True by (by right).
    + destruct (decide (k = ProfileNode.id n)) as [->|Hne].
      * rewrite decide_True by (by left). by rewrite lookup_insert_eq.
      * rewrite decide_False by (by intros [?|?]%elem_of_cons).
        by rewrite lookup_insert_ne.
Qed.

Lemma nodeLoop_profile offset ns mp m :
  let m' := snd (fold_left (nodeStep offset) ns (mp, m)) in
  CPUProfile.samples m' = CPUProfile.samples m
  /\ CPUProfile.timeDeltas m' = CPUProfile.timeDeltas m
  /\ CPUProfile.startTime m' = CPUProfile.startTime m
  /\ CPUProfile.endTime m' = CPUProfile.endTime m
  /\ CPUProfile.nodes m'
     = CPUProfile.nodes m
       ++ map (fun n => ProfileNode.withId n (offset + ProfileNode.id n)) ns.
Proof.
  revert mp m. induction ns as [|n ns IH]; intros mp m; cbn [fold_left].
  - simpl. by rewrite app_nil_r.
  - change (nodeStep offset (mp, m) n)
      with (<[ProfileNode.id n := offset + ProfileNode.id n]> mp,
            pushNode m (ProfileNode.withId n (offset + ProfileNode.id n))).
    destruct (IH (<[ProfileNode.id n := offset + ProfileNode.id n]> mp)
                 (pushNode m (ProfileNode.withId n (offset + ProfileNode.id n))))
      as (H1 & H2 & H3 & H4 & H5).
    cbn zeta. rewrite H1, H2, H3, H4, H5. simpl. by rewrite <- app_assoc.
Qed.

Lemma mapNodeId_remapId offset ns mp m s :
  mapNodeId (fst (fold_left (nodeStep offset) ns (mp, m))) s
  = if decide (s ∈ map ProfileNode.id ns) then remapId offset ns s
    else mapNodeId mp s.
Proof.
  unfold mapNodeId at 1. rewrite nodeLoop_mapping. unfold remapId.
  by destruct (decide (s ∈ map ProfileNode.id ns)).
Qed.

(** The sample loop, started at index [length pre] of [pre ++ suf]. *)
Lemma sampleLoop p mp timeOffset pre suf st :
  CPUProfile.samples p = pre ++ suf ->
  let st' := fold_left (sampleStep p mp timeOffset) (seq (length pre) (length suf)) st in
  let adj := map (fun i => timeOffset + orZero (CPUProfile.timeDeltas p !! i))
                 (seq (length pre) (length suf)) in
  CPUProfile.samples (merged st') = CPUProfile.samples (merged st) ++ map (mapNodeId mp) suf
  /\ CPUProfile.timeDeltas (merged st')
     = CPUProfile.timeDeltas (merged st) ++ clampedClock (cumulativeTime st) adj
  /\ CPUProfile.nodes (merged st') = CPUProfile.nodes (merged st)
  /\ CPUProfile.startTime (merged st') = CPUProfile.startTime (merged st)
  /\ CPUProfile.endTime (merged st') = CPUProfile.endTime (merged st)
  /\ nodeIdOffset st' = nodeIdOffset st
  /\ cumulativeTime st' = clockAfter (cumulativeTime st) adj.
Proof.
  revert pre st. induction suf as [|s suf IH]; intros pre st Hs.
  - simpl. by rewrite !app_nil_r.
  - cbn [length seq fold_left map].
    assert (Hi : CPUProfile.samples p !! length pre = Some s).
    { rewrite Hs. by apply list_lookup_middle. }
    set (c := if timeOffset + orZero (CPUProfile.timeDeltas p !! length pre)
                 >? cumulativeTime st
              then timeOffset + orZero (CPUProfile.timeDeltas p !! length pre)
              else cumulativeTime st + 1).
    assert (Hstep : sampleStep p mp timeOffset st (length pre)
                    = mkState (pushSample (merged st) (mapNodeId mp s) c)
                              (nodeIdOffset st) c).
    { unfold sampleStep. by rewrite Hi. }
    rewrite Hstep.
    specialize (IH (pre ++ [s])
                  (mkState (pushSample (merged st) (mapNodeId mp s) c) (nodeIdOffset st) c)).
    rewrite length_app in IH. simpl length in IH.
    replace (length pre + 1)%nat with (S (length pre)) in IH by lia.
    destruct IH as (H1 & H2 & H3 & H4 & H5 & H6 & H7); [by rewrite <- app_assoc|].
    cbn zeta. rewrite H1, H2, H3, H4, H5, H6, H7. cbn [clampedClock clockAfter].
    fold c. simpl. by rewrite <- !app_assoc.
Qed.

(** One source profile appended to the merged profile. *)
Lemma profileStep_spec st p :
  let st' := profileStep st p in
  let adj := adjustedDeltas (CPUProfile.startTime (merged st)) p in
  CPUProfile.samples (merged st')
  = CPUProfile.samples (merged st)
    ++ map (remapId (nodeIdOffset st) (CPUProfile.nodes p)) (CPUProfile.samples p)
  /\ CPUProfile.timeDeltas (merged st')
     = CPUProfile.timeDeltas (merged st) ++ clampedClock (cumulativeTime st) adj
  /\ CPUProfile.startTime (merged st') = CPUProfile.startTime (merged st)
  /\ CPUProfile.endTime (merged st') = CPUProfile.endTime (merged st)
  /\ nodeIdOffset st' = nodeIdOffset st + Z.of_nat (length (CPUProfile.nodes p))
  /\ cumulativeTime st' = clockAfter (cumulativeTime st) adj.
Proof.
  unfold profileStep.
  destruct (fold_left (nodeStep (nodeIdOffset st)) (CPUProfile.nodes p) (∅, merged st))
    as [mp m1] eqn:E.
  pose proof (nodeLoop_profile (nodeIdOffset st) (CPUProfile.nodes p) ∅ (merged st)) as Hn.
  rewrite E in Hn. cbn [snd] in Hn. destruct Hn as (N1 & N2 & N3 & N4 & _).
  pose proof (sampleLoop p mp
                ((CPUProfile.startTime p - CPUProfile.startTime (merged st)) * 1000)
                [] (CPUProfile.samples p)
                (mkState m1 (nodeIdOffset st) (cumulativeTime st)) eq_refl) as Hs.
  cbn [length] in Hs. cbn zeta in Hs. cbn [merged nodeIdOffset cumulativeTime] in Hs.
  destruct Hs as (H1 & H2 & _ & H4 & H5 & H6 & H7).
  cbn zeta. cbn [merged nodeIdOffset cumulativeTime].
  rewrite H1, H2, H4, H5, H6, H7, N1, N2, N3, N4.
  repeat split; try done.
  f_equal. apply map_ext. intros s.
  replace mp with (fst (fold_left (nodeStep (nodeIdOffset st)) (CPUProfile.nodes p)
                          (∅, merged st))) by (by rewrite E).
  rewrite mapNodeId_remapId. unfold remapId, mapNodeId.
  destruct (decide (s ∈ map ProfileNode.id (CPUProfile.nodes p))); [done|].
  by rewrite lookup_empty.
Qed.

(** The whole loop over the sorted profiles. *)
Lemma profileLoop ps st :
  let st' := fold_left profileStep ps st in
  let adj := flat_map (adjustedDeltas (CPUProfile.startTime (merged st))) ps in
  CPUProfile.samples (merged st')
  = CPUProfile.samples (merged st) ++ remapAll (nodeIdOffset st) ps
  /\ CPUProfile.timeDeltas (merged st')
     = CPUProfile.timeDeltas (merged st) ++ clampedClock (cumulativeTime st) adj
  /\ CPUProfile.startTime (merged st') = CPUProfile.startTime (merged st)
  /\ CPUProfile.endTime (merged st') = CPUProfile.endTime (merged st).
Proof.
  revert st. induction ps as [|p ps IH]; intros st.
  - simpl. by rewrite !app_nil_r.
  - cbn [fold_left flat_map remapAll].
    destruct (profileStep_spec st p) as (P1 & P2 & P3 & P4 & P5 & P6).
    destruct (IH (profileStep st p)) as (H1 & H2 & H3 & H4).
    cbn zeta. rewrite H1, H2, H3, H4, P1, P2, P3, P4, P5, P6.
    rewrite clampedClock_app, <- !app_assoc. done.
Qed.

End MergeLoops.

(** ** [Math.min] / [Math.max] over a non-empty list *)

Lemma Math_min_lower x xs : Forall (fun y => Math_min x xs <= y) (x :: xs).
Proof.
  unfold Math_min. revert x. induction xs as [|y xs IH]; intros x; cbn [fold_left].
  - by repeat constructor.
  - specialize (IH (Z.min x y)). inversion IH as [|? ? Hhd Htl]; subst.
    constructor; [lia|]. constructor; [lia|done].
Qed.

Lemma Math_min_elem x xs : Math_min x xs ∈ x :: xs.
Proof.
  unfold Math_min. revert x. induction xs as [|y xs IH]; intros x; cbn [fold_left].
  - by left.
  - specialize (IH (Z.min x y)). apply elem_of_cons in IH as [Heq|Hin].
    + rewrite Heq. destruct (Z.min_spec x y) as [[_ ->]|[_ ->]]; [by left|by right; left].
    + by do 2 right.
Qed.

Lemma Math_max_upper x xs : Forall (fun y => y <= Math_max x xs) (x :: xs).
Proof.
  unfold Math_max. revert x. induction xs as [|y xs IH]; intros x; cbn [fold_left].
  - by repeat constructor.
  - specialize (IH (Z.max x y)). inversion IH as [|? ? Hhd Htl]; subst.
    constructor; [lia|]. constructor; [lia|done].
Qed.

Lemma Math_max_elem x xs : Math_max x xs ∈ x :: xs.
Proof.
  unfold Math_max. revert x. induction xs as [|y xs IH]; intros x; cbn [fold_left].
  - by left.
  - specialize (IH (Z.max x y)). apply elem_of_cons in IH as [Heq|Hin].
    + rewrite Heq. destruct (Z.max_spec x y) as [[_ ->]|[_ ->]]; [by right; left|by left].
    + by do 2 right.
Qed.

(** ** What [mergeProfiles] returns *)

Lemma remapAll_length offset ps :
  length (remapAll offset ps) = length (flat_map CPUProfile.samples ps).
Proof.
  revert offset. induction ps as [|p ps IH]; intros offset; simpl; [done|].
  by rewrite !length_app, length_map, IH.
Qed.

Lemma adjustedDeltas_length s ps :
  length (flat_map (adjustedDeltas s) ps) = length (flat_map CPUProfile.samples ps).
Proof.
  induction ps as [|p ps IH]; simpl; [done|].
  rewrite !length_app, IH. unfold adjustedDeltas, adjustedFrom.
  by rewrite length_map, length_seq.
Qed.

(** The result of a successful merge, field by field. *)
Lemma mergeProfiles_Ok p ps :
  exists m,
    Merge.mergeProfiles (p :: ps) = Ok m
    /\ CPUProfile.startTime m
       = Math_min (CPUProfile.startTime p) (map CPUProfile.startTime ps)
    /\ CPUProfile.endTime m
       = Math_max (CPUProfile.endTime p) (map CPUProfile.endTime ps)
    /\ CPUProfile.samples m = remapAll 0 (JS.sort Merge.byStartTime (p :: ps))
    /\ CPUProfile.timeDeltas m
       = clampedClock 0
           (flat_map (adjustedDeltas (CPUProfile.startTime m))
                     (JS.sort Merge.byStartTime (p :: ps))).
Proof.
  eexists. split; [reflexivity|].
  set (m0 := CPUProfile.mk [] [] []
               (Math_min (CPUProfile.startTime p) (map CPUProfile.startTime ps))
               (Math_max (CPUProfile.endTime p) (map CPUProfile.endTime ps))).
  destruct (profileLoop (JS.sort Merge.byStartTime (p :: ps)) (Merge.mkState m0 0 0))
    as (H1 & H2 & H3 & H4).
  cbn [Merge.merged Merge.nodeIdOffset Merge.cumulativeTime] in *.
  rewrite H1, H2, H3, H4. by subst m0.
Qed.

Lemma mergeProfiles_lengths ps m :
  Merge.mergeProfiles ps = Ok m ->
  length (CPUProfile.samples m) = length (flat_map CPUProfile.samples ps)
  /\ length (CPUProfile.timeDeltas m) = length (flat_map CPUProfile.samples ps).
Proof.
  destruct ps as [|p ps]; [done|]. intros Hm.
  destruct (mergeProfiles_Ok p ps) as (m' & Hm' & _ & _ & Hs & Ht).
  rewrite Hm in Hm'. injection Hm' as <-.
  assert (Hperm : length (flat_map CPUProfile.samples (JS.sort Merge.byStartTime (p :: ps)))
                  = length (flat_map CPUProfile.samples (p :: ps))).
  { apply Permutation_length, Permutation_flat_map,
      (sort_Permutation CPUProfile.startTime). }
  rewrite Hs, Ht, clampedClock_length, remapAll_length, adjustedDeltas_length. by rewrite Hperm.
Qed.

(** ** Strings: the node keys identify the function *)

Lemma append_length (a b : string) :
  String.length (a +:+ b) = (String.length a + String.length b)%nat.
Proof. induction a as [|c a IH]; simpl; [done|]. by rewrite IH. Qed.

Lemma append_inj_length (a a' b b' : string) :
  String.length a = String.length a' -> a +:+ b = a' +:+ b' -> a = a'.
Proof.
  revert a'. induction a as [|c a IH]; intros [|c' a'] Hlen Heq; simpl in *; try done.
  injection Heq as -> Heq. f_equal. apply IH; [lia|done].
Qed.

Lemma workerUrl_inj workerId fn fn' :
  workerUrl workerId fn = workerUrl workerId fn' -> fn = fn'.
Proof.
  unfold workerUrl. intros H.
  by apply (String.app_inj _) in H; apply (String.app_inj _) in H.
Qed.

Lemma workerNodeKey_inj workerId fn fn' :
  Generator.workerNodeKey workerId fn = Generator.workerNodeKey workerId fn' -> fn = fn'.
Proof.
  unfold Generator.workerNodeKey. intros H.
  assert (Hlen : String.length fn = String.length fn').
  { apply (f_equal String.length) in H. rewrite !append_length in H. lia. }
  apply (String.app_inj _) in H. apply (String.app_inj _) in H.
  by apply append_inj_length in H.
Qed.

(** ** Adding the records of one worker *)

Section WorkerLoop.
Import Generator.

Lemma incrementHitCount_keys nodeId ns :
  nodeKeys (incrementHitCount nodeId ns) = nodeKeys ns.
Proof.
  induction ns as [|n ns IH]; simpl; [done|].
  destruct (ProfileNode.id n =? nodeId); simpl; [done|]. by rewrite IH.
Qed.

Lemma incrementHitCount_length nodeId ns :
  length (incrementHitCount nodeId ns) = length ns.
Proof.
  rewrite <- (length_map (fun n => (ProfileNode.id n,
                                     CallFrame.url (ProfileNode.callFrame n)))).
  fold (nodeKeys (incrementHitCount nodeId ns)). rewrite incrementHitCount_keys.
  apply length_map.
Qed.

(** A record whose key is already in [nodeMap] reuses the node. *)
Lemma addWorker_existing this data workerId nodeId :
  nodeMap this !! workerNodeKey workerId (WorkerPerformanceData.functionName data)
  = Some nodeId ->
  addWorkerPerformanceData this data workerId
  = pushSample (setNodes this (incrementHitCount nodeId (nodes this))) nodeId
      (rawDelta (startTime this) data).
Proof. intros H. unfold addWorkerPerformanceData. by rewrite H. Qed.

(** A record with a new key appends one node, with the next id. *)
Lemma addWorker_new this data workerId :
  nodeMap this !! workerNodeKey workerId (WorkerPerformanceData.functionName data) = None ->
  exists node sc sm,
    ProfileNode.id node = nodeIdCounter this
    /\ CallFrame.url (ProfileNode.callFrame node)
       = workerUrl workerId (WorkerPerformanceData.functionName data)
    /\ addWorkerPerformanceData this data workerId
       = mk (nodes this ++ [node]) (samples this ++ [nodeIdCounter this])
            (timeDeltas this ++ [rawDelta (startTime this) data])
            (<[workerNodeKey workerId (WorkerPerformanceData.functionName data)
               := nodeIdCounter this]> (nodeMap this))
            (nodeIdCounter this + 1) sc sm (startTime this).
Proof.
  intros H. unfold addWorkerPerformanceData. rewrite H.
  unfold nextNodeId, getScriptId. cbn [scriptMap scriptIdCounter].
  destruct (scriptMap this !! _);
    (do 3 eexists; split; [|split]; [| |reflexivity]; reflexivity).
Qed.

Lemma workerInv_init this s workerId : WorkerInv workerId [] (setStartTime (reset this) s).
Proof.
  constructor; simpl; try done; try (by constructor).
  - intros ? ? Hin. by apply elem_of_nil in Hin.
  - intros ? ? Hin. by apply elem_of_nil in Hin.
Qed.

Lemma workerInv_step workerId processed g data :
  WorkerInv workerId processed g ->
  WorkerInv workerId (processed ++ [data]) (addWorkerPerformanceData g data workerId)
  /\ startTime (addWorkerPerformanceData g data workerId) = startTime g.
Proof.
  intros [Hc Hreg Hlk Hids Hnd1 Hnd2 Hsm Hdl].
  destruct (nodeMap g !! workerNodeKey workerId (WorkerPerformanceData.functionName data))
    as [nodeId|] eqn:Hkey.
  - rewrite (addWorker_existing _ _ _ _ Hkey). split; [|done].
    constructor; cbn [pushSample setNodes nodes samples timeDeltas nodeMap nodeIdCounter
                       startTime]; rewrite ?incrementHitCount_keys; try done.
    + apply Forall2_app; [done|]. by repeat constructor.
    + by rewrite Hdl, map_app.
  - destruct (addWorker_new _ _ _ Hkey) as (node & sc & sm & Hid & Hurl & ->).
    split; [|done].
    assert (Hkeys : nodeKeys (nodes g ++ [node])
                    = nodeKeys (nodes g)
                      ++ [(nodeIdCounter g,
                           workerUrl workerId (WorkerPerformanceData.functionName data))]).
    { unfold nodeKeys. rewrite map_app. simpl. by rewrite Hid, Hurl. }
    constructor; cbn [nodes samples timeDeltas nodeMap nodeIdCounter startTime];
      rewrite ?Hkeys.
    + lia.
    + intros id u [Hin|Hin]%elem_of_app.
      * destruct (Hreg _ _ Hin) as (fn & -> & Hfn). exists fn. split; [done|].
        rewrite lookup_insert_ne; [done|]. intros Heq. rewrite <- Heq in Hfn. congruence.
      * apply list_elem_of_singleton in Hin. injection Hin as -> ->.
        eexists. split; [done|]. apply lookup_insert_eq.
    + intros fn id Hfn.
      destruct (decide (workerNodeKey workerId (WorkerPerformanceData.functionName data)
                        = workerNodeKey workerId fn)) as [Heq|Hne].
      * rewrite Heq, lookup_insert_eq in Hfn. injection Hfn as <-.
        apply workerNodeKey_inj in Heq as <-. apply elem_of_app. right. by left.
      * rewrite lookup_insert_ne in Hfn by done. apply elem_of_app. left. by apply Hlk.
    + intros id u [Hin|Hin]%elem_of_app.
      * specialize (Hids _ _ Hin). lia.
      * apply list_elem_of_singleton in Hin. injection Hin as -> ->. lia.
    + rewrite map_app. apply NoDup_app. split; [done|]. split; [|by apply NoDup_singleton].
      intros id Hin Hin'. apply list_elem_of_singleton in Hin'. subst id.
      apply list_elem_of_fmap in Hin as ([id u] & Heq & Hin). simpl in Heq. subst id.
      specialize (Hids _ _ Hin). lia.
    + rewrite map_app. apply NoDup_app. split; [done|]. split; [|by apply NoDup_singleton].
      intros u Hin Hin'. apply list_elem_of_singleton in Hin'. subst u.
      apply list_elem_of_fmap in Hin as ([id u] & Heq & Hin). simpl in Heq. subst u.
      destruct (Hreg _ _ Hin) as (fn & Hu & Hfn).
      apply workerUrl_inj in Hu as <-. congruence.
    + apply Forall2_app.
      * eapply Forall2_impl; [exact Hsm|]. intros d s Hd. simpl in Hd.
        rewrite lookup_insert_ne; [done|]. intros Heq. rewrite <- Heq in Hd. congruence.
      * repeat constructor. apply lookup_insert_eq.
    + by rewrite Hdl, map_app.
Qed.

Lemma workerInv_loop workerId ds processed g :
  WorkerInv workerId processed g ->
  let g' := fold_left (fun g data => addWorkerPerformanceData g data workerId) ds g in
  WorkerInv workerId (processed ++ ds) g' /\ startTime g' = startTime g.
Proof.
  revert processed g. induction ds as [|d ds IH]; intros processed g Hinv.
  - simpl. by rewrite app_nil_r.
  - cbn [fold_left]. destruct (workerInv_step _ _ _ d Hinv) as [Hstep Hst].
    destruct (IH _ _ Hstep) as [H1 H2]. cbn zeta in *.
    rewrite <- app_assoc in H1. split; [exact H1|]. by rewrite H2.
Qed.

End WorkerLoop.

(** ** The builder on telemetry records *)

Lemma worker_profile this σ workerData startTime endTime workerId :
  let sorted := JS.sort Generator.byStartTime (σ !!! workerData) in
  exists g,
    WorkerInv workerId sorted g
    /\ Generator.startTime g = startTime
    /\ Generator.generateFromSingleWorkerData this σ workerData startTime endTime workerId
       = (CPUProfile.mk (Generator.nodes g) (Generator.samples g)
            (walk 0 (Generator.timeDeltas g)) startTime endTime,
          Generator.normalizeTimeDeltas g,
          <[workerData := sorted]> σ).
Proof.
  intros sorted.
  destruct (workerInv_loop workerId sorted [] _
              (workerInv_init this startTime workerId)) as [Hinv Hst].
  cbn zeta in *. eexists. split; [exact Hinv|]. split; [exact Hst|].
  unfold Generator.generateFromSingleWorkerData, Generator.toProfile.
  fold sorted. cbn [Generator.normalizeTimeDeltas Generator.setTimeDeltas Generator.nodes
                     Generator.samples Generator.timeDeltas].
  by rewrite normalizeArray_walk.
Qed.

(** The builder's time deltas on records are non-decreasing, whatever the
    order or the clocks of the records. *)
Lemma worker_timeDeltas_nondecreasing this σ workerData startTime endTime workerId :
  StronglySorted Z.le
    (CPUProfile.timeDeltas
       (Generator.generateFromSingleWorkerData this σ workerData startTime endTime
          workerId).1.1).
Proof.
  destruct (worker_profile this σ workerData startTime endTime workerId)
    as (g & _ & _ & ->).
  apply walk_nondecreasing.
Qed.

(** ** The builder on a sampled trace *)

Section TraceLoop.
Import Generator.

Lemma getOrCreateNode_samples markedFunctions this frame threadName :
  samples (getOrCreateNode markedFunctions this frame threadName).2 = samples this
  /\ timeDeltas (getOrCreateNode markedFunctions this frame threadName).2
     = timeDeltas this.
Proof.
  unfold getOrCreateNode.
  destruct (nodeMap this !! traceNodeKey frame threadName); [done|].
  unfold nextNodeId, getScriptId. cbn [scriptMap scriptIdCounter].
  by destruct (scriptMap this !! _).
Qed.

Lemma frameLoop_samples markedFunctions threadName fs this :
  let this' :=
    fold_left (fun g frame => (getOrCreateNode markedFunctions g frame threadName).2)
              fs this in
  samples this' = samples this /\ timeDeltas this' = timeDeltas this.
Proof.
  revert this. induction fs as [|f fs IH]; intros this; [done|].
  cbn [fold_left]. destruct (IH (getOrCreateNode markedFunctions this f threadName).2)
    as [H1 H2].
  destruct (getOrCreateNode_samples markedFunctions this f threadName) as [G1 G2].
  cbn zeta in *. by rewrite H1, H2, G1, G2.
Qed.

(** One iteration of the sampling loop: a kept sample appends to both arrays,
    a skipped one to neither. *)
Lemma traceSampleStep_spec markedFunctions stacks frames startTime threadName this sample this' :
  traceSampleStep markedFunctions stacks frames startTime threadName this sample = Ok this' ->
  if sampleResolves stacks sample
  then exists nodeId,
         samples this' = samples this ++ [nodeId]
         /\ timeDeltas this'
            = timeDeltas this ++ [(Trace.timestamp sample - startTime) * 1000]
  else this' = this.
Proof.
  unfold traceSampleStep, sampleResolves.
  destruct (Trace.stackId sample) as [sid|]; [|by intros [= <-]].
  destruct (index stacks sid) as [stack|]; [|by intros [= <-]].
  destruct (Trace.frameId stack) as [fid|] eqn:Hfid.
  - rewrite bool_decide_eq_true_2 by eauto.
    destruct (index frames fid) as [frame|]; [|done].
    destruct (getOrCreateNode markedFunctions this frame threadName) as [nodeId this1] eqn:E.
    intros [= <-]. exists nodeId.
    destruct (getOrCreateNode_samples markedFunctions this frame threadName) as [G1 G2].
    rewrite E in G1, G2. simpl in *. by rewrite G1, G2.
  - rewrite bool_decide_eq_false_2 by (by intros [? ?]). by intros [= <-].
Qed.

Lemma sampleLoop_trace markedFunctions stacks frames startTime threadName ss this this' :
  forEachM (traceSampleStep markedFunctions stacks frames startTime threadName) ss this
  = Ok this' ->
  exists ids,
    length ids = length (filter (fun s => sampleResolves stacks s = true) ss)
    /\ samples this' = samples this ++ ids
    /\ timeDeltas this'
       = timeDeltas this
         ++ map (fun s => (Trace.timestamp s - startTime) * 1000)
                (filter (fun s => sampleResolves stacks s = true) ss).
Proof.
  revert this. induction ss as [|s ss IH]; intros this.
  - intros [= <-]. exists []. by rewrite !app_nil_r.
  - cbn [forEachM].
    destruct (traceSampleStep markedFunctions stacks frames startTime threadName this s)
      as [this1|] eqn:E; [|done].
    cbn [JS.bind]. intros Hrest.
    destruct (IH _ Hrest) as (ids & Hlen & Hs & Ht).
    apply traceSampleStep_spec in E.
    destruct (sampleResolves stacks s) eqn:R.
    + destruct E as (nodeId & E1 & E2).
      exists (nodeId :: ids). rewrite filter_cons_True by done.
      rewrite Hs, Ht, E1, E2. simpl. rewrite Hlen, <- !app_assoc. done.
    + subst this1. exists ids. rewrite filter_cons_False by (by rewrite R). done.
Qed.

(** [nodeMap] only grows: a registered key keeps its node id. *)
Lemma getOrCreateNode_keeps markedFunctions this frame threadName key nodeId :
  nodeMap this !! key = Some nodeId ->
  nodeMap (getOrCreateNode markedFunctions this frame threadName).2 !! key = Some nodeId.
Proof.
  intros Hk. unfold getOrCreateNode.
  destruct (nodeMap this !! traceNodeKey frame threadName) eqn:Hf; [done|].
  unfold nextNodeId, getScriptId. cbn [scriptMap scriptIdCounter].
  destruct (scriptMap this !! _); cbn [snd registerNode nodeMap];
    (rewrite lookup_insert_ne; [done|]); intros Heq; rewrite Heq in Hf; congruence.
Qed.

Lemma frameLoop_keeps markedFunctions threadName fs this key nodeId :
  nodeMap this !! key = Some nodeId ->
  nodeMap (fold_left (fun g frame => (getOrCreateNode markedFunctions g frame threadName).2)
                     fs this) !! key = Some nodeId.
Proof.
  revert this. induction fs as [|f fs IH]; intros this Hk; [done|].
  cbn [fold_left]. by apply IH, getOrCreateNode_keeps.
Qed.

Lemma getOrCreateNode_registered markedFunctions this frame threadName :
  nodeMap (getOrCreateNode markedFunctions this frame threadName).2
    !! traceNodeKey frame threadName
  = Some (getOrCreateNode markedFunctions this frame threadName).1.
Proof.
  unfold getOrCreateNode.
  destruct (nodeMap this !! traceNodeKey frame threadName) eqn:Hf; [done|].
  unfold nextNodeId, getScriptId. cbn [scriptMap scriptIdCounter].
  destruct (scriptMap this !! _); cbn [fst snd registerNode nodeMap ProfileNode.id];
    apply lookup_insert_eq.
Qed.

Lemma getOrCreateNode_hit markedFunctions this frame threadName nodeId :
  nodeMap this !! traceNodeKey frame threadName = Some nodeId ->
  getOrCreateNode markedFunctions this frame threadName = (nodeId, this).
Proof. intros Hk. unfold getOrCreateNode. by rewrite Hk. Qed.

End TraceLoop.

(** ** Positions and first occurrences in a list of strings *)

Lemma indexOf_app x names y :
  indexOf x (names ++ [y])
  = match indexOf x names with
    | Some i => Some i
    | None => if decide (y = x) then Some (length names) else None
    end.
Proof.
  induction names as [|z names IH]; simpl.
  - by destruct (decide (y = x)).
  - destruct (decide (z = x)); [done|]. rewrite IH.
    destruct (indexOf x names); [done|]. by destruct (decide (y = x)).
Qed.

Lemma indexOf_None x names : indexOf x names = None <-> x ∉ names.
Proof.
  induction names as [|z names IH]; simpl.
  - split; [intros _; apply not_elem_of_nil|done].
  - destruct (decide (z = x)) as [->|Hne].
    + split; [done|]. intros H. exfalso. apply H. by left.
    + rewrite not_elem_of_cons. destruct (indexOf x names) eqn:E; simpl.
      * split; [done|]. intros [_ H]. by apply IH in H.
      * split; [|done]. intros _. split; [done|]. by apply IH.
Qed.

Lemma indexOf_Some x names i : indexOf x names = Some i -> names !! i = Some x.
Proof.
  revert i. induction names as [|z names IH]; intros i; simpl; [done|].
  destruct (decide (z = x)) as [->|Hne]; [by intros [= <-]|].
  destruct (indexOf x names) as [j|]; [|done]. intros [= <-]. by apply IH.
Qed.

Lemma indexOf_lookup x names i :
  NoDup names -> names !! i = Some x -> indexOf x names = Some i.
Proof.
  intros Hnd. revert i. induction Hnd as [|z names Hz Hnd IH]; intros i Hi; [done|].
  simpl. destruct i as [|i]; simpl in Hi.
  - injection Hi as ->. by rewrite decide_True.
  - rewrite decide_False.
    + by rewrite (IH _ Hi).
    + intros ->. apply Hz. by eapply list_elem_of_lookup_2.
Qed.

Lemma firstOccurrences_snoc keys k :
  firstOccurrences (keys ++ [k])
  = if decide (k ∈ firstOccurrences keys) then firstOccurrences keys
    else firstOccurrences keys ++ [k].
Proof. unfold firstOccurrences. by rewrite fold_left_app. Qed.

Lemma firstOccurrences_elem keys k : k ∈ firstOccurrences keys <-> k ∈ keys.
Proof.
  induction keys as [|x keys IH] using rev_ind; [done|].
  rewrite firstOccurrences_snoc, elem_of_app, list_elem_of_singleton.
  case_decide as Hin.
  - rewrite IH. split; [by left|]. intros [?| ->]; [done|]. by apply IH.
  - rewrite elem_of_app, list_elem_of_singleton, IH. done.
Qed.

Lemma firstOccurrences_NoDup keys : NoDup (firstOccurrences keys).
Proof.
  induction keys as [|x keys IH] using rev_ind; [constructor|].
  rewrite firstOccurrences_snoc. case_decide as Hin; [done|].
  apply NoDup_app. split; [done|]. split; [|apply NoDup_singleton].
  intros y Hy Hy'. apply list_elem_of_singleton in Hy'. by subst y.
Qed.

(** * The claims *)

(** ** The merger *)

(** C2: for a non-empty list of profiles, [mergeProfiles] returns a profile
    whose [startTime] is the minimum and whose [endTime] is the maximum over
    the inputs; the profiles are processed in ascending [startTime] order,
    every appended time delta is [timeOffset + originalDelta] when that
    strictly exceeds the running clock and [cumulative + 1] otherwise, and the
    resulting [timeDeltas] are strictly increasing. *)
Theorem mergeProfiles_time_base_and_clock (profiles : list CPUProfile.t) :
  profiles <> [] ->
  exists m,
    Merge.mergeProfiles profiles = Ok m
    /\ Forall (fun p => CPUProfile.startTime m <= CPUProfile.startTime p) profiles
    /\ CPUProfile.startTime m ∈ map CPUProfile.startTime profiles
    /\ Forall (fun p => CPUProfile.endTime p <= CPUProfile.endTime m) profiles
    /\ CPUProfile.endTime m ∈ map CPUProfile.endTime profiles
    /\ (let sorted := JS.sort Merge.byStartTime profiles in
        sorted ≡ₚ profiles
        /\ StronglySorted (keyLe CPUProfile.startTime) sorted
        /\ CPUProfile.timeDeltas m
           = clampedClock 0 (flat_map (adjustedDeltas (CPUProfile.startTime m)) sorted))
    /\ StronglySorted Z.lt (CPUProfile.timeDeltas m).
Proof.
  destruct profiles as [|p ps]; [done|]. intros _.
  destruct (mergeProfiles_Ok p ps) as (m & Hm & Hs & He & _ & Ht).
  exists m. split; [exact Hm|].
  split.
  { pose proof (Math_min_lower (CPUProfile.startTime p) (map CPUProfile.startTime ps)) as H.
    rewrite Hs. apply Forall_forall. intros q Hq.
    rewrite Forall_forall in H. apply H.
    by apply (list_elem_of_fmap_2 CPUProfile.startTime (p :: ps)). }
  split; [rewrite Hs; apply (Math_min_elem _ _)|].
  split.
  { pose proof (Math_max_upper (CPUProfile.endTime p) (map CPUProfile.endTime ps)) as H.
    rewrite He. apply Forall_forall. intros q Hq.
    rewrite Forall_forall in H. apply H.
    by apply (list_elem_of_fmap_2 CPUProfile.endTime (p :: ps)). }
  split; [rewrite He; apply (Math_max_elem _ _)|].
  split.
  - split; [apply (sort_Permutation CPUProfile.startTime)|].
    split; [apply (sort_StronglySorted CPUProfile.startTime)|exact Ht].
  - rewrite Ht. apply clampedClock_increasing.
Qed.

Lemma mergeProfiles_time_base_and_clock_witness :
  [profileA; profileB] <> []
  /\ exists m,
       Merge.mergeProfiles [profileA; profileB] = Ok m
       /\ CPUProfile.startTime m = 3 /\ CPUProfile.endTime m = 12
       /\ CPUProfile.timeDeltas m = [1; 7000; 7001; 7002].
Proof.
  assert (Hne : [profileA; profileB] <> []) by discriminate.
  split; [exact Hne|].
  destruct (mergeProfiles_time_base_and_clock [profileA; profileB] Hne)
    as (m & Hm & _ & _ & _ & _ & (_ & _ & Ht) & _).
  exists m. split; [exact Hm|].
  injection Hm as <-. repeat split; vm_compute; reflexivity.
Defined.

(** C3: merging two profiles yields [|P1.samples| + |P2.samples|] samples; the
    samples of the profile that starts first come first, then those of the
    other, each block in its source order with the node ids remapped. *)
Theorem merge_two_keeps_samples_in_order (P1 P2 : CPUProfile.t) :
  exists m,
    Merge.mergeProfiles [P1; P2] = Ok m
    /\ length (CPUProfile.samples m)
       = (length (CPUProfile.samples P1) + length (CPUProfile.samples P2))%nat
    /\ (let '(first, second) :=
          if CPUProfile.startTime P1 <=? CPUProfile.startTime P2
          then (P1, P2) else (P2, P1) in
        CPUProfile.samples m
        = map (remapId 0 (CPUProfile.nodes first)) (CPUProfile.samples first)
          ++ map (remapId (Z.of_nat (length (CPUProfile.nodes first)))
                    (CPUProfile.nodes second))
                 (CPUProfile.samples second)).
Proof.
  destruct (mergeProfiles_Ok P1 [P2]) as (m & Hm & _ & _ & Hs & _).
  exists m. split; [exact Hm|].
  assert (Hsort : JS.sort Merge.byStartTime [P1; P2]
                  = if CPUProfile.startTime P1 <=? CPUProfile.startTime P2
                    then [P1; P2] else [P2; P1]).
  { cbn [JS.sort JS.insert]. unfold Merge.byStartTime.
    destruct (Z.leb_spec (CPUProfile.startTime P1 - CPUProfile.startTime P2) 0),
             (Z.leb_spec (CPUProfile.startTime P1) (CPUProfile.startTime P2));
      first [done|lia]. }
  rewrite Hsort in Hs. rewrite Hs.
  destruct (CPUProfile.startTime P1 <=? CPUProfile.startTime P2);
    cbn [remapAll]; rewrite app_nil_r, Z.add_0_l;
    (split; [|done]); rewrite length_app, !length_map; lia.
Qed.

(** C6: [mergeProfiles] throws if and only if it is given no profile; given
    at least one it returns a merged profile; the empty-list error is the only
    one it raises. *)
Theorem mergeProfiles_throws_iff_empty (profiles : list CPUProfile.t) :
  ((exists e, Merge.mergeProfiles profiles = Throw e) <-> profiles = [])
  /\ ((exists m, Merge.mergeProfiles profiles = Ok m) <-> profiles <> [])
  /\ (forall e, Merge.mergeProfiles profiles = Throw e ->
                e = Error "Cannot merge empty profiles").
Proof.
  destruct profiles as [|p ps].
  - split; [|split].
    + split; [done|]. intros _. by eexists.
    + split; [by intros [m Hm]|done].
    + by intros e [= <-].
  - destruct (mergeProfiles_Ok p ps) as (m & Hm & _).
    split; [|split].
    + split; [|done]. intros [e He]. rewrite Hm in He. done.
    + split; [done|]. intros _. by exists m.
    + intros e He. rewrite Hm in He. done.
Qed.

(** ** The builder *)

(** C1 (the trace path): [generateFromTrace] pushes [(timestamp - startTime) *
    1000] for each kept sample in trace order and never normalises; on a trace
    whose samples are out of order the returned [timeDeltas] decrease. *)
Theorem generateFromTrace_timeDeltas_decrease :
  match Generator.generateFromTrace ∅ Generator.new (Some outOfOrderTrace) 0 30
          "Main Thread" with
  | Ok (p, _) =>
      CPUProfile.timeDeltas p = [20000; 10000]
      /\ ~ StronglySorted Z.le (CPUProfile.timeDeltas p)
  | Throw _ => False
  end.
Proof.
  vm_compute. split; [reflexivity|].
  intros H. inversion H as [|? ? _ Hall]; subst.
  inversion Hall as [|? ? Hle _]; subst. by apply Hle.
Qed.

(** C9: the profiles returned by [generateFromTrace],
    [generateFromSingleWorkerData] and [mergeProfiles] have as many time
    deltas as samples.  On a trace, both arrays have one entry per sample
    whose stack exists and names a frame: a skipped sample adds to neither.
    On records, both have one entry per record.  After a merge, both have one
    entry per input sample. *)
Theorem samples_timeDeltas_aligned :
  (forall markedFunctions this trace startTime endTime threadName p g,
      Generator.generateFromTrace markedFunctions this trace startTime endTime threadName
      = Ok (p, g) ->
      length (CPUProfile.samples p) = length (CPUProfile.timeDeltas p)
      /\ forall tr ss sts,
           trace = Some tr -> Trace.samples tr = Some ss -> Trace.stacks tr = Some sts ->
           length (CPUProfile.samples p)
           = length (filter (fun s => sampleResolves sts s = true) ss))
  /\ (forall this σ workerData startTime endTime workerId,
        let p := (Generator.generateFromSingleWorkerData this σ workerData startTime
                    endTime workerId).1.1 in
        length (CPUProfile.samples p) = length (CPUProfile.timeDeltas p)
        /\ length (CPUProfile.samples p) = length (σ !!! workerData))
  /\ (forall profiles m,
        Merge.mergeProfiles profiles = Ok m ->
        length (CPUProfile.samples m) = length (CPUProfile.timeDeltas m)
        /\ length (CPUProfile.samples m) = length (flat_map CPUProfile.samples profiles)).
Proof.
  split; [|split].
  - intros markedFunctions this trace startTime endTime threadName p g.
    unfold Generator.generateFromTrace.
    destruct trace as [tr|]; [|intros [= <- <-]; split; [done|intros; congruence]].
    destruct (Trace.samples tr) as [ss|] eqn:Hss;
      [|intros [= <- <-]; split; [done|intros; congruence]].
    destruct (Trace.stacks tr) as [sts|] eqn:Hsts;
      [|intros [= <- <-]; split; [done|intros; congruence]].
    unfold Generator.processTrace. rewrite Hss, Hsts. cbn [default from_option id].
    match goal with
    | |- context [Generator.forEachM ?f ss ?s0] =>
        destruct (Generator.forEachM f ss s0) as [this1|] eqn:E; [|done]
    end.
    cbn [JS.bind]. intros [= <- <-].
    apply sampleLoop_trace in E as (ids & Hlen & Hs & Ht).
    destruct (frameLoop_samples markedFunctions threadName
                (default [] (Trace.frames tr))
                (Generator.setStartTime (Generator.reset this) startTime)) as [F1 F2].
    cbn zeta in F1, F2. rewrite F1 in Hs. rewrite F2 in Ht. simpl in Hs, Ht.
    cbn [Generator.toProfile CPUProfile.samples CPUProfile.timeDeltas].
    rewrite Hs, Ht, length_map.
    split; [done|]. intros tr' ss' sts' [= <-] Hss' Hsts'.
    rewrite Hss in Hss'. rewrite Hsts in Hsts'.
    injection Hss' as <-. injection Hsts' as <-. done.
  - intros this σ workerData startTime endTime workerId.
    destruct (worker_profile this σ workerData startTime endTime workerId)
      as (g & Hinv & _ & ->).
    cbn [fst CPUProfile.samples CPUProfile.timeDeltas].
    rewrite walk_length, (inv_deltas _ _ _ Hinv), length_map.
    rewrite <- (Forall2_length _ _ _ (inv_samples _ _ _ Hinv)).
    split; [done|]. apply (sort_length WorkerPerformanceData.startTime).
  - intros profiles m Hm. destruct (mergeProfiles_lengths _ _ Hm) as [H1 H2].
    by rewrite H1, H2.
Qed.

Lemma samples_timeDeltas_aligned_witness :
  exists p g,
    Generator.generateFromTrace ∅ Generator.new (Some sparseTrace) 0 10 "Main Thread"
    = Ok (p, g)
    /\ length (CPUProfile.samples p) = 1%nat
    /\ length (CPUProfile.timeDeltas p) = 1%nat.
Proof.
  destruct (Generator.generateFromTrace ∅ Generator.new (Some sparseTrace) 0 10
              "Main Thread") as [[p g]|] eqn:E; [|by vm_compute in E].
  exists p, g. split; [reflexivity|].
  destruct (proj1 samples_timeDeltas_aligned _ _ _ _ _ _ _ _ E) as [Hlen Hkept].
  pose proof (Hkept sparseTrace _ _ eq_refl eq_refl eq_refl) as Hk.
  split; [exact Hk|]. rewrite <- Hlen. exact Hk.
Defined.

Lemma walk_lookup lastTime tds i d :
  tds !! i = Some d ->
  let prev := match i with
              | O => lastTime
              | S j => orZero (walk lastTime tds !! j)
              end in
  walk lastTime tds !! i = Some (if d <? prev then prev + 1 else d).
Proof.
  revert lastTime i. induction tds as [|d0 rest IH]; intros lastTime i Hi; [done|].
  destruct i as [|i]; simpl in Hi.
  - injection Hi as ->. done.
  - cbn [walk lookup list_lookup]. rewrite (IH _ _ Hi). cbn zeta.
    by destruct i.
Qed.

(** C4 as stated fails on a first element below zero: the walk compares it
    with the initial [lastTime = 0] and replaces it by [1]. *)
Lemma normalization_changes_first_element :
  Generator.normalizeArray [-5000] <> [-5000]
  /\ CPUProfile.timeDeltas
       (Generator.generateFromSingleWorkerData Generator.new
          {[1%positive := [record "f" 5 8]]} 1%positive 10 20 "1").1.1
     = [1].
Proof. split; [by vm_compute|by vm_compute]. Qed.

(** C4 (amended): in [generateFromSingleWorkerData] the normalisation pass
    walks the raw deltas of the sorted records once, keeping their number;
    with [lastTime] the normalised value before position [i], and [0] at the
    first position, a value below [lastTime] becomes [lastTime + 1] and every
    other value is unchanged. *)
Theorem normalization_pass this σ workerData startTime endTime workerId :
  let raw :=
    map (rawDelta startTime) (JS.sort Generator.byStartTime (σ !!! workerData)) in
  let out :=
    CPUProfile.timeDeltas
      (Generator.generateFromSingleWorkerData this σ workerData startTime endTime
         workerId).1.1 in
  out = Generator.normalizeArray raw
  /\ length out = length raw
  /\ forall (i : nat) (d : Z),
       raw !! i = Some d ->
       let lastTime := match i with
                       | O => 0
                       | S j => orZero (out !! j)
                       end in
       out !! i = Some (if d <? lastTime then lastTime + 1 else d).
Proof.
  intros raw out. subst out.
  destruct (worker_profile this σ workerData startTime endTime workerId)
    as (g & Hinv & Hst & ->).
  cbn [fst CPUProfile.timeDeltas].
  assert (Hraw : Generator.timeDeltas g = raw).
  { by rewrite (inv_deltas _ _ _ Hinv), Hst. }
  rewrite Hraw.
  split; [by rewrite normalizeArray_walk|]. split; [apply walk_length|].
  intros i d Hi. by apply walk_lookup.
Qed.

Section TraceKeys.
Import Generator.

Lemma find_app {A} (f : A -> bool) l1 l2 :
  List.find f (l1 ++ l2)
  = match List.find f l1 with Some x => Some x | None => List.find f l2 end.
Proof. induction l1 as [|x l1 IH]; simpl; [done|]. by destruct (f x). Qed.

Lemma firstFrame_None threadName frames key :
  key ∉ map (fun f => traceNodeKey f threadName) frames ->
  firstFrame threadName frames key = None.
Proof.
  unfold firstFrame. induction frames as [|f frames IH]; simpl; [done|].
  intros [Hne Hrest]%not_elem_of_cons.
  destruct (String.eqb_spec (traceNodeKey f threadName) key) as [Heq|_]; [congruence|].
  by apply IH.
Qed.

Lemma keyInv_init threadName this s : KeyInv threadName [] (setStartTime (reset this) s).
Proof.
  constructor; simpl; try done.
Qed.

Lemma keyInv_getOrCreateNode markedFunctions threadName processed this frame :
  KeyInv threadName processed this ->
  KeyInv threadName (processed ++ [frame])
    (getOrCreateNode markedFunctions this frame threadName).2.
Proof.
  intros [Hc Hlen Hmap Hnodes].
  set (key := fun f => traceNodeKey f threadName) in *.
  set (keys := firstOccurrences (map key processed)) in *.
  assert (Hkeys' : firstOccurrences (map key (processed ++ [frame]))
                   = if decide (key frame ∈ keys) then keys else keys ++ [key frame]).
  { rewrite map_app. cbn [map]. by rewrite firstOccurrences_snoc. }
  unfold getOrCreateNode. fold (key frame).
  destruct (nodeMap this !! key frame) as [nodeId|] eqn:Hkey.
  - assert (Hin : key frame ∈ keys).
    { rewrite Hmap in Hkey. destruct (indexOf (key frame) keys) as [i|] eqn:Hi; [|done].
      apply indexOf_Some in Hi. by eapply list_elem_of_lookup_2. }
    cbn [snd]. constructor; fold key; rewrite ?Hkeys', ?decide_True by done; try done.
    intros i k Hi. destruct (Hnodes i k Hi) as (f & n & Hf & Hn & Hfields).
    exists f, n. split; [|done]. unfold firstFrame in *. by rewrite find_app, Hf.
  - assert (Hnin : key frame ∉ keys).
    { rewrite Hmap in Hkey. destruct (indexOf (key frame) keys) eqn:Hi; [done|].
      by apply indexOf_None. }
    unfold nextNodeId, getScriptId. cbn [scriptMap scriptIdCounter].
    set (fn := orString (Trace.name frame) "(anonymous)").
    assert (Hgoal : forall sid sc sm,
      KeyInv threadName (processed ++ [frame])
        (registerNode
           (mk (nodes this) (samples this) (timeDeltas this) (nodeMap this)
               (nodeIdCounter this + 1) sc sm (startTime this))
           (key frame)
           (ProfileNode.mk (nodeIdCounter this)
              (CallFrame.mk
                 (if String.eqb threadName "Main Thread" then fn
                  else "[" +:+ threadName +:+ "] " +:+ fn)
                 sid (traceNodeUrl frame threadName)
                 (default 0 (Trace.line frame)) (default 0 (Trace.column frame)))
              (Some 1) None None (getFunctionMarker markedFunctions fn)))).
    { intros sid sc sm.
      constructor; fold key; rewrite ?Hkeys', ?decide_False by done;
        cbn [registerNode nodes samples nodeMap nodeIdCounter ProfileNode.id].
      - rewrite length_app. simpl. lia.
      - rewrite !length_app. simpl. lia.
      - intros k. rewrite indexOf_app.
        destruct (decide (key frame = k)) as [<-|Hne].
        + rewrite lookup_insert_eq. apply indexOf_None in Hnin. rewrite Hnin.
          simpl. by rewrite Hc, Hlen.
        + rewrite lookup_insert_ne by done. rewrite Hmap.
          by destruct (indexOf k keys).
      - intros i k [Hi|[Hge Hi]]%lookup_app_Some.
        + destruct (Hnodes i k Hi) as (f & n & Hf & Hn & Hfields).
          exists f, n. split; [unfold firstFrame in *; by rewrite find_app, Hf|].
          split; [by apply lookup_app_l_Some|done].
        + apply list_lookup_singleton_Some in Hi as [Hi <-].
          assert (i = length keys) as -> by lia.
          eexists frame, _. split.
          { unfold firstFrame. rewrite find_app.
            pose proof (firstFrame_None threadName processed (key frame)) as Hnone.
            unfold firstFrame in Hnone. rewrite Hnone.
            - simpl. fold (key frame). by rewrite String.eqb_refl.
            - intros Hin. apply Hnin. by apply firstOccurrences_elem. }
          split.
          { rewrite lookup_app_r by lia. rewrite Hlen, Nat.sub_diag. reflexivity. }
          unfold nodeOfFrame, shownName. simpl. by rewrite Hc, Hlen. }
    destruct (scriptMap this !! traceNodeUrl frame threadName); apply Hgoal.
Qed.

Lemma keyInv_frameLoop markedFunctions threadName fs : forall processed this,
  KeyInv threadName processed this ->
  KeyInv threadName (processed ++ fs)
    (fold_left (fun g frame => (getOrCreateNode markedFunctions g frame threadName).2)
               fs this).
Proof.
  induction fs as [|f fs IH]; intros processed this Hinv.
  - simpl. by rewrite app_nil_r.
  - cbn [fold_left]. replace (processed ++ f :: fs) with ((processed ++ [f]) ++ fs)
      by (by rewrite <- app_assoc).
    apply IH. by apply keyInv_getOrCreateNode.
Qed.

(** The sampling loop looks every kept sample's frame up in the registry
    and leaves the registry alone. *)
Lemma keyInv_sampleLoop markedFunctions threadName stacks frames startTime ss : forall this this',
  KeyInv threadName frames this ->
  forEachM (traceSampleStep markedFunctions stacks frames startTime threadName) ss this
  = Ok this' ->
  nodes this' = nodes this
  /\ exists ids,
       samples this' = samples this ++ ids
       /\ Forall2
            (fun frame s =>
               Z.of_nat
                 <$> indexOf (traceNodeKey frame threadName)
                       (firstOccurrences
                          (map (fun f => traceNodeKey f threadName) frames))
               = Some s)
            (omap (sampleFrame stacks frames) ss) ids.
Proof.
  induction ss as [|s ss IH]; intros this this' Hinv.
  - intros [= <-]. split; [done|]. exists []. rewrite app_nil_r. split; [done|constructor].
  - cbn [forEachM].
    destruct (traceSampleStep markedFunctions stacks frames startTime threadName this s)
      as [this1|] eqn:E; [|done].
    cbn [JS.bind]. intros Hrest.
    assert (Hstep :
      KeyInv threadName frames this1 /\ nodes this1 = nodes this
      /\ match sampleFrame stacks frames s with
         | Some frame =>
             exists v,
               Z.of_nat
                 <$> indexOf (traceNodeKey frame threadName)
                       (firstOccurrences
                          (map (fun f => traceNodeKey f threadName) frames))
               = Some v
               /\ samples this1 = samples this ++ [v]
         | None => samples this1 = samples this
         end).
    { unfold traceSampleStep in E. unfold sampleFrame.
      destruct (Trace.stackId s) as [sid|]; [|by injection E as <-].
      destruct (index stacks sid) as [stack|]; [|by injection E as <-].
      destruct (Trace.frameId stack) as [fid|]; [|by injection E as <-].
      destruct (index frames fid) as [frame|] eqn:Hf; [|done].
      assert (Hin : frame ∈ frames).
      { unfold index in Hf. destruct (fid <? 0); [done|].
        by eapply list_elem_of_lookup_2. }
      assert (Hidx : is_Some (indexOf (traceNodeKey frame threadName)
                                (firstOccurrences
                                   (map (fun f => traceNodeKey f threadName) frames)))).
      { destruct (indexOf _ _) eqn:Hi; [done|]. apply indexOf_None in Hi.
        exfalso. apply Hi. apply firstOccurrences_elem.
        by apply (list_elem_of_fmap_2 (fun f => traceNodeKey f threadName)). }
      destruct Hidx as [i Hi].
      assert (Hkey : nodeMap this !! traceNodeKey frame threadName = Some (Z.of_nat i))
        by (by rewrite (ki_map _ _ _ Hinv), Hi).
      rewrite (getOrCreateNode_hit _ _ _ _ _ Hkey) in E. injection E as <-.
      split; [by destruct Hinv; constructor|]. split; [done|].
      exists (Z.of_nat i). by rewrite Hi. }
    destruct Hstep as (Hinv1 & Hn1 & Hs1).
    destruct (IH _ _ Hinv1 Hrest) as (Hn & ids & Hs & Hall).
    split; [congruence|]. cbn [omap list_omap].
    destruct (sampleFrame stacks frames s) as [frame|].
    + destruct Hs1 as (v & Hv & Hs1). exists (v :: ids).
      split; [rewrite Hs, Hs1, <- app_assoc; done|]. by constructor.
    + exists ids. split; [by rewrite Hs, Hs1|done].
Qed.

End TraceKeys.

(** C7: within one run of the builder, records of the same function resolve
    to the same node, every record's sample is the id of a node filed under the
    record's url, and no two nodes share an id or a url.  Adding a record whose
    key is already registered appends its node id as a sample and no node; a
    later [getOrCreateNode] for the same frame, whatever frames were interned
    in between, returns the same id and leaves the generator as it is.  In
    the profile built from a trace there is exactly one node per identity key
    of the trace's frames, in the order in which the keys first occur, made
    from the first frame with that key and with its position as id; and the
    sample of every kept trace sample is the position of its frame's key: the
    id of that one node, the same for all frames that share the key, as frames
    with the same name, resource, line and column do. *)
Theorem interning_is_idempotent :
  (forall this σ workerData startTime endTime workerId,
      let sorted := JS.sort Generator.byStartTime (σ !!! workerData) in
      let p := (Generator.generateFromSingleWorkerData this σ workerData startTime
                  endTime workerId).1.1 in
      Forall2
        (fun d s =>
           exists n, n ∈ CPUProfile.nodes p /\ ProfileNode.id n = s
                     /\ CallFrame.url (ProfileNode.callFrame n)
                        = workerUrl workerId (WorkerPerformanceData.functionName d))
        sorted (CPUProfile.samples p)
      /\ (forall (i j : nat) di dj,
            sorted !! i = Some di -> sorted !! j = Some dj ->
            WorkerPerformanceData.functionName di = WorkerPerformanceData.functionName dj ->
            is_Some (CPUProfile.samples p !! i)
            /\ CPUProfile.samples p !! i = CPUProfile.samples p !! j)
      /\ NoDup (map ProfileNode.id (CPUProfile.nodes p))
      /\ NoDup (map (fun n => CallFrame.url (ProfileNode.callFrame n))
                    (CPUProfile.nodes p)))
  /\ (forall this data workerId nodeId,
        Generator.nodeMap this
          !! Generator.workerNodeKey workerId (WorkerPerformanceData.functionName data)
        = Some nodeId ->
        let this' := Generator.addWorkerPerformanceData this data workerId in
        length (Generator.nodes this') = length (Generator.nodes this)
        /\ Generator.nodeMap this' = Generator.nodeMap this
        /\ Generator.samples this' = Generator.samples this ++ [nodeId])
  /\ (forall markedFunctions this frame threadName others,
        let r := Generator.getOrCreateNode markedFunctions this frame threadName in
        let this' :=
          fold_left
            (fun g f => (Generator.getOrCreateNode markedFunctions g f threadName).2)
            others r.2 in
        Generator.getOrCreateNode markedFunctions this' frame threadName = (r.1, this'))
  /\ (forall markedFunctions this tr ss sts startTime endTime threadName p g,
        Trace.samples tr = Some ss -> Trace.stacks tr = Some sts ->
        Generator.generateFromTrace markedFunctions this (Some tr) startTime endTime
          threadName = Ok (p, g) ->
        let frames := default [] (Trace.frames tr) in
        let keys :=
          firstOccurrences (map (fun f => Generator.traceNodeKey f threadName) frames) in
        length (CPUProfile.nodes p) = length keys
        /\ (forall (i : nat) key,
              keys !! i = Some key ->
              exists frame n,
                firstFrame threadName frames key = Some frame
                /\ CPUProfile.nodes p !! i = Some n
                /\ nodeOfFrame threadName i frame n)
        /\ Forall2
             (fun frame s =>
                Z.of_nat <$> indexOf (Generator.traceNodeKey frame threadName) keys = Some s)
             (omap (sampleFrame sts frames) ss) (CPUProfile.samples p)
        /\ (forall (i j : nat) fi fj,
              omap (sampleFrame sts frames) ss !! i = Some fi ->
              omap (sampleFrame sts frames) ss !! j = Some fj ->
              Generator.traceNodeKey fi threadName = Generator.traceNodeKey fj threadName ->
              is_Some (CPUProfile.samples p !! i)
              /\ CPUProfile.samples p !! i = CPUProfile.samples p !! j))
  /\ (forall threadName f f',
        orString (Trace.name f) "(anonymous)" = orString (Trace.name f') "(anonymous)" ->
        Trace.resourceId f = Trace.resourceId f' ->
        default 0 (Trace.line f) = default 0 (Trace.line f') ->
        default 0 (Trace.column f) = default 0 (Trace.column f') ->
        Generator.traceNodeKey f threadName = Generator.traceNodeKey f' threadName).
Proof.
  split; [|split; [|split; [|split]]].
  - intros this σ workerData startTime endTime workerId sorted.
    destruct (worker_profile this σ workerData startTime endTime workerId)
      as (g & Hinv & _ & ->).
    fold sorted in Hinv. cbn [fst CPUProfile.samples CPUProfile.nodes].
    pose proof (inv_samples _ _ _ Hinv) as Hsm.
    split; [|split; [|split]].
    + eapply Forall2_impl; [exact Hsm|]. intros d s Hd. simpl in Hd.
      apply (inv_lookup _ _ _ Hinv) in Hd.
      apply list_elem_of_fmap in Hd as (n & Heq & Hn). injection Heq as -> ->.
      by exists n.
    + intros i j di dj Hi Hj Hfn.
      destruct (Forall2_lookup_l _ _ _ _ _ Hsm Hi) as (si & Hsi & Hki).
      destruct (Forall2_lookup_l _ _ _ _ _ Hsm Hj) as (sj & Hsj & Hkj).
      simpl in Hki, Hkj. rewrite Hfn in Hki. rewrite Hsi, Hsj.
      split; [by eexists|congruence].
    + pose proof (inv_nodup_ids _ _ _ Hinv) as H. unfold nodeKeys in H.
      by rewrite map_map in H.
    + pose proof (inv_nodup_urls _ _ _ Hinv) as H. unfold nodeKeys in H.
      by rewrite map_map in H.
  - intros this data workerId nodeId Hkey. cbn zeta.
    rewrite (addWorker_existing _ _ _ _ Hkey).
    cbn [Generator.pushSample Generator.setNodes Generator.nodes Generator.samples
         Generator.nodeMap].
    by rewrite incrementHitCount_length.
  - intros markedFunctions this frame threadName others. cbn zeta.
    apply getOrCreateNode_hit, frameLoop_keeps, getOrCreateNode_registered.
  - intros markedFunctions this tr ss sts startTime endTime threadName p g Hss Hsts.
    unfold Generator.generateFromTrace, Generator.processTrace.
    rewrite Hss, Hsts. cbn [default from_option id].
    pose proof (keyInv_frameLoop markedFunctions threadName (default [] (Trace.frames tr)) []
                  (Generator.setStartTime (Generator.reset this) startTime)
                  (keyInv_init _ _ _)) as Hinv.
    destruct (frameLoop_samples markedFunctions threadName (default [] (Trace.frames tr))
                (Generator.setStartTime (Generator.reset this) startTime)) as [Hs0 _].
    cbn zeta in Hs0. cbn [app] in Hinv.
    match goal with
    | |- context [Generator.forEachM ?f ss ?s0] =>
        destruct (Generator.forEachM f ss s0) as [this1|] eqn:E; [|done]
    end.
    cbn [JS.bind]. intros [= <- <-].
    destruct (keyInv_sampleLoop _ _ _ _ _ _ _ _ Hinv E) as (Hn & ids & Hs & Hall).
    rewrite Hs0 in Hs. cbn [Generator.reset Generator.setStartTime Generator.samples app]
      in Hs.
    cbn [Generator.toProfile CPUProfile.nodes CPUProfile.samples].
    rewrite Hn, Hs.
    split; [apply (ki_length _ _ _ Hinv)|]. split; [apply (ki_nodes _ _ _ Hinv)|].
    split; [exact Hall|].
    intros i j fi fj Hi Hj Hkey.
    destruct (Forall2_lookup_l _ _ _ _ _ Hall Hi) as (si & Hsi & Hki).
    destruct (Forall2_lookup_l _ _ _ _ _ Hall Hj) as (sj & Hsj & Hkj).
    simpl in Hki, Hkj. rewrite Hkey in Hki. rewrite Hsi, Hsj.
    split; [by eexists|congruence].
  - intros threadName f f' Hname Hres Hline Hcol.
    unfold Generator.traceNodeKey, Generator.traceNodeUrl.
    by rewrite Hname, Hres, Hline, Hcol.
Qed.

Lemma interning_is_idempotent_witness :
  let p := (Generator.generateFromSingleWorkerData Generator.new
              {[1%positive := [record "g" 7 9; record "f" 1 2; record "g" 3 4]]}
              1%positive 0 10 "1").1.1 in
  CPUProfile.samples p !! 1%nat = CPUProfile.samples p !! 2%nat
  /\ length (CPUProfile.nodes p) = 2%nat.
Proof.
  split; [|by vm_compute].
  apply (proj1 (proj2 (proj1 interning_is_idempotent Generator.new
                        {[1%positive := [record "g" 7 9; record "f" 1 2; record "g" 3 4]]}
                        1%positive 0 10 "1")) 1%nat 2%nat (record "g" 3 4) (record "g" 7 9));
    by vm_compute.
Defined.

(** C10: [generateFromSingleWorkerData] sorts the caller's array in place.
    After the call the array object at [workerData] holds the same records,
    stably reordered by ascending [startTime]; every other array is untouched;
    and the heap is unchanged exactly when the array was already in order. *)
Theorem generateFromSingleWorkerData_sorts_in_place
    this (σ : heap) (workerData : loc) startTime endTime workerId records :
  σ !! workerData = Some records ->
  let σ' := (Generator.generateFromSingleWorkerData this σ workerData startTime endTime
               workerId).2 in
  σ' !! workerData = Some (JS.sort Generator.byStartTime records)
  /\ JS.sort Generator.byStartTime records ≡ₚ records
  /\ StronglySorted (keyLe WorkerPerformanceData.startTime)
       (JS.sort Generator.byStartTime records)
  /\ (forall l, l <> workerData -> σ' !! l = σ !! l)
  /\ (σ' = σ <-> StronglySorted (keyLe WorkerPerformanceData.startTime) records).
Proof.
  intros Hl σ'. subst σ'.
  destruct (worker_profile this σ workerData startTime endTime workerId)
    as (g & _ & _ & ->).
  cbn [snd]. rewrite (lookup_total_correct _ _ _ Hl).
  split; [apply lookup_insert_eq|].
  split; [apply (sort_Permutation WorkerPerformanceData.startTime)|].
  split; [apply (sort_StronglySorted WorkerPerformanceData.startTime)|].
  split; [intros l Hne; by apply lookup_insert_ne|].
  split.
  - intros Heq. apply (f_equal (fun h : heap => h !! workerData)) in Heq.
    rewrite lookup_insert_eq, Hl in Heq. injection Heq as Heq.
    rewrite <- Heq. apply (sort_StronglySorted WorkerPerformanceData.startTime).
  - intros Hs. change Generator.byStartTime with (keyCmp WorkerPerformanceData.startTime).
    rewrite sort_sorted_id by done. by apply insert_id.
Qed.

Lemma generateFromSingleWorkerData_sorts_in_place_witness :
  let σ : heap := {[1%positive := [record "g" 7 9; record "f" 1 2]]} in
  let σ' := (Generator.generateFromSingleWorkerData Generator.new σ 1%positive 0 10
               "1").2 in
  σ !! 1%positive = Some [record "g" 7 9; record "f" 1 2]
  /\ σ' !! 1%positive = Some [record "f" 1 2; record "g" 7 9].
Proof.
  intros σ σ'.
  assert (Hl : σ !! 1%positive = Some [record "g" 7 9; record "f" 1 2]) by reflexivity.
  split; [exact Hl|].
  exact (proj1 (generateFromSingleWorkerData_sorts_in_place
                  Generator.new σ 1%positive 0 10 "1" _ Hl)).
Defined.

(** ** The orchestrator *)

(** C8: when stopping the profiler yields no trace and no worker data was
    added, [generateProfile] resolves to [null]; it does not throw. *)
Theorem generateProfile_nothing_to_profile markedFunctions this σ now :
  (MainThreadProfiler.stop (PerformanceMonitor.profiler this)).1 = None ->
  PerformanceMonitor.workerPerformanceData this = [] ->
  PerformanceMonitor.generateProfile markedFunctions this σ now = Ok None.
Proof.
  intros Hstop Hdata. unfold PerformanceMonitor.generateProfile.
  destruct (MainThreadProfiler.stop (PerformanceMonitor.profiler this)) as [trace p'].
  simpl in Hstop. subst trace. by rewrite Hdata.
Qed.

Lemma generateProfile_nothing_to_profile_witness :
  PerformanceMonitor.generateProfile ∅
    (PerformanceMonitor.mk (MainThreadProfiler.mk None false) Generator.new 0 [] [])
    ∅ 100
  = Ok None.
Proof.
  exact (generateProfile_nothing_to_profile ∅
           (PerformanceMonitor.mk (MainThreadProfiler.mk None false) Generator.new 0 [] [])
           ∅ 100 eq_refl eq_refl).
Defined.

(** ** The exporter's evented path *)

Section Evented.
Import Speedscope.

Lemma guard_recordEvents actualStartTime data frameId (l : list Event) :
  (if (0 <=? startAt actualStartTime data)
      && (startAt actualStartTime data <=? endAt actualStartTime data)
   then l ++ [mkEvent (startAt actualStartTime data) frameId O;
              mkEvent (endAt actualStartTime data) frameId C]
   else l)
  = l ++ recordEvents actualStartTime data frameId.
Proof.
  unfold recordEvents, startAt, endAt.
  destruct (Z.leb_spec 0 ((WorkerPerformanceData.startTime data - actualStartTime) * 1000)),
           (Z.leb_spec ((WorkerPerformanceData.startTime data - actualStartTime) * 1000)
                       ((WorkerPerformanceData.endTime data - actualStartTime) * 1000));
    cbn [andb]; case_decide; rewrite ?app_nil_r; first [done|lia].
Qed.

(** Whichever way the frame is resolved, a record adds its guarded pair. *)
Lemma recordStep_events profile threadMap workerId threadPrefix actualStartTime st data :
  exists frameId,
    eventList (recordStep profile threadMap workerId threadPrefix actualStartTime st data)
    = eventList st ++ recordEvents actualStartTime data frameId.
Proof.
  unfold recordStep.
  destruct (functionNameToFrameId st !! WorkerPerformanceData.functionName data)
    as [f|].
  - exists f. rewrite <- guard_recordEvents. by destruct (_ && _).
  - destruct (findViaSamples threadPrefix threadMap (CPUProfile.nodes profile)
                (WorkerPerformanceData.functionName data) (CPUProfile.samples profile))
      as [f|].
    + exists f. rewrite <- guard_recordEvents. by destruct (_ && _).
    + exists (Z.of_nat (length (frames st))).
      rewrite <- guard_recordEvents. by destruct (_ && _).
Qed.

Lemma recordLoop_events profile threadMap workerId threadPrefix actualStartTime ds st :
  exists frameIds,
    length frameIds = length ds
    /\ eventList
         (fold_left (recordStep profile threadMap workerId threadPrefix actualStartTime)
                    ds st)
       = eventList st
         ++ flat_map (fun df => recordEvents actualStartTime df.1 df.2) (zip ds frameIds).
Proof.
  revert st. induction ds as [|d ds IH]; intros st.
  - exists []. by rewrite app_nil_r.
  - cbn [fold_left].
    destruct (recordStep_events profile threadMap workerId threadPrefix actualStartTime st d)
      as (f & Hf).
    destruct (IH (recordStep profile threadMap workerId threadPrefix actualStartTime st d))
      as (fs & Hlen & Hfs).
    exists (f :: fs). split; [simpl; by rewrite Hlen|].
    rewrite Hfs, Hf. simpl. by rewrite <- app_assoc.
Qed.

Lemma recordEvents_nonnegative actualStartTime data frameId :
  Forall (fun e => 0 <= at_ e) (recordEvents actualStartTime data frameId).
Proof.
  unfold recordEvents. case_decide as H; [|constructor].
  repeat constructor; simpl; lia.
Qed.

End Evented.

(** The exporter's time base is never later than a record of the groups it
    is given, so the open time of such a record is never negative. *)
Lemma minStartTime_inner ds acc :
  let r :=
    fold_left
      (fun m data =>
         match m with
         | None => Some (WorkerPerformanceData.startTime data)
         | Some v =>
             if WorkerPerformanceData.startTime data <? v
             then Some (WorkerPerformanceData.startTime data) else m
         end)
      ds acc in
  (forall a, acc = Some a -> exists m, r = Some m /\ m <= a)
  /\ (forall d, d ∈ ds -> exists m, r = Some m /\ m <= WorkerPerformanceData.startTime d).
Proof.
  revert acc. induction ds as [|d ds IH]; intros acc; cbn [fold_left].
  - split; [intros a ->; exists a; split; [done|lia]|]. intros d Hd.
    by apply elem_of_nil in Hd.
  - set (acc' := match acc with
                 | None => Some (WorkerPerformanceData.startTime d)
                 | Some v =>
                     if WorkerPerformanceData.startTime d <? v
                     then Some (WorkerPerformanceData.startTime d) else acc
                 end).
    destruct (IH acc') as [IH1 IH2]. cbn zeta in *.
    assert (Hacc' : exists v, acc' = Some v /\ v <= WorkerPerformanceData.startTime d
                              /\ forall a, acc = Some a -> v <= a).
    { subst acc'. destruct acc as [v|].
      - destruct (Z.ltb_spec (WorkerPerformanceData.startTime d) v).
        + eexists. split; [done|]. split; [lia|]. intros a [= <-]. lia.
        + exists v. split; [done|]. split; [lia|]. intros a [= <-]. lia.
      - eexists. split; [done|]. split; [lia|]. done. }
    destruct Hacc' as (v & Hv & Hvd & Hva).
    destruct (IH1 v Hv) as (m & Hm & Hmv).
    split.
    + intros a Ha. exists m. split; [done|]. specialize (Hva a Ha). lia.
    + intros d' [->|Hd']%elem_of_cons; [|by apply IH2].
      exists m. split; [done|lia].
Qed.

Lemma minStartTime_lower groups acc :
  let r :=
    fold_left
      (fun acc dataArray =>
         fold_left
           (fun m data =>
              match m with
              | None => Some (WorkerPerformanceData.startTime data)
              | Some v =>
                  if WorkerPerformanceData.startTime data <? v
                  then Some (WorkerPerformanceData.startTime data) else m
              end)
           dataArray acc)
      groups acc in
  (forall a, acc = Some a -> exists m, r = Some m /\ m <= a)
  /\ (forall ds d, ds ∈ groups -> d ∈ ds ->
        exists m, r = Some m /\ m <= WorkerPerformanceData.startTime d).
Proof.
  revert acc. induction groups as [|ds groups IH]; intros acc; cbn [fold_left].
  - split; [intros a ->; exists a; split; [done|lia]|]. intros ds d Hds.
    by apply elem_of_nil in Hds.
  - destruct (minStartTime_inner ds acc) as [I1 I2].
    match goal with
    | |- context [fold_left ?f groups ?acc'] => destruct (IH acc') as [IH1 IH2]
    end.
    cbn zeta in *. split.
    + intros a Ha. destruct (I1 a Ha) as (m & Hm & Hma).
      destruct (IH1 m Hm) as (m' & Hm' & Hm'm). exists m'. split; [done|lia].
    + intros ds' d [->|Hds]%elem_of_cons Hd; [|by eapply IH2].
      destruct (I2 d Hd) as (m & Hm & Hmd).
      destruct (IH1 m Hm) as (m' & Hm' & Hm'm). exists m'. split; [done|lia].
Qed.

Lemma actualStartTime_open_nonnegative groups baseStartTime workerId ds d :
  (workerId, ds) ∈ groups -> d ∈ ds ->
  0 <= Speedscope.startAt (Speedscope.actualStartTime (Some groups) baseStartTime) d.
Proof.
  intros Hg Hd. unfold Speedscope.actualStartTime, Speedscope.startAt.
  destruct groups as [|g gs]; [by apply elem_of_nil in Hg|].
  destruct (minStartTime_lower (map snd (g :: gs)) None) as [_ Hlow].
  destruct (Hlow ds d) as (m & Hm & Hmd); [|done|].
  { by apply (list_elem_of_fmap_2 snd (g :: gs) (workerId, ds)). }
  cbn zeta in Hm. unfold Speedscope.minStartTime. rewrite Hm.
  destruct (Z.ltb_spec m baseStartTime); lia.
Qed.

Section Resolve.
Import Speedscope.

Lemma namesFold_lookup threadPrefix (frameOf : ProfileNode.t -> option Z) nodes :
  forall (m : gmap string Z) n,
    fold_left
      (fun m node =>
         match frameOf node with
         | Some frameIdx =>
             setIfAbsent
               (stripPrefix threadPrefix (CallFrame.functionName (ProfileNode.callFrame node)))
               frameIdx m
         | None => m
         end)
      nodes m !! n
    = match m !! n with
      | Some f => Some f
      | None => frameByNodes threadPrefix frameOf nodes n
      end.
Proof.
  induction nodes as [|node nodes IH]; intros m n; cbn [fold_left].
  - unfold frameByNodes. simpl. by destruct (m !! n).
  - rewrite IH. unfold frameByNodes. cbn [List.find]. fold (nodeFunction threadPrefix node).
    destruct (frameOf node) as [f|] eqn:Hf.
    + rewrite bool_decide_eq_true_2 by done. cbn [andb].
      unfold setIfAbsent.
      destruct (String.eqb_spec (nodeFunction threadPrefix node) n) as [Heq|Hne].
      * subst n. destruct (m !! nodeFunction threadPrefix node) as [g|] eqn:Hm.
        -- by rewrite Hm.
        -- rewrite lookup_insert_eq. simpl. by rewrite Hf.
      * destruct (m !! nodeFunction threadPrefix node) as [g|] eqn:Hm; [done|].
        by rewrite lookup_insert_ne.
    + rewrite bool_decide_eq_false_2 by (by intros [? ?]). done.
Qed.

Lemma namesFold_empty threadPrefix (frameOf : ProfileNode.t -> option Z) nodes :
  fold_left
    (fun m node =>
       match frameOf node with
       | Some frameIdx =>
           setIfAbsent
             (stripPrefix threadPrefix (CallFrame.functionName (ProfileNode.callFrame node)))
             frameIdx m
       | None => m
       end)
    nodes (∅ : gmap string Z) = ∅
  <-> existsb (fun node => bool_decide (is_Some (frameOf node))) nodes = false.
Proof.
  split.
  - intros Hempty. destruct (existsb _ nodes) eqn:Hex; [|done]. exfalso.
    apply existsb_exists in Hex as (node & Hin & Hsome).
    apply bool_decide_eq_true_1 in Hsome.
    pose proof (namesFold_lookup threadPrefix frameOf nodes ∅
                  (nodeFunction threadPrefix node)) as Hl.
    rewrite Hempty, !lookup_empty in Hl. unfold frameByNodes in Hl.
    destruct (List.find _ nodes) as [node'|] eqn:Hfind.
    + apply find_some in Hfind as [_ Hp]. apply andb_true_iff in Hp as [Hp _].
      apply bool_decide_eq_true_1 in Hp. destruct Hp as [f Hp]. simpl in Hl.
      by rewrite Hp in Hl.
    + apply (find_none _ _ Hfind) in Hin.
      rewrite bool_decide_eq_true_2, String.eqb_refl in Hin by done. done.
  - intros Hex. apply map_eq. intros n. rewrite namesFold_lookup, lookup_empty.
    unfold frameByNodes. destruct (List.find _ nodes) as [node'|] eqn:Hfind; [|done].
    apply find_some in Hfind as [Hin Hp]. apply andb_true_iff in Hp as [Hp _].
    assert (existsb (fun node => bool_decide (is_Some (frameOf node))) nodes = true)
      by (apply existsb_exists; by exists node').
    congruence.
Qed.

Lemma findViaSamples_spec threadPrefix threadMap nodes functionName samples :
  findViaSamples threadPrefix threadMap nodes functionName samples
  = frameBySamples threadPrefix threadMap nodes samples functionName.
Proof.
  unfold frameBySamples. induction samples as [|s samples IH]; [done|].
  cbn [findViaSamples List.find]. unfold nodeOf at 1.
  destruct (List.find (fun n => ProfileNode.id n =? s) nodes) as [node|]; [|exact IH].
  fold (nodeFunction threadPrefix node).
  destruct (String.eqb (nodeFunction threadPrefix node) functionName); [|exact IH].
  cbn [andb]. destruct (threadMap !! s) as [f|] eqn:Hs.
  - rewrite bool_decide_eq_true_2 by done. simpl. by rewrite Hs.
  - rewrite bool_decide_eq_false_2 by (by intros [? ?]). exact IH.
Qed.

(** The table of function names the record loop starts with, and the
    search through the samples behind it, are what [knownFrame] says. *)
Lemma knownFrame_spec profile threadMap (frameMap0 : gmap string Z) threadName n :
  let threadPrefix := "[" +:+ threadName +:+ "] " in
  let names0 := namesFromThreadMap threadPrefix threadMap (CPUProfile.nodes profile) in
  let names1 :=
    if decide (names0 = ∅)
    then namesFromFrameMap threadPrefix frameMap0 (CPUProfile.nodes profile)
    else names0 in
  match names1 !! n with
  | Some f => Some f
  | None =>
      findViaSamples threadPrefix threadMap (CPUProfile.nodes profile) n
        (CPUProfile.samples profile)
  end
  = knownFrame profile threadMap frameMap0 threadName n.
Proof.
  intros threadPrefix names0 names1. unfold knownFrame. fold threadPrefix.
  rewrite findViaSamples_spec. subst names1 names0.
  unfold namesFromThreadMap, namesFromFrameMap.
  pose proof (namesFold_empty threadPrefix
                (fun node => threadMap !! ProfileNode.id node) (CPUProfile.nodes profile))
    as Hempty.
  pose proof (namesFold_lookup threadPrefix
                (fun node => threadMap !! ProfileNode.id node) (CPUProfile.nodes profile) ∅ n)
    as Hthread.
  pose proof (namesFold_lookup threadPrefix
                (fun node => frameMap0 !! nodeFrameKey node) (CPUProfile.nodes profile) ∅ n)
    as Hkey.
  rewrite lookup_empty in Hthread, Hkey. cbn beta in *.
  case_decide as He.
  - apply Hempty in He. rewrite He, Hkey. done.
  - destruct (existsb _ (CPUProfile.nodes profile)) eqn:Hex.
    + by rewrite Hthread.
    + exfalso. apply He. by apply Hempty.
Qed.

Lemma newFunctions_snoc known processed d :
  newFunctions known (processed ++ [d])
  = if decide (known (WorkerPerformanceData.functionName d) = None
               /\ WorkerPerformanceData.functionName d ∉ newFunctions known processed)
    then newFunctions known processed ++ [WorkerPerformanceData.functionName d]
    else newFunctions known processed.
Proof.
  unfold newFunctions. rewrite map_app, filter_app. cbn [map]. rewrite filter_cons, filter_nil.
  destruct (decide (known (WorkerPerformanceData.functionName d) = None)) as [Hk|Hk].
  - rewrite firstOccurrences_snoc. case_decide as Hin.
    + rewrite decide_False; [done|]. by intros [_ ?].
    + by rewrite decide_True.
  - rewrite app_nil_r. rewrite decide_False; [done|]. by intros [? _].
Qed.

Lemma newFunctions_elem known processed n :
  n ∈ newFunctions known processed
  <-> known n = None /\ n ∈ map WorkerPerformanceData.functionName processed.
Proof.
  unfold newFunctions. rewrite firstOccurrences_elem, list_elem_of_filter. done.
Qed.

Lemma resolvedFrame_snoc known frames0 processed d n :
  n ∈ map WorkerPerformanceData.functionName processed ->
  resolvedFrame known frames0 (processed ++ [d]) n = resolvedFrame known frames0 processed n.
Proof.
  intros Hin. unfold resolvedFrame. destruct (known n) eqn:Hk; [done|].
  assert (Hn : n ∈ newFunctions known processed) by (by apply newFunctions_elem).
  rewrite newFunctions_snoc. case_decide; [|done].
  rewrite indexOf_app.
  destruct (indexOf n (newFunctions known processed)) eqn:Hi; [done|].
  by apply indexOf_None in Hi.
Qed.

Lemma recordStep_known profile threadMap workerId threadPrefix actualStartTime st data f :
  functionNameToFrameId st !! WorkerPerformanceData.functionName data = Some f ->
  let st' := recordStep profile threadMap workerId threadPrefix actualStartTime st data in
  functionNameToFrameId st' = functionNameToFrameId st
  /\ frames st' = frames st
  /\ eventList st' = eventList st ++ recordEvents actualStartTime data f.
Proof.
  intros Hf. cbn zeta. unfold recordStep. rewrite Hf.
  rewrite <- guard_recordEvents. by destruct (_ && _).
Qed.

Lemma recordStep_sampled profile threadMap workerId threadPrefix actualStartTime st data f :
  functionNameToFrameId st !! WorkerPerformanceData.functionName data = None ->
  findViaSamples threadPrefix threadMap (CPUProfile.nodes profile)
    (WorkerPerformanceData.functionName data) (CPUProfile.samples profile) = Some f ->
  let st' := recordStep profile threadMap workerId threadPrefix actualStartTime st data in
  functionNameToFrameId st'
  = <[WorkerPerformanceData.functionName data := f]> (functionNameToFrameId st)
  /\ frames st' = frames st
  /\ eventList st' = eventList st ++ recordEvents actualStartTime data f.
Proof.
  intros Hn Hf. cbn zeta. unfold recordStep. rewrite Hn, Hf.
  rewrite <- guard_recordEvents. by destruct (_ && _).
Qed.

Lemma recordStep_new profile threadMap workerId threadPrefix actualStartTime st data :
  functionNameToFrameId st !! WorkerPerformanceData.functionName data = None ->
  findViaSamples threadPrefix threadMap (CPUProfile.nodes profile)
    (WorkerPerformanceData.functionName data) (CPUProfile.samples profile) = None ->
  let st' := recordStep profile threadMap workerId threadPrefix actualStartTime st data in
  functionNameToFrameId st'
  = <[WorkerPerformanceData.functionName data := Z.of_nat (length (frames st))]>
      (functionNameToFrameId st)
  /\ frames st' = frames st ++ [newFrame workerId (WorkerPerformanceData.functionName data)]
  /\ eventList st'
     = eventList st ++ recordEvents actualStartTime data (Z.of_nat (length (frames st))).
Proof.
  intros Hn Hf. cbn zeta. unfold recordStep. rewrite Hn, Hf.
  rewrite <- guard_recordEvents. by destruct (_ && _).
Qed.

Lemma flat_map_ext_Forall {A B} (f g : A -> list B) l :
  Forall (fun a => f a = g a) l -> flat_map f l = flat_map g l.
Proof. induction 1 as [|a l Ha _ IH]; simpl; [done|]. by rewrite Ha, IH. Qed.

Lemma resolveInv_step profile threadMap workerId threadPrefix actualStartTime
    known names frames0 events0 processed st data :
  (forall n,
     known n
     = match names !! n with
       | Some f => Some f
       | None =>
           findViaSamples threadPrefix threadMap (CPUProfile.nodes profile) n
             (CPUProfile.samples profile)
       end) ->
  ResolveInv workerId known names frames0 events0 actualStartTime processed st ->
  ResolveInv workerId known names frames0 events0 actualStartTime (processed ++ [data])
    (recordStep profile threadMap workerId threadPrefix actualStartTime st data).
Proof.
  intros Hknown [Hn Hfr Hev].
  set (fn := WorkerPerformanceData.functionName data).
  assert (Hmem : forall n, n <> fn ->
            n ∈ map WorkerPerformanceData.functionName (processed ++ [data])
            <-> n ∈ map WorkerPerformanceData.functionName processed).
  { intros n Hne. rewrite map_app, elem_of_app. cbn [map]. fold fn.
    rewrite list_elem_of_singleton. tauto. }
  assert (Hfn : fn ∈ map WorkerPerformanceData.functionName (processed ++ [data])).
  { rewrite map_app, elem_of_app. right. apply list_elem_of_singleton. done. }
  assert (Hevents : forall F,
            resolvedFrame known frames0 (processed ++ [data]) fn = F ->
            eventList st ++ recordEvents actualStartTime data F
            = events0
              ++ flat_map
                   (fun d =>
                      recordEvents actualStartTime d
                        (resolvedFrame known frames0 (processed ++ [data])
                           (WorkerPerformanceData.functionName d)))
                   (processed ++ [data])).
  { intros F HF. rewrite Hev, flat_map_app, <- app_assoc. cbn [flat_map]. rewrite app_nil_r.
    fold fn. rewrite HF. do 2 f_equal.
    apply flat_map_ext_Forall, Forall_forall. intros d Hd.
    rewrite resolvedFrame_snoc; [done|].
    by apply (list_elem_of_fmap_2 WorkerPerformanceData.functionName). }
  assert (Hnames : forall F (names' : gmap string Z),
            resolvedFrame known frames0 (processed ++ [data]) fn = F ->
            names' !! fn = Some F ->
            (forall n, n <> fn -> names' !! n = functionNameToFrameId st !! n) ->
            forall n,
              names' !! n
              = match names !! n with
                | Some f => Some f
                | None =>
                    if decide (n ∈ map WorkerPerformanceData.functionName (processed ++ [data]))
                    then Some (resolvedFrame known frames0 (processed ++ [data]) n)
                    else None
                end).
  { intros F names' HF Hat Hother n. destruct (decide (n = fn)) as [->|Hne].
    - rewrite Hat. destruct (names !! fn) as [f|] eqn:Hnf.
      + f_equal. rewrite <- HF. unfold resolvedFrame. by rewrite Hknown, Hnf.
      + rewrite decide_True by done. by rewrite HF.
    - rewrite (Hother n Hne), Hn. destruct (names !! n); [done|].
      destruct (decide (n ∈ map WorkerPerformanceData.functionName processed)) as [Hin|Hnin].
      + rewrite decide_True by (by apply Hmem). by rewrite resolvedFrame_snoc.
      + rewrite decide_False; [done|]. intros H. by apply Hmem in H. }
  destruct (functionNameToFrameId st !! fn) as [f|] eqn:Hst.
  - destruct (recordStep_known profile threadMap workerId threadPrefix actualStartTime
                st data f Hst) as (E1 & E2 & E3). cbn zeta in *.
    assert (HF : resolvedFrame known frames0 (processed ++ [data]) fn = f).
    { rewrite Hn in Hst. destruct (names !! fn) as [f'|] eqn:Hnf.
      - injection Hst as <-. unfold resolvedFrame. by rewrite Hknown, Hnf.
      - case_decide as Hin; [|done]. injection Hst as <-. by apply resolvedFrame_snoc. }
    assert (Hnf : newFunctions known (processed ++ [data]) = newFunctions known processed).
    { rewrite newFunctions_snoc. fold fn. rewrite decide_False; [done|].
      intros [Hk Hnin]. rewrite Hn in Hst. pose proof Hk as Hk'. rewrite Hknown in Hk'.
      destruct (names !! fn); [done|]. case_decide as Hin; [|done].
      apply Hnin. by apply newFunctions_elem. }
    split.
    + rewrite E1. apply (Hnames f); [done|done|done].
    + by rewrite E2, Hnf.
    + rewrite E3. by apply Hevents.
  - assert (Hnone : names !! fn = None
                    /\ fn ∉ map WorkerPerformanceData.functionName processed).
    { rewrite Hn in Hst. destruct (names !! fn); [done|]. by case_decide. }
    destruct Hnone as [Hnf Hnin].
    destruct (findViaSamples threadPrefix threadMap (CPUProfile.nodes profile) fn
                (CPUProfile.samples profile)) as [f|] eqn:Hfind.
    + destruct (recordStep_sampled profile threadMap workerId threadPrefix actualStartTime
                  st data f Hst Hfind) as (E1 & E2 & E3). cbn zeta in *.
      assert (Hk : known fn = Some f) by (by rewrite Hknown, Hnf).
      assert (HF : resolvedFrame known frames0 (processed ++ [data]) fn = f)
        by (unfold resolvedFrame; by rewrite Hk).
      split.
      * rewrite E1. apply (Hnames f); [done|by rewrite lookup_insert_eq|].
        intros n Hne. by rewrite lookup_insert_ne.
      * rewrite E2, newFunctions_snoc. fold fn. rewrite decide_False; [done|].
        intros [? _]. congruence.
      * rewrite E3. by apply Hevents.
    + destruct (recordStep_new profile threadMap workerId threadPrefix actualStartTime
                  st data Hst Hfind) as (E1 & E2 & E3). cbn zeta in *.
      assert (Hk : known fn = None) by (by rewrite Hknown, Hnf).
      assert (Hnew : fn ∉ newFunctions known processed).
      { intros H. apply newFunctions_elem in H as [_ H]. done. }
      assert (Hnf' : newFunctions known (processed ++ [data])
                     = newFunctions known processed ++ [fn]).
      { rewrite newFunctions_snoc. fold fn. by rewrite decide_True. }
      assert (HF : resolvedFrame known frames0 (processed ++ [data]) fn
                   = Z.of_nat (length (frames st))).
      { unfold resolvedFrame. rewrite Hk, Hnf', indexOf_app.
        apply indexOf_None in Hnew. rewrite Hnew, decide_True by done. simpl.
        by rewrite Hfr, length_app, length_map. }
      split.
      * rewrite E1. apply (Hnames (Z.of_nat (length (frames st))));
          [done|by rewrite lookup_insert_eq|].
        intros n Hne. by rewrite lookup_insert_ne.
      * rewrite E2, Hfr, Hnf', map_app, <- app_assoc. done.
      * rewrite E3. by apply Hevents.
Qed.

Lemma resolveInv_loop profile threadMap workerId threadPrefix actualStartTime
    known names frames0 events0 ds :
  (forall n,
     known n
     = match names !! n with
       | Some f => Some f
       | None =>
           findViaSamples threadPrefix threadMap (CPUProfile.nodes profile) n
             (CPUProfile.samples profile)
       end) ->
  forall processed st,
    ResolveInv workerId known names frames0 events0 actualStartTime processed st ->
    ResolveInv workerId known names frames0 events0 actualStartTime (processed ++ ds)
      (fold_left (recordStep profile threadMap workerId threadPrefix actualStartTime) ds st).
Proof.
  intros Hknown. induction ds as [|d ds IH]; intros processed st Hinv.
  - simpl. by rewrite app_nil_r.
  - cbn [fold_left]. replace (processed ++ d :: ds) with ((processed ++ [d]) ++ ds)
      by (by rewrite <- app_assoc).
    apply IH. by eapply resolveInv_step.
Qed.

End Resolve.

Lemma flat_map_zip_map {A B C} (h : A * B -> list C) (f : A -> B) l :
  flat_map h (zip l (map f l)) = flat_map (fun a => h (a, f a)) l.
Proof. induction l as [|a l IH]; simpl; [done|]. by rewrite IH. Qed.

(** C5: in the evented path every record contributes, for the frame id it
    resolves to, an open event at [(startTime - globalStartTime) * 1000] and a
    close event at [(endTime - globalStartTime) * 1000] exactly when the open
    time is non-negative and the close time does not precede it, and nothing
    otherwise; the emitted events are these pairs sorted by time, none with a
    negative [at].  The frame id a record resolves to is that of its
    function: the frame of the first node of the function that has one, or
    else of the first sample of such a node, or else a new frame
    [worker-<id>://<function>], the new frames being appended to the frame
    table in the order in which their functions first occur. *)
Theorem evented_events_are_guarded_pairs
    profile threadMap workerId threadName frames0 frameMap0 globalStartTime workerData :
  let result :=
    Speedscope.eventedEvents profile threadMap workerId threadName frames0 frameMap0
      globalStartTime workerData in
  let events := result.1.1 in
  let known := knownFrame profile threadMap frameMap0 threadName in
  (exists frameIds : list Z,
      length frameIds = length workerData
      /\ frameIds
         = map (fun d =>
                  resolvedFrame known frames0 workerData
                    (WorkerPerformanceData.functionName d))
               workerData
      /\ events
         = JS.sort Speedscope.byAt
             (flat_map (fun df => recordEvents globalStartTime df.1 df.2)
                       (zip workerData frameIds))
      /\ events ≡ₚ flat_map (fun df => recordEvents globalStartTime df.1 df.2)
                            (zip workerData frameIds))
  /\ result.1.2 = frames0 ++ map (newFrame workerId) (newFunctions known workerData)
  /\ StronglySorted (keyLe Speedscope.at_) events
  /\ Forall (fun e => 0 <= Speedscope.at_ e) events
  /\ (forall data frameId,
        let openAt := (WorkerPerformanceData.startTime data - globalStartTime) * 1000 in
        let closeAt := (WorkerPerformanceData.endTime data - globalStartTime) * 1000 in
        (0 <= openAt /\ openAt <= closeAt ->
         recordEvents globalStartTime data frameId
         = [Speedscope.mkEvent openAt frameId Speedscope.O;
            Speedscope.mkEvent closeAt frameId Speedscope.C])
        /\ (~ (0 <= openAt /\ openAt <= closeAt) ->
            recordEvents globalStartTime data frameId = [])).
Proof.
  intros result events known. subst events result.
  unfold Speedscope.eventedEvents. cbn [fst snd].
  set (threadPrefix := "[" +:+ threadName +:+ "] ").
  set (names1 :=
         if decide (Speedscope.namesFromThreadMap threadPrefix threadMap
                      (CPUProfile.nodes profile) = ∅)
         then Speedscope.namesFromFrameMap threadPrefix frameMap0 (CPUProfile.nodes profile)
         else Speedscope.namesFromThreadMap threadPrefix threadMap (CPUProfile.nodes profile)).
  pose proof (resolveInv_loop profile threadMap workerId threadPrefix globalStartTime
                known names1 frames0 [] workerData) as Hloop.
  destruct (Hloop
              ltac:(intros n; symmetry;
                    apply (knownFrame_spec profile threadMap frameMap0 threadName n))
              [] (Speedscope.mkState frames0 frameMap0 names1 []))
    as [_ Hfr Hev].
  { split; cbn [Speedscope.functionNameToFrameId Speedscope.frames Speedscope.eventList].
    - intros n. by destruct (names1 !! n).
    - by rewrite app_nil_r.
    - done. }
  cbn [app] in Hfr, Hev. rewrite Hev, Hfr.
  set (frameIds := map (fun d => resolvedFrame known frames0 workerData
                                   (WorkerPerformanceData.functionName d)) workerData).
  assert (Hflat : flat_map
                    (fun d => recordEvents globalStartTime d
                                (resolvedFrame known frames0 workerData
                                   (WorkerPerformanceData.functionName d))) workerData
                  = flat_map (fun df => recordEvents globalStartTime df.1 df.2)
                             (zip workerData frameIds)).
  { subst frameIds.
    by rewrite (flat_map_zip_map (fun df => recordEvents globalStartTime df.1 df.2)). }
  rewrite Hflat.
  assert (Hperm : JS.sort Speedscope.byAt
                    (flat_map (fun df => recordEvents globalStartTime df.1 df.2)
                              (zip workerData frameIds))
                  ≡ₚ flat_map (fun df => recordEvents globalStartTime df.1 df.2)
                              (zip workerData frameIds))
    by apply (sort_Permutation Speedscope.at_).
  split; [exists frameIds; subst frameIds; by rewrite length_map|].
  split; [done|].
  split; [apply (sort_StronglySorted Speedscope.at_)|].
  split.
  - rewrite Hperm. apply Forall_flat_map, Forall_forall.
    intros [d f] _. apply recordEvents_nonnegative.
  - clear. intros data frameId. unfold recordEvents. cbn zeta.
    split; intros H; case_decide; done.
Qed.

(** Scenario D: a record that ends before it starts leaves no event on the
    track, while a well-formed record leaves its pair. *)
Example evented_drops_inverted_record :
  (Speedscope.eventedEvents (CPUProfile.mk [] [] [] 0 10) ∅ "1" "web-worker-1" [] ∅ 0
     [record "f" 8 5; record "g" 2 4]).1.1
  = [Speedscope.mkEvent 2000 1 Speedscope.O; Speedscope.mkEvent 4000 1 Speedscope.C].
Proof. by vm_compute. Qed.

(** * Further properties *)

(** ** The normalisation pass on any array *)

Lemma walk_above_input lastTime tds : Forall2 Z.le tds (walk lastTime tds).
Proof.
  revert lastTime. induction tds as [|d rest IH]; intros lastTime; simpl; constructor.
  - destruct (Z.ltb_spec d lastTime); lia.
  - apply IH.
Qed.

Lemma walk_idempotent lastTime tds : walk lastTime (walk lastTime tds) = walk lastTime tds.
Proof.
  apply walk_sorted_id; [apply walk_nondecreasing|apply walk_lower_bound].
Qed.

(** X1: whatever array it is given, the normalisation loop returns an array
    of the same length that is non-decreasing and has no negative entry; no
    entry is lowered; an array that is already non-decreasing and non-negative
    is returned unchanged; and running the loop twice changes nothing more. *)
Theorem normalizeArray_repairs (tds : list Z) :
  length (Generator.normalizeArray tds) = length tds
  /\ StronglySorted Z.le (Generator.normalizeArray tds)
  /\ Forall (fun d => 0 <= d) (Generator.normalizeArray tds)
  /\ Forall2 Z.le tds (Generator.normalizeArray tds)
  /\ (StronglySorted Z.le tds -> Forall (fun d => 0 <= d) tds ->
      Generator.normalizeArray tds = tds)
  /\ Generator.normalizeArray (Generator.normalizeArray tds) = Generator.normalizeArray tds.
Proof.
  rewrite !normalizeArray_walk.
  split; [apply walk_length|]. split; [apply walk_nondecreasing|].
  split; [apply walk_lower_bound|]. split; [apply walk_above_input|].
  split; [apply walk_sorted_id|apply walk_idempotent].
Qed.

Lemma normalizeArray_repairs_witness :
  Generator.normalizeArray [0; 10000; 15000] = [0; 10000; 15000].
Proof.
  apply (proj1 (proj2 (proj2 (proj2 (proj2 (normalizeArray_repairs [0; 10000; 15000])))))).
  - repeat constructor; lia.
  - repeat constructor; lia.
Defined.

(** ** The builder on telemetry records: time deltas *)

Lemma sorted_rawDelta startTime records :
  StronglySorted (keyLe WorkerPerformanceData.startTime) records ->
  StronglySorted Z.le (map (rawDelta startTime) records).
Proof.
  induction 1 as [|d rest Hs IH Hall]; simpl; constructor; [done|].
  apply Forall_forall. intros x Hx.
  apply (list_elem_of_fmap_1 (rawDelta startTime)) in Hx as (d' & -> & Hd').
  rewrite Forall_forall in Hall. specialize (Hall d' Hd').
  unfold keyLe in Hall. unfold rawDelta. lia.
Qed.

(** X2: for every input the time deltas of the profile that
    [generateFromSingleWorkerData] returns are non-decreasing and not
    negative, one per record.  When no record starts before the profile's
    [startTime], they are exactly [(record.startTime - startTime) * 1000] of
    the records taken in ascending start order: normalisation changes nothing. *)
Theorem worker_timeDeltas_are_start_offsets
    this (σ : heap) (workerData : loc) startTime endTime workerId :
  let records := σ !!! workerData in
  let p := (Generator.generateFromSingleWorkerData this σ workerData startTime endTime
              workerId).1.1 in
  length (CPUProfile.timeDeltas p) = length records
  /\ StronglySorted Z.le (CPUProfile.timeDeltas p)
  /\ Forall (fun d => 0 <= d) (CPUProfile.timeDeltas p)
  /\ (Forall (fun d => startTime <= WorkerPerformanceData.startTime d) records ->
      CPUProfile.timeDeltas p
      = map (rawDelta startTime) (JS.sort Generator.byStartTime records)).
Proof.
  intros records p. subst p.
  destruct (worker_profile this σ workerData startTime endTime workerId)
    as (g & Hinv & Hst & ->).
  cbn [fst CPUProfile.timeDeltas]. fold records in Hinv.
  rewrite (inv_deltas _ _ _ Hinv), Hst.
  split; [by rewrite walk_length, length_map, (sort_length WorkerPerformanceData.startTime)|].
  split; [apply walk_nondecreasing|]. split; [apply walk_lower_bound|].
  intros Hstart. apply walk_sorted_id.
  - apply sorted_rawDelta, (sort_StronglySorted WorkerPerformanceData.startTime).
  - apply Forall_forall. intros x Hx.
    apply (list_elem_of_fmap_1 (rawDelta startTime)) in Hx as (d & -> & Hd).
    rewrite (sort_Permutation WorkerPerformanceData.startTime) in Hd.
    rewrite Forall_forall in Hstart. specialize (Hstart d Hd). unfold rawDelta. lia.
Qed.

Lemma worker_timeDeltas_are_start_offsets_witness :
  CPUProfile.timeDeltas
    (Generator.generateFromSingleWorkerData Generator.new
       {[1%positive := pipelineRecords]} 1%positive 0 20 "1").1.1
  = [0; 10000; 15000].
Proof.
  pose proof (proj2 (proj2 (proj2 (worker_timeDeltas_are_start_offsets Generator.new
                 {[1%positive := pipelineRecords]} 1%positive 0 20 "1")))) as H.
  cbn zeta in H. rewrite H; [by vm_compute|].
  vm_compute. repeat constructor; discriminate.
Defined.

(** ** The builder on telemetry records: the nodes *)

Section WorkerNodes.
Import Generator.

Lemma firstNames_snoc records d :
  firstNames (records ++ [d])
  = if decide (WorkerPerformanceData.functionName d ∈ firstNames records)
    then firstNames records
    else firstNames records ++ [WorkerPerformanceData.functionName d].
Proof. unfold firstNames. by rewrite fold_left_app. Qed.

Lemma firstNames_elem records fn :
  fn ∈ firstNames records
  <-> exists d, d ∈ records /\ WorkerPerformanceData.functionName d = fn.
Proof.
  induction records as [|d records IH] using rev_ind.
  - split; [by intros H%elem_of_nil|]. by intros (d & H%elem_of_nil & _).
  - rewrite firstNames_snoc.
    destruct (decide (WorkerPerformanceData.functionName d ∈ firstNames records)) as [Hin|Hnin].
    + rewrite IH. split.
      * intros (d' & Hd' & Hfn). exists d'. split; [|done]. apply elem_of_app. by left.
      * intros (d' & [Hd'|Hd']%elem_of_app & Hfn); [by exists d'|].
        apply list_elem_of_singleton in Hd'. subst d'. subst fn. by apply IH.
    + rewrite elem_of_app, IH, list_elem_of_singleton. split.
      * intros [(d' & Hd' & Hfn)| ->].
        -- exists d'. split; [|done]. apply elem_of_app. by left.
        -- exists d. split; [|done]. apply elem_of_app. right. by left.
      * intros (d' & [Hd'|Hd']%elem_of_app & Hfn); [left; by exists d'|].
        apply list_elem_of_singleton in Hd'. subst d'. by right.
Qed.

Lemma firstNames_NoDup records : NoDup (firstNames records).
Proof.
  induction records as [|d records IH] using rev_ind; [constructor|].
  rewrite firstNames_snoc. case_decide as Hin; [done|].
  apply NoDup_app. split; [done|]. split; [|apply NoDup_singleton].
  intros x Hx Hx'. apply list_elem_of_singleton in Hx'. by subst x.
Qed.

Lemma countName_snoc fn records d :
  countName fn (records ++ [d])
  = (countName fn records
     + if decide (WorkerPerformanceData.functionName d = fn) then 1 else 0)%nat.
Proof.
  unfold countName. rewrite filter_app, length_app. f_equal.
  rewrite filter_cons. by destruct (decide (WorkerPerformanceData.functionName d = fn)).
Qed.

Lemma countName_absent fn records :
  fn ∉ firstNames records -> countName fn records = 0%nat.
Proof.
  intros Hnin. unfold countName.
  destruct (filter _ records) as [|d l] eqn:E; [done|]. exfalso. apply Hnin.
  assert (Hd : d ∈ filter (fun d => WorkerPerformanceData.functionName d = fn) records)
    by (rewrite E; by left).
  apply list_elem_of_filter in Hd as [Hfn Hd]. apply firstNames_elem. by exists d.
Qed.

Lemma firstMarker_snoc_old fn records d :
  fn ∈ firstNames records -> firstMarker fn (records ++ [d]) = firstMarker fn records.
Proof.
  intros (d' & Hd' & Hfn)%firstNames_elem. unfold firstMarker.
  induction records as [|r records IH]; [by apply elem_of_nil in Hd'|].
  simpl. destruct (String.eqb_spec (WorkerPerformanceData.functionName r) fn); [done|].
  apply elem_of_cons in Hd' as [->|Hd']; [done|]. by apply IH.
Qed.

Lemma firstMarker_snoc_new records d :
  WorkerPerformanceData.functionName d ∉ firstNames records ->
  firstMarker (WorkerPerformanceData.functionName d) (records ++ [d])
  = WorkerPerformanceData.marker d.
Proof.
  intros Hnin. unfold firstMarker.
  assert (Hnone : forall r, r ∈ records ->
            WorkerPerformanceData.functionName r <> WorkerPerformanceData.functionName d).
  { intros r Hr Heq. apply Hnin, firstNames_elem. by exists r. }
  clear Hnin. induction records as [|r records IH]; simpl.
  - by rewrite String.eqb_refl.
  - destruct (String.eqb_spec (WorkerPerformanceData.functionName r)
                (WorkerPerformanceData.functionName d)) as [Heq|_].
    + exfalso. apply (Hnone r); [by left|done].
    + apply IH. intros r' Hr'. apply Hnone. by right.
Qed.

(** With ids that follow the array positions, the hit of node [i] touches
    position [i] and nothing else. *)
Lemma incrementHitCount_lookup base ns (i j : nat) :
  (forall (k : nat) n, ns !! k = Some n -> ProfileNode.id n = Z.of_nat (base + k)) ->
  incrementHitCount (Z.of_nat (base + i)) ns !! j
  = if decide (j = i)
    then (fun n => ProfileNode.withHitCount n (orZero (ProfileNode.hitCount n) + 1))
           <$> ns !! j
    else ns !! j.
Proof.
  revert base i j. induction ns as [|n ns IH]; intros base i j Hids.
  - simpl. by destruct (decide (j = i)).
  - cbn [incrementHitCount].
    pose proof (Hids 0%nat n eq_refl) as Hn. rewrite Nat.add_0_r in Hn.
    destruct (Z.eqb_spec (ProfileNode.id n) (Z.of_nat (base + i))) as [Heq|Hne].
    + assert (i = 0)%nat as -> by lia.
      destruct j as [|j]; [by rewrite decide_True|by rewrite decide_False by lia].
    + destruct i as [|i]; [rewrite Nat.add_0_r in Hne; lia|].
      destruct j as [|j]; [by rewrite decide_False by lia|].
      change ((n :: incrementHitCount (Z.of_nat (base + S i)) ns) !! S j)
        with (incrementHitCount (Z.of_nat (base + S i)) ns !! j).
      change ((n :: ns) !! S j) with (ns !! j).
      replace (base + S i)%nat with (S base + i)%nat by lia.
      rewrite (IH (S base) i j).
      * destruct (decide (j = i)), (decide (S j = S i)); first [done|lia].
      * intros k n' Hk. rewrite (Hids (S k) n' Hk). f_equal. lia.
Qed.

(** The state after a record of a function not met before, in full. *)
Lemma addWorker_fresh this data workerId :
  nodeMap this !! workerNodeKey workerId (WorkerPerformanceData.functionName data) = None ->
  scriptMap this !! workerUrl workerId (WorkerPerformanceData.functionName data) = None ->
  addWorkerPerformanceData this data workerId
  = let fn := WorkerPerformanceData.functionName data in
    let scriptId := "script-" +:+ numToString (scriptIdCounter this) in
    mk (nodes this
        ++ [ProfileNode.mk (nodeIdCounter this)
              (CallFrame.mk ("[" +:+ ("Worker-" +:+ workerId) +:+ "] " +:+ fn) scriptId
                 (workerUrl workerId fn) 0 0)
              (Some 1) None None (WorkerPerformanceData.marker data)])
       (samples this ++ [nodeIdCounter this])
       (timeDeltas this ++ [rawDelta (startTime this) data])
       (<[workerNodeKey workerId fn := nodeIdCounter this]> (nodeMap this))
       (nodeIdCounter this + 1) (scriptIdCounter this + 1)
       (<[workerUrl workerId fn := scriptId]> (scriptMap this)) (startTime this).
Proof.
  intros Hn Hs. unfold addWorkerPerformanceData. rewrite Hn.
  unfold nextNodeId, getScriptId. cbn [scriptMap scriptIdCounter].
  unfold workerUrl in Hs. cbn zeta in Hs. by rewrite Hs.
Qed.

Lemma workerSpec_init this s workerId : WorkerSpec workerId [] (setStartTime (reset this) s).
Proof. constructor; simpl; done. Qed.

Lemma workerSpec_step workerId processed g data :
  WorkerSpec workerId processed g ->
  WorkerSpec workerId (processed ++ [data]) (addWorkerPerformanceData g data workerId).
Proof.
  intros [Hlen Hnodes Hmap Hc Hsc Hsm Hsamples].
  set (fn := WorkerPerformanceData.functionName data).
  pose proof (firstNames_NoDup processed) as Hnd.
  destruct (indexOf fn (firstNames processed)) as [i|] eqn:Hidx.
  - (* a function met before *)
    assert (Hin : fn ∈ firstNames processed).
    { destruct (decide (fn ∈ firstNames processed)) as [|Hn]; [done|].
      apply indexOf_None in Hn. congruence. }
    assert (Hnames : firstNames (processed ++ [data]) = firstNames processed).
    { rewrite firstNames_snoc. fold fn. by rewrite decide_True. }
    assert (Hkey : nodeMap g !! workerNodeKey workerId fn = Some (Z.of_nat i)).
    { by rewrite Hmap, Hidx. }
    rewrite (addWorker_existing _ _ _ _ Hkey).
    constructor; rewrite ?Hnames;
      cbn [pushSample setNodes nodes samples nodeMap nodeIdCounter scriptIdCounter scriptMap];
      try done.
    + by rewrite incrementHitCount_length.
    + intros j fn' Hj.
      pose proof (incrementHitCount_lookup 0 (nodes g) i j) as Hinc.
      change (0 + i)%nat with i in Hinc. rewrite Hinc.
      2:{ intros k n Hk. change (0 + k)%nat with k. destruct (firstNames processed !! k) as [fk|] eqn:Hfk.
          - rewrite (Hnodes _ _ Hfk) in Hk. by injection Hk as <-.
          - apply lookup_ge_None in Hfk. apply lookup_lt_Some in Hk. lia. }
      rewrite (Hnodes _ _ Hj). unfold expectedWorkerNode.
      rewrite countName_snoc, firstMarker_snoc_old by (by eapply list_elem_of_lookup_2).
      fold fn. destruct (decide (j = i)) as [->|Hne].
      * apply indexOf_Some in Hidx. rewrite Hidx in Hj. injection Hj as <-.
        rewrite decide_True by done. simpl. unfold ProfileNode.withHitCount. simpl.
        do 2 f_equal. f_equal. lia.
      * rewrite decide_False; [by rewrite Nat.add_0_r|].
        intros <-. apply Hne. apply (indexOf_lookup _ _ _ Hnd) in Hj. congruence.
    + apply Forall2_app; [done|]. repeat constructor. fold fn. by rewrite Hidx.
  - (* a new function *)
    assert (Hnin : fn ∉ firstNames processed) by (by apply indexOf_None).
    assert (Hnames : firstNames (processed ++ [data]) = firstNames processed ++ [fn]).
    { rewrite firstNames_snoc. fold fn. by rewrite decide_False. }
    rewrite addWorker_fresh; [|by rewrite Hmap; fold fn; rewrite Hidx
                               |by rewrite Hsm; fold fn; rewrite Hidx].
    cbn zeta. fold fn.
    constructor; rewrite ?Hnames;
      cbn [nodes samples nodeMap nodeIdCounter scriptIdCounter scriptMap].
    + rewrite !length_app. simpl. lia.
    + intros j fn' Hj. apply lookup_app_Some in Hj as [Hj|[Hge Hj]].
      * rewrite lookup_app_l by (rewrite Hlen; by eapply lookup_lt_Some).
        rewrite (Hnodes _ _ Hj). unfold expectedWorkerNode.
        assert (Hfn' : fn' ∈ firstNames processed) by (by eapply list_elem_of_lookup_2).
        rewrite countName_snoc, firstMarker_snoc_old by done. fold fn.
        rewrite decide_False by (by intros ->). by rewrite Nat.add_0_r.
      * apply list_lookup_singleton_Some in Hj as [Hj <-].
        assert (j = length (firstNames processed)) as -> by lia.
        rewrite lookup_app_r by lia. rewrite Hlen, Nat.sub_diag. simpl.
        unfold expectedWorkerNode.
        rewrite countName_snoc, (countName_absent _ _ Hnin). fold fn.
        rewrite decide_True by done. rewrite Hc, Hsc.
        pose proof (firstMarker_snoc_new processed data Hnin) as Hfm.
        fold fn in Hfm. by rewrite Hfm.
    + intros fn'. rewrite indexOf_app.
      destruct (decide (fn = fn')) as [<-|Hne].
      * rewrite lookup_insert_eq, Hidx. by rewrite Hc.
      * rewrite lookup_insert_ne by (by intros ?%workerNodeKey_inj).
        rewrite Hmap. by destruct (indexOf fn' (firstNames processed)).
    + rewrite length_app, Hc. simpl. lia.
    + rewrite length_app, Hsc. simpl. lia.
    + intros fn'. rewrite indexOf_app.
      destruct (decide (fn = fn')) as [<-|Hne].
      * rewrite lookup_insert_eq, Hidx. by rewrite Hsc.
      * rewrite lookup_insert_ne by (by intros ?%workerUrl_inj).
        rewrite Hsm. by destruct (indexOf fn' (firstNames processed)).
    + apply Forall2_app.
      * eapply Forall2_impl; [exact Hsamples|]. intros d s Hd. simpl in *.
        rewrite indexOf_app.
        destruct (indexOf (WorkerPerformanceData.functionName d) (firstNames processed));
          [done|by simpl in Hd].
      * repeat constructor. fold fn. rewrite indexOf_app, Hidx, decide_True by done.
        simpl. by rewrite Hc.
Qed.

Lemma workerSpec_loop workerId ds processed g :
  WorkerSpec workerId processed g ->
  WorkerSpec workerId (processed ++ ds)
    (fold_left (fun g data => addWorkerPerformanceData g data workerId) ds g).
Proof.
  revert processed g. induction ds as [|d ds IH]; intros processed g Hinv.
  - simpl. by rewrite app_nil_r.
  - cbn [fold_left]. replace (processed ++ d :: ds) with ((processed ++ [d]) ++ ds)
      by (by rewrite <- app_assoc).
    by apply IH, workerSpec_step.
Qed.

End WorkerNodes.

Lemma worker_profile_spec this σ workerData startTime endTime workerId :
  let sorted := JS.sort Generator.byStartTime (σ !!! workerData) in
  exists g,
    WorkerSpec workerId sorted g
    /\ (Generator.generateFromSingleWorkerData this σ workerData startTime endTime
          workerId).1.1
       = CPUProfile.mk (Generator.nodes g) (Generator.samples g)
           (Generator.normalizeArray (Generator.timeDeltas g)) startTime endTime.
Proof.
  intros sorted.
  exists (fold_left (fun g data => Generator.addWorkerPerformanceData g data workerId)
            sorted (Generator.setStartTime (Generator.reset this) startTime)).
  split; [|reflexivity].
  apply (workerSpec_loop workerId sorted []), workerSpec_init.
Qed.

(** Profiles of the record builder have dense node ids and samples in range. *)
Lemma worker_profile_dense this σ workerData startTime endTime workerId :
  let p := (Generator.generateFromSingleWorkerData this σ workerData startTime endTime
              workerId).1.1 in
  denseIds (CPUProfile.nodes p) /\ samplesInRange p.
Proof.
  destruct (worker_profile_spec this σ workerData startTime endTime workerId)
    as (g & Hspec & Heq).
  cbn zeta in *. rewrite Heq. unfold denseIds, samplesInRange.
  cbn [CPUProfile.nodes CPUProfile.samples].
  set (sorted := JS.sort Generator.byStartTime (σ !!! workerData)) in *.
  split.
  - apply list_eq. intros i. rewrite !list_lookup_fmap.
    destruct (firstNames sorted !! i) as [fn|] eqn:Hi.
    + rewrite (ws_nodes _ _ _ Hspec _ _ Hi). simpl.
      rewrite lookup_seq_lt; [done|]. rewrite (ws_length _ _ _ Hspec).
      by eapply lookup_lt_Some.
    + apply lookup_ge_None in Hi. rewrite <- (ws_length _ _ _ Hspec) in Hi.
      rewrite (lookup_ge_None_2 (Generator.nodes g)) by done.
      by rewrite lookup_seq_ge.
  - pose proof (ws_samples _ _ _ Hspec) as Hs.
    apply Forall_forall. intros s Hin.
    apply list_elem_of_lookup in Hin as [k Hk].
    destruct (Forall2_lookup_r _ _ _ _ _ Hs Hk) as (d & _ & Hd). simpl in Hd.
    destruct (indexOf _ _) as [i|] eqn:Hi; [|done]. injection Hd as <-.
    apply indexOf_Some, lookup_lt_Some in Hi. rewrite (ws_length _ _ _ Hspec). lia.
Qed.

(** X3: the profile built from the records of one worker has one node per
    distinct function name, in the order in which the functions first occur
    among the records sorted by start time.  The node of the [i]-th function
    has id [i], script id [script-i], the worker-qualified name and url, line
    and column 0, the marker of the function's first record, and a hit count
    equal to the number of records of that function.  Each sample is the
    position of its record's function. *)
Theorem worker_nodes_by_function
    this (σ : heap) (workerData : loc) startTime endTime workerId :
  let sorted := JS.sort Generator.byStartTime (σ !!! workerData) in
  let p := (Generator.generateFromSingleWorkerData this σ workerData startTime endTime
              workerId).1.1 in
  let names := firstNames sorted in
  NoDup names
  /\ (forall fn,
        fn ∈ names
        <-> exists d, d ∈ σ !!! workerData /\ WorkerPerformanceData.functionName d = fn)
  /\ length (CPUProfile.nodes p) = length names
  /\ (forall (i : nat) fn,
        names !! i = Some fn ->
        CPUProfile.nodes p !! i = Some (expectedWorkerNode workerId sorted i fn))
  /\ Forall2
       (fun d s =>
          exists i : nat,
            names !! i = Some (WorkerPerformanceData.functionName d) /\ s = Z.of_nat i)
       sorted (CPUProfile.samples p).
Proof.
  intros sorted p names. subst p.
  destruct (worker_profile_spec this σ workerData startTime endTime workerId)
    as (g & Hspec & ->).
  fold sorted in Hspec. cbn [CPUProfile.nodes CPUProfile.samples].
  split; [apply firstNames_NoDup|]. split.
  { intros fn. subst names. rewrite firstNames_elem. split.
    - intros (d & Hd & Hfn). exists d. split; [|done].
      by rewrite <- (sort_Permutation WorkerPerformanceData.startTime (σ !!! workerData)).
    - intros (d & Hd & Hfn). exists d. split; [|done]. subst sorted.
      by rewrite (sort_Permutation WorkerPerformanceData.startTime (σ !!! workerData)). }
  split; [apply (ws_length _ _ _ Hspec)|]. split; [apply (ws_nodes _ _ _ Hspec)|].
  eapply Forall2_impl; [apply (ws_samples _ _ _ Hspec)|].
  intros d s Hd. simpl in Hd. fold names in Hd.
  destruct (indexOf (WorkerPerformanceData.functionName d) names) as [i|] eqn:Hi; [|done].
  injection Hd as <-. exists i. split; [by apply indexOf_Some|done].
Qed.

Lemma worker_nodes_by_function_witness :
  let p := (Generator.generateFromSingleWorkerData Generator.new
              {[1%positive := repeatedRecords]} 1%positive 0 10 "1").1.1 in
  CPUProfile.nodes p !! 1%nat
  = Some (ProfileNode.mk 1
            (CallFrame.mk "[Worker-1] decode" "script-1" "Worker-1://decode" 0 0)
            (Some 2) None None None).
Proof.
  exact (proj1 (proj2 (proj2 (proj2 (worker_nodes_by_function Generator.new
                 {[1%positive := repeatedRecords]} 1%positive 0 10 "1"))))
               1%nat "decode" eq_refl).
Defined.

(** ** The builder on a sampled trace: errors and nodes *)

Section TraceNodes.
Import Generator.

Lemma traceSampleStep_throws markedFunctions stacks frames startTime threadName this sample :
  (exists e,
      traceSampleStep markedFunctions stacks frames startTime threadName this sample
      = Throw e)
  <-> sampleFrameMissing stacks frames sample = true.
Proof.
  unfold traceSampleStep, sampleFrameMissing.
  destruct (Trace.stackId sample) as [sid|]; [|split; [by intros [? ?]|done]].
  destruct (index stacks sid) as [stack|]; [|split; [by intros [? ?]|done]].
  destruct (Trace.frameId stack) as [fid|]; [|split; [by intros [? ?]|done]].
  destruct (index frames fid) as [frame|].
  - rewrite bool_decide_eq_false_2 by done.
    destruct (getOrCreateNode _ _ _ _). split; [by intros [? ?]|done].
  - rewrite bool_decide_eq_true_2 by done. split; [done|]. intros _. by eexists.
Qed.

Lemma traceSampleStep_error markedFunctions stacks frames startTime threadName this sample e :
  traceSampleStep markedFunctions stacks frames startTime threadName this sample = Throw e ->
  e = TypeError "Cannot read properties of undefined (reading 'name')".
Proof.
  unfold traceSampleStep.
  destruct (Trace.stackId sample) as [sid|]; [|done].
  destruct (index stacks sid) as [stack|]; [|done].
  destruct (Trace.frameId stack) as [fid|]; [|done].
  destruct (index frames fid) as [frame|]; [|by intros [= <-]].
  by destruct (getOrCreateNode _ _ _ _).
Qed.

Lemma sampleLoop_throws markedFunctions stacks frames startTime threadName ss this :
  (exists e,
      forEachM (traceSampleStep markedFunctions stacks frames startTime threadName) ss this
      = Throw e)
  <-> Exists (fun s => sampleFrameMissing stacks frames s = true) ss.
Proof.
  revert this. induction ss as [|s ss IH]; intros this.
  - split; [by intros [? ?]|by intros H%Exists_nil].
  - cbn [forEachM]. rewrite Exists_cons.
    rewrite <- (traceSampleStep_throws markedFunctions stacks frames startTime threadName
                  this s).
    destruct (traceSampleStep markedFunctions stacks frames startTime threadName this s)
      as [this1|e] eqn:E; cbn [JS.bind].
    + rewrite (IH this1). split; [by right|]. by intros [[? ?]|?].
    + split; [intros _; left; by eexists|intros _; by eexists].
Qed.

Lemma sampleLoop_error markedFunctions stacks frames startTime threadName ss this e :
  forEachM (traceSampleStep markedFunctions stacks frames startTime threadName) ss this
  = Throw e ->
  e = TypeError "Cannot read properties of undefined (reading 'name')".
Proof.
  revert this. induction ss as [|s ss IH]; intros this; [done|].
  cbn [forEachM].
  destruct (traceSampleStep markedFunctions stacks frames startTime threadName this s)
    as [this1|e'] eqn:E; cbn [JS.bind].
  - apply IH.
  - intros [= <-]. by eapply traceSampleStep_error.
Qed.

Lemma traceInv_init markedFunctions threadName this s :
  TraceInv markedFunctions threadName (setStartTime (reset this) s).
Proof. constructor; simpl; try done; constructor. Qed.

(** Interning keeps the invariant and adds at most one node. *)
Lemma traceInv_getOrCreateNode markedFunctions threadName this frame :
  TraceInv markedFunctions threadName this ->
  let r := getOrCreateNode markedFunctions this frame threadName in
  TraceInv markedFunctions threadName r.2
  /\ 0 <= r.1 < Z.of_nat (length (nodes r.2))
  /\ (length (nodes this) <= length (nodes r.2) <= S (length (nodes this)))%nat
  /\ samples r.2 = samples this.
Proof.
  intros [Hc Hids Hmap Hnodes Hsamples]. unfold getOrCreateNode.
  destruct (nodeMap this !! traceNodeKey frame threadName) as [nodeId|] eqn:Hkey.
  - cbn zeta. cbn [fst snd]. split; [by constructor|].
    split; [by eapply Hmap|]. split; [lia|done].
  - unfold nextNodeId, getScriptId. cbn [scriptMap scriptIdCounter].
    set (fn := orString (Trace.name frame) "(anonymous)").
    assert (Hgoal : forall sid sc sm,
      let g' := registerNode
                  (mk (nodes this) (samples this) (timeDeltas this) (nodeMap this)
                      (nodeIdCounter this + 1) sc sm (startTime this))
                  (traceNodeKey frame threadName)
                  (ProfileNode.mk (nodeIdCounter this)
                     (CallFrame.mk
                        (if String.eqb threadName "Main Thread" then fn
                         else "[" +:+ threadName +:+ "] " +:+ fn)
                        sid (traceNodeUrl frame threadName)
                        (default 0 (Trace.line frame)) (default 0 (Trace.column frame)))
                     (Some 1) None None (getFunctionMarker markedFunctions fn)) in
      TraceInv markedFunctions threadName g'
      /\ 0 <= nodeIdCounter this < Z.of_nat (length (nodes g'))
      /\ (length (nodes this) <= length (nodes g') <= S (length (nodes this)))%nat
      /\ samples g' = samples this).
    { intros sid sc sm g'. subst g'.
      cbn [registerNode nodes samples nodeMap nodeIdCounter ProfileNode.id].
      rewrite length_app. cbn [length].
      split; [|split; [lia|split; [lia|done]]].
      constructor; cbn [registerNode nodes samples nodeMap nodeIdCounter ProfileNode.id].
      - rewrite length_app. simpl. lia.
      - intros k n [Hk|[Hge Hk]]%lookup_app_Some; [by apply Hids|].
        apply list_lookup_singleton_Some in Hk as [Hk <-]. simpl. lia.
      - intros key v. rewrite length_app. cbn [length].
        destruct (decide (traceNodeKey frame threadName = key)) as [<-|Hne].
        + rewrite lookup_insert_eq. intros [= <-]. lia.
        + rewrite lookup_insert_ne by done. intros Hv. specialize (Hmap _ _ Hv). lia.
      - apply Forall_app. split; [done|]. repeat constructor. by exists fn.
      - rewrite length_app. cbn [length].
        eapply Forall_impl; [exact Hsamples|]. simpl. intros; lia. }
    destruct (scriptMap this !! traceNodeUrl frame threadName); apply Hgoal.
Qed.

Lemma traceInv_frameLoop markedFunctions threadName fs this :
  TraceInv markedFunctions threadName this ->
  let this' :=
    fold_left (fun g frame => (getOrCreateNode markedFunctions g frame threadName).2)
              fs this in
  TraceInv markedFunctions threadName this'
  /\ (length (nodes this') <= length (nodes this) + length fs)%nat
  /\ (forall f, f ∈ fs -> is_Some (nodeMap this' !! traceNodeKey f threadName)).
Proof.
  revert this. induction fs as [|f fs IH]; intros this Hinv.
  - simpl. split; [done|]. split; [lia|]. by intros f H%elem_of_nil.
  - cbn [fold_left].
    destruct (traceInv_getOrCreateNode markedFunctions threadName this f Hinv)
      as (Hinv1 & _ & Hlen & _).
    destruct (IH _ Hinv1) as (Hinv2 & Hlen2 & Hkeys). cbn zeta in *.
    split; [done|]. split; [simpl; lia|].
    intros f' [->|Hf']%elem_of_cons; [|by apply Hkeys].
    eexists. apply frameLoop_keeps, getOrCreateNode_registered.
Qed.

(** The sampling loop interns only frames of the trace: it adds samples and
    leaves the nodes alone. *)
Lemma traceInv_sampleLoop markedFunctions threadName stacks frames startTime ss this this' :
  TraceInv markedFunctions threadName this ->
  (forall f, f ∈ frames -> is_Some (nodeMap this !! traceNodeKey f threadName)) ->
  forEachM (traceSampleStep markedFunctions stacks frames startTime threadName) ss this
  = Ok this' ->
  TraceInv markedFunctions threadName this' /\ nodes this' = nodes this.
Proof.
  revert this. induction ss as [|s ss IH]; intros this Hinv Hkeys.
  - by intros [= <-].
  - cbn [forEachM].
    destruct (traceSampleStep markedFunctions stacks frames startTime threadName this s)
      as [this1|] eqn:E; [|done].
    cbn [JS.bind]. intros Hrest.
    assert (Hstep : TraceInv markedFunctions threadName this1
                    /\ nodes this1 = nodes this /\ nodeMap this1 = nodeMap this).
    { unfold traceSampleStep in E.
      destruct (match Trace.stackId s with
                | Some sid => index stacks sid
                | None => None
                end) as [stack|]; [|by injection E as <-].
      destruct (Trace.frameId stack) as [fid|]; [|by injection E as <-].
      destruct (index frames fid) as [frame|] eqn:Hf; [|done].
      assert (Hin : frame ∈ frames).
      { unfold index in Hf. destruct (fid <? 0); [done|].
        by eapply list_elem_of_lookup_2. }
      destruct (Hkeys _ Hin) as [nodeId Hk].
      rewrite (getOrCreateNode_hit _ _ _ _ _ Hk) in E. injection E as <-.
      destruct Hinv as [Hc Hids Hmap Hnodes Hsamples].
      split; [|done]. constructor; cbn [pushSample nodes samples nodeMap nodeIdCounter];
        try done.
      apply Forall_app. split; [done|]. repeat constructor; by eapply Hmap. }
    destruct Hstep as (Hinv1 & Hn1 & Hm1).
    destruct (IH this1 Hinv1) as [Hinv' Hn']; [by rewrite Hm1|done|].
    split; [done|]. by rewrite Hn', Hn1.
Qed.

End TraceNodes.

Lemma generateFromTrace_throws_on_missing_frame_facts
    markedFunctions this trace startTime endTime threadName :
  ((exists e,
       Generator.generateFromTrace markedFunctions this trace startTime endTime threadName
       = Throw e)
   <-> exists tr ss sts,
         trace = Some tr /\ Trace.samples tr = Some ss /\ Trace.stacks tr = Some sts
         /\ Exists (fun s => sampleFrameMissing sts (default [] (Trace.frames tr)) s = true)
                   ss)
  /\ (forall e,
        Generator.generateFromTrace markedFunctions this trace startTime endTime threadName
        = Throw e ->
        e = TypeError "Cannot read properties of undefined (reading 'name')").
Proof.
  unfold Generator.generateFromTrace.
  destruct trace as [tr|]; [|split; [|done]; split; [by intros [? ?]|]; by intros (?&?&?&?&?)].
  destruct (Trace.samples tr) as [ss|] eqn:Hss;
    [|split; [|done]; split; [by intros [? ?]|]; intros (?&?&?&[= <-]&?&?); congruence].
  destruct (Trace.stacks tr) as [sts|] eqn:Hsts;
    [|split; [|done]; split; [by intros [? ?]|]; intros (?&?&?&[= <-]&?&?&?); congruence].
  unfold Generator.processTrace. rewrite Hss, Hsts. cbn [default from_option id].
  match goal with
  | |- context [Generator.forEachM ?f ss ?s0] =>
      pose proof (sampleLoop_throws markedFunctions sts (default [] (Trace.frames tr))
                    startTime threadName ss s0) as Hiff;
      pose proof (sampleLoop_error markedFunctions sts (default [] (Trace.frames tr))
                    startTime threadName ss s0) as Herr;
      destruct (Generator.forEachM f ss s0) as [this1|e0] eqn:E
  end; cbn [JS.bind].
  - split; [|done]. split; [by intros [? ?]|].
    intros (tr' & ss' & sts' & [= <-] & Hss' & Hsts' & Hex).
    rewrite Hss in Hss'. rewrite Hsts in Hsts'. injection Hss' as <-. injection Hsts' as <-.
    apply Hiff in Hex as [? ?]. done.
  - split.
    + split; [|intros _; by eexists]. intros _. exists tr, ss, sts.
      repeat split; try done. apply Hiff. by eexists.
    + intros e [= <-]. by apply Herr.
Qed.

(** X4: [generateFromTrace] throws exactly when the trace has samples and
    stacks and one of its samples refers, through its stack, to a frame index
    that the trace's frame table does not have; the error is then the
    [TypeError] of reading [name] from [undefined].  Samples without a stack
    or with a stack without frame id never make it throw. *)
Theorem generateFromTrace_throws_on_missing_frame
    markedFunctions this trace startTime endTime threadName :
  ((exists e,
       Generator.generateFromTrace markedFunctions this trace startTime endTime threadName
       = Throw e)
   <-> exists tr ss sts,
         trace = Some tr /\ Trace.samples tr = Some ss /\ Trace.stacks tr = Some sts
         /\ Exists (fun s => sampleFrameMissing sts (default [] (Trace.frames tr)) s = true)
                   ss)
  /\ (forall e,
        Generator.generateFromTrace markedFunctions this trace startTime endTime threadName
        = Throw e ->
        e = TypeError "Cannot read properties of undefined (reading 'name')").
Proof. apply generateFromTrace_throws_on_missing_frame_facts. Qed.

Lemma trace_profile_inv markedFunctions this tr ss sts startTime endTime threadName p g :
  Trace.samples tr = Some ss -> Trace.stacks tr = Some sts ->
  Generator.generateFromTrace markedFunctions this (Some tr) startTime endTime threadName
  = Ok (p, g) ->
  TraceInv markedFunctions threadName g
  /\ p = Generator.toProfile g startTime endTime
  /\ (length (Generator.nodes g) <= length (default [] (Trace.frames tr)))%nat.
Proof.
  intros Hss Hsts. unfold Generator.generateFromTrace, Generator.processTrace.
  rewrite Hss, Hsts. cbn [default from_option id].
  destruct (traceInv_frameLoop markedFunctions threadName (default [] (Trace.frames tr))
              (Generator.setStartTime (Generator.reset this) startTime)
              (traceInv_init _ _ _ _)) as (Hinv & Hlen & Hkeys).
  cbn zeta in *.
  match goal with
  | |- context [Generator.forEachM ?f ss ?s0] =>
      destruct (Generator.forEachM f ss s0) as [this1|] eqn:E; [|done]
  end.
  cbn [JS.bind]. intros [= <- <-].
  destruct (traceInv_sampleLoop _ _ _ _ _ _ _ _ Hinv Hkeys E) as [Hinv' Hn].
  split; [done|]. split; [done|]. rewrite Hn. simpl in Hlen. lia.
Qed.

(** Profiles of the trace builder have dense node ids and samples in range. *)
Lemma trace_profile_dense markedFunctions this trace startTime endTime threadName p g :
  Generator.generateFromTrace markedFunctions this trace startTime endTime threadName
  = Ok (p, g) ->
  denseIds (CPUProfile.nodes p) /\ samplesInRange p.
Proof.
  assert (Hempty : denseIds (CPUProfile.nodes (Generator.getEmptyProfile startTime endTime))
                   /\ samplesInRange (Generator.getEmptyProfile startTime endTime)).
  { split; [done|constructor]. }
  destruct trace as [tr|]; [|by intros [= <- <-]].
  destruct (Trace.samples tr) as [ss|] eqn:Hss;
    [|unfold Generator.generateFromTrace; rewrite Hss; by intros [= <- <-]].
  destruct (Trace.stacks tr) as [sts|] eqn:Hsts;
    [|unfold Generator.generateFromTrace; rewrite Hss, Hsts; by intros [= <- <-]].
  intros H. destruct (trace_profile_inv _ _ _ _ _ _ _ _ _ _ Hss Hsts H) as (Hinv & -> & _).
  unfold denseIds, samplesInRange. cbn [Generator.toProfile CPUProfile.nodes CPUProfile.samples].
  split; [|apply (ti_samples _ _ _ Hinv)].
  apply list_eq. intros i. rewrite !list_lookup_fmap.
  destruct (Generator.nodes g !! i) as [n|] eqn:Hi; simpl.
  - rewrite (ti_ids _ _ _ Hinv _ _ Hi).
    rewrite lookup_seq_lt; [done|]. by eapply lookup_lt_Some.
  - apply lookup_ge_None in Hi. by rewrite lookup_seq_ge.
Qed.

(** X5: a profile that [generateFromTrace] returns keeps the given start and
    end time; its node ids count up from 0 in array order; every sample is the
    id of one of its nodes; it has at most one node per frame of the trace;
    every node has hit count 1, however many samples hit it; and every node
    carries the marker registered for its function name (none if unmarked),
    shown as the name itself on the main thread and prefixed by the thread
    name otherwise. *)
Theorem trace_profile_well_formed
    markedFunctions this trace startTime endTime threadName p g :
  Generator.generateFromTrace markedFunctions this trace startTime endTime threadName
  = Ok (p, g) ->
  CPUProfile.startTime p = startTime /\ CPUProfile.endTime p = endTime
  /\ denseIds (CPUProfile.nodes p)
  /\ samplesInRange p
  /\ (length (CPUProfile.nodes p)
      <= length (default [] (trace ≫= Trace.frames)))%nat
  /\ Forall
       (fun n =>
          ProfileNode.hitCount n = Some 1
          /\ exists fn,
               CallFrame.functionName (ProfileNode.callFrame n) = shownName threadName fn
               /\ ProfileNode.marker n = getFunctionMarker markedFunctions fn)
       (CPUProfile.nodes p).
Proof.
  intros H. destruct (trace_profile_dense _ _ _ _ _ _ _ _ H) as [Hd Hr].
  assert (Hempty : forall this0,
            Ok (Generator.getEmptyProfile startTime endTime, this0) = Ok (p, g) ->
            CPUProfile.startTime p = startTime /\ CPUProfile.endTime p = endTime
            /\ (length (CPUProfile.nodes p)
                <= length (default [] (trace ≫= Trace.frames)))%nat
            /\ Forall
                 (fun n =>
                    ProfileNode.hitCount n = Some 1
                    /\ exists fn,
                         CallFrame.functionName (ProfileNode.callFrame n)
                         = shownName threadName fn
                         /\ ProfileNode.marker n = getFunctionMarker markedFunctions fn)
                 (CPUProfile.nodes p)).
  { intros this0 [= <- <-]. simpl. repeat split; [lia|constructor]. }
  assert (Hgoal : CPUProfile.startTime p = startTime /\ CPUProfile.endTime p = endTime
            /\ (length (CPUProfile.nodes p)
                <= length (default [] (trace ≫= Trace.frames)))%nat
            /\ Forall
                 (fun n =>
                    ProfileNode.hitCount n = Some 1
                    /\ exists fn,
                         CallFrame.functionName (ProfileNode.callFrame n)
                         = shownName threadName fn
                         /\ ProfileNode.marker n = getFunctionMarker markedFunctions fn)
                 (CPUProfile.nodes p)).
  { destruct trace as [tr|]; [|by eapply Hempty].
    destruct (Trace.samples tr) as [ss|] eqn:Hss;
      [|unfold Generator.generateFromTrace in H; rewrite Hss in H; by eapply Hempty].
    destruct (Trace.stacks tr) as [sts|] eqn:Hsts;
      [|unfold Generator.generateFromTrace in H; rewrite Hss, Hsts in H; by eapply Hempty].
    destruct (trace_profile_inv _ _ _ _ _ _ _ _ _ _ Hss Hsts H) as (Hinv & -> & Hlen).
    cbn [Generator.toProfile CPUProfile.nodes CPUProfile.startTime CPUProfile.endTime].
    repeat split; [exact Hlen|apply (ti_nodes _ _ _ Hinv)]. }
  tauto.
Qed.

Lemma trace_profile_well_formed_witness :
  exists p g,
    Generator.generateFromTrace ∅ Generator.new (Some outOfOrderTrace) 0 30 "Main Thread"
    = Ok (p, g)
    /\ denseIds (CPUProfile.nodes p) /\ samplesInRange p.
Proof.
  destruct (Generator.generateFromTrace ∅ Generator.new (Some outOfOrderTrace) 0 30
              "Main Thread") as [[p g]|] eqn:E; [|by vm_compute in E].
  exists p, g. split; [reflexivity|].
  destruct (trace_profile_well_formed _ _ _ _ _ _ _ _ E) as (_ & _ & Hd & Hr & _).
  by split.
Defined.

(** ** The merger: nodes and what the samples refer to *)

Section MergeNodes.
Import Merge.

Lemma profileStep_nodes st p :
  CPUProfile.nodes (merged (profileStep st p))
  = CPUProfile.nodes (merged st)
    ++ map (fun n => ProfileNode.withId n (nodeIdOffset st + ProfileNode.id n))
           (CPUProfile.nodes p).
Proof.
  unfold profileStep.
  destruct (fold_left (nodeStep (nodeIdOffset st)) (CPUProfile.nodes p) (∅, merged st))
    as [mp m1] eqn:E.
  pose proof (nodeLoop_profile (nodeIdOffset st) (CPUProfile.nodes p) ∅ (merged st)) as Hn.
  rewrite E in Hn. cbn [snd] in Hn. destruct Hn as (_ & _ & _ & _ & N5).
  pose proof (sampleLoop p mp
                ((CPUProfile.startTime p - CPUProfile.startTime (merged st)) * 1000)
                [] (CPUProfile.samples p)
                (mkState m1 (nodeIdOffset st) (cumulativeTime st)) eq_refl) as Hs.
  cbn [length] in Hs. cbn zeta in Hs. cbn [merged nodeIdOffset cumulativeTime] in Hs.
  destruct Hs as (_ & _ & H3 & _).
  cbn [merged]. by rewrite H3, N5.
Qed.

Lemma profileLoop_nodes ps st :
  CPUProfile.nodes (merged (fold_left profileStep ps st))
  = CPUProfile.nodes (merged st) ++ remapNodes (nodeIdOffset st) ps.
Proof.
  revert st. induction ps as [|p ps IH]; intros st; cbn [fold_left remapNodes].
  - by rewrite app_nil_r.
  - rewrite IH, profileStep_nodes.
    destruct (profileStep_spec st p) as (_ & _ & _ & _ & P5 & _). cbn zeta in P5.
    by rewrite P5, <- app_assoc.
Qed.

Lemma mergeProfiles_nodes p ps m :
  mergeProfiles (p :: ps) = Ok m ->
  CPUProfile.nodes m = remapNodes 0 (JS.sort byStartTime (p :: ps)).
Proof.
  intros [= <-]. by rewrite profileLoop_nodes.
Qed.

End MergeNodes.

Lemma withId_same n : ProfileNode.withId n (ProfileNode.id n) = n.
Proof. by destruct n. Qed.

Lemma dense_lookup ns (i : nat) n :
  denseIds ns -> ns !! i = Some n -> ProfileNode.id n = Z.of_nat i.
Proof.
  unfold denseIds. intros Hd Hi.
  apply (f_equal (fun l => l !! i)) in Hd. rewrite !list_lookup_fmap, Hi in Hd.
  rewrite lookup_seq_lt in Hd by (by eapply lookup_lt_Some). by injection Hd.
Qed.

Lemma dense_elem ns s :
  denseIds ns -> s ∈ map ProfileNode.id ns <-> 0 <= s < Z.of_nat (length ns).
Proof.
  unfold denseIds. intros ->. rewrite list_elem_of_fmap. split.
  - intros (i & -> & Hi). apply elem_of_seq in Hi. lia.
  - intros Hs. exists (Z.to_nat s). split; [lia|]. apply elem_of_seq. lia.
Qed.

(** With ids that follow the positions, [find] by id is indexing. *)
Lemma nodeOf_from base ns s :
  (forall (k : nat) n, ns !! k = Some n -> ProfileNode.id n = base + Z.of_nat k) ->
  base <= s ->
  nodeOf ns s = ns !! Z.to_nat (s - base).
Proof.
  revert base. induction ns as [|n ns IH]; intros base Hids Hs; [done|].
  unfold nodeOf. cbn [find]. pose proof (Hids 0%nat n eq_refl) as Hn.
  destruct (Z.eqb_spec (ProfileNode.id n) s) as [Heq|Hne].
  - by replace (Z.to_nat (s - base)) with 0%nat by lia.
  - replace (Z.to_nat (s - base)) with (S (Z.to_nat (s - (base + 1)))) by lia.
    cbn [lookup list_lookup]. fold (nodeOf ns s). rewrite (IH (base + 1)); [done| |lia].
    intros k n' Hk. rewrite (Hids (S k) n' Hk). lia.
Qed.

Lemma nodeOf_dense ns s :
  denseIds ns -> 0 <= s -> nodeOf ns s = ns !! Z.to_nat s.
Proof.
  intros Hd Hs. rewrite (nodeOf_from 0 ns s); [by rewrite Z.sub_0_r| |done].
  intros k n Hk. rewrite (dense_lookup _ _ _ Hd Hk). lia.
Qed.

Lemma remapNodes_length offset ps :
  length (remapNodes offset ps) = length (flat_map CPUProfile.nodes ps).
Proof.
  revert offset. induction ps as [|p ps IH]; intros offset; simpl; [done|].
  by rewrite !length_app, length_map, IH.
Qed.

(** Re-identified nodes of well-indexed sources continue the count at [k]. *)
Lemma remapNodes_ids (k : nat) ps :
  Forall wellIndexed ps ->
  forall (i : nat) n,
    remapNodes (Z.of_nat k) ps !! i = Some n -> ProfileNode.id n = Z.of_nat k + Z.of_nat i.
Proof.
  intros Hall. revert k. induction Hall as [|p ps [Hd _] _ IH]; intros k i n; [done|].
  cbn [remapNodes]. intros [Hi|[Hge Hi]]%lookup_app_Some.
  - rewrite list_lookup_fmap in Hi.
    destruct (CPUProfile.nodes p !! i) as [n0|] eqn:Hn0; [|done].
    injection Hi as <-. simpl. rewrite (dense_lookup _ _ _ Hd Hn0). done.
  - rewrite length_map in Hge, Hi.
    replace (Z.of_nat k + Z.of_nat (length (CPUProfile.nodes p)))
      with (Z.of_nat (k + length (CPUProfile.nodes p))) in Hi by lia.
    rewrite (IH _ _ _ Hi). lia.
Qed.

Lemma remapId_dense offset p s :
  0 <= offset -> denseIds (CPUProfile.nodes p) ->
  0 <= s < Z.of_nat (length (CPUProfile.nodes p)) ->
  remapId offset (CPUProfile.nodes p) s = offset + s.
Proof.
  intros Ho Hd Hs. unfold remapId.
  rewrite decide_True by (by apply dense_elem).
  destruct (Z.eqb_spec (offset + s) 0); lia.
Qed.

Lemma remapAll_range (k : nat) ps :
  Forall wellIndexed ps ->
  Forall (fun s => Z.of_nat k <= s
                   < Z.of_nat k + Z.of_nat (length (flat_map CPUProfile.nodes ps)))
         (remapAll (Z.of_nat k) ps).
Proof.
  intros Hall. revert k. induction Hall as [|p ps [Hd Hr] _ IH]; intros k; [constructor|].
  cbn [remapAll flat_map]. rewrite length_app. apply Forall_app. split.
  - apply Forall_forall. intros s' Hs'.
    apply list_elem_of_fmap in Hs' as (s & -> & Hs).
    unfold samplesInRange in Hr. rewrite Forall_forall in Hr. specialize (Hr s Hs).
    rewrite remapId_dense by (done || lia). lia.
  - replace (Z.of_nat k + Z.of_nat (length (CPUProfile.nodes p)))
      with (Z.of_nat (k + length (CPUProfile.nodes p))) by lia.
    eapply Forall_impl; [apply IH|]. simpl. intros; lia.
Qed.

(** The merged samples of well-indexed sources, resolved in merged nodes
    [ns], name the call frames the source samples name in their sources. *)
Lemma remapAll_frames ns (k : nat) ps :
  Forall wellIndexed ps ->
  (forall (j : nat) n, ns !! j = Some n -> ProfileNode.id n = Z.of_nat j) ->
  (forall i : nat, (i < length (remapNodes (Z.of_nat k) ps))%nat ->
                   ns !! (k + i)%nat = remapNodes (Z.of_nat k) ps !! i) ->
  map (fun s => ProfileNode.callFrame <$> nodeOf ns s) (remapAll (Z.of_nat k) ps)
  = flat_map sampleFrames ps.
Proof.
  intros Hall Hns. revert k. induction Hall as [|p ps [Hd Hr] _ IH]; intros k Hsub; [done|].
  cbn [remapAll remapNodes flat_map] in *. rewrite map_app. f_equal.
  - unfold sampleFrames. rewrite map_map. apply map_ext_in. intros s Hs.
    apply list_elem_of_In in Hs.
    unfold samplesInRange in Hr. rewrite Forall_forall in Hr. specialize (Hr s Hs).
    rewrite remapId_dense by (done || lia).
    rewrite (nodeOf_dense _ _ Hd) by lia.
    rewrite (nodeOf_from 0 ns); [|intros j n Hj; rewrite (Hns _ _ Hj); lia|lia].
    replace (Z.to_nat (Z.of_nat k + s - 0)) with (k + Z.to_nat s)%nat by lia.
    rewrite Hsub by (rewrite length_app, length_map; lia).
    rewrite lookup_app_l by (rewrite length_map; lia).
    rewrite list_lookup_fmap. by destruct (CPUProfile.nodes p !! Z.to_nat s).
  - replace (Z.of_nat k + Z.of_nat (length (CPUProfile.nodes p)))
      with (Z.of_nat (k + length (CPUProfile.nodes p))) in * by lia.
    apply IH. intros i Hi.
    specialize (Hsub (length (CPUProfile.nodes p) + i)%nat).
    rewrite length_app, length_map in Hsub.
    rewrite lookup_app_r in Hsub by (rewrite length_map; lia).
    rewrite length_map in Hsub.
    replace (length (CPUProfile.nodes p) + i - length (CPUProfile.nodes p))%nat with i
      in Hsub by lia.
    rewrite <- Hsub by lia. f_equal. lia.
Qed.

Lemma mergeProfiles_wellIndexed (profiles : list CPUProfile.t) (m : CPUProfile.t) :
  Forall wellIndexed profiles ->
  Merge.mergeProfiles profiles = Ok m ->
  wellIndexed m
  /\ length (CPUProfile.nodes m) = length (flat_map CPUProfile.nodes profiles)
  /\ map ProfileNode.callFrame (CPUProfile.nodes m)
     = map ProfileNode.callFrame
           (flat_map CPUProfile.nodes (JS.sort Merge.byStartTime profiles))
  /\ sampleFrames m = flat_map sampleFrames (JS.sort Merge.byStartTime profiles).
Proof.
  intros Hall Hm. destruct profiles as [|p ps]; [done|].
  pose proof (mergeProfiles_nodes _ _ _ Hm) as Hn.
  destruct (mergeProfiles_Ok p ps) as (m' & Hm' & _ & _ & Hs & _).
  rewrite Hm in Hm'. injection Hm' as <-.
  set (sorted := JS.sort Merge.byStartTime (p :: ps)) in *.
  assert (Hperm : sorted ≡ₚ p :: ps) by apply (sort_Permutation CPUProfile.startTime).
  assert (Hall' : Forall wellIndexed sorted) by (by rewrite Hperm).
  assert (Hids : forall (j : nat) n, CPUProfile.nodes m !! j = Some n ->
                                     ProfileNode.id n = Z.of_nat j).
  { intros j n Hj. rewrite Hn in Hj.
    rewrite (remapNodes_ids 0 sorted Hall' j n Hj). lia. }
  assert (Hlen : length (CPUProfile.nodes m) = length (flat_map CPUProfile.nodes sorted)).
  { by rewrite Hn, remapNodes_length. }
  split; [split|split; [|split]].
  - unfold denseIds. apply list_eq. intros i. rewrite !list_lookup_fmap.
    destruct (CPUProfile.nodes m !! i) as [n|] eqn:Hi; simpl.
    + rewrite (Hids _ _ Hi). rewrite lookup_seq_lt; [done|]. by eapply lookup_lt_Some.
    + apply lookup_ge_None in Hi. by rewrite lookup_seq_ge.
  - unfold samplesInRange. rewrite Hs, Hlen.
    eapply Forall_impl; [apply (remapAll_range 0 sorted Hall')|]. simpl. intros; lia.
  - rewrite Hlen. apply Permutation_length. by rewrite Hperm.
  - rewrite Hn. clear. generalize 0. induction sorted as [|q qs IH]; intros o; [done|].
    cbn [remapNodes flat_map]. rewrite !map_app, IH. f_equal.
    rewrite map_map. by apply map_ext.
  - unfold sampleFrames at 1. rewrite Hs.
    apply (remapAll_frames (CPUProfile.nodes m) 0 sorted Hall' Hids).
    intros i _. by rewrite Hn.
Qed.

(** X6: merging profiles whose node ids count up from 0 and whose samples
    are in range (as both builders produce them) gives a profile of the same
    kind: it has all the nodes of the inputs, with ids counting up from 0, and
    every merged sample is in range and refers to a node with the same call
    frame as the node the source sample referred to in its own profile. *)
Theorem mergeProfiles_keeps_attribution (profiles : list CPUProfile.t) (m : CPUProfile.t) :
  Forall wellIndexed profiles ->
  Merge.mergeProfiles profiles = Ok m ->
  wellIndexed m
  /\ length (CPUProfile.nodes m) = length (flat_map CPUProfile.nodes profiles)
  /\ map ProfileNode.callFrame (CPUProfile.nodes m)
     = map ProfileNode.callFrame
           (flat_map CPUProfile.nodes (JS.sort Merge.byStartTime profiles))
  /\ sampleFrames m = flat_map sampleFrames (JS.sort Merge.byStartTime profiles).
Proof. apply mergeProfiles_wellIndexed. Qed.

Lemma mergeProfiles_keeps_attribution_witness :
  exists m,
    Merge.mergeProfiles [profileA; profileB] = Ok m
    /\ sampleFrames m
       = [Some (CallFrame.mk "[Worker-1] g" "script-0" "Worker-1://g" 0 0);
          Some (CallFrame.mk "[Worker-1] g" "script-0" "Worker-1://g" 0 0);
          Some (CallFrame.mk "f" "script-0" "main-thread://inline" 0 0);
          Some (CallFrame.mk "f" "script-0" "main-thread://inline" 0 0)].
Proof.
  destruct (Merge.mergeProfiles [profileA; profileB]) as [m|] eqn:E; [|by vm_compute in E].
  exists m. split; [reflexivity|].
  assert (Hall : Forall wellIndexed [profileA; profileB]).
  { repeat constructor; simpl; lia. }
  rewrite (proj2 (proj2 (proj2 (mergeProfiles_keeps_attribution _ _ Hall E)))).
  by vm_compute.
Defined.

Lemma clampedClock_id c l :
  StronglySorted Z.lt l -> Forall (fun d => c < d) l -> clampedClock c l = l.
Proof.
  intros Hs. revert c. induction Hs as [|d l Hs IH Hall]; intros c Hc; [done|].
  inversion Hc as [|? ? Hd _]; subst. cbn [clampedClock]. cbn zeta.
  destruct (Z.gtb_spec d c); [|lia]. f_equal. by apply IH.
Qed.

Lemma adjusted_zero_offset p :
  length (CPUProfile.timeDeltas p) = length (CPUProfile.samples p) ->
  adjustedDeltas (CPUProfile.startTime p) p = CPUProfile.timeDeltas p.
Proof.
  intros Hlen. unfold adjustedDeltas, adjustedFrom. rewrite <- Hlen.
  apply list_eq. intros i. rewrite list_lookup_fmap.
  destruct (CPUProfile.timeDeltas p !! i) as [d|] eqn:Hi.
  - rewrite lookup_seq_lt by (by eapply lookup_lt_Some). simpl. rewrite Hi. simpl.
    f_equal. lia.
  - apply lookup_ge_None in Hi. by rewrite lookup_seq_ge.
Qed.

(** X7: merging a single profile returns its nodes, samples, start and end
    time unchanged.  If moreover the profile has one time delta per sample,
    strictly increasing and all positive, the merged profile is the profile
    itself. *)
Theorem mergeProfiles_single (p : CPUProfile.t) :
  exists m,
    Merge.mergeProfiles [p] = Ok m
    /\ CPUProfile.nodes m = CPUProfile.nodes p
    /\ CPUProfile.samples m = CPUProfile.samples p
    /\ CPUProfile.startTime m = CPUProfile.startTime p
    /\ CPUProfile.endTime m = CPUProfile.endTime p
    /\ (length (CPUProfile.timeDeltas p) = length (CPUProfile.samples p) ->
        StronglySorted Z.lt (CPUProfile.timeDeltas p) ->
        Forall (fun d => 0 < d) (CPUProfile.timeDeltas p) ->
        m = p).
Proof.
  destruct (mergeProfiles_Ok p []) as (m & Hm & Hs & He & Hsm & Ht).
  pose proof (mergeProfiles_nodes _ _ _ Hm) as Hn.
  cbn [JS.sort JS.insert remapAll remapNodes flat_map map Math_min Math_max fold_left]
    in *.
  rewrite app_nil_r in Hsm, Hn, Ht.
  assert (Hn' : CPUProfile.nodes m = CPUProfile.nodes p).
  { rewrite Hn. rewrite <- (map_id (CPUProfile.nodes p)) at 2.
    apply map_ext. intros n. rewrite Z.add_0_l. apply withId_same. }
  assert (Hs' : CPUProfile.samples m = CPUProfile.samples p).
  { rewrite Hsm. rewrite <- (map_id (CPUProfile.samples p)) at 2.
    apply map_ext. intros s. unfold remapId. case_decide; [|done].
    by destruct (Z.eqb_spec (0 + s) 0). }
  exists m. split; [done|]. repeat split; try done.
  intros Hlen Hsorted Hpos.
  assert (Ht' : CPUProfile.timeDeltas m = CPUProfile.timeDeltas p).
  { rewrite Ht, Hs, adjusted_zero_offset by done. by apply clampedClock_id. }
  destruct m, p. simpl in *. congruence.
Qed.

Lemma mergeProfiles_single_witness :
  let p := CPUProfile.mk (CPUProfile.nodes profileA) [0; 0] [1000; 2000] 5 9 in
  Merge.mergeProfiles [p] = Ok p.
Proof.
  intros p. destruct (mergeProfiles_single p) as (m & Hm & _ & _ & _ & _ & Hid).
  rewrite Hm. f_equal. apply Hid.
  - reflexivity.
  - repeat constructor.
  - repeat constructor.
Defined.

(** ** Grouping the records by worker *)

Section Groups.
Import WorkerGroups.

Lemma push_keys k d gs :
  map fst (push k d gs) = if decide (k ∈ map fst gs) then map fst gs else map fst gs ++ [k].
Proof.
  induction gs as [|[k' arr] gs IH]; simpl; [done|].
  destruct (String.eqb_spec k' k) as [->|Hne]; simpl.
  - by rewrite decide_True by (by left).
  - rewrite IH. destruct (decide (k ∈ map fst gs)) as [Hin|Hnin].
    + by rewrite decide_True by (by right).
    + by rewrite decide_False by (by intros [?|?]%elem_of_cons).
Qed.

Lemma groupOf_push k d gs k' :
  groupOf k' (push k d gs)
  = if decide (k' = k) then Some (default [] (groupOf k gs) ++ [d]) else groupOf k' gs.
Proof.
  unfold groupOf. induction gs as [|[k0 arr0] gs IH]; simpl.
  - destruct (String.eqb_spec k k') as [->|Hne].
    + by rewrite decide_True.
    + by rewrite decide_False.
  - destruct (String.eqb_spec k0 k) as [->|Hne]; simpl.
    + destruct (String.eqb_spec k k') as [<-|Hne'].
      * by rewrite decide_True.
      * by rewrite decide_False.
    + destruct (String.eqb_spec k0 k') as [->|Hne'].
      * by rewrite decide_False.
      * exact IH.
Qed.

Lemma groupOf_elem k arr gs :
  NoDup (map fst gs) -> (k, arr) ∈ gs <-> groupOf k gs = Some arr.
Proof.
  unfold groupOf. induction gs as [|[k0 arr0] gs IH]; intros Hnd; simpl.
  - split; [by intros H%elem_of_nil|done].
  - apply NoDup_cons in Hnd as [Hk0 Hnd]. rewrite elem_of_cons.
    destruct (String.eqb_spec k0 k) as [->|Hne]; simpl.
    + split.
      * intros [[= ->]|Hin]; [done|]. exfalso. apply Hk0.
        by apply (list_elem_of_fmap_2 fst gs (k, arr)).
      * intros [= ->]. by left.
    + rewrite <- (IH Hnd). split; [|by right]. intros [[= -> ->]|Hin]; done.
Qed.

Lemma push_total k d gs :
  length (flat_map snd (push k d gs)) = S (length (flat_map snd gs)).
Proof.
  induction gs as [|[k' arr] gs IH]; simpl; [done|].
  destruct (String.eqb_spec k' k); simpl.
  - rewrite !length_app. simpl. lia.
  - rewrite !length_app, IH. lia.
Qed.

Lemma group_loop ds gs processed :
  groupsOf processed gs ->
  groupsOf (processed ++ ds)
    (fold_left (fun groups data => push (groupKey data) data groups) ds gs).
Proof.
  revert gs processed. induction ds as [|d ds IH]; intros gs processed [Hnd Hgs].
  - simpl. by rewrite app_nil_r.
  - cbn [fold_left]. replace (processed ++ d :: ds) with ((processed ++ [d]) ++ ds)
      by (by rewrite <- app_assoc).
    apply IH. split.
    + rewrite push_keys. case_decide as Hin; [done|].
      apply NoDup_app. split; [done|]. split; [|apply NoDup_singleton].
      intros x Hx Hx'. apply list_elem_of_singleton in Hx'. by subst x.
    + intros k. rewrite groupOf_push, filter_app, filter_cons, filter_nil.
      destruct (decide (k = groupKey d)) as [->|Hne].
      * rewrite decide_True by done. rewrite Hgs.
        by destruct (filter (fun d0 => groupKey d0 = groupKey d) processed).
      * rewrite decide_False by done. by rewrite app_nil_r.
Qed.

End Groups.

Lemma group_keys_loop ds : forall gs,
  map fst (fold_left (fun groups data => WorkerGroups.push (groupKey data) data groups) ds gs)
  = fold_left (fun seen k => if decide (k ∈ seen) then seen else seen ++ [k])
      (map groupKey ds) (map fst gs).
Proof.
  induction ds as [|d ds IH]; intros gs; [done|].
  cbn [fold_left map]. by rewrite IH, push_keys.
Qed.

Lemma group_keys workerData :
  map fst (WorkerGroups.group workerData) = firstOccurrences (map groupKey workerData).
Proof. apply (group_keys_loop workerData []). Qed.

(** X8: [generateFromWorkerData] partitions the records by
    [workerId || 'unknown'].  The groups are those of the keys of the records,
    each key once, in the order in which the keys first occur; the group of a
    key holds exactly the records with that key in their input order.  So no
    two groups share a key, no group is empty, every record's key has a group,
    and together the groups hold as many records as were given. *)
Theorem group_partitions_by_worker (workerData : list WorkerPerformanceData.t) :
  NoDup (map fst (WorkerGroups.group workerData))
  /\ (forall k arr,
        (k, arr) ∈ WorkerGroups.group workerData
        <-> arr = filter (fun d => groupKey d = k) workerData /\ arr <> [])
  /\ (forall d, d ∈ workerData -> groupKey d ∈ map fst (WorkerGroups.group workerData))
  /\ length (flat_map snd (WorkerGroups.group workerData)) = length workerData
  /\ WorkerGroups.group workerData
     = map (fun k => (k, filter (fun d => groupKey d = k) workerData))
           (firstOccurrences (map groupKey workerData)).
Proof.
  destruct (group_loop workerData [] []) as [Hnd Hgs]; [by split; [constructor|]|].
  simpl in Hnd, Hgs.
  change (fold_left _ workerData []) with (WorkerGroups.group workerData) in Hnd, Hgs.
  assert (Hiff : forall k arr,
            (k, arr) ∈ WorkerGroups.group workerData
            <-> arr = filter (fun d => groupKey d = k) workerData /\ arr <> []).
  { intros k arr. rewrite (groupOf_elem _ _ _ Hnd), Hgs.
    destruct (filter (fun d => groupKey d = k) workerData) as [|x l].
    - split; [done|]. by intros [-> ?].
    - split; [by intros [= <-]|]. by intros [-> _]. }
  split; [done|]. split; [done|]. split; [|split].
  - intros d Hd.
    apply (list_elem_of_fmap_2 fst _ (groupKey d, filter (fun d0 => groupKey d0 = groupKey d)
                                                    workerData)).
    apply Hiff. split; [done|].
    assert (Hin : d ∈ filter (fun d0 => groupKey d0 = groupKey d) workerData)
      by (by apply list_elem_of_filter).
    intros Heq. rewrite Heq in Hin. by apply elem_of_nil in Hin.
  - assert (H : forall ds gs,
              length (flat_map snd
                        (fold_left (fun groups data =>
                                      WorkerGroups.push (groupKey data) data groups) ds gs))
              = (length (flat_map snd gs) + length ds)%nat).
    { induction ds as [|d ds IH]; intros gs; simpl; [lia|].
      rewrite IH, push_total. lia. }
    apply (H workerData []).
  - rewrite <- group_keys, map_map.
    rewrite <- (map_id (WorkerGroups.group workerData)) at 1.
    apply map_ext_in. intros [k arr] Hin%list_elem_of_In. simpl.
    apply Hiff in Hin as [-> _]. done.
Qed.

Lemma group_partitions_by_worker_witness :
  ("unknown", [WorkerPerformanceData.mk "" "g" 0 5 5 None None None None])
  ∈ WorkerGroups.group mixedRecords.
Proof.
  apply (proj1 (proj2 (group_partitions_by_worker mixedRecords))).
  split; [by vm_compute|done].
Defined.

(** ** The builders keep no state between calls *)

Lemma builder_profile_eq this (σ : heap) (workerData : loc) startTime endTime workerId :
  (Generator.generateFromSingleWorkerData this σ workerData startTime endTime workerId).1.1
  = builderProfile (σ !!! workerData) startTime endTime workerId.
Proof.
  unfold builderProfile, Generator.generateFromSingleWorkerData.
  by rewrite lookup_total_singleton.
Qed.

Lemma builderProfile_lengths records startTime endTime workerId :
  length (CPUProfile.samples (builderProfile records startTime endTime workerId))
  = length records
  /\ length (CPUProfile.timeDeltas (builderProfile records startTime endTime workerId))
     = length records.
Proof.
  unfold builderProfile.
  destruct (worker_profile Generator.new {[1%positive := records]} 1%positive
              startTime endTime workerId) as (g & Hinv & _ & ->).
  rewrite lookup_total_singleton in Hinv.
  cbn [fst CPUProfile.samples CPUProfile.timeDeltas].
  rewrite walk_length, (inv_deltas _ _ _ Hinv), length_map.
  rewrite <- (Forall2_length _ _ _ (inv_samples _ _ _ Hinv)).
  by rewrite (sort_length WorkerPerformanceData.startTime).
Qed.

Lemma builderProfile_wellIndexed records startTime endTime workerId :
  wellIndexed (builderProfile records startTime endTime workerId).
Proof. apply worker_profile_dense. Qed.

Lemma builderProfile_nondecreasing records startTime endTime workerId :
  StronglySorted Z.le
    (CPUProfile.timeDeltas (builderProfile records startTime endTime workerId)).
Proof. apply worker_timeDeltas_nondecreasing. Qed.

(** X9: neither builder keeps state between calls.  What
    [generateFromSingleWorkerData] and [generateFromTrace] return does not
    depend on what the generator was used for before, and calling the record
    builder again on the array it has just sorted returns the same profile,
    the same generator and the same heap. *)
Theorem builders_keep_no_state :
  (forall this this' (σ : heap) (workerData : loc) startTime endTime workerId,
      Generator.generateFromSingleWorkerData this σ workerData startTime endTime workerId
      = Generator.generateFromSingleWorkerData this' σ workerData startTime endTime
          workerId)
  /\ (forall markedFunctions this this' trace startTime endTime threadName,
        Generator.generateFromTrace markedFunctions this trace startTime endTime threadName
        = Generator.generateFromTrace markedFunctions this' trace startTime endTime
            threadName)
  /\ (forall this (σ : heap) (workerData : loc) startTime endTime workerId,
        let r := Generator.generateFromSingleWorkerData this σ workerData startTime
                   endTime workerId in
        Generator.generateFromSingleWorkerData r.1.2 r.2 workerData startTime endTime
          workerId
        = r).
Proof.
  split; [done|]. split; [done|].
  intros this σ workerData startTime endTime workerId. cbn zeta.
  unfold Generator.generateFromSingleWorkerData. cbn [fst snd].
  rewrite lookup_total_insert_eq.
  change Generator.byStartTime with (keyCmp WorkerPerformanceData.startTime).
  rewrite (sort_sorted_id WorkerPerformanceData.startTime
             (JS.sort (keyCmp WorkerPerformanceData.startTime) (σ !!! workerData)))
    by apply sort_StronglySorted.
  by rewrite insert_insert_eq.
Qed.

(** ** [generateFromWorkerData] *)

Lemma alloc_spec (σ : heap) arr :
  let r := alloc σ arr in
  (r.1 ∉ dom σ) /\ r.2 !!! r.1 = arr
  /\ (forall l, l ∈ dom σ -> r.2 !! l = σ !! l)
  /\ dom σ ⊆ dom r.2.
Proof.
  unfold alloc. cbn [fst snd].
  pose proof (is_fresh (dom σ)) as Hfresh.
  split; [done|]. split; [by rewrite lookup_total_insert_eq|]. split.
  - intros l Hl. rewrite lookup_insert_ne; [done|]. by intros <-.
  - intros l Hl. apply elem_of_dom. rewrite lookup_insert_ne by (by intros <-).
    by apply elem_of_dom.
Qed.

Lemma builder_heap this (σ : heap) (workerData : loc) startTime endTime workerId :
  workerData ∈ dom σ ->
  let σ' := (Generator.generateFromSingleWorkerData this σ workerData startTime endTime
               workerId).2 in
  (forall l, l <> workerData -> σ' !! l = σ !! l) /\ dom σ' = dom σ.
Proof.
  intros Hl. unfold Generator.generateFromSingleWorkerData. cbn [snd].
  split; [intros l Hne; by rewrite lookup_insert_ne|].
  apply set_eq. intros l. rewrite !elem_of_dom.
  destruct (decide (l = workerData)) as [->|Hne].
  - rewrite lookup_insert_eq. split; [intros _; by apply elem_of_dom|by eexists].
  - by rewrite lookup_insert_ne.
Qed.

(** One pass of the loop over the groups: a profile per group, and the
    arrays the caller already holds left alone. *)
Lemma generateStep_loop startTime endTime gs ps this (σ : heap) :
  let r := fold_left (generateStep startTime endTime) gs (ps, this, σ) in
  r.1.1 = ps ++ map (fun g => builderProfile g.2 startTime endTime g.1) gs
  /\ (forall l, l ∈ dom σ -> r.2 !! l = σ !! l)
  /\ dom σ ⊆ dom r.2.
Proof.
  revert ps this σ. induction gs as [|[workerId data] gs IH]; intros ps this σ.
  - simpl. by rewrite app_nil_r.
  - cbn [fold_left].
    destruct (alloc_spec σ data) as (Hfresh & Hget & Hold & Hdom).
    destruct (alloc σ data) as [l σ1] eqn:Ea. cbn [fst snd] in *.
    pose proof (builder_profile_eq this σ1 l startTime endTime workerId) as Hp.
    assert (Hl : l ∈ dom σ1).
    { inversion Ea; subst. apply elem_of_dom. rewrite lookup_insert_eq. by eexists. }
    destruct (builder_heap this σ1 l startTime endTime workerId Hl) as [Hframe Hdom'].
    destruct (Generator.generateFromSingleWorkerData this σ1 l startTime endTime workerId)
      as [[profile this'] σ2] eqn:Eg. cbn [fst snd] in *.
    assert (Hstep : generateStep startTime endTime (ps, this, σ) (workerId, data)
                    = (ps ++ [profile], this', σ2)).
    { unfold generateStep. by rewrite Ea, Eg. }
    rewrite Hstep.
    destruct (IH (ps ++ [profile]) this' σ2) as (H1 & H2 & H3). cbn zeta in *.
    rewrite H1. split; [|split].
    + rewrite <- app_assoc. simpl. by rewrite Hp, Hget.
    + intros l0 Hl0. rewrite H2 by (rewrite Hdom'; by apply Hdom).
      rewrite Hframe by (intros ->; done). by apply Hold.
    + intros l0 Hl0. apply H3. rewrite Hdom'. by apply Hdom.
Qed.

Lemma group_total workerData :
  length (flat_map snd (WorkerGroups.group workerData)) = length workerData.
Proof.
  assert (H : forall ds gs,
            length (flat_map snd
                      (fold_left
                         (fun groups data =>
                            WorkerGroups.push
                              (orString (Some (WorkerPerformanceData.workerId data))
                                 "unknown") data groups) ds gs))
            = (length (flat_map snd gs) + length ds)%nat).
  { induction ds as [|d ds IH]; intros gs; simpl; [lia|].
    rewrite IH, push_total. lia. }
  apply (H workerData []).
Qed.

Lemma builderProfiles_samples startTime endTime (gs : WorkerGroups.t) :
  length (flat_map CPUProfile.samples
            (map (fun g => builderProfile g.2 startTime endTime g.1) gs))
  = length (flat_map snd gs).
Proof.
  induction gs as [|[w d] gs IH]; [done|]. cbn [map flat_map fst snd].
  rewrite !length_app, IH. f_equal. apply (builderProfile_lengths d startTime endTime w).
Qed.

Lemma StronglySorted_lt_le l : StronglySorted Z.lt l -> StronglySorted Z.le l.
Proof.
  induction 1 as [|x l Hs IH Hall]; constructor; [done|].
  eapply Forall_impl; [exact Hall|]. simpl. intros; lia.
Qed.

Lemma mergeProfiles_increasing profiles m :
  Merge.mergeProfiles profiles = Ok m -> StronglySorted Z.lt (CPUProfile.timeDeltas m).
Proof.
  destruct profiles as [|p ps]; [done|]. intros Hm.
  destruct (mergeProfiles_Ok p ps) as (m' & Hm' & _ & _ & _ & Ht).
  rewrite Hm in Hm'. injection Hm' as <-. rewrite Ht. apply clampedClock_increasing.
Qed.

Lemma generateFromWorkerData_facts
    this (σ : heap) (workerData : list WorkerPerformanceData.t) startTime endTime :
  exists p g σ',
    generateFromWorkerData this σ workerData startTime endTime = Ok (p, g, σ')
    /\ length (CPUProfile.samples p) = length workerData
    /\ length (CPUProfile.timeDeltas p) = length workerData
    /\ StronglySorted Z.le (CPUProfile.timeDeltas p)
    /\ wellIndexed p
    /\ (forall l, l ∈ dom σ -> σ' !! l = σ !! l)
    /\ match WorkerGroups.group workerData with
       | [] => p = Generator.getEmptyProfile startTime endTime
       | [(workerId, data)] => p = builderProfile data startTime endTime workerId
       | gs =>
           Merge.mergeProfiles
             (map (fun g => builderProfile g.2 startTime endTime g.1) gs)
           = Ok p
       end.
Proof.
  unfold generateFromWorkerData.
  pose proof (group_total workerData) as Htotal.
  destruct (WorkerGroups.group workerData) as [|[w d] [|g2 gs]] eqn:Eg.
  - simpl in Htotal. destruct workerData; [|done].
    do 3 eexists. split; [reflexivity|]. repeat split; try done; constructor.
  - simpl in Htotal. rewrite app_nil_r in Htotal.
    destruct (alloc_spec σ d) as (Hfresh & Hget & Hold & Hdom).
    destruct (alloc σ d) as [l σ1] eqn:Ea. cbn [fst snd] in *.
    pose proof (builder_profile_eq this σ1 l startTime endTime w) as Hp.
    assert (Hl : l ∈ dom σ1).
    { inversion Ea; subst. apply elem_of_dom. rewrite lookup_insert_eq. by eexists. }
    destruct (builder_heap this σ1 l startTime endTime w Hl) as [Hframe _].
    destruct (Generator.generateFromSingleWorkerData this σ1 l startTime endTime w)
      as [[p g] σ2]. cbn [fst snd] in *. rewrite Hget in Hp. subst p.
    do 3 eexists. split; [reflexivity|].
    destruct (builderProfile_lengths d startTime endTime w) as [L1 L2].
    split; [by rewrite L1|]. split; [by rewrite L2|].
    split; [apply builderProfile_nondecreasing|].
    split; [apply builderProfile_wellIndexed|]. split; [|done].
    intros l0 Hl0. rewrite Hframe by (by intros ->). by apply Hold.
  - destruct (generateStep_loop startTime endTime ((w, d) :: g2 :: gs) [] this σ)
      as (H1 & H2 & _).
    destruct (fold_left (generateStep startTime endTime) ((w, d) :: g2 :: gs) ([], this, σ))
      as [[profiles this'] σ'] eqn:Ef. cbn [fst snd app map] in *.
    subst profiles.
    set (ps := map (fun g => builderProfile g.2 startTime endTime g.1) gs).
    set (p1 := builderProfile d startTime endTime w).
    set (p2 := builderProfile g2.2 startTime endTime g2.1).
    destruct (mergeProfiles_Ok p1 (p2 :: ps)) as (m & Hm & _).
    rewrite Hm. cbn [JS.bind]. exists m, this', σ'. split; [done|].
    destruct (mergeProfiles_lengths _ _ Hm) as [L1 L2].
    assert (Hsum : length (flat_map CPUProfile.samples (p1 :: p2 :: ps))
                   = length workerData).
    { rewrite <- Htotal.
      apply (builderProfiles_samples startTime endTime ((w, d) :: g2 :: gs)). }
    split; [by rewrite L1|]. split; [by rewrite L2|].
    split; [by eapply StronglySorted_lt_le, mergeProfiles_increasing|].
    split.
    + eapply mergeProfiles_wellIndexed; [|exact Hm].
      subst p1 p2 ps. repeat apply Forall_cons_2; try apply builderProfile_wellIndexed.
      apply Forall_fmap, Forall_forall. intros g _. apply builderProfile_wellIndexed.
    + split; [done|]. destruct g2. done.
Qed.

(** X10: [generateFromWorkerData] always returns a profile and never throws.
    The profile has one sample and one time delta per record given, time
    deltas that never decrease, dense node ids and samples in range.  With no
    records it is the empty profile; with records of a single worker it is
    that worker's profile; otherwise it is the merge of the workers' profiles.
    Arrays that the caller already holds in the heap are left as they are. *)
Theorem generateFromWorkerData_total
    this (σ : heap) (workerData : list WorkerPerformanceData.t) startTime endTime :
  exists p g σ',
    generateFromWorkerData this σ workerData startTime endTime = Ok (p, g, σ')
    /\ length (CPUProfile.samples p) = length workerData
    /\ length (CPUProfile.timeDeltas p) = length workerData
    /\ StronglySorted Z.le (CPUProfile.timeDeltas p)
    /\ wellIndexed p
    /\ (forall l, l ∈ dom σ -> σ' !! l = σ !! l)
    /\ match WorkerGroups.group workerData with
       | [] => p = Generator.getEmptyProfile startTime endTime
       | [(workerId, data)] => p = builderProfile data startTime endTime workerId
       | gs =>
           Merge.mergeProfiles
             (map (fun g => builderProfile g.2 startTime endTime g.1) gs)
           = Ok p
       end.
Proof. apply generateFromWorkerData_facts. Qed.

Lemma generateFromWorkerData_total_witness :
  exists p g σ',
    generateFromWorkerData Generator.new ∅ mixedRecords 0 10 = Ok (p, g, σ')
    /\ length (CPUProfile.samples p) = 3%nat.
Proof.
  destruct (generateFromWorkerData_total Generator.new ∅ mixedRecords 0 10)
    as (p & g & σ' & H & Hlen & _).
  by exists p, g, σ'.
Defined.

(** ** [generateProfile]: when it is null, when it throws, what it returns *)

Lemma generateFromWorkerData_nonempty this (σ : heap) workerData startTime endTime :
  workerData <> [] ->
  exists p g σ',
    generateFromWorkerData this σ workerData startTime endTime = Ok (p, g, σ')
    /\ length (CPUProfile.samples p) = length workerData
    /\ length (CPUProfile.timeDeltas p) = length workerData
    /\ wellIndexed p
    /\ (0 <? Z.of_nat (length (CPUProfile.nodes p)))
       || (0 <? Z.of_nat (length (CPUProfile.samples p))) = true.
Proof.
  intros Hne.
  destruct (generateFromWorkerData_facts this σ workerData startTime endTime)
    as (p & g & σ' & H & L1 & L2 & _ & Hw & _).
  exists p, g, σ'. split; [done|]. split; [done|]. split; [done|]. split; [done|].
  rewrite L1. destruct workerData; [done|]. simpl length.
  apply orb_true_iff. right. apply Z.ltb_lt. lia.
Qed.

(** The cases of [generateProfile], by what stopping the profiler yields and
    whether worker data was added. *)
Lemma generateProfile_cases markedFunctions this (σ : heap) now :
  let trace := (MainThreadProfiler.stop (PerformanceMonitor.profiler this)).1 in
  let workerData := PerformanceMonitor.workerPerformanceData this in
  let main :=
    Generator.generateFromTrace markedFunctions (PerformanceMonitor.generator this) trace
      (PerformanceMonitor.startTime this) now "Main Thread" in
  match trace, workerData with
  | None, [] => PerformanceMonitor.generateProfile markedFunctions this σ now = Ok None
  | None, _ :: _ =>
      exists p g σ',
        generateFromWorkerData (PerformanceMonitor.generator this) σ workerData
          (PerformanceMonitor.startTime this) now = Ok (p, g, σ')
        /\ PerformanceMonitor.generateProfile markedFunctions this σ now = Ok (Some p)
  | Some _, _ =>
      match main with
      | Throw e => PerformanceMonitor.generateProfile markedFunctions this σ now = Throw e
      | Ok (pm, gm) =>
          match workerData with
          | [] => PerformanceMonitor.generateProfile markedFunctions this σ now
                  = Ok (Some pm)
          | _ :: _ =>
              exists pw g σ' m,
                generateFromWorkerData gm σ workerData
                  (PerformanceMonitor.startTime this) now = Ok (pw, g, σ')
                /\ Merge.mergeProfiles [pm; pw] = Ok m
                /\ PerformanceMonitor.generateProfile markedFunctions this σ now
                   = Ok (Some m)
          end
      end
  end.
Proof.
  cbn zeta. unfold PerformanceMonitor.generateProfile.
  destruct (MainThreadProfiler.stop (PerformanceMonitor.profiler this)) as [trace pr].
  cbn [fst]. destruct trace as [tr|].
  - destruct (Generator.generateFromTrace markedFunctions (PerformanceMonitor.generator this)
                (Some tr) (PerformanceMonitor.startTime this) now "Main Thread")
      as [[pm gm]|e]; cbn [JS.bind]; [|done].
    destruct (PerformanceMonitor.workerPerformanceData this) as [|d ds] eqn:Ed; [done|].
    destruct (generateFromWorkerData_nonempty gm σ (d :: ds)
                (PerformanceMonitor.startTime this) now) as (pw & g & σ' & H & _ & _ & _ & Hb);
      [done|].
    rewrite H. cbn [JS.bind]. rewrite Hb. cbn [JS.bind app].
    destruct (mergeProfiles_Ok pm [pw]) as (m & Hm & _).
    exists pw, g, σ', m. split; [done|]. split; [done|]. by rewrite Hm.
  - cbn [JS.bind].
    destruct (PerformanceMonitor.workerPerformanceData this) as [|d ds] eqn:Ed; [done|].
    destruct (generateFromWorkerData_nonempty (PerformanceMonitor.generator this) σ (d :: ds)
                (PerformanceMonitor.startTime this) now) as (pw & g & σ' & H & _ & _ & _ & Hb);
      [done|].
    rewrite H. cbn [JS.bind]. rewrite Hb. cbn [JS.bind app].
    by exists pw, g, σ'.
Qed.

Lemma trace_profile_aligned markedFunctions this trace startTime endTime threadName p g :
  Generator.generateFromTrace markedFunctions this trace startTime endTime threadName
  = Ok (p, g) ->
  length (CPUProfile.samples p) = length (CPUProfile.timeDeltas p).
Proof.
  unfold Generator.generateFromTrace.
  destruct trace as [tr|]; [|by intros [= <- <-]].
  destruct (Trace.samples tr) as [ss|] eqn:Hss; [|by intros [= <- <-]].
  destruct (Trace.stacks tr) as [sts|] eqn:Hsts; [|by intros [= <- <-]].
  unfold Generator.processTrace. rewrite Hss, Hsts. cbn [default from_option id].
  match goal with
  | |- context [Generator.forEachM ?f ss ?s0] =>
      destruct (Generator.forEachM f ss s0) as [this1|] eqn:E; [|done]
  end.
  cbn [JS.bind]. intros [= <- <-].
  apply sampleLoop_trace in E as (ids & Hlen & Hs & Ht).
  destruct (frameLoop_samples markedFunctions threadName (default [] (Trace.frames tr))
              (Generator.setStartTime (Generator.reset this) startTime)) as [F1 F2].
  cbn zeta in F1, F2. rewrite F1 in Hs. rewrite F2 in Ht. simpl in Hs, Ht.
  cbn [Generator.toProfile CPUProfile.samples CPUProfile.timeDeltas].
  by rewrite Hs, Ht, length_map.
Qed.

(** X11: [generateProfile] resolves to [null] exactly when stopping the
    profiler yields no trace and no worker data was added.  It rejects exactly
    when the trace builder throws on the stopped trace, that is when a sample
    of the trace refers to a frame the trace does not have, and then with that
    [TypeError]; worker data never makes it reject. *)
Theorem generateProfile_null_or_throw markedFunctions this (σ : heap) now :
  let trace := (MainThreadProfiler.stop (PerformanceMonitor.profiler this)).1 in
  let workerData := PerformanceMonitor.workerPerformanceData this in
  (PerformanceMonitor.generateProfile markedFunctions this σ now = Ok None
   <-> trace = None /\ workerData = [])
  /\ (forall e,
        PerformanceMonitor.generateProfile markedFunctions this σ now = Throw e
        <-> Generator.generateFromTrace markedFunctions (PerformanceMonitor.generator this)
              trace (PerformanceMonitor.startTime this) now "Main Thread"
            = Throw e)
  /\ (forall e,
        PerformanceMonitor.generateProfile markedFunctions this σ now = Throw e ->
        e = TypeError "Cannot read properties of undefined (reading 'name')"
        /\ exists tr ss sts,
             trace = Some tr /\ Trace.samples tr = Some ss /\ Trace.stacks tr = Some sts
             /\ Exists (fun s => sampleFrameMissing sts (default [] (Trace.frames tr)) s
                                 = true) ss).
Proof.
  intros trace workerData.
  pose proof (generateProfile_cases markedFunctions this σ now) as Hc. cbn zeta in Hc.
  fold trace workerData in Hc.
  assert (Hthrow : forall e,
            PerformanceMonitor.generateProfile markedFunctions this σ now = Throw e
            <-> Generator.generateFromTrace markedFunctions
                  (PerformanceMonitor.generator this) trace
                  (PerformanceMonitor.startTime this) now "Main Thread" = Throw e).
  { intros e. destruct trace as [tr|].
    - destruct (Generator.generateFromTrace _ _ (Some tr) _ _ _) as [[pm gm]|e0].
      + destruct workerData.
        * rewrite Hc. split; intros ?; congruence.
        * destruct Hc as (? & ? & ? & ? & _ & _ & ->). split; intros ?; congruence.
      + rewrite Hc. split; intros [= ->]; done.
    - cbn [Generator.generateFromTrace]. destruct workerData.
      + rewrite Hc. split; intros ?; congruence.
      + destruct Hc as (? & ? & ? & _ & ->). split; intros ?; congruence. }
  split; [|split; [exact Hthrow|]].
  - destruct trace as [tr|].
    + split; [|by intros [? _]]. intros Hnull. exfalso.
      destruct (Generator.generateFromTrace _ _ (Some tr) _ _ _) as [[pm gm]|e0].
      * destruct workerData.
        -- rewrite Hc in Hnull. done.
        -- destruct Hc as (? & ? & ? & ? & _ & _ & Hc). rewrite Hc in Hnull. done.
      * rewrite Hc in Hnull. done.
    + destruct workerData.
      * done.
      * destruct Hc as (? & ? & ? & _ & Hc). rewrite Hc. split; [done|by intros [_ ?]].
  - intros e He. apply Hthrow in He.
    destruct (generateFromTrace_throws_on_missing_frame_facts markedFunctions
                (PerformanceMonitor.generator this) trace
                (PerformanceMonitor.startTime this) now "Main Thread") as [Hiff Herr].
    split; [by apply Herr|]. apply Hiff. by eexists.
Qed.

Lemma generateProfile_null_or_throw_witness :
  PerformanceMonitor.generateProfile ∅
    (PerformanceMonitor.mk (MainThreadProfiler.mk None true) Generator.new 0 [] [])
    ∅ 7
  = Ok None.
Proof.
  by apply (proj1 (generateProfile_null_or_throw ∅
                     (PerformanceMonitor.mk (MainThreadProfiler.mk None true)
                        Generator.new 0 [] []) ∅ 7)).
Defined.

(** X12: a profile that [generateProfile] resolves to has one time delta per
    sample, node ids counting up from 0 and every sample in range.  When the
    profiler yields no trace but worker data was added, the result is not
    [null]: it is the profile of the worker data, with one sample per record
    and time deltas that never decrease. *)
Theorem generateProfile_result markedFunctions this (σ : heap) now :
  let trace := (MainThreadProfiler.stop (PerformanceMonitor.profiler this)).1 in
  let workerData := PerformanceMonitor.workerPerformanceData this in
  (forall p,
      PerformanceMonitor.generateProfile markedFunctions this σ now = Ok (Some p) ->
      length (CPUProfile.samples p) = length (CPUProfile.timeDeltas p)
      /\ wellIndexed p)
  /\ (trace = None -> workerData <> [] ->
      exists p,
        PerformanceMonitor.generateProfile markedFunctions this σ now = Ok (Some p)
        /\ length (CPUProfile.samples p) = length workerData
        /\ StronglySorted Z.le (CPUProfile.timeDeltas p)).
Proof.
  intros trace workerData.
  pose proof (generateProfile_cases markedFunctions this σ now) as Hc. cbn zeta in Hc.
  fold trace workerData in Hc.
  split.
  - intros p Hp. destruct trace as [tr|].
    + destruct (Generator.generateFromTrace _ _ (Some tr) _ _ _) as [[pm gm]|e0] eqn:Et.
      * destruct workerData as [|d ds].
        -- rewrite Hc in Hp. injection Hp as <-.
           split; [by eapply trace_profile_aligned|by eapply trace_profile_dense].
        -- destruct Hc as (pw & g & σ' & m & Hw & Hm & Hc). rewrite Hc in Hp.
           injection Hp as <-.
           destruct (mergeProfiles_lengths _ _ Hm) as [L1 L2].
           split; [by rewrite L1, L2|].
           eapply mergeProfiles_wellIndexed; [|exact Hm].
           repeat apply Forall_cons_2; [by eapply trace_profile_dense| |constructor].
           destruct (generateFromWorkerData_facts gm σ (d :: ds)
                       (PerformanceMonitor.startTime this) now)
             as (p' & g' & σ'' & H' & _ & _ & _ & Hwi & _).
           rewrite Hw in H'. by injection H' as <- <- <-.
      * rewrite Hc in Hp. done.
    + destruct workerData as [|d ds]; [by rewrite Hc in Hp|].
      destruct Hc as (pw & g & σ' & Hw & Hc). rewrite Hc in Hp. injection Hp as <-.
      destruct (generateFromWorkerData_facts (PerformanceMonitor.generator this) σ (d :: ds)
                  (PerformanceMonitor.startTime this) now)
        as (p' & g' & σ'' & H' & L1 & L2 & _ & Hwi & _).
      rewrite Hw in H'. injection H' as <- <- <-. split; [by rewrite L1, L2|done].
  - intros Htr Hwd. rewrite Htr in Hc.
    destruct workerData as [|d ds]; [done|].
    destruct Hc as (pw & g & σ' & Hw & Hc). exists pw. split; [done|].
    destruct (generateFromWorkerData_facts (PerformanceMonitor.generator this) σ (d :: ds)
                (PerformanceMonitor.startTime this) now)
      as (p' & g' & σ'' & H' & L1 & _ & Hs & _).
    rewrite Hw in H'. by injection H' as <- <- <-.
Qed.

Lemma generateProfile_result_witness :
  exists p,
    PerformanceMonitor.generateProfile ∅
      (PerformanceMonitor.mk (MainThreadProfiler.mk None false) Generator.new 0
         [record "fetchImage" 0 10] [])
      ∅ 20
    = Ok (Some p)
    /\ length (CPUProfile.samples p) = 1%nat.
Proof.
  destruct (proj2 (generateProfile_result ∅
                     (PerformanceMonitor.mk (MainThreadProfiler.mk None false)
                        Generator.new 0 [record "fetchImage" 0 10] []) ∅ 20)
                  eq_refl ltac:(discriminate)) as (p & Hp & Hlen & _).
  by exists p.
Defined.

(** ** The marker registry *)

Lemma getDefaultColor_nonempty category : FunctionMarkers.getDefaultColor category <> "".
Proof. by destruct category. Qed.

Lemma orString_nonempty s d : d <> "" -> orString s d <> "".
Proof.
  intros Hd. unfold orString. destruct s as [v|]; [|done].
  by destruct (String.eqb_spec v "").
Qed.

(** X13: after [markFunction name options], [getFunctionMarker name] returns
    a marker for [name] whose category is the given one, or [custom] if none
    was given, and whose colour is never absent or empty: the given colour,
    or, if none or the empty one was given, the default of the category
    ([#ff6b6b] for network, [#4ecdc4] for render, [#ffe66d] for compute,
    [#95e1d3] for custom); other names are unaffected; marking a name
    again replaces its marker; after [clearAllMarkers] no name is marked.  A
    main-thread profile built from a trace under the new registry shows that
    marker on every node of a function called [name]. *)
Theorem markFunction_then_lookup markedFunctions name options :
  let marked := FunctionMarkers.markFunction markedFunctions name options in
  (exists m c,
      getFunctionMarker marked name = Some m
      /\ FunctionMarker.functionName m = name
      /\ FunctionMarker.category m = default custom (FunctionMarkers.category options)
      /\ FunctionMarker.description m = FunctionMarkers.description options
      /\ FunctionMarker.color m = Some c /\ c <> ""
      /\ (forall c', FunctionMarkers.color options = Some c' -> c' <> "" -> c = c')
      /\ (FunctionMarkers.color options = None \/ FunctionMarkers.color options = Some "" ->
          c = match default custom (FunctionMarkers.category options) with
              | network => "#ff6b6b"
              | render => "#4ecdc4"
              | compute => "#ffe66d"
              | custom => "#95e1d3"
              end)
      /\ (forall this trace startTime endTime p g,
            Generator.generateFromTrace marked this trace startTime endTime "Main Thread"
            = Ok (p, g) ->
            Forall
              (fun n =>
                 CallFrame.functionName (ProfileNode.callFrame n) = name ->
                 ProfileNode.marker n = Some m)
              (CPUProfile.nodes p)))
  /\ FunctionMarkers.isFunctionMarked marked name = true
  /\ (forall other, other <> name ->
        getFunctionMarker marked other = getFunctionMarker markedFunctions other)
  /\ (forall options',
        FunctionMarkers.markFunction marked name options'
        = FunctionMarkers.markFunction markedFunctions name options')
  /\ (forall other,
        FunctionMarkers.isFunctionMarked (FunctionMarkers.clearAllMarkers marked) other
        = false).
Proof.
  intros marked. subst marked. unfold FunctionMarkers.markFunction, getFunctionMarker.
  split; [|split; [|split; [|split]]].
  - eexists _, _. rewrite lookup_insert_eq. split; [reflexivity|].
    cbn [FunctionMarker.functionName FunctionMarker.category FunctionMarker.description
         FunctionMarker.color].
    split; [done|]. split; [done|]. split; [done|]. split; [done|].
    split; [apply orString_nonempty, getDefaultColor_nonempty|].
    split; [intros c' -> Hc'; simpl; by destruct (String.eqb_spec c' "")|]. split.
    + intros [-> | ->]; simpl;
        by destruct (default custom (FunctionMarkers.category options)).
    + intros this trace startTime endTime p g Hp.
      assert (Hnodes :
        Forall
          (fun n =>
             ProfileNode.hitCount n = Some 1
             /\ exists fn,
                  CallFrame.functionName (ProfileNode.callFrame n)
                  = shownName "Main Thread" fn
                  /\ ProfileNode.marker n
                     = getFunctionMarker
                         (FunctionMarkers.markFunction markedFunctions name options) fn)
          (CPUProfile.nodes p)).
      { destruct trace as [tr|]; [|injection Hp as <- <-; constructor].
        unfold Generator.generateFromTrace in Hp.
        destruct (Trace.samples tr) as [ss|] eqn:Hss;
          [|injection Hp as <- <-; constructor].
        destruct (Trace.stacks tr) as [sts|] eqn:Hsts;
          [|injection Hp as <- <-; constructor].
        assert (Hp' : Generator.generateFromTrace
                        (FunctionMarkers.markFunction markedFunctions name options)
                        this (Some tr) startTime endTime "Main Thread" = Ok (p, g)).
        { unfold Generator.generateFromTrace. by rewrite Hss, Hsts. }
        destruct (trace_profile_inv _ _ _ _ _ _ _ _ _ _ Hss Hsts Hp') as (Hinv & -> & _).
        apply (ti_nodes _ _ _ Hinv). }
      eapply Forall_impl; [exact Hnodes|]. simpl.
      intros n (_ & fn & Hfn & Hm) Hname. rewrite Hm.
      unfold shownName in Hfn. simpl in Hfn. subst fn.
      unfold getFunctionMarker, FunctionMarkers.markFunction.
      rewrite Hname. by rewrite lookup_insert_eq.
  - unfold FunctionMarkers.isFunctionMarked. rewrite lookup_insert_eq.
    by apply bool_decide_eq_true_2.
  - intros other Hne. by rewrite lookup_insert_ne.
  - intros options'. by rewrite insert_insert_eq.
  - intros other. unfold FunctionMarkers.isFunctionMarked, FunctionMarkers.clearAllMarkers.
    rewrite lookup_empty. apply bool_decide_eq_false_2. by intros [? ?].
Qed.

(** ** The frame table of the Speedscope exporter *)

Lemma omap_get_nil k : OrderedMap.get [] k = None.
Proof. reflexivity. Qed.

Lemma omap_get_cons k' v' m k :
  OrderedMap.get ((k', v') :: m) k
  = if String.eqb k' k then Some v' else OrderedMap.get m k.
Proof. unfold OrderedMap.get. simpl. by destruct (String.eqb k' k). Qed.

Lemma omap_get_set_eq m k v : OrderedMap.get (OrderedMap.set m k v) k = Some v.
Proof.
  induction m as [|[k' v'] m IH]; simpl.
  - by rewrite omap_get_cons, String.eqb_refl.
  - destruct (String.eqb_spec k' k) as [->|Hne].
    + by rewrite omap_get_cons, String.eqb_refl.
    + rewrite omap_get_cons. by destruct (String.eqb_spec k' k).
Qed.

Lemma omap_get_set_ne m k v k' :
  k <> k' -> OrderedMap.get (OrderedMap.set m k v) k' = OrderedMap.get m k'.
Proof.
  intros Hne. induction m as [|[k0 v0] m IH]; simpl.
  - rewrite omap_get_cons. by destruct (String.eqb_spec k k').
  - destruct (String.eqb_spec k0 k) as [->|Hne0].
    + rewrite !omap_get_cons. by destruct (String.eqb_spec k k').
    + rewrite !omap_get_cons. by rewrite IH.
Qed.

Lemma omap_has_get m k : OrderedMap.has m k = true <-> is_Some (OrderedMap.get m k).
Proof.
  unfold OrderedMap.has. destruct (OrderedMap.get m k); split; try done.
Qed.

Lemma omap_set_absent m k v :
  OrderedMap.get m k = None -> OrderedMap.set m k v = m ++ [(k, v)].
Proof.
  induction m as [|[k0 v0] m IH]; simpl; [done|].
  rewrite omap_get_cons. destruct (String.eqb k0 k); [done|].
  intros H. by rewrite IH.
Qed.

Lemma omap_set_present_length m k v :
  is_Some (OrderedMap.get m k) -> length (OrderedMap.set m k v) = length m.
Proof.
  induction m as [|[k0 v0] m IH]; simpl.
  - by intros [? ?].
  - rewrite omap_get_cons. destruct (String.eqb k0 k); simpl; [done|].
    intros H. by rewrite IH.
Qed.

Lemma framesInv_init : FramesInv [] (SpeedscopeFormat.mkFrames [] [] 0).
Proof.
  split; simpl; try done.
  - intros n Hn. by apply elem_of_nil in Hn.
Qed.

Lemma framesInv_step seen st node :
  FramesInv seen st -> FramesInv (seen ++ [node]) (SpeedscopeFormat.collectNode st node).
Proof.
  intros [Hc Hs Hseen Hfr Hinj]. unfold SpeedscopeFormat.collectNode.
  destruct (OrderedMap.has (SpeedscopeFormat.frameMap st) (Speedscope.nodeFrameKey node))
    eqn:Hhas.
  - apply omap_has_get in Hhas. split; try done.
    + intros n [Hn| ->%list_elem_of_singleton]%elem_of_app; [by apply Hseen|done].
    + intros k i Hk. destruct (Hfr k i Hk) as (n & Hn & ?). exists n. split; [|done].
      apply elem_of_app. by left.
  - assert (Hnone : OrderedMap.get (SpeedscopeFormat.frameMap st)
                      (Speedscope.nodeFrameKey node) = None).
    { destruct (OrderedMap.get _ _) eqn:E; [|done].
      assert (OrderedMap.has (SpeedscopeFormat.frameMap st)
                (Speedscope.nodeFrameKey node) = true) by (apply omap_has_get; by rewrite E).
      congruence. }
    unfold SpeedscopeFormat.lengthZ in *.
    split; cbn [SpeedscopeFormat.frameId SpeedscopeFormat.frames SpeedscopeFormat.frameMap].
    + unfold SpeedscopeFormat.lengthZ. rewrite length_app. simpl. lia.
    + rewrite omap_set_absent by done. rewrite !length_app. simpl. lia.
    + intros n [Hn| ->%list_elem_of_singleton]%elem_of_app.
      * destruct (decide (Speedscope.nodeFrameKey node = Speedscope.nodeFrameKey n)) as [<-|Hne].
        -- rewrite omap_get_set_eq. done.
        -- rewrite omap_get_set_ne by done. by apply Hseen.
      * by rewrite omap_get_set_eq.
    + intros k i Hk.
      destruct (decide (Speedscope.nodeFrameKey node = k)) as [<-|Hne].
      * rewrite omap_get_set_eq in Hk. injection Hk as <-. exists node.
        split; [apply elem_of_app; right; by apply list_elem_of_singleton|].
        split; [done|]. split; [lia|]. rewrite Hc, Nat2Z.id.
        by rewrite lookup_app_r, Nat.sub_diag.
      * rewrite omap_get_set_ne in Hk by done.
        destruct (Hfr k i Hk) as (n & Hn & Hkn & Hi & Hl). exists n.
        split; [apply elem_of_app; by left|]. split; [done|]. split; [done|].
        by apply lookup_app_l_Some.
    + intros k k' i Hk Hk'.
      destruct (decide (Speedscope.nodeFrameKey node = k)) as [<-|Hne];
        destruct (decide (Speedscope.nodeFrameKey node = k')) as [<-|Hne']; [done|..].
      * rewrite omap_get_set_eq in Hk. injection Hk as <-.
        rewrite omap_get_set_ne in Hk' by done.
        destruct (Hfr _ _ Hk') as (n & _ & _ & _ & Hl).
        apply lookup_lt_Some in Hl. lia.
      * rewrite omap_get_set_eq in Hk'. injection Hk' as <-.
        rewrite omap_get_set_ne in Hk by done.
        destruct (Hfr _ _ Hk) as (n & _ & _ & _ & Hl).
        apply lookup_lt_Some in Hl. lia.
      * rewrite omap_get_set_ne in Hk, Hk' by done. by eapply Hinj.
Qed.

Lemma framesInv_loop nodes : forall seen st,
  FramesInv seen st ->
  FramesInv (seen ++ nodes) (fold_left SpeedscopeFormat.collectNode nodes st).
Proof.
  induction nodes as [|n nodes IH]; intros seen st Hinv; simpl.
  - by rewrite app_nil_r.
  - replace (seen ++ n :: nodes) with ((seen ++ [n]) ++ nodes) by by rewrite <- app_assoc.
    apply IH. by apply framesInv_step.
Qed.

Lemma collectFrames_inv mainThreadProfile workerProfiles :
  FramesInv (exportedNodes mainThreadProfile workerProfiles)
    (SpeedscopeFormat.collectFrames mainThreadProfile workerProfiles).
Proof.
  unfold SpeedscopeFormat.collectFrames, exportedNodes.
  set (seen1 := match mainThreadProfile with Some p => CPUProfile.nodes p | None => _ end).
  set (st1 := match mainThreadProfile with Some p => _ | None => _ end).
  assert (H1 : FramesInv seen1 st1).
  { subst st1 seen1. destruct mainThreadProfile as [p|]; [|apply framesInv_init].
    apply (framesInv_loop (CPUProfile.nodes p) [] _ framesInv_init). }
  clearbody st1 seen1. revert seen1 st1 H1.
  induction workerProfiles as [|wp wps IH]; intros seen1 st1 H1; simpl.
  - by rewrite app_nil_r.
  - rewrite app_assoc. apply IH. by apply framesInv_loop.
Qed.

(** X14: the frame table built from the main-thread profile and the worker
    profiles indexes every node: the key of each node is in [frameMap], at an
    index of [frames] that holds the frame of a node with that key; every
    entry of [frameMap] is the key of such a node; distinct keys have distinct
    indexes; [frames] and [frameMap] have the same size, which the counter
    [frameId] equals. *)
Theorem collectFrames_indexes_every_node mainThreadProfile workerProfiles :
  let st := SpeedscopeFormat.collectFrames mainThreadProfile workerProfiles in
  let nodes := exportedNodes mainThreadProfile workerProfiles in
  SpeedscopeFormat.frameId st = Z.of_nat (length (SpeedscopeFormat.frames st))
  /\ length (SpeedscopeFormat.frameMap st) = length (SpeedscopeFormat.frames st)
  /\ (forall n, n ∈ nodes ->
        exists i n0,
          OrderedMap.get (SpeedscopeFormat.frameMap st) (Speedscope.nodeFrameKey n)
          = Some (Z.of_nat i)
          /\ SpeedscopeFormat.frames st !! i = Some (SpeedscopeFormat.frameOf n0)
          /\ n0 ∈ nodes
          /\ Speedscope.nodeFrameKey n0 = Speedscope.nodeFrameKey n)
  /\ (forall k i,
        OrderedMap.get (SpeedscopeFormat.frameMap st) k = Some i ->
        0 <= i < Z.of_nat (length (SpeedscopeFormat.frames st))
        /\ exists n, n ∈ nodes /\ Speedscope.nodeFrameKey n = k)
  /\ (forall k k' i,
        OrderedMap.get (SpeedscopeFormat.frameMap st) k = Some i ->
        OrderedMap.get (SpeedscopeFormat.frameMap st) k' = Some i -> k = k').
Proof.
  intros st nodes.
  destruct (collectFrames_inv mainThreadProfile workerProfiles) as [Hc Hs Hseen Hfr Hinj].
  fold st nodes in Hc, Hs, Hseen, Hfr, Hinj.
  split; [exact Hc|]. split; [exact Hs|]. split; [|split; [|exact Hinj]].
  - intros n Hn. destruct (Hseen n Hn) as [i Hi].
    destruct (Hfr _ _ Hi) as (n0 & Hn0 & Hk & Hpos & Hl).
    exists (Z.to_nat i), n0. rewrite Z2Nat.id by done. done.
  - intros k i Hi. destruct (Hfr _ _ Hi) as (n0 & Hn0 & Hk & Hpos & Hl).
    apply lookup_lt_Some in Hl. split; [lia|]. by exists n0.
Qed.

(** ** The main-thread track *)

Lemma filterDefined_all {A B} (arr : list A) (other : list B) : forall i,
  (i + length arr <= length other)%nat ->
  SpeedscopeFormat.filterDefined i arr other = arr.
Proof.
  induction arr as [|x arr IH]; intros i Hlen; simpl in *; [done|].
  destruct (other !! i) eqn:Hi.
  - rewrite IH by lia. done.
  - apply lookup_ge_None in Hi. lia.
Qed.

Lemma mainThreadMap_loop_lookup frameMap nodes : forall tm0 id f,
  fold_left (SpeedscopeFormat.mainThreadMapStep frameMap) nodes tm0 !! id = Some f ->
  tm0 !! id = Some f
  \/ exists n, n ∈ nodes /\ ProfileNode.id n = id
               /\ OrderedMap.get frameMap (Speedscope.nodeFrameKey n) = Some f.
Proof.
  induction nodes as [|n nodes IH]; intros tm0 id f H; simpl in H; [by left|].
  destruct (IH _ _ _ H) as [H0|(n' & Hn' & Hid & Hget)].
  - unfold SpeedscopeFormat.mainThreadMapStep in H0.
    destruct (OrderedMap.get frameMap (Speedscope.nodeFrameKey n)) as [fi|] eqn:Hg.
    + destruct (decide (ProfileNode.id n = id)) as [Heq|Hne].
      * subst id. rewrite lookup_insert_eq in H0. injection H0 as ->.
        right. exists n. split; [left|done].
      * rewrite lookup_insert_ne in H0 by done. by left.
    + destruct (decide (ProfileNode.id n = id)) as [Heq|Hne].
      * subst id. by rewrite lookup_delete_eq in H0.
      * rewrite lookup_delete_ne in H0 by done. by left.
  - right. exists n'. split; [by right|done].
Qed.

Lemma mainThreadMap_lookup frameMap nodes id f :
  SpeedscopeFormat.mainThreadMap frameMap nodes !! id = Some f ->
  exists n, n ∈ nodes /\ ProfileNode.id n = id
            /\ OrderedMap.get frameMap (Speedscope.nodeFrameKey n) = Some f.
Proof.
  intros H. destruct (mainThreadMap_loop_lookup _ _ _ _ _ H) as [H0|H0]; [|done].
  by rewrite lookup_empty in H0.
Qed.



Lemma sampleLoop_inv tm tds samples : forall i st,
  exists fs ws,
    SpeedscopeFormat.l_samples (SpeedscopeFormat.sampleLoop tm tds i samples st)
    = SpeedscopeFormat.l_samples st ++ fs
    /\ SpeedscopeFormat.l_weights (SpeedscopeFormat.sampleLoop tm tds i samples st)
       = SpeedscopeFormat.l_weights st ++ ws
    /\ length fs = length ws
    /\ (length fs <= length samples)%nat
    /\ Forall (fun w => 1 <= w) ws
    /\ Forall (fun f => exists s, s ∈ samples /\ tm !! s = Some f) fs
    /\ (fs = [] <-> Forall (fun s => tm !! s = None) samples).
Proof.
  induction samples as [|s samples IH]; intros i st; simpl.
  - exists [], []. rewrite !app_nil_r. by repeat split.
  - destruct (tm !! s) as [f|] eqn:Hs.
    + destruct (IH (S i)
                  (SpeedscopeFormat.mkSampleLoop (SpeedscopeFormat.l_samples st ++ [f])
                     (SpeedscopeFormat.l_weights st
                        ++ [Z.max (orZero (tds !! i) - SpeedscopeFormat.lastTime st) 1])
                     (orZero (tds !! i))))
        as (fs & ws & H1 & H2 & Hlen & Hle & Hw & Hf & _).
      exists (f :: fs), (Z.max (orZero (tds !! i) - SpeedscopeFormat.lastTime st) 1 :: ws).
      split; [rewrite H1; cbn [SpeedscopeFormat.l_samples]; by rewrite <- app_assoc|].
      split; [rewrite H2; cbn [SpeedscopeFormat.l_weights]; by rewrite <- app_assoc|].
      split; [simpl; lia|]. split; [simpl; lia|].
      split; [constructor; [lia|done]|].
      split.
      { constructor.
        - exists s. split; [left|done].
        - eapply Forall_impl; [exact Hf|]. simpl. intros f' (s' & Hs' & Hl).
          exists s'. split; [by right|done]. }
      split; [done|]. intros H. apply Forall_cons in H as [H _]. congruence.
    + destruct (IH (S i) st) as (fs & ws & H1 & H2 & Hlen & Hle & Hw & Hf & Hiff).
      exists fs, ws. split; [exact H1|]. split; [exact H2|]. split; [done|].
      split; [lia|]. split; [done|]. split.
      { eapply Forall_impl; [exact Hf|]. simpl. intros f' (s' & Hs' & Hl).
        exists s'. split; [by right|done]. }
      rewrite Hiff. split; [by constructor|]. by intros [_ H]%Forall_cons.
Qed.



Lemma validate_sampled_id track :
  length (SpeedscopeFormat.s_samples track) = length (SpeedscopeFormat.s_weights track) ->
  SpeedscopeFormat.s_startValue track < SpeedscopeFormat.s_endValue track ->
  SpeedscopeFormat.validate (SpeedscopeFormat.sampled track) = SpeedscopeFormat.sampled track.
Proof.
  intros Hlen Hlt. unfold SpeedscopeFormat.validate, SpeedscopeFormat.lengthZ.
  rewrite Hlen, Z.eqb_refl.
  destruct (Z.leb_spec (SpeedscopeFormat.s_endValue track)
              (SpeedscopeFormat.s_startValue track)); [lia|].
  by destruct track.
Qed.

Lemma mainTrack_cases mainThreadProfile frameMap baseStartTime :
  match SpeedscopeFormat.mainTrack mainThreadProfile frameMap baseStartTime with
  | Some track =>
      exists p,
        mainThreadProfile = Some p
        /\ SpeedscopeFormat.s_name track = "Main Thread"
        /\ SpeedscopeFormat.s_startValue track = 0
        /\ 1 <= SpeedscopeFormat.s_endValue track
        /\ length (SpeedscopeFormat.s_samples track)
           = length (SpeedscopeFormat.s_weights track)
        /\ (length (SpeedscopeFormat.s_samples track) <= length (CPUProfile.samples p))%nat
        /\ (SpeedscopeFormat.s_samples track = [] <-> CPUProfile.samples p = [])
        /\ Forall (fun w => 1 <= w) (SpeedscopeFormat.s_weights track)
        /\ Forall
             (fun f =>
                exists n, n ∈ CPUProfile.nodes p
                          /\ OrderedMap.get frameMap (Speedscope.nodeFrameKey n) = Some f)
             (SpeedscopeFormat.s_samples track)
  | None =>
      mainThreadProfile = None
      \/ exists p,
           mainThreadProfile = Some p
           /\ CPUProfile.samples p <> []
           /\ Forall
                (fun s =>
                   SpeedscopeFormat.mainThreadMap frameMap (CPUProfile.nodes p) !! s = None)
                (CPUProfile.samples p)
  end.
Proof.
  unfold SpeedscopeFormat.mainTrack. destruct mainThreadProfile as [p|]; [|by left].
  unfold SpeedscopeFormat.lengthZ.
  destruct (Z.ltb_spec 0 (Z.of_nat (length (CPUProfile.samples p)))) as [Hpos|Hz].
  - destruct (sampleLoop_inv
                (SpeedscopeFormat.mainThreadMap frameMap (CPUProfile.nodes p))
                (CPUProfile.timeDeltas p) (CPUProfile.samples p) 0%nat
                (SpeedscopeFormat.mkSampleLoop [] [] 0))
      as (fs & ws & H1 & H2 & Hlen & Hle & Hw & Hf & Hiff).
    cbn [SpeedscopeFormat.l_samples SpeedscopeFormat.l_weights app] in H1, H2.
    rewrite H1, H2.
    assert (Hne : CPUProfile.samples p <> []) by (destruct (CPUProfile.samples p); [simpl in Hpos; lia|done]).
    destruct fs as [|f fs].
    + destruct ws; [|done]. simpl. right. exists p. split; [done|]. split; [done|].
      by apply Hiff.
    + destruct ws as [|w ws]; [done|].
      rewrite !filterDefined_all by (simpl in *; lia).
      rewrite <- Hlen. rewrite Z.eqb_refl.
      replace (0 <? Z.of_nat (length (f :: fs))) with true
        by (symmetry; apply Z.ltb_lt; simpl; lia).
      cbn [andb]. exists p. split; [done|]. split; [done|]. split; [done|].
      cbn [SpeedscopeFormat.s_endValue SpeedscopeFormat.s_samples
           SpeedscopeFormat.s_weights].
      split; [lia|]. split; [done|]. split; [done|]. split; [by split|].
      split; [done|].
      eapply Forall_impl; [exact Hf|]. simpl. intros f' (s & _ & Hs).
      destruct (mainThreadMap_lookup _ _ _ _ Hs) as (n & Hn & _ & Hg). by exists n.
  - assert (He : CPUProfile.samples p = []) by (destruct (CPUProfile.samples p); [done|simpl in Hz; lia]).
    exists p. split; [done|]. split; [done|]. split; [done|].
    cbn [SpeedscopeFormat.s_endValue SpeedscopeFormat.s_samples
         SpeedscopeFormat.s_weights].
    split; [lia|]. split; [done|]. split; [simpl; lia|]. split; [done|].
    split; constructor.
Qed.

(** X15: the track the exporter pushes for the main thread.  When there is
    one, it is called [Main Thread], starts at 0 and ends at 1 or later, has
    one weight per sample, every weight at least 1, at most one sample per
    sample of the profile, each of them the frame index of a node of the
    profile, and none exactly if the profile has no samples; the validation
    loop leaves it as it is.  There is none only without a main-thread profile,
    or if the profile has samples none of which has a frame. *)
Theorem mainTrack_is_valid_sampled_track mainThreadProfile frameMap baseStartTime :
  match SpeedscopeFormat.mainTrack mainThreadProfile frameMap baseStartTime with
  | Some track =>
      exists p,
        mainThreadProfile = Some p
        /\ SpeedscopeFormat.s_name track = "Main Thread"
        /\ SpeedscopeFormat.s_startValue track = 0
        /\ 1 <= SpeedscopeFormat.s_endValue track
        /\ length (SpeedscopeFormat.s_samples track)
           = length (SpeedscopeFormat.s_weights track)
        /\ (length (SpeedscopeFormat.s_samples track) <= length (CPUProfile.samples p))%nat
        /\ (SpeedscopeFormat.s_samples track = [] <-> CPUProfile.samples p = [])
        /\ Forall (fun w => 1 <= w) (SpeedscopeFormat.s_weights track)
        /\ Forall
             (fun f =>
                exists n, n ∈ CPUProfile.nodes p
                          /\ OrderedMap.get frameMap (Speedscope.nodeFrameKey n) = Some f)
             (SpeedscopeFormat.s_samples track)
        /\ SpeedscopeFormat.validate (SpeedscopeFormat.sampled track)
           = SpeedscopeFormat.sampled track
  | None =>
      mainThreadProfile = None
      \/ exists p,
           mainThreadProfile = Some p
           /\ CPUProfile.samples p <> []
           /\ Forall
                (fun s =>
                   SpeedscopeFormat.mainThreadMap frameMap (CPUProfile.nodes p) !! s = None)
                (CPUProfile.samples p)
  end.
Proof.
  pose proof (mainTrack_cases mainThreadProfile frameMap baseStartTime) as H.
  destruct (SpeedscopeFormat.mainTrack mainThreadProfile frameMap baseStartTime)
    as [track|]; [|exact H].
  destruct H as (p & Hp & Hn & Hs & He & Hlen & Hle & Hiff & Hw & Hf).
  exists p. repeat (split; [done|]). apply validate_sampled_id; [done|lia].
Qed.






(** ** The frame lookup of a worker's nodes *)

Lemma omap_get_elem m k i : OrderedMap.get m k = Some i -> (k, i) ∈ m.
Proof.
  induction m as [|[k0 v0] m IH]; [done|]. rewrite omap_get_cons.
  destruct (String.eqb_spec k0 k) as [->|Hne].
  - intros [= ->]. left.
  - intros H. right. by apply IH.
Qed.

Lemma omap_set_elem m k v e : e ∈ OrderedMap.set m k v -> e ∈ m \/ e = (k, v).
Proof.
  induction m as [|[k0 v0] m IH]; simpl.
  - intros ->%list_elem_of_singleton. by right.
  - destruct (String.eqb k0 k).
    + intros [->|He]%elem_of_cons; [by right|]. left. by right.
    + intros [->|He]%elem_of_cons; [left; left|].
      destruct (IH He) as [H|H]; [left; by right|by right].
Qed.

Lemma findByInclusion_elem m node i :
  SpeedscopeFormat.findByInclusion m node = Some i -> exists k, (k, i) ∈ m.
Proof.
  unfold SpeedscopeFormat.findByInclusion.
  destruct (List.find _ m) as [[k v]|] eqn:Hf; [|done]. simpl. intros [= ->].
  apply find_some in Hf as [Hin _]. exists k. by apply list_elem_of_In.
Qed.

Lemma threadMapInv_init fr0 : frameMapInRange fr0 -> ThreadMapInv fr0 [] (fr0, ∅).
Proof.
  intros Hr. split; simpl.
  - exists []. by rewrite app_nil_r.
  - done.
  - done.
  - done.
  - intros n Hn. by apply elem_of_nil in Hn.
  - intros id i H. by rewrite lookup_empty in H.
Qed.

Lemma threadMapInv_step fr0 seen st node :
  ThreadMapInv fr0 seen st ->
  ThreadMapInv fr0 (seen ++ [node]) (SpeedscopeFormat.workerNodeStep st node).
Proof.
  destruct st as [fr tm]. intros [(added & Hfr & Hadd) Hc Hr Hk Hs Hv]. simpl in *.
  assert (Hins : forall i, 0 <= i < Z.of_nat (length (SpeedscopeFormat.frames fr)) ->
            ThreadMapInv fr0 (seen ++ [node]) (fr, <[ProfileNode.id node := i]> tm)).
  { intros i Hi. split; simpl; try done.
    - exists added. split; [done|]. rewrite length_app. simpl. lia.
    - intros n [Hn| ->%list_elem_of_singleton]%elem_of_app.
      + destruct (decide (ProfileNode.id node = ProfileNode.id n)) as [->|Hne].
        * by rewrite lookup_insert_eq.
        * rewrite lookup_insert_ne by done. by apply Hs.
      + by rewrite lookup_insert_eq.
    - intros id j. rewrite map_app, elem_of_app. simpl.
      destruct (decide (ProfileNode.id node = id)) as [<-|Hne].
      + rewrite lookup_insert_eq. intros [= <-]. split; [right; left|done].
      + rewrite lookup_insert_ne by done. intros H. destruct (Hv _ _ H). by split; [left|]. }
  unfold SpeedscopeFormat.workerNodeStep.
  destruct (OrderedMap.get (SpeedscopeFormat.frameMap fr) (Speedscope.nodeFrameKey node))
    as [f|] eqn:Hg.
  - apply Hins. apply omap_get_elem in Hg. unfold frameMapInRange in Hr.
    rewrite Forall_forall in Hr. apply (Hr _ Hg).
  - destruct (SpeedscopeFormat.findByInclusion (SpeedscopeFormat.frameMap fr) node)
      as [f|] eqn:Hfi.
    + apply Hins. destruct (findByInclusion_elem _ _ _ Hfi) as [k Hin].
      unfold frameMapInRange in Hr. rewrite Forall_forall in Hr. apply (Hr _ Hin).
    + unfold SpeedscopeFormat.lengthZ. split; simpl.
      * exists (added ++ [SpeedscopeFormat.frameOf node]).
        rewrite Hfr, <- app_assoc. split; [done|]. rewrite !length_app. simpl. lia.
      * done.
      * unfold frameMapInRange in *. simpl. rewrite Forall_forall in Hr |- *.
        intros e [He| ->]%omap_set_elem; rewrite length_app; simpl.
        -- specialize (Hr e He). lia.
        -- lia.
      * intros k Hk0.
        destruct (decide (Speedscope.nodeFrameKey node = k)) as [<-|Hne].
        -- by rewrite omap_get_set_eq.
        -- rewrite omap_get_set_ne by done. by apply Hk.
      * intros n [Hn| ->%list_elem_of_singleton]%elem_of_app.
        -- destruct (decide (ProfileNode.id node = ProfileNode.id n)) as [->|Hne].
           ++ by rewrite lookup_insert_eq.
           ++ rewrite lookup_insert_ne by done. by apply Hs.
        -- by rewrite lookup_insert_eq.
      * intros id j. rewrite map_app, elem_of_app, length_app. simpl.
        destruct (decide (ProfileNode.id node = id)) as [<-|Hne].
        -- rewrite lookup_insert_eq. intros [= <-]. split; [right; left|lia].
        -- rewrite lookup_insert_ne by done. intros H. destruct (Hv _ _ H).
           split; [by left|lia].
Qed.

Lemma threadMapInv_loop fr0 nodes : forall seen st,
  ThreadMapInv fr0 seen st ->
  ThreadMapInv fr0 (seen ++ nodes) (fold_left SpeedscopeFormat.workerNodeStep nodes st).
Proof.
  induction nodes as [|n nodes IH]; intros seen st Hinv; simpl.
  - by rewrite app_nil_r.
  - replace (seen ++ n :: nodes) with ((seen ++ [n]) ++ nodes) by by rewrite <- app_assoc.
    apply IH. by apply threadMapInv_step.
Qed.

(** X17: the loop that fills a worker's [threadMap], started on a frame map
    whose entries all point into [frames]: every node of the profile gets a
    frame index, every index stored is that of a frame and belongs to a node
    id of the profile; [frames] only grows, by at most one frame per node;
    the entries of [frameMap] still point into [frames], no key is lost, and
    the counter [frameId] is not advanced. *)
Theorem workerThreadMap_maps_every_node fr profile :
  frameMapInRange fr ->
  let fr' := fst (SpeedscopeFormat.workerThreadMap fr profile) in
  let threadMap := snd (SpeedscopeFormat.workerThreadMap fr profile) in
  (forall n, n ∈ CPUProfile.nodes profile ->
     exists i, threadMap !! ProfileNode.id n = Some i
               /\ 0 <= i < Z.of_nat (length (SpeedscopeFormat.frames fr')))
  /\ (forall id i, threadMap !! id = Some i ->
        id ∈ map ProfileNode.id (CPUProfile.nodes profile)
        /\ 0 <= i < Z.of_nat (length (SpeedscopeFormat.frames fr')))
  /\ (exists added,
        SpeedscopeFormat.frames fr' = SpeedscopeFormat.frames fr ++ added
        /\ (length added <= length (CPUProfile.nodes profile))%nat)
  /\ frameMapInRange fr'
  /\ (forall k, is_Some (OrderedMap.get (SpeedscopeFormat.frameMap fr) k) ->
        is_Some (OrderedMap.get (SpeedscopeFormat.frameMap fr') k))
  /\ SpeedscopeFormat.frameId fr' = SpeedscopeFormat.frameId fr.
Proof.
  intros Hr fr' threadMap.
  destruct (threadMapInv_loop fr (CPUProfile.nodes profile) [] (fr, ∅)
              (threadMapInv_init fr Hr)) as [Hfr Hc Hr' Hk Hs Hv].
  fold (SpeedscopeFormat.workerThreadMap fr profile) in Hfr, Hc, Hr', Hk, Hs, Hv.
  fold fr' in Hfr, Hc, Hr', Hk. fold threadMap in Hs, Hv. simpl in Hs, Hv.
  split; [|done].
  intros n Hn. destruct (Hs n Hn) as [i Hi]. exists i. split; [done|].
  by destruct (Hv _ _ Hi).
Qed.

Lemma workerThreadMap_maps_every_node_witness :
  let fr := SpeedscopeFormat.collectFrames (Some profileA) [] in
  let fr' := fst (SpeedscopeFormat.workerThreadMap fr profileB) in
  frameMapInRange fr
  /\ exists added,
       SpeedscopeFormat.frames fr' = SpeedscopeFormat.frames fr ++ added
       /\ (length added <= 1)%nat.
Proof.
  assert (H : frameMapInRange (SpeedscopeFormat.collectFrames (Some profileA) []))
    by (repeat constructor; vm_compute; congruence).
  split; [exact H|].
  exact (proj1 (proj2 (proj2
           (workerThreadMap_maps_every_node
              (SpeedscopeFormat.collectFrames (Some profileA) []) profileB H)))).
Defined.

Lemma workerThreadMap_present_loop fr nodes : forall tm,
  (forall n, n ∈ nodes ->
     is_Some (OrderedMap.get (SpeedscopeFormat.frameMap fr) (Speedscope.nodeFrameKey n))) ->
  exists tm',
    fold_left SpeedscopeFormat.workerNodeStep nodes (fr, tm) = (fr, tm')
    /\ (forall id, id ∉ map ProfileNode.id nodes -> tm' !! id = tm !! id)
    /\ (forall n, n ∈ nodes -> is_Some (tm' !! ProfileNode.id n))
    /\ (NoDup (map ProfileNode.id nodes) ->
        forall n, n ∈ nodes ->
          tm' !! ProfileNode.id n
          = OrderedMap.get (SpeedscopeFormat.frameMap fr) (Speedscope.nodeFrameKey n)).
Proof.
  induction nodes as [|n nodes IH]; intros tm Hall.
  - exists tm. split; [done|]. split; [done|].
    split; intros; by match goal with H : _ ∈ [] |- _ => apply elem_of_nil in H end.
  - destruct (Hall n ltac:(left)) as [f Hf].
    assert (Hstep : SpeedscopeFormat.workerNodeStep (fr, tm) n
                    = (fr, <[ProfileNode.id n := f]> tm))
      by (unfold SpeedscopeFormat.workerNodeStep; by rewrite Hf).
    cbn [fold_left]. rewrite Hstep.
    destruct (IH (<[ProfileNode.id n := f]> tm) ltac:(intros; apply Hall; by right))
      as (tm' & Heq & Hout & Hin & Hnd).
    exists tm'. split; [exact Heq|]. split.
    { intros id [Hne Hid]%not_elem_of_cons. rewrite Hout by done.
      by rewrite lookup_insert_ne. }
    split.
    { intros n' [->|Hn']%elem_of_cons; [|by apply Hin].
      destruct (decide (ProfileNode.id n ∈ map ProfileNode.id nodes)) as [Hd|Hd].
      - apply list_elem_of_fmap in Hd as (n'' & Hid & Hn''). rewrite Hid. by apply Hin.
      - rewrite Hout by done. by rewrite lookup_insert_eq. }
    intros [Hn Hnodup]%NoDup_cons n' [->|Hn']%elem_of_cons; [|by apply Hnd].
    rewrite Hout by done. by rewrite lookup_insert_eq, Hf.
Qed.

(** X18: in the exporter the fallbacks of that loop are never taken.  For a
    worker profile of the map the frame table was collected from, on that
    table or any later one that still has its keys, the loop changes neither
    [frames] nor [frameMap]; every node gets the index its key has in
    [frameMap], and distinct node ids make [threadMap] exactly that lookup. *)
Theorem workerThreadMap_after_collection
    mainThreadProfile workerProfiles fr workerId profile :
  (workerId, profile) ∈ workerProfiles ->
  (forall k,
     is_Some (OrderedMap.get
                (SpeedscopeFormat.frameMap
                   (SpeedscopeFormat.collectFrames mainThreadProfile workerProfiles)) k) ->
     is_Some (OrderedMap.get (SpeedscopeFormat.frameMap fr) k)) ->
  exists threadMap,
    SpeedscopeFormat.workerThreadMap fr profile = (fr, threadMap)
    /\ (forall n, n ∈ CPUProfile.nodes profile ->
          is_Some (threadMap !! ProfileNode.id n))
    /\ (forall id, id ∉ map ProfileNode.id (CPUProfile.nodes profile) ->
          threadMap !! id = None)
    /\ (NoDup (map ProfileNode.id (CPUProfile.nodes profile)) ->
        forall n, n ∈ CPUProfile.nodes profile ->
          threadMap !! ProfileNode.id n
          = OrderedMap.get (SpeedscopeFormat.frameMap fr) (Speedscope.nodeFrameKey n)).
Proof.
  intros Hin Hkeys.
  destruct (workerThreadMap_present_loop fr (CPUProfile.nodes profile) ∅)
    as (tm & Heq & Hout & Hsome & Hnd).
  { intros n Hn. apply Hkeys.
    apply (fi_seen _ _ (collectFrames_inv mainThreadProfile workerProfiles)).
    unfold exportedNodes. apply elem_of_app. right.
    apply list_elem_of_In, in_flat_map. exists (workerId, profile).
    split; apply list_elem_of_In; done. }
  exists tm. split; [exact Heq|]. split; [exact Hsome|]. split; [|exact Hnd].
  intros id Hid. by rewrite Hout.
Qed.

Lemma workerThreadMap_after_collection_witness :
  let fr := SpeedscopeFormat.collectFrames (Some profileA) [("1", profileB)] in
  exists threadMap,
    SpeedscopeFormat.workerThreadMap fr profileB = (fr, threadMap)
    /\ threadMap !! 0 = Some 1.
Proof.
  destruct (workerThreadMap_after_collection (Some profileA) [("1", profileB)]
              (SpeedscopeFormat.collectFrames (Some profileA) [("1", profileB)])
              "1" profileB) as (tm & Heq & _ & _ & Hnd).
  - left.
  - intros k Hk. exact Hk.
  - exists tm. split; [exact Heq|].
    exact (Hnd ltac:(repeat constructor; set_solver)
             (ProfileNode.mk 0 (CallFrame.mk "[Worker-1] g" "script-0" "Worker-1://g" 0 0)
                (Some 1) None None None) ltac:(left)).
Defined.

(** ** Frame indexes of the evented branch *)

Lemma framesInRange_mono {K} `{Countable K} (n n' : nat) (m : gmap K Z) :
  (n <= n')%nat -> framesInRange n m -> framesInRange n' m.
Proof. intros Hle Hm k f Hk. specialize (Hm k f Hk). simpl in *. lia. Qed.

Lemma framesInRange_insert {K} `{Countable K} (n : nat) (m : gmap K Z) k f :
  0 <= f < Z.of_nat n -> framesInRange n m -> framesInRange n (<[k := f]> m).
Proof. intros Hf Hm. by apply map_Forall_insert_2. Qed.

Lemma setIfAbsent_inRange n k f m :
  0 <= f < Z.of_nat n -> framesInRange n m -> framesInRange n (Speedscope.setIfAbsent k f m).
Proof.
  intros Hf Hm. unfold Speedscope.setIfAbsent. destruct (m !! k); [done|].
  by apply framesInRange_insert.
Qed.

Lemma namesFromThreadMap_inRange n threadPrefix threadMap nodes :
  framesInRange n threadMap ->
  framesInRange n (Speedscope.namesFromThreadMap threadPrefix threadMap nodes).
Proof.
  intros Htm. unfold Speedscope.namesFromThreadMap.
  assert (H0 : framesInRange n (∅ : gmap string Z)) by apply map_Forall_empty.
  revert H0. generalize (∅ : gmap string Z).
  induction nodes as [|node nodes IH]; intros m Hm; simpl; [done|].
  apply IH. destruct (threadMap !! ProfileNode.id node) as [f|] eqn:Hf; [|done].
  apply setIfAbsent_inRange; [|done]. apply (Htm _ _ Hf).
Qed.

Lemma namesFromFrameMap_inRange n threadPrefix frameMap nodes :
  framesInRange n frameMap ->
  framesInRange n (Speedscope.namesFromFrameMap threadPrefix frameMap nodes).
Proof.
  intros Hfm. unfold Speedscope.namesFromFrameMap.
  assert (H0 : framesInRange n (∅ : gmap string Z)) by apply map_Forall_empty.
  revert H0. generalize (∅ : gmap string Z).
  induction nodes as [|node nodes IH]; intros m Hm; simpl; [done|].
  apply IH. destruct (frameMap !! Speedscope.nodeFrameKey node) as [f|] eqn:Hf; [|done].
  apply setIfAbsent_inRange; [|done]. apply (Hfm _ _ Hf).
Qed.

Lemma findViaSamples_value threadPrefix threadMap nodes functionName samples f :
  Speedscope.findViaSamples threadPrefix threadMap nodes functionName samples = Some f ->
  exists id, threadMap !! id = Some f.
Proof.
  induction samples as [|s samples IH]; simpl; [done|].
  destruct (List.find _ nodes) as [node|]; [|exact IH].
  destruct (String.eqb _ functionName); [|exact IH].
  destruct (threadMap !! s) as [f'|] eqn:Hs; [|exact IH].
  intros [= ->]. by exists s.
Qed.

Lemma eventedInv_step profile threadMap workerId threadPrefix actualStartTime
    frames0 processed st data :
  framesInRange (length frames0) threadMap ->
  EventedInv workerId frames0 processed st ->
  EventedInv workerId frames0 (processed ++ [data])
    (Speedscope.recordStep profile threadMap workerId threadPrefix actualStartTime st data).
Proof.
  intros Htm [(added & Hfr & Hadd & Hnew) Hn Hfm He].
  assert (Hlen0 : (length frames0 <= length (Speedscope.frames st))%nat)
    by (rewrite Hfr, length_app; lia).
  assert (Hkeep : exists added',
            Speedscope.frames st = frames0 ++ added'
            /\ (length added' <= length (processed ++ [data]))%nat
            /\ Forall (fun f => exists d, d ∈ processed ++ [data]
                                          /\ f = recordFrame workerId d) added').
  { exists added. split; [done|]. split; [rewrite length_app; simpl; lia|].
    eapply Forall_impl; [exact Hnew|]. simpl. intros f (d & Hd & ->).
    exists d. split; [apply elem_of_app; by left|done]. }
  assert (Hpush : forall f,
            0 <= f < Z.of_nat (length (Speedscope.frames st)) ->
            Forall (fun e => 0 <= Speedscope.frame e
                                  < Z.of_nat (length (Speedscope.frames st)))
              (Speedscope.eventList st
                 ++ [Speedscope.mkEvent (Speedscope.startAt actualStartTime data) f Speedscope.O;
                     Speedscope.mkEvent (Speedscope.endAt actualStartTime data) f Speedscope.C])).
  { intros f Hf. apply Forall_app. split; [done|].
    constructor; [done|]. constructor; [done|]. constructor. }
  unfold Speedscope.recordStep.
  destruct (Speedscope.functionNameToFrameId st !! WorkerPerformanceData.functionName data)
    as [f|] eqn:Hname.
  - pose proof (Hn _ _ Hname) as Hf. simpl in Hf.
    destruct (_ && _); split; simpl; try done. by apply Hpush.
  - destruct (Speedscope.findViaSamples threadPrefix threadMap (CPUProfile.nodes profile)
                (WorkerPerformanceData.functionName data) (CPUProfile.samples profile))
      as [f|] eqn:Hfind.
    + destruct (findViaSamples_value _ _ _ _ _ _ Hfind) as (id & Hid).
      pose proof (Htm _ _ Hid) as Hf. simpl in Hf.
      assert (Hf' : 0 <= f < Z.of_nat (length (Speedscope.frames st))) by lia.
      destruct (_ && _); split; simpl; try done;
        try (by apply framesInRange_insert).
      by apply Hpush.
    + assert (Hgrow :
        exists added',
          Speedscope.frames st
            ++ [Speedscope.mkFrame (WorkerPerformanceData.functionName data)
                  ("worker-" +:+ workerId +:+ "://"
                     +:+ WorkerPerformanceData.functionName data) 0 0]
          = frames0 ++ added'
          /\ (length added' <= length (processed ++ [data]))%nat
          /\ Forall (fun f => exists d, d ∈ processed ++ [data]
                                        /\ f = recordFrame workerId d) added').
      { exists (added ++ [recordFrame workerId data]).
        split; [rewrite Hfr, <- app_assoc; done|].
        split; [rewrite !length_app; simpl; lia|].
        apply Forall_app. split.
        - eapply Forall_impl; [exact Hnew|]. simpl. intros f (d & Hd & ->).
          exists d. split; [apply elem_of_app; by left|done].
        - constructor; [|constructor]. exists data.
          split; [apply elem_of_app; right; left|done]. }
      assert (Hnew' : 0 <= Z.of_nat (length (Speedscope.frames st))
                      < Z.of_nat (length (Speedscope.frames st ++ [recordFrame workerId data])))
        by (rewrite length_app; simpl; lia).
      assert (Hle : (length (Speedscope.frames st)
                     <= length (Speedscope.frames st ++ [recordFrame workerId data]))%nat)
        by (rewrite length_app; simpl; lia).
      assert (He' : Forall (fun e => 0 <= Speedscope.frame e
                                     < Z.of_nat (length (Speedscope.frames st
                                                           ++ [recordFrame workerId data])))
                      (Speedscope.eventList st)).
      { eapply Forall_impl; [exact He|]. simpl. intros e. rewrite length_app. simpl. lia. }
      fold (recordFrame workerId data) in Hgrow |- *.
      destruct (_ && _); split; simpl; try done;
        try (apply framesInRange_insert; [done|];
             by eapply framesInRange_mono; [exact Hle|]).
      apply Forall_app. split; [done|].
      constructor; [done|]. constructor; [done|]. constructor.
Qed.

Lemma eventedInv_loop profile threadMap workerId threadPrefix actualStartTime frames0 ds :
  framesInRange (length frames0) threadMap ->
  forall processed st,
    EventedInv workerId frames0 processed st ->
    EventedInv workerId frames0 (processed ++ ds)
      (fold_left (Speedscope.recordStep profile threadMap workerId threadPrefix actualStartTime)
         ds st).
Proof.
  intros Htm. induction ds as [|d ds IH]; intros processed st Hinv; simpl.
  - by rewrite app_nil_r.
  - replace (processed ++ d :: ds) with ((processed ++ [d]) ++ ds)
      by by rewrite <- app_assoc.
    apply IH. by apply eventedInv_step.
Qed.

(** X19: in the evented branch, started with a [threadMap] and a [frameMap]
    whose values are indexes of [frames], every emitted event names a frame
    that exists in the frame table the branch leaves; the table is the
    earlier one followed by at most one new frame per record, each the frame
    [worker-<id>://<function>] of one of the records; the frame map still
    points into the table. *)
Theorem evented_events_name_existing_frames
    profile threadMap workerId threadName frames0 frameMap0 actualStartTime workerData :
  framesInRange (length frames0) threadMap ->
  framesInRange (length frames0) frameMap0 ->
  let result :=
    Speedscope.eventedEvents profile threadMap workerId threadName frames0 frameMap0
      actualStartTime workerData in
  let events := result.1.1 in
  let frames := result.1.2 in
  let frameMap := result.2 in
  Forall (fun e => 0 <= Speedscope.frame e < Z.of_nat (length frames)) events
  /\ (exists added,
        frames = frames0 ++ added
        /\ (length added <= length workerData)%nat
        /\ Forall (fun f => exists d, d ∈ workerData /\ f = recordFrame workerId d) added)
  /\ framesInRange (length frames) frameMap.
Proof.
  intros Htm Hfm result events frames frameMap.
  subst events frames frameMap result. unfold Speedscope.eventedEvents. cbn [fst snd].
  match goal with
  | |- context [fold_left (Speedscope.recordStep ?p ?tm ?w ?pre ?a) ?ds ?st] =>
      pose proof (eventedInv_loop p tm w pre a frames0 ds Htm [] st) as Hinv
  end.
  destruct Hinv as [Hfr Hn Hfm' He].
  { split; cbn [Speedscope.frames Speedscope.functionNameToFrameId Speedscope.frameMap
                Speedscope.eventList].
    - exists []. by rewrite app_nil_r.
    - case_decide.
      + by apply namesFromFrameMap_inRange.
      + by apply namesFromThreadMap_inRange.
    - done.
    - constructor. }
  cbn [app] in Hfr. split; [|split; [exact Hfr|exact Hfm']].
  eapply Permutation_Forall; [|exact He]. symmetry.
  apply (sort_Permutation Speedscope.at_).
Qed.

Lemma evented_events_name_existing_frames_witness :
  let result :=
    Speedscope.eventedEvents profileB {[0 := 0]} "1" "web-worker-1"
      [Speedscope.mkFrame "[Worker-1] g" "Worker-1://g" 0 0] ∅ 0
      [record "g" 1 2; record "h" 3 4] in
  Forall (fun e => 0 <= Speedscope.frame e < Z.of_nat (length result.1.2)) result.1.1.
Proof.
  refine (proj1 (evented_events_name_existing_frames profileB {[0 := 0]} "1" "web-worker-1"
                   [Speedscope.mkFrame "[Worker-1] g" "Worker-1://g" 0 0] ∅ 0
                   [record "g" 1 2; record "h" 3 4] _ _)).
  - apply map_Forall_singleton. simpl. lia.
  - apply map_Forall_empty.
Defined.

(** ** The evented branch on the exporter's own time base *)

Lemma recordEvents_length actualStartTime data frameId :
  0 <= Speedscope.startAt actualStartTime data ->
  length (recordEvents actualStartTime data frameId)
  = if bool_decide (WorkerPerformanceData.startTime data <= WorkerPerformanceData.endTime data)
    then 2%nat else 0%nat.
Proof.
  unfold Speedscope.startAt, recordEvents. intros Hpos.
  case_decide as Hg; case_bool_decide as Hle; simpl; try done; lia.
Qed.

Lemma recordEvents_total_length actualStartTime ds : forall frameIds,
  length frameIds = length ds ->
  Forall (fun d => 0 <= Speedscope.startAt actualStartTime d) ds ->
  length (flat_map (fun df => recordEvents actualStartTime df.1 df.2) (zip ds frameIds))
  = (2 * length (filter (fun d => (WorkerPerformanceData.startTime d
                                   <= WorkerPerformanceData.endTime d)%Z) ds))%nat.
Proof.
  induction ds as [|d ds IH]; intros [|f fs] Hlen Hall; simpl in *; try done.
  apply Forall_cons in Hall as [Hd Hall].
  rewrite length_app, IH by (done || lia). rewrite recordEvents_length by done.
  rewrite filter_cons. case_bool_decide; case_decide; simpl; try done; lia.
Qed.

Lemma minStartTime_inner_attained ds : forall acc m,
  fold_left
    (fun m data =>
       match m with
       | None => Some (WorkerPerformanceData.startTime data)
       | Some v =>
           if WorkerPerformanceData.startTime data <? v
           then Some (WorkerPerformanceData.startTime data) else m
       end)
    ds acc = Some m ->
  acc = Some m \/ exists d, d ∈ ds /\ m = WorkerPerformanceData.startTime d.
Proof.
  induction ds as [|d ds IH]; intros acc m; cbn [fold_left]; [by left|].
  intros H. destruct (IH _ _ H) as [Hacc|(d' & Hd' & ->)].
  - destruct acc as [v|].
    + destruct (WorkerPerformanceData.startTime d <? v).
      * injection Hacc as <-. right. exists d. split; [left|done].
      * by left.
    + injection Hacc as <-. right. exists d. split; [left|done].
  - right. exists d'. split; [by right|done].
Qed.

Lemma minStartTime_attained groups : forall acc m,
  fold_left
    (fun acc dataArray =>
       fold_left
         (fun m data =>
            match m with
            | None => Some (WorkerPerformanceData.startTime data)
            | Some v =>
                if WorkerPerformanceData.startTime data <? v
                then Some (WorkerPerformanceData.startTime data) else m
            end)
         dataArray acc)
    groups acc = Some m ->
  acc = Some m
  \/ exists ds d, ds ∈ groups /\ d ∈ ds /\ m = WorkerPerformanceData.startTime d.
Proof.
  induction groups as [|ds groups IH]; intros acc m; cbn [fold_left]; [by left|].
  intros H. destruct (IH _ _ H) as [Hacc|(ds' & d & Hds' & Hd & ->)].
  - destruct (minStartTime_inner_attained _ _ _ Hacc) as [?|(d & Hd & ->)]; [by left|].
    right. exists ds, d. split; [left|done].
  - right. exists ds', d. split; [by right|done].
Qed.

Lemma actualStartTime_attained groups baseStartTime :
  Speedscope.actualStartTime groups baseStartTime <= baseStartTime
  /\ (Speedscope.actualStartTime groups baseStartTime = baseStartTime
      \/ exists gs workerId ds d,
           groups = Some gs /\ (workerId, ds) ∈ gs /\ d ∈ ds
           /\ Speedscope.actualStartTime groups baseStartTime
              = WorkerPerformanceData.startTime d).
Proof.
  unfold Speedscope.actualStartTime. destruct groups as [[|g gs]|]; try (split; [lia|by left]).
  destruct (Speedscope.minStartTime (g :: gs)) as [m|] eqn:Hm; [|split; [lia|by left]].
  destruct (Z.ltb_spec m baseStartTime); [|split; [lia|by left]].
  split; [lia|]. right.
  destruct (minStartTime_attained _ _ _ Hm) as [?|(ds & d & Hds & Hd & ->)]; [done|].
  apply list_elem_of_fmap in Hds as ([workerId ds'] & -> & Hin).
  by exists (g :: gs), workerId, ds', d.
Qed.

(** X20: on the time base the exporter computes from the worker groups, no
    record of a group is dropped for starting before the base: the evented
    branch emits two events for every record of the group whose end is not
    before its start, and none for the others.  The base is the earliest
    start of a record of the groups if that is before [baseStartTime], and
    [baseStartTime] otherwise. *)
Theorem evented_on_exporter_time_base
    profile threadMap threadName frames0 frameMap0 groups baseStartTime workerId workerData :
  (workerId, workerData) ∈ groups ->
  let actualStartTime := Speedscope.actualStartTime (Some groups) baseStartTime in
  let events :=
    (Speedscope.eventedEvents profile threadMap workerId threadName frames0 frameMap0
       actualStartTime workerData).1.1 in
  length events
  = (2 * length (filter (fun d => (WorkerPerformanceData.startTime d
                                   <= WorkerPerformanceData.endTime d)%Z) workerData))%nat
  /\ actualStartTime <= baseStartTime
  /\ (forall w ds d, (w, ds) ∈ groups -> d ∈ ds ->
        actualStartTime <= WorkerPerformanceData.startTime d)
  /\ (actualStartTime = baseStartTime
      \/ exists w ds d, (w, ds) ∈ groups /\ d ∈ ds
                        /\ actualStartTime = WorkerPerformanceData.startTime d).
Proof.
  intros Hin actualStartTime events.
  assert (Hlow : forall w ds d, (w, ds) ∈ groups -> d ∈ ds ->
            actualStartTime <= WorkerPerformanceData.startTime d).
  { intros w ds d Hw Hd.
    pose proof (actualStartTime_open_nonnegative groups baseStartTime w ds d Hw Hd) as H.
    unfold Speedscope.startAt in H. subst actualStartTime. lia. }
  destruct (actualStartTime_attained (Some groups) baseStartTime) as [Hle Hatt].
  split; [|split; [exact Hle|split; [exact Hlow|]]].
  - subst events. unfold Speedscope.eventedEvents. cbn [fst].
    match goal with
    | |- context [fold_left (Speedscope.recordStep ?p ?tm ?w ?pre ?a) ?ds ?st] =>
        destruct (recordLoop_events p tm w pre a ds st) as (fs & Hlen & Hev)
    end.
    cbn [Speedscope.eventList app] in Hev. rewrite Hev.
    rewrite (Permutation_length (sort_Permutation Speedscope.at_ _)).
    apply recordEvents_total_length; [done|].
    apply Forall_forall. intros d Hd.
    by apply (actualStartTime_open_nonnegative groups baseStartTime workerId workerData).
  - destruct Hatt as [?|(gs & w & ds & d & [= <-] & Hw & Hd & Heq)]; [by left|].
    right. by exists w, ds, d.
Qed.

Lemma evented_on_exporter_time_base_witness :
  length
    (Speedscope.eventedEvents profileB ∅ "1" "web-worker-1" [] ∅
       (Speedscope.actualStartTime (Some [("1", pipelineRecords)]) 5)
       pipelineRecords).1.1
  = 6%nat.
Proof.
  exact (proj1 (evented_on_exporter_time_base profileB ∅ "web-worker-1" [] ∅
                  [("1", pipelineRecords)] 5 "1" pipelineRecords ltac:(left))).
Defined.

(** ** The track made from samples *)

Lemma samplesToEvents_resolve tm tds samples : forall i,
  Forall (fun e => is_Some (tm !! SpeedscopeFormat.nodeId e))
         (SpeedscopeFormat.samplesToEvents tm tds i samples)
  /\ Forall (fun e => SpeedscopeFormat.nodeId e ∈ samples)
            (SpeedscopeFormat.samplesToEvents tm tds i samples)
  /\ length (SpeedscopeFormat.samplesToEvents tm tds i samples)
     = (2 * length (filter (fun s => is_Some (tm !! s)) samples))%nat.
Proof.
  induction samples as [|s samples IH]; intros i; simpl; [by repeat split|].
  destruct (IH (S i)) as (H1 & H2 & H3).
  assert (H2' : Forall (fun e => SpeedscopeFormat.nodeId e ∈ s :: samples)
                  (SpeedscopeFormat.samplesToEvents tm tds (S i) samples)).
  { eapply Forall_impl; [exact H2|]. simpl. intros e He. by right. }
  rewrite filter_cons. destruct (tm !! s) as [f|] eqn:Hs.
  - rewrite decide_True by done. split; [|split].
    + constructor; [simpl; by rewrite Hs|]. constructor; [simpl; by rewrite Hs|]. done.
    + constructor; [left|]. constructor; [left|]. done.
    + simpl. rewrite H3. lia.
  - rewrite decide_False by (by intros [? ?]). done.
Qed.

Lemma omap_resolved_length (tm : gmap Z Z) (l : list SpeedscopeFormat.TimedEvent) :
  Forall (fun e => is_Some (tm !! SpeedscopeFormat.nodeId e)) l ->
  length
    (omap (SpeedscopeFormat.resolveEvent tm) l)
  = length l.
Proof.
  induction 1 as [|e l [f Hf] _ IH]; [done|]. cbn [omap list_omap].
  unfold SpeedscopeFormat.resolveEvent at 1. rewrite Hf. simpl. f_equal. exact IH.
Qed.

Lemma omap_events_sorted (tm : gmap Z Z) (l : list SpeedscopeFormat.TimedEvent) :
  StronglySorted (keyLe SpeedscopeFormat.time) l ->
  StronglySorted (keyLe Speedscope.at_)
    (omap (SpeedscopeFormat.resolveEvent tm) l).
Proof.
  induction 1 as [|e l Hs IH Hall]; [constructor|]. cbn [omap list_omap].
  unfold SpeedscopeFormat.resolveEvent at 1.
  destruct (tm !! SpeedscopeFormat.nodeId e) as [f|]; [|exact IH].
  simpl. constructor; [exact IH|].
  clear -Hall. induction Hall as [|e' l He' _ IH]; [constructor|]. cbn [omap list_omap].
  unfold SpeedscopeFormat.resolveEvent at 1.
  destruct (tm !! SpeedscopeFormat.nodeId e') as [f'|]; [|exact IH].
  simpl. constructor; [|exact IH]. exact He'.
Qed.

Lemma omap_events_frames (tm : gmap Z Z) (samples : list Z)
    (l : list SpeedscopeFormat.TimedEvent) :
  Forall (fun e => SpeedscopeFormat.nodeId e ∈ samples) l ->
  Forall (fun e => exists s, s ∈ samples /\ tm !! s = Some (Speedscope.frame e))
    (omap (SpeedscopeFormat.resolveEvent tm) l).
Proof.
  induction 1 as [|e l He _ IH]; [constructor|]. cbn [omap list_omap].
  unfold SpeedscopeFormat.resolveEvent at 1.
  destruct (tm !! SpeedscopeFormat.nodeId e) as [f|] eqn:Hf; [|exact IH].
  simpl. constructor; [|exact IH]. by exists (SpeedscopeFormat.nodeId e).
Qed.

Lemma samplesToEvents_aligned tm tds samples : forall i ds,
  drop i tds = ds -> length ds = length samples ->
  Forall (fun s => is_Some (tm !! s)) samples ->
  SpeedscopeFormat.samplesToEvents tm tds i samples
  = flat_map
      (fun sd => [SpeedscopeFormat.mkTimedEvent sd.2 sd.1 Speedscope.O;
                  SpeedscopeFormat.mkTimedEvent (sd.2 + 100) sd.1 Speedscope.C])
      (zip samples ds).
Proof.
  induction samples as [|s samples IH]; intros i ds Hds Hlen Hall; [done|].
  destruct ds as [|d ds]; [done|]. apply Forall_cons in Hall as [[f Hf] Hall].
  assert (Hi : tds !! i = Some d).
  { rewrite <- (Nat.add_0_r i), <- lookup_drop, Hds. done. }
  assert (Hdrop : drop (S i) tds = ds).
  { replace (S i) with (i + 1)%nat by lia. rewrite <- drop_drop, Hds. done. }
  simpl. rewrite Hf, Hi. cbn [orZero]. do 2 f_equal.
  apply IH; [done|by injection Hlen|done].
Qed.

Lemma spaced_events_sorted (samples ds : list Z) :
  StronglySorted (fun a b => a + 100 <= b) ds ->
  StronglySorted (keyLe SpeedscopeFormat.time)
    (flat_map
       (fun sd => [SpeedscopeFormat.mkTimedEvent sd.2 sd.1 Speedscope.O;
                   SpeedscopeFormat.mkTimedEvent (sd.2 + 100) sd.1 Speedscope.C])
       (zip samples ds)).
Proof.
  intros Hs. revert samples. induction Hs as [|d ds Hs IH Hall]; intros samples.
  - destruct samples; constructor.
  - destruct samples as [|s samples]; [constructor|]. simpl.
    assert (Hlater : Forall (fun e => d + 100 <= SpeedscopeFormat.time e)
              (flat_map
                 (fun sd => [SpeedscopeFormat.mkTimedEvent sd.2 sd.1 Speedscope.O;
                             SpeedscopeFormat.mkTimedEvent (sd.2 + 100) sd.1 Speedscope.C])
                 (zip samples ds))).
    { clear -Hall. revert samples. induction Hall as [|d' ds Hd' _ IH]; intros samples.
      - destruct samples; constructor.
      - destruct samples as [|s' samples]; [constructor|]. simpl.
        constructor; [simpl; lia|]. constructor; [simpl; lia|]. apply IH. }
    constructor.
    + constructor; [apply IH|]. eapply Forall_impl; [exact Hlater|].
      unfold keyLe. simpl. intros; lia.
    + constructor; [unfold keyLe; simpl; lia|].
      eapply Forall_impl; [exact Hlater|]. unfold keyLe. simpl. intros; lia.
Qed.

(** X21: the events made from a worker's samples when it has no telemetry
    records.  There are two for every sample whose node has a frame, none for
    the others; they are in time order and each names the frame of a sample
    of the profile.  If every sample has a frame, there is one time delta per
    sample and successive deltas lie at least 100 apart, the events are, in
    sample order, an open event at the sample's delta followed by the close
    event 100 later. *)
Theorem degradedEvents_are_sample_pairs profile threadMap :
  let events := SpeedscopeFormat.degradedEvents profile threadMap in
  length events
  = (2 * length (filter (fun s => is_Some (threadMap !! s)) (CPUProfile.samples profile)))%nat
  /\ StronglySorted (keyLe Speedscope.at_) events
  /\ Forall (fun e => exists s, s ∈ CPUProfile.samples profile
                                /\ threadMap !! s = Some (Speedscope.frame e)) events
  /\ (Forall (fun s => is_Some (threadMap !! s)) (CPUProfile.samples profile) ->
      length (CPUProfile.timeDeltas profile) = length (CPUProfile.samples profile) ->
      StronglySorted (fun a b => a + 100 <= b) (CPUProfile.timeDeltas profile) ->
      events
      = flat_map (fun sd => sampleEvents sd.2 (default 0 (threadMap !! sd.1)))
                 (zip (CPUProfile.samples profile) (CPUProfile.timeDeltas profile))).
Proof.
  intros events. subst events. unfold SpeedscopeFormat.degradedEvents.
  destruct (samplesToEvents_resolve threadMap (CPUProfile.timeDeltas profile)
              (CPUProfile.samples profile) 0) as (Hres & Hin & Hlen).
  set (raw := SpeedscopeFormat.samplesToEvents threadMap (CPUProfile.timeDeltas profile) 0
                (CPUProfile.samples profile)) in *.
  assert (Hperm : JS.sort SpeedscopeFormat.byTime raw ≡ₚ raw)
    by apply (sort_Permutation SpeedscopeFormat.time).
  split; [|split; [|split]].
  - rewrite omap_resolved_length.
    + by rewrite (Permutation_length Hperm).
    + eapply Permutation_Forall; [symmetry; exact Hperm|exact Hres].
  - apply omap_events_sorted. apply (sort_StronglySorted SpeedscopeFormat.time).
  - apply omap_events_frames.
    eapply Permutation_Forall; [symmetry; exact Hperm|exact Hin].
  - intros Hall Hal Hsp. subst raw.
    rewrite (samplesToEvents_aligned _ _ _ 0%nat (CPUProfile.timeDeltas profile))
      by done.
    rewrite (sort_sorted_id SpeedscopeFormat.time) by by apply spaced_events_sorted.
    clear Hres Hin Hlen Hperm Hsp. revert Hal Hall.
    generalize (CPUProfile.timeDeltas profile).
    induction (CPUProfile.samples profile) as [|s ss IH]; intros ds Hal Hall; [done|].
    destruct ds as [|d ds]; [done|]. apply Forall_cons in Hall as [[f Hf] Hall].
    cbn [zip zip_with flat_map app omap list_omap fst snd].
    unfold SpeedscopeFormat.resolveEvent at 1 2.
    cbn [SpeedscopeFormat.nodeId SpeedscopeFormat.time SpeedscopeFormat.te_type].
    rewrite Hf. cbn [default from_option id app sampleEvents].
    simpl. do 2 f_equal. apply IH; [by injection Hal|done].
Qed.

(** ** Worker tracks, fallbacks and validation *)

Lemma orNumber_zero x : SpeedscopeFormat.orNumber x 0 = x.
Proof. unfold SpeedscopeFormat.orNumber. destruct (Z.eqb_spec x 0); congruence. Qed.

(** X22: a worker gets a track exactly when it has events.  The track has
    the thread name and the events as they are; its start and end value are
    the earliest and latest event time, both times of events, so every event
    lies between them. *)
Theorem eventedTrack_spans_its_events threadName events :
  match SpeedscopeFormat.eventedTrack threadName events with
  | None => events = []
  | Some track =>
      events <> []
      /\ SpeedscopeFormat.e_name track = threadName
      /\ SpeedscopeFormat.e_events track = events
      /\ Forall (fun e => SpeedscopeFormat.e_startValue track <= Speedscope.at_ e
                          <= SpeedscopeFormat.e_endValue track) events
      /\ SpeedscopeFormat.e_startValue track ∈ map Speedscope.at_ events
      /\ SpeedscopeFormat.e_endValue track ∈ map Speedscope.at_ events
  end.
Proof.
  unfold SpeedscopeFormat.eventedTrack. destruct events as [|e events]; [done|].
  cbn [map]. rewrite !orNumber_zero.
  cbn [SpeedscopeFormat.e_name SpeedscopeFormat.e_events SpeedscopeFormat.e_startValue
       SpeedscopeFormat.e_endValue].
  pose proof (Math_min_lower (Speedscope.at_ e) (map Speedscope.at_ events)) as Hlo.
  pose proof (Math_max_upper (Speedscope.at_ e) (map Speedscope.at_ events)) as Hhi.
  split; [done|]. split; [done|]. split; [done|].
  split; [|split; [apply Math_min_elem|apply Math_max_elem]].
  change (Speedscope.at_ e :: map Speedscope.at_ events)
    with (map Speedscope.at_ (e :: events)) in Hlo, Hhi.
  rewrite Forall_forall in Hlo, Hhi. apply Forall_forall. intros e' He'.
  pose proof (list_elem_of_fmap_2 Speedscope.at_ _ _ He') as Hin.
  specialize (Hlo _ Hin). specialize (Hhi _ Hin). simpl in *. lia.
Qed.

Lemma validate_valid profile : trackValid (SpeedscopeFormat.validate profile).
Proof.
  destruct profile as [p|p]; [|done]. unfold SpeedscopeFormat.validate, trackValid.
  unfold SpeedscopeFormat.lengthZ.
  destruct (Z.eqb_spec (Z.of_nat (length (SpeedscopeFormat.s_samples p)))
              (Z.of_nat (length (SpeedscopeFormat.s_weights p)))) as [He|Hne];
    cbn [SpeedscopeFormat.s_samples SpeedscopeFormat.s_weights
         SpeedscopeFormat.s_startValue SpeedscopeFormat.s_endValue].
  - split; [lia|].
    destruct (Z.leb_spec (SpeedscopeFormat.s_endValue p) (SpeedscopeFormat.s_startValue p));
      lia.
  - split; [rewrite !length_take; lia|].
    destruct (Z.leb_spec (SpeedscopeFormat.s_endValue p) (SpeedscopeFormat.s_startValue p));
      lia.
Qed.

Lemma validate_id profile :
  trackValid profile -> SpeedscopeFormat.validate profile = profile.
Proof.
  destruct profile as [p|p]; [|done]. intros [Hlen Hlt]. by apply validate_sampled_id.
Qed.

Lemma fallbacks_cases mainThreadProfile frames profiles :
  SpeedscopeFormat.fallbacks mainThreadProfile frames profiles
  = match profiles, mainThreadProfile with
    | [], Some _ => [SpeedscopeFormat.emptyMainTrack 1000]
    | _, _ => profiles
    end.
Proof.
  unfold SpeedscopeFormat.fallbacks.
  destruct mainThreadProfile as [p|], profiles as [|t ts], frames as [|f fs]; done.
Qed.

(** X23: from the end of the worker loop to the returned file.  The frames
    are returned as they are.  Tracks already made are kept, in order, and no
    track is added to them; with no track so far, the file gets one empty
    main-thread track ending at 1000 if there is a main-thread profile, and
    stays without tracks otherwise (the second fallback never adds a track).
    Every returned sampled track has one weight per sample and ends after it
    starts; validation changes no track that already has these properties and
    no evented track, and validating twice is the same as once. *)
Theorem finish_returns_valid_tracks mainThreadProfile frames profiles :
  let file := SpeedscopeFormat.finish mainThreadProfile frames profiles in
  SpeedscopeFormat.shared_frames file = frames
  /\ SpeedscopeFormat.f_name file = "Performance Profile"
  /\ SpeedscopeFormat.profiles file
     = map SpeedscopeFormat.validate
         match profiles, mainThreadProfile with
         | [], Some _ => [SpeedscopeFormat.emptyMainTrack 1000]
         | _, _ => profiles
         end
  /\ (mainThreadProfile <> None -> SpeedscopeFormat.profiles file <> [])
  /\ Forall trackValid (SpeedscopeFormat.profiles file)
  /\ (Forall trackValid profiles ->
      SpeedscopeFormat.profiles file
      = match profiles, mainThreadProfile with
        | [], Some _ => [SpeedscopeFormat.emptyMainTrack 1000]
        | _, _ => profiles
        end)
  /\ map SpeedscopeFormat.validate (SpeedscopeFormat.profiles file)
     = SpeedscopeFormat.profiles file.
Proof.
  intros file. subst file. unfold SpeedscopeFormat.finish.
  cbn [SpeedscopeFormat.shared_frames SpeedscopeFormat.f_name SpeedscopeFormat.profiles].
  rewrite fallbacks_cases. split; [done|]. split; [done|]. split; [done|].
  split; [|split; [|split]].
  - intros Hm. destruct mainThreadProfile as [p|]; [|done]. by destruct profiles.
  - apply Forall_forall. intros t (t0 & -> & _)%list_elem_of_fmap. apply validate_valid.
  - intros Hv. rewrite <- (map_id (match profiles, mainThreadProfile with
                                    | [], Some _ => _ | _, _ => _ end)) at 2.
    apply map_ext_Forall.
    destruct profiles as [|t ts].
    + destruct mainThreadProfile; [|constructor]. constructor; [|constructor].
      apply validate_id. simpl. split; [done|lia].
    + eapply Forall_impl; [exact Hv|]. intros t' Ht'. by apply validate_id.
  - rewrite map_map. apply map_ext. intros t. apply validate_id, validate_valid.
Qed.

(** ** Instrumentation of the main thread *)

Lemma pop_snoc {A} (l : list A) x : pop (l ++ [x]) = l.
Proof. apply removelast_last. Qed.

Lemma runCalls_loop markedFunctions calls : forall this running outer,
  MainThreadInstrumentation.callStack this = outer ++ rev (map fst running) ->
  let result :=
    fold_left (runCall markedFunctions) calls
      (this, map (endFunctionOf markedFunctions) running) in
  MainThreadInstrumentation.mainThreadId result.1
  = MainThreadInstrumentation.mainThreadId this
  /\ MainThreadInstrumentation.performanceData result.1
     = MainThreadInstrumentation.performanceData this
       ++ expectedRecords markedFunctions (MainThreadInstrumentation.mainThreadId this)
            outer running calls
  /\ result.2 = map (endFunctionOf markedFunctions) (stillRunning running calls)
  /\ MainThreadInstrumentation.callStack result.1
     = outer ++ rev (map fst (stillRunning running calls)).
Proof.
  induction calls as [|c calls IH]; intros this running outer Hstack; cbn zeta.
  - simpl. by rewrite app_nil_r.
  - cbn [fold_left]. destruct c as [name perf|perf|name s e perf].
    + specialize (IH (MainThreadInstrumentation.mk (MainThreadInstrumentation.mainThreadId this)
                        (MainThreadInstrumentation.performanceData this)
                        (MainThreadInstrumentation.callStack this ++ [name]))
                     ((name, perf) :: running) outer).
      cbn zeta in IH. apply IH. simpl. by rewrite Hstack, app_assoc.
    + destruct running as [|[name started] callers].
      * apply (IH this [] outer Hstack).
      * cbn [map runCall fst snd].
        specialize (IH (MainThreadInstrumentation.endFunction
                          (endFunctionOf markedFunctions (name, started)) perf this)
                       callers outer).
        cbn zeta in IH. destruct IH as (H1 & H2 & H3 & H4).
        { simpl. rewrite Hstack. simpl. by rewrite app_assoc, pop_snoc. }
        split; [exact H1|]. split; [|split; [exact H3|exact H4]].
        rewrite H2. simpl. rewrite <- app_assoc. simpl. do 3 f_equal.
        rewrite Hstack. simpl. by rewrite app_assoc, pop_snoc.
    + cbn [runCall fst snd].
      specialize (IH (MainThreadInstrumentation.record markedFunctions perf this name s e None)
                     running outer).
      cbn zeta in IH. destruct IH as (H1 & H2 & H3 & H4); [done|].
      split; [exact H1|]. split; [|split; [exact H3|exact H4]].
      rewrite H2. simpl. rewrite <- app_assoc. simpl. by rewrite Hstack.
Qed.

Lemma expectedRecords_length markedFunctions mainThreadId outer calls : forall running,
  (length (expectedRecords markedFunctions mainThreadId outer running calls)
   + length (stillRunning running calls)
   = length running + length (filter (fun c => startsRecord c = true) calls))%nat.
Proof.
  induction calls as [|c calls IH]; intros running; simpl; [lia|].
  destruct c as [name perf|perf|name s e perf]; rewrite filter_cons; simpl.
  - rewrite IH. simpl. lia.
  - destruct running as [|[name started] callers]; simpl; rewrite IH; simpl; lia.
  - rewrite IH. simpl. lia.
Qed.

(** X24: a run of instrumented code in which a function that ends is always
    the one started last.  The records it leaves are added in the order the
    functions end; the record of a function has the thread id, the clock and
    memory readings at its start and end, their difference as duration, the
    marker of its name, and as call stack the stack found at the start of
    the run followed by the functions running around it.  The end functions
    not yet called are those of the functions still running, which are what
    the run leaves on the call stack: a run in which every function has ended
    leaves the call stack as it found it, and has added one record for every
    function started and every record written by hand.  If, instead, of two
    functions the one started first ends first, its record and the call
    stack left both list that function itself. *)
Theorem nested_instrumentation_records_callers markedFunctions calls this :
  let result := runCalls markedFunctions calls this in
  let running := stillRunning [] calls in
  MainThreadInstrumentation.mainThreadId result.1
  = MainThreadInstrumentation.mainThreadId this
  /\ MainThreadInstrumentation.performanceData result.1
     = MainThreadInstrumentation.performanceData this
       ++ expectedRecords markedFunctions (MainThreadInstrumentation.mainThreadId this)
            (MainThreadInstrumentation.callStack this) [] calls
  /\ result.2 = map (endFunctionOf markedFunctions) running
  /\ MainThreadInstrumentation.callStack result.1
     = MainThreadInstrumentation.callStack this ++ rev (map fst running)
  /\ MainThreadInstrumentation.getDataCount result.1 + Z.of_nat (length running)
     = MainThreadInstrumentation.getDataCount this
       + Z.of_nat (length (filter (fun c => startsRecord c = true) calls))
  /\ (forall a b pa pb pe,
        let '(this1, endA) :=
          MainThreadInstrumentation.startFunction markedFunctions pa this a in
        let '(this2, _) :=
          MainThreadInstrumentation.startFunction markedFunctions pb this1 b in
        let this3 := MainThreadInstrumentation.endFunction endA pe this2 in
        MainThreadInstrumentation.callStack this3
        = MainThreadInstrumentation.callStack this ++ [a]
        /\ exists r,
             MainThreadInstrumentation.performanceData this3
             = MainThreadInstrumentation.performanceData this ++ [r]
             /\ WorkerPerformanceData.functionName r = a
             /\ WorkerPerformanceData.callStack r
                = Some (MainThreadInstrumentation.callStack this ++ [a])).
Proof.
  intros result running. subst result running. unfold runCalls.
  change (@nil MainThreadInstrumentation.EndFunction)
    with (map (endFunctionOf markedFunctions) []).
  destruct (runCalls_loop markedFunctions calls this []
              (MainThreadInstrumentation.callStack this))
    as (H1 & H2 & H3 & H4); [simpl; by rewrite app_nil_r|].
  split; [exact H1|]. split; [exact H2|]. split; [exact H3|]. split; [exact H4|].
  split.
  - unfold MainThreadInstrumentation.getDataCount. rewrite H2, length_app.
    pose proof (expectedRecords_length markedFunctions
                  (MainThreadInstrumentation.mainThreadId this)
                  (MainThreadInstrumentation.callStack this) calls []) as Hlen.
    simpl in Hlen. lia.
  - intros a b pa pb pe. simpl.
    rewrite pop_snoc. split; [done|]. eexists. split; [reflexivity|]. done.
Qed.

(** ** The decorators *)

Section DecoratorFacts.
Context {V P : Type} (finally_ : P -> Instrument.EndFunction -> P).

Lemma instrument_eq functionName className propertyKey (fn : @Instrument.Function V P) :
  Instrument.instrument finally_ functionName className propertyKey fn
  = Instrument.instrumentFunction finally_
      (orString functionName (orString className "Anonymous" +:+ "." +:+ propertyKey)) fn.
Proof. reflexivity. Qed.

Lemma instrumentFunction_started functionName (fn : @Instrument.Function V P) w l this :
  Instrument.workerProfilerInstance w = Some l ->
  Instrument.profilers w !! l = Some this ->
  let endFunction_ :=
    Instrument.mkEndFunction l
      (WorkerProfiler.mkEndFunction functionName
         (Performance.now (Instrument.performance w))
         (getFunctionMarker (Instrument.markedFunctions w) functionName)
         (Performance.usedJSHeapSize (Instrument.performance w))) in
  let w1 :=
    Instrument.mkWorld (Some l)
      (<[l := WorkerProfiler.mk (WorkerProfiler.workerId this)
                (WorkerProfiler.performanceData this)
                (WorkerProfiler.callStack this ++ [functionName])
                (WorkerProfiler.storage this)]> (Instrument.profilers w))
      (Instrument.markedFunctions w) (Instrument.performance w) in
  Instrument.instrumentFunction finally_ functionName fn w
  = match fn w1 with
    | (Ok (Instrument.promise p), w2) =>
        (Ok (Instrument.promise (finally_ p endFunction_)), w2)
    | (r, w2) => (r, Instrument.endFunction endFunction_ w2)
    end.
Proof.
  intros Hl Hthis endFunction_ w1. unfold Instrument.instrumentFunction.
  unfold Instrument.getWorkerProfiler. rewrite Hl.
  unfold Instrument.startFunction. rewrite Hl.
  assert (Halter :
    alter (fun this0 =>
             (WorkerProfiler.startFunction (Instrument.markedFunctions w)
                (Instrument.performance w) this0 functionName).1)
          l (Instrument.profilers w)
    = <[l := WorkerProfiler.mk (WorkerProfiler.workerId this)
               (WorkerProfiler.performanceData this)
               (WorkerProfiler.callStack this ++ [functionName])
               (WorkerProfiler.storage this)]> (Instrument.profilers w)).
  { apply map_eq. intros k. destruct (decide (k = l)) as [->|Hne].
    - rewrite lookup_alter_eq, lookup_insert_eq, Hthis. done.
    - by rewrite lookup_alter_ne, lookup_insert_ne. }
  rewrite Halter. fold w1. fold endFunction_.
  destruct (fn w1) as [[[v|p]|e] w2]; done.
Qed.

Lemma endFunction_lookup f w that :
  Instrument.profilers w !! Instrument.profiler f = Some that ->
  Instrument.profilers (Instrument.endFunction f w) !! Instrument.profiler f
  = Some (WorkerProfiler.endFunction (Instrument.captured f) (Instrument.performance w) that).
Proof.
  intros H. unfold Instrument.endFunction. simpl. by rewrite lookup_alter_eq, H.
Qed.

Lemma instrumentFunction_keepsStack functionName (fn : @Instrument.Function V P) :
  keepsStack fn -> keepsStack (Instrument.instrumentFunction finally_ functionName fn).
Proof.
  intros Hfn w l this Hl Hthis.
  rewrite (instrumentFunction_started functionName fn w l this Hl Hthis).
  match goal with
  | |- context [fn ?w1] =>
      destruct (Hfn w1 l
                  (WorkerProfiler.mk (WorkerProfiler.workerId this)
                     (WorkerProfiler.performanceData this)
                     (WorkerProfiler.callStack this ++ [functionName])
                     (WorkerProfiler.storage this)) eq_refl)
        as (Hnp & Hinst & that & Hthat & Hstack);
      [simpl; by rewrite lookup_insert_eq|];
      destruct (fn w1) as [r w2]
  end.
  simpl in Hnp, Hinst, Hthat.
  destruct r as [[v|p]|e]; [|by destruct (Hnp p)|]; simpl.
  - split; [done|]. split; [done|]. eexists.
    split; [by apply (endFunction_lookup (Instrument.mkEndFunction l _) w2 that)|].
    unfold WorkerProfiler.endFunction. cbn [WorkerProfiler.callStack].
    rewrite Hstack. cbn [WorkerProfiler.callStack]. apply pop_snoc.
  - split; [done|]. split; [done|]. eexists.
    split; [by apply (endFunction_lookup (Instrument.mkEndFunction l _) w2 that)|].
    unfold WorkerProfiler.endFunction. cbn [WorkerProfiler.callStack].
    rewrite Hstack. cbn [WorkerProfiler.callStack]. apply pop_snoc.
Qed.

End DecoratorFacts.

(** X25: a function wrapped by [instrumentFunction].  Without a profiler
    installed the call throws the initialisation error and the function is
    not run.  With a profiler, the function runs after its name has been
    pushed on the profiler's call stack.  If it returns a promise, the caller
    gets [result.finally] with the end function, and the world is as the
    function left it: no record is written yet.  Otherwise the caller gets
    what the function returned or threw, and the end function has run on the
    world the function left: the object that was the profiler at the start
    has one more record (also handed to its storage, if it has one) with the
    clock readings at the start and at the end of the call, and its call
    stack has lost its last entry.  If the function left the call stack as it
    was when it started, the stack is again as before the call, and it is the
    call stack of the record.  Wrapped functions that do so can be nested:
    wrapping keeps the property.  [@instrument] is the same wrapper under the
    name given, or else [<class>.<method>], with [Anonymous] for a class
    without name. *)
Theorem instrumentFunction_brackets_the_call {V P : Type}
    (finally_ : P -> Instrument.EndFunction -> P)
    (functionName : string) (fn : @Instrument.Function V P) (w : Instrument.World) :
  (Instrument.workerProfilerInstance w = None ->
   Instrument.instrumentFunction finally_ functionName fn w
   = (Throw (Error ("WorkerProfiler not initialized. Call setWorkerProfiler() first, "
                      +:+ "or ensure your Worker receives an INIT_WORKER message with workerId.")),
      w))
  /\ (forall l this,
        Instrument.workerProfilerInstance w = Some l ->
        Instrument.profilers w !! l = Some this ->
        let started :=
          WorkerProfiler.mk (WorkerProfiler.workerId this)
            (WorkerProfiler.performanceData this)
            (WorkerProfiler.callStack this ++ [functionName])
            (WorkerProfiler.storage this) in
        let w1 :=
          Instrument.mkWorld (Some l) (<[l := started]> (Instrument.profilers w))
            (Instrument.markedFunctions w) (Instrument.performance w) in
        let endFunction_ :=
          Instrument.mkEndFunction l
            (WorkerProfiler.mkEndFunction functionName
               (Performance.now (Instrument.performance w))
               (getFunctionMarker (Instrument.markedFunctions w) functionName)
               (Performance.usedJSHeapSize (Instrument.performance w))) in
        let after := Instrument.instrumentFunction finally_ functionName fn w in
        match (fn w1).1 with
        | Ok (Instrument.promise p) =>
            after = (Ok (Instrument.promise (finally_ p endFunction_)), (fn w1).2)
        | r =>
            after.1 = r
            /\ Instrument.workerProfilerInstance after.2
               = Instrument.workerProfilerInstance (fn w1).2
            /\ forall that,
                 Instrument.profilers (fn w1).2 !! l = Some that ->
                 let perfData :=
                   WorkerPerformanceData.mk (WorkerProfiler.workerId that) functionName
                     (Performance.now (Instrument.performance w))
                     (Performance.now (Instrument.performance (fn w1).2))
                     (Performance.now (Instrument.performance (fn w1).2)
                      - Performance.now (Instrument.performance w))
                     (Performance.usedJSHeapSize (Instrument.performance w))
                     (Performance.usedJSHeapSize (Instrument.performance (fn w1).2))
                     (Some (pop (WorkerProfiler.callStack that)))
                     (getFunctionMarker (Instrument.markedFunctions w) functionName) in
                 Instrument.profilers after.2 !! l
                 = Some (WorkerProfiler.mk (WorkerProfiler.workerId that)
                           (WorkerProfiler.performanceData that ++ [perfData])
                           (pop (WorkerProfiler.callStack that))
                           (WorkerProfiler.save (WorkerProfiler.storage that) perfData))
                 /\ (WorkerProfiler.callStack that = WorkerProfiler.callStack started ->
                     pop (WorkerProfiler.callStack that) = WorkerProfiler.callStack this)
        end)
  /\ (keepsStack fn -> keepsStack (Instrument.instrumentFunction finally_ functionName fn))
  /\ (forall name className propertyKey,
        Instrument.instrument finally_ name className propertyKey fn
        = Instrument.instrumentFunction finally_
            (orString name (orString className "Anonymous" +:+ "." +:+ propertyKey)) fn).
Proof.
  split; [|split; [|split]].
  - intros Hnone. unfold Instrument.instrumentFunction, Instrument.getWorkerProfiler.
    by rewrite Hnone.
  - intros l this Hl Hthis started w1 endFunction_ after. subst after.
    rewrite (instrumentFunction_started finally_ functionName fn w l this Hl Hthis).
    fold started. fold w1. fold endFunction_.
    destruct (fn w1) as [[[v|p]|e] w2]; cbn [fst snd]; [|done|].
    + split; [done|]. split; [done|]. intros that Hthat. cbn zeta.
      split; [exact (endFunction_lookup endFunction_ w2 that Hthat)|].
      intros ->. subst started. simpl. by rewrite pop_snoc.
    + split; [done|]. split; [done|]. intros that Hthat. cbn zeta.
      split; [exact (endFunction_lookup endFunction_ w2 that Hthat)|].
      intros ->. subst started. simpl. by rewrite pop_snoc.
  - apply instrumentFunction_keepsStack.
  - intros. apply instrument_eq.
Qed.

(** ** The arguments of the Speedscope exporter *)

Lemma setProfile_fresh workerId profile workerProfiles :
  workerId ∉ map fst workerProfiles ->
  SpeedscopeProfile.setProfile workerId profile workerProfiles
  = workerProfiles ++ [(workerId, profile)].
Proof.
  induction workerProfiles as [|[k p] rest IH]; simpl; [done|].
  intros [Hne Hrest]%not_elem_of_cons.
  destruct (String.eqb_spec k workerId) as [->|_]; [done|]. by rewrite IH.
Qed.

Lemma group_nonempty workerData :
  NoDup (map fst (WorkerGroups.group workerData))
  /\ Forall (fun g => g.2 <> []) (WorkerGroups.group workerData)
  /\ (workerData <> [] -> WorkerGroups.group workerData <> []).
Proof.
  destruct (group_loop workerData [] []) as [Hnd Hgs]; [by split; [constructor|]|].
  simpl in Hnd, Hgs.
  change (fold_left _ workerData []) with (WorkerGroups.group workerData) in Hnd, Hgs.
  split; [done|]. split.
  - apply Forall_forall. intros [k arr] Hin. simpl.
    apply (groupOf_elem _ _ _ Hnd) in Hin. rewrite Hgs in Hin.
    destruct (filter _ workerData); [done|]. by injection Hin as <-.
  - intros Hne Hg. destruct workerData as [|d ds]; [done|].
    specialize (Hgs (groupKey d)). rewrite Hg in Hgs. simpl in Hgs.
    rewrite filter_cons, decide_True in Hgs by done. done.
Qed.

Lemma workerStep_loop startTime endTime gs : forall wps grs this (σ : heap),
  NoDup (map fst wps ++ map fst gs) ->
  Forall (fun g => g.2 <> []) gs ->
  exists locs this' (σ' : heap),
    fold_left (SpeedscopeProfile.workerStep startTime endTime) gs (wps, grs, this, σ)
    = (wps ++ map (fun g => (g.1, builderProfile g.2 startTime endTime g.1)) gs,
       grs ++ zip (map fst gs) locs, this', σ')
    /\ Forall2 (fun l g => (l ∉ dom σ)
                           /\ σ' !! l = Some (JS.sort Generator.byStartTime g.2)) locs gs
    /\ (forall l, l ∈ dom σ -> σ' !! l = σ !! l)
    /\ dom σ ⊆ dom σ'.
Proof.
  induction gs as [|[workerId data] gs IH]; intros wps grs this σ Hnd Hne.
  - exists [], this, σ. simpl. rewrite !app_nil_r. by repeat split.
  - apply Forall_cons in Hne as [Hdata Hne]. cbn [fold_left].
    destruct (alloc_spec σ data) as (Hfresh & Hget & Hold & Hdom).
    destruct (alloc σ data) as [l σ1] eqn:Ea. cbn [fst snd] in *.
    pose proof (builder_profile_eq this σ1 l startTime endTime workerId) as Hp.
    assert (Hl : l ∈ dom σ1).
    { inversion Ea; subst. apply elem_of_dom. rewrite lookup_insert_eq. by eexists. }
    destruct (builder_heap this σ1 l startTime endTime workerId Hl) as [Hframe Hdom'].
    assert (Hsorted :
      (Generator.generateFromSingleWorkerData this σ1 l startTime endTime workerId).2 !! l
      = Some (JS.sort Generator.byStartTime data)).
    { unfold Generator.generateFromSingleWorkerData. cbn [snd].
      by rewrite lookup_insert_eq, Hget. }
    assert (Hstep :
      SpeedscopeProfile.workerStep startTime endTime (wps, grs, this, σ) (workerId, data)
      = (wps ++ [(workerId, builderProfile data startTime endTime workerId)],
         grs ++ [(workerId, l)],
         (Generator.generateFromSingleWorkerData this σ1 l startTime endTime workerId).1.2,
         (Generator.generateFromSingleWorkerData this σ1 l startTime endTime workerId).2)).
    { unfold SpeedscopeProfile.workerStep. rewrite Ea.
      destruct (Generator.generateFromSingleWorkerData this σ1 l startTime endTime workerId)
        as [[profile this'] σ2]. cbn [fst snd] in *. rewrite Hget in Hp. subst profile.
      destruct (builderProfile_lengths data startTime endTime workerId) as [Hs _].
      replace (0 <? Z.of_nat (length (CPUProfile.samples
                                        (builderProfile data startTime endTime workerId))))
        with true
        by (symmetry; apply Z.ltb_lt; rewrite Hs; destruct data; [done|simpl; lia]).
      rewrite orb_true_r. rewrite setProfile_fresh; [done|].
      simpl in Hnd. apply NoDup_app in Hnd as (_ & Hdisj & _).
      intros Hin. apply (Hdisj _ Hin). left. }
    rewrite Hstep.
    destruct (Generator.generateFromSingleWorkerData this σ1 l startTime endTime workerId)
      as [[profile this'] σ2]. cbn [fst snd] in *.
    destruct (IH (wps ++ [(workerId, builderProfile data startTime endTime workerId)])
                 (grs ++ [(workerId, l)]) this' σ2)
      as (locs & this'' & σ' & Heq & Hlocs & Hfr & Hsub); [|done|].
    { rewrite map_app. simpl. by rewrite <- app_assoc. }
    exists (l :: locs), this'', σ'. split; [|split; [|split]].
    + rewrite Heq. simpl. by rewrite <- !app_assoc.
    + constructor.
      * split; [done|]. rewrite Hfr by (rewrite Hdom'; done). done.
      * eapply Forall2_impl; [exact Hlocs|]. simpl. intros l' g [Hl' Hg]. split; [|done].
        intros Hin. apply Hl'. rewrite Hdom'. by apply Hdom.
    + intros l0 Hl0. rewrite Hfr by (rewrite Hdom'; by apply Hdom).
      rewrite Hframe by (intros ->; done). by apply Hold.
    + intros l0 Hl0. apply Hsub. rewrite Hdom'. by apply Hdom.
Qed.

Lemma mainProfile_cases markedFunctions this (σ : heap) trace endTime :
  let instr := PerformanceMonitor.mainThreadInstrumentationData this in
  let start := PerformanceMonitor.startTime this in
  match SpeedscopeProfile.mainProfile markedFunctions this σ trace endTime with
  | Throw e =>
      Generator.generateFromTrace markedFunctions (PerformanceMonitor.generator this)
        trace start endTime "Main Thread" = Throw e
  | Ok (main, g, σ', instr') =>
      instr' = JS.sort Generator.byStartTime instr
      /\ (main = None <-> trace = None /\ instr = [])
      /\ (forall p, main = Some p ->
            wellIndexed p
            /\ length (CPUProfile.samples p) = length (CPUProfile.timeDeltas p))
      /\ (trace = None -> instr <> [] ->
          main = Some (builderProfile instr start endTime "web-main"))
      /\ (forall l, l ∈ dom σ -> σ' !! l = σ !! l)
      /\ dom σ ⊆ dom σ'
  end.
Proof.
  intros instr start. unfold SpeedscopeProfile.mainProfile. fold instr start.
  assert (Hinstr : forall (main0 : option CPUProfile.t) g0,
    (forall p, main0 = Some p ->
       wellIndexed p /\ length (CPUProfile.samples p) = length (CPUProfile.timeDeltas p)) ->
    (main0 = None <-> trace = None) ->
    match
      match instr with
      | [] => Ok (main0, g0, σ, [])
      | d :: ds =>
          let '(l, σ1) := alloc σ (d :: ds) in
          let '(instrumentationProfile, g', σ2) :=
            Generator.generateFromSingleWorkerData g0 σ1 l start endTime "web-main" in
          match main0 with
          | Some main =>
              JS.bind (Merge.mergeProfiles [main; instrumentationProfile])
                (fun merged => Ok (Some merged, g', σ2, σ2 !!! l))
          | None => Ok (Some instrumentationProfile, g', σ2, σ2 !!! l)
          end
      end
    with
    | Throw e => False
    | Ok (main, g, σ', instr') =>
        instr' = JS.sort Generator.byStartTime instr
        /\ (main = None <-> trace = None /\ instr = [])
        /\ (forall p, main = Some p ->
              wellIndexed p
              /\ length (CPUProfile.samples p) = length (CPUProfile.timeDeltas p))
        /\ (trace = None -> instr <> [] ->
            main = Some (builderProfile instr start endTime "web-main"))
        /\ (forall l, l ∈ dom σ -> σ' !! l = σ !! l)
        /\ dom σ ⊆ dom σ'
    end).
  { intros main0 g0 Hwf Hnone. destruct instr as [|d ds] eqn:Ei.
    - split; [done|]. split; [rewrite Hnone; tauto|]. split; [exact Hwf|].
      split; [done|]. done.
    - rewrite <- Ei.
      destruct (alloc_spec σ instr) as (Hfresh & Hget & Hold & Hdom).
      destruct (alloc σ instr) as [l σ1] eqn:Ea. cbn [fst snd] in *.
      pose proof (builder_profile_eq g0 σ1 l start endTime "web-main") as Hp.
      assert (Hl : l ∈ dom σ1).
      { inversion Ea; subst. apply elem_of_dom. rewrite lookup_insert_eq. by eexists. }
      destruct (builder_heap g0 σ1 l start endTime "web-main" Hl) as [Hframe Hdom'].
      assert (Hsorted :
        (Generator.generateFromSingleWorkerData g0 σ1 l start endTime "web-main").2 !!! l
        = JS.sort Generator.byStartTime instr).
      { unfold Generator.generateFromSingleWorkerData. cbn [snd].
        by rewrite lookup_total_insert_eq, Hget. }
      destruct (Generator.generateFromSingleWorkerData g0 σ1 l start endTime "web-main")
        as [[ip g1] σ2]. cbn [fst snd] in *. rewrite Hget in Hp. subst ip.
      assert (Hfr : forall l0, l0 ∈ dom σ -> σ2 !! l0 = σ !! l0).
      { intros l0 Hl0. rewrite Hframe by (intros ->; done). by apply Hold. }
      assert (Hsub : dom σ ⊆ dom σ2) by (rewrite Hdom'; done).
      assert (Hbw : wellIndexed (builderProfile instr start endTime "web-main")
                    /\ length (CPUProfile.samples
                                 (builderProfile instr start endTime "web-main"))
                       = length (CPUProfile.timeDeltas
                                   (builderProfile instr start endTime "web-main"))).
      { split; [apply builderProfile_wellIndexed|].
        destruct (builderProfile_lengths instr start endTime "web-main") as [-> ->]. done. }
      destruct main0 as [main|].
      + destruct (mergeProfiles_Ok main [builderProfile instr start endTime "web-main"])
          as (m & Hm & _). rewrite Hm. cbn [JS.bind].
        split; [done|]. split; [split; [done|intros [_ ?]; congruence]|].
        split.
        { intros p [= <-]. destruct (mergeProfiles_lengths _ _ Hm) as [L1 L2].
          split; [|by rewrite L1, L2].
          eapply mergeProfiles_wellIndexed; [|exact Hm].
          repeat apply Forall_cons_2; [by apply Hwf|by apply Hbw|constructor]. }
        split; [|done]. intros Ht. apply Hnone in Ht. done.
      + split; [done|]. split; [split; [done|intros [_ ?]; congruence]|].
        split; [by intros p [= <-]|]. done. }
  destruct trace as [tr|].
  - destruct (Generator.generateFromTrace markedFunctions (PerformanceMonitor.generator this)
                (Some tr) start endTime "Main Thread") as [[p g]|e] eqn:Et; cbn [JS.bind];
      [|done].
    specialize (Hinstr (Some p) g).
    match type of Hinstr with
    | _ -> _ -> match ?x with _ => _ end =>
        destruct x as [[[[main g'] σ'] instr']|e]
    end.
    + apply Hinstr; [|done]. intros p' [= <-].
      split; [by eapply trace_profile_dense|by eapply trace_profile_aligned].
    + exfalso. apply Hinstr; [|done]. intros p' [= <-].
      split; [by eapply trace_profile_dense|by eapply trace_profile_aligned].
  - cbn [JS.bind]. specialize (Hinstr None (PerformanceMonitor.generator this)).
    match type of Hinstr with
    | _ -> _ -> match ?x with _ => _ end =>
        destruct x as [[[[main g'] σ'] instr']|e]
    end.
    + apply Hinstr; done.
    + exfalso. apply Hinstr; done.
Qed.

(** X26: what [generateSpeedscopeProfile] passes to the exporter.  The call
    is rejected only with the error of the trace builder, and resolves to
    [null] only without a trace, instrumentation records and worker records.
    Otherwise the exporter gets the monitor's start time as time base; a
    main-thread profile unless there is neither a trace nor instrumentation
    records, with dense node ids, samples in range and one time delta per
    sample; and for every worker of the records, in order of first
    occurrence, the profile built of its records together with the group of
    these records under the same key, so that the exporter has the records of
    every worker it gets a profile of.  The arrays of the groups are new
    objects, sorted by start time when the exporter reads them; the monitor's
    array of instrumentation records is left sorted by start time, its worker
    records are untouched, and so is every array the caller had. *)
Theorem generateSpeedscopeProfile_arguments markedFunctions this (σ : heap) now :
  let trace := (MainThreadProfiler.stop (PerformanceMonitor.profiler this)).1 in
  let instr := PerformanceMonitor.mainThreadInstrumentationData this in
  let workers := PerformanceMonitor.workerPerformanceData this in
  let start := PerformanceMonitor.startTime this in
  match SpeedscopeProfile.arguments markedFunctions this σ now with
  | Throw e =>
      Generator.generateFromTrace markedFunctions (PerformanceMonitor.generator this)
        trace start now "Main Thread" = Throw e
  | Ok (None, this', σ') => trace = None /\ instr = [] /\ workers = []
  | Ok (Some args, this', σ') =>
      SpeedscopeProfile.baseStartTime args = start
      /\ (SpeedscopeProfile.mainThreadProfile args = None <-> trace = None /\ instr = [])
      /\ (forall p, SpeedscopeProfile.mainThreadProfile args = Some p ->
            wellIndexed p
            /\ length (CPUProfile.samples p) = length (CPUProfile.timeDeltas p))
      /\ (trace = None -> instr <> [] ->
          SpeedscopeProfile.mainThreadProfile args
          = Some (builderProfile instr start now "web-main"))
      /\ SpeedscopeProfile.workerProfiles args
         = map (fun g => (g.1, builderProfile g.2 start now g.1)) (WorkerGroups.group workers)
      /\ map fst (SpeedscopeProfile.workerGroups args)
         = map fst (SpeedscopeProfile.workerProfiles args)
      /\ Forall2
           (fun gl g =>
              gl.1 = g.1 /\ (gl.2 ∉ dom σ)
              /\ σ' !! gl.2 = Some (JS.sort Generator.byStartTime g.2))
           (SpeedscopeProfile.workerGroups args) (WorkerGroups.group workers)
      /\ PerformanceMonitor.mainThreadInstrumentationData this'
         = JS.sort Generator.byStartTime instr
      /\ PerformanceMonitor.workerPerformanceData this' = workers
      /\ (forall l, l ∈ dom σ -> σ' !! l = σ !! l)
  end.
Proof.
  intros trace instr workers start. unfold SpeedscopeProfile.arguments.
  destruct (MainThreadProfiler.stop (PerformanceMonitor.profiler this)) as [tr profiler'] eqn:Es.
  cbn [fst] in trace. subst trace.
  pose proof (mainProfile_cases markedFunctions this σ tr now) as Hmain. cbn zeta in Hmain.
  fold instr start in Hmain.
  destruct (SpeedscopeProfile.mainProfile markedFunctions this σ tr now)
    as [[[[main g] σ1] instr']|e]; cbn [JS.bind]; [|exact Hmain].
  destruct Hmain as (Hi & Hnone & Hwf & Hb & Hfr1 & Hsub1).
  destruct (group_nonempty workers) as (Hnd & Hne & Hgne).
  fold workers start.
  destruct (workerStep_loop start now (WorkerGroups.group workers) [] [] g σ1)
    as (locs & g' & σ' & Heq & Hlocs & Hfr & Hsub); [done|done|].
  rewrite Heq. cbn [app].
  assert (Hframe : forall l, l ∈ dom σ -> σ' !! l = σ !! l).
  { intros l Hl. rewrite Hfr by (by apply Hsub1). by apply Hfr1. }
  assert (Hkeys : map fst (zip (map fst (WorkerGroups.group workers)) locs)
                  = map fst (map (fun g0 => (g0.1, builderProfile g0.2 start now g0.1))
                                 (WorkerGroups.group workers))).
  { rewrite map_map. simpl. apply Forall2_length in Hlocs.
    rewrite fst_zip; [done|]. rewrite length_map. lia. }
  assert (Hgroups : Forall2
            (fun gl g0 =>
               gl.1 = g0.1 /\ (gl.2 ∉ dom σ)
               /\ σ' !! gl.2 = Some (JS.sort Generator.byStartTime g0.2))
            (zip (map fst (WorkerGroups.group workers)) locs) (WorkerGroups.group workers)).
  { clear -Hlocs Hsub1. induction Hlocs as [|l g0 locs gs [Hl Hs] _ IH]; simpl; constructor.
    - simpl. split; [done|]. split; [|done]. intros Hin. apply Hl. by apply Hsub1.
    - exact IH. }
  assert (Hargs :
    SpeedscopeProfile.baseStartTime
      (SpeedscopeProfile.mkArguments main
         (map (fun g0 => (g0.1, builderProfile g0.2 start now g0.1))
              (WorkerGroups.group workers))
         (zip (map fst (WorkerGroups.group workers)) locs) start) = start
    /\ (main = None <-> tr = None /\ instr = [])
    /\ (forall p, main = Some p ->
          wellIndexed p /\ length (CPUProfile.samples p) = length (CPUProfile.timeDeltas p))
    /\ (tr = None -> instr <> [] -> main = Some (builderProfile instr start now "web-main"))
    /\ map (fun g0 => (g0.1, builderProfile g0.2 start now g0.1)) (WorkerGroups.group workers)
       = map (fun g0 => (g0.1, builderProfile g0.2 start now g0.1)) (WorkerGroups.group workers)
    /\ map fst (zip (map fst (WorkerGroups.group workers)) locs)
       = map fst (map (fun g0 => (g0.1, builderProfile g0.2 start now g0.1))
                      (WorkerGroups.group workers))
    /\ Forall2
         (fun gl g0 =>
            gl.1 = g0.1 /\ (gl.2 ∉ dom σ)
            /\ σ' !! gl.2 = Some (JS.sort Generator.byStartTime g0.2))
         (zip (map fst (WorkerGroups.group workers)) locs) (WorkerGroups.group workers)
    /\ instr' = JS.sort Generator.byStartTime instr
    /\ workers = workers
    /\ (forall l, l ∈ dom σ -> σ' !! l = σ !! l)) by done.
  destruct main as [p|].
  - exact Hargs.
  - destruct (WorkerGroups.group workers) as [|g0 gs] eqn:Eg.
    + simpl. split; [by apply Hnone|]. split; [by apply Hnone|].
      destruct workers as [|d ds]; [done|]. by destruct Hgne.
    + exact Hargs.
Qed.
